(* ===== verification/_CoqProject ===== *)
-Q . S2P
Prelude.v
Bytes.v
Memory.v
Riscv.v
Data.v
State.v
Spinlock.v
Csr.v
Kalloc.v
KallocProps.v
Vm.v
VmFacts.v
VmOps.v
VmUser.v
VmFree.v
VmCopy.v
VmProps.v
Table.v
Mlfq.v
MlfqFacts.v
MlfqSys.v
MlfqProps.v
Uart.v
Proc.v
BootVm.v
Sleeplock.v
Bio.v
Virtio.v
Log.v
Fs.v
Console.v
File.v
PipeProps.v
Exec.v
Process.v
Syscall.v
Trap.v
TrapFacts.v
BootFacts.v
Calm.v
BioFacts.v
VirtioFacts.v
DiskProps.v
LogFacts.v
LogCrash.v
LogOps.v
FsFacts.v
LogProps.v
FsProps.v
Hoare.v
Wellformed.v
WellformedKernel.v
WellformedIo.v
WellformedFs.v
WellformedSys.v
WellformedProps.v
User.v
Ulib.v
UserFacts.v
Grep.v
Utils.v
Umalloc.v
Sched.v
Monitor.v
Sh.v
Mkfs.v
MlfqTest.v
GrepProps.v
UserProps.v
UmallocFacts.v
UmallocProps.v
TestProps.v
ShGrammar.v
ShFacts.v
ShParse.v
ShProps.v
MkfsFacts.v
MkfsFiles.v
MkfsImage.v
MkfsProps.v
