(* ===== verification/Prelude.v ===== *)
(** * xv6 with a multi-level feedback queue scheduler: verification library

    The sources are a RISC-V kernel derived from xv6 ([src/kernel]) whose scheduler
    is a multi-level feedback queue (MLFQ), the programs that run on it
    ([src/user]), and the program that makes the image of its file system
    ([src/mkfs]).  All C code of the three that is part of the build is translated
    into definitions of the same names; the theorems are about those definitions.

    ** How code is modelled

    Kernel functions are values of the monad [K] of [State]: they run on one hart on
    the record [kstate] of the global variables, and return ([Ok]), panic, spin on a
    lock that another hart holds, commit an undefined access ([Fault]), or give up
    the CPU ([Away]).  A schedule says what the rest of the machine does at each
    context switch; the theorems hold for all schedules, or for those that their
    statements name.  [returns m s a s'] says that [m] run from [s] returns [a] in [s']
    whatever the schedule is; [wp] says that code that sleeps returns after finitely
    many switches, for every sequence of steps of the system in the class [Env]; [triple]
    and [gives] ([Hoare]) are for invariants at every switch and return, and [completes]
    ([BootFacts]) is for the start of the machine.
    Integers are [Z], with the conversions [u8], [u32], [u64], [i32] where C has
    them.  Pages are bytes of [k_mem]; global structures are records; a pointer to
    an entry of a table is its index.

    User programs are values of the monad [U] of [User], over any world that serves
    the system calls (class [Os]); mkfs has a monad [M] of its own over the image.

    ** Parts, files and sources

    - [Bytes], [Memory]: byte arrays, physical memory, [kernel/string.c].
    - [Riscv], [Csr], [Data], [State]: [kernel/riscv.h], [kernel/memlayout.h], [kernel/param.h]
      and the structures of the other headers; the global variables.
    - [Spinlock], [Sleeplock]: [kernel/spinlock.c], [kernel/sleeplock.c].
    - [Kalloc], [Vm]: [kernel/kalloc.c], [kernel/vm.c].
    - [Table], [Mlfq], [Proc], [Process]: [kernel/proc.c], the scheduler, the process table,
      and the functions of it that use files.
    - [Uart], [Console]: [kernel/uart.c], [kernel/printf.c], [kernel/console.c].
    - [Bio], [Virtio], [Log], [Fs], [File], [Exec]: the buffer cache, the disk driver, the log,
      the file system, files and pipes, [kernel/exec.c].
    - [Syscall], [Trap]: [kernel/syscall.c], [kernel/sysproc.c], [kernel/sysfile.c];
      [kernel/trap.c], [kernel/plic.c], [kernel/main.c], [kernel/start.c].
    - [User], [Ulib], [Umalloc]: [user/usys.pl], [user/ulib.c], [user/printf.c], [user/umalloc.c].
    - [Grep], [Utils], [Sched], [Monitor], [Sh], [MlfqTest]: the user programs.
    - [Mkfs]: [mkfs/mkfs.c].

    A trap ([Trap]) runs the handler of a system call ([Syscall]) or of an interrupt; those
    call the files ([File]), which use the file system ([Fs]) inside transactions
    of the log ([Log]), whose blocks are buffers of the cache ([Bio]), which calls the
    driver ([Virtio]) through the interface [Disk].  The driver sleeps and is woken
    by its interrupt through the scheduler ([Mlfq]).  The timer path of the traps
    charges ticks and calls [yield].

    ** What the theorems show

    - [MlfqProps] (lemmas in [MlfqFacts], [MlfqSys]): the scheduler picks the best runnable
      process; demotion, boost, sleep and wakeup, [kill] and [setprocpriority] have
      exactly their effect; every runnable process gets a turn after a boost; in
      the lowest queue the processes do not take turns.  A waker on another hart that
      tries to run after each lock operation of [sleep] cannot lose its wakeup
      ([sleep_with] is the body of [sleep], over the lock operations).  The rounds use
      [timer_trap], which [TrapFacts] shows to be what [usertrap] does at a timer interrupt.
    - [KallocProps], [VmProps] ([VmFacts], [VmOps], [VmUser], [VmFree], [VmCopy]): no page is handed
      out twice; the functions of [vm.c] against the Sv39 walk of the hardware, and no
      page is lost on any path, out of memory included; copies to and from the user.
    - [DiskProps] ([Calm], [BioFacts], [VirtioFacts]): a disk request completes, also when the
      process is woken too early, and the cache refines a map of blocks.  [BioFacts] has the class [DiskOk] of what the cache
      needs of a driver; [VirtioFacts] shows that the driver has it.
    - [LogProps] ([LogFacts], [LogCrash], [LogOps]): transactions are atomic under a crash at any
      write, recovery is idempotent.
    - [FsProps] ([FsFacts]): the free map, inodes on disk, path names.
    - [PipeProps]: a pipe is a bounded queue, also when its counters overflow.
    - [WellformedProps] ([Hoare], [Wellformed], [WellformedKernel], [WellformedIo], [WellformedFs],
      [WellformedSys]): boot establishes, and traps, scheduler and first returns keep, the
      types and invariants of the global state.  [main] of hart 0 runs to its end
      ([BootVm], [BootFacts]): the kernel's mappings do not overlap and need at most 72 tables,
      and the first process is ready to run.
    - [ShProps] ([ShGrammar], [ShFacts], [ShParse]): the parser of the shell decides a grammar.
    - [UmallocProps] ([UmallocFacts]): blocks of the user allocator are disjoint; the overflow
      of a size.
    - [GrepProps], [UserProps], [TestProps] ([UserFacts]): the matcher of grep and its output, numbers
      in [printf] and [atoi], [wc], and the test suite on a system without processes.
    - [MkfsProps] ([MkfsFacts], [MkfsFiles], [MkfsImage]): mkfs terminates, and the kernel reads back
      the image that it makes.

    ** Bounds

    A loop whose recursion is not structural takes fuel, which the definition
    computes from its data: the bytes left to copy, the pages of a range, the
    characters of a path, the entries of a table.  Each theorem that says that such
    code returns shows that the fuel is enough.  A loop that sleeps takes the length of
    the schedule ([sleep_loop]), since every turn consumes an element.  Loops
    of user programs take their bound from the monad, and [runs] and [exits] say that
    some bound is enough; the parser of the shell is shown to need four turns for
    each token.  The loop of mkfs takes the number of bytes.

    ** What is assumed

    Addresses that the linker assigns are the class [Image]; what the registers of the devices
    answer is [Device].  What the disk does with a chain of descriptors is the relation
    [served] of [VirtioFacts], after the virtio specification.  [disk_env] there says what
    happens while a process waits for its request: other processes run, but do not use
    the disk; the process may be made runnable before the request is served, but not
    forever, and otherwise it is resumed after the disk has served it and its interrupt was
    handled.  Start-up assumes the layout of [kernel.ld] and 160 free pages ([ImageFits] of
    [BootVm]), and a disk that identifies itself at [VIRTIO0] ([DiskPresent] of [BootFacts]).
    The examples that apply the theorems have an instance of each of the classes.  An update of a lock or of a table entry is atomic, and memory is
    sequentially consistent.  Writes of mkfs to the image do not fail, on a
    little-endian host, and the shell has memory for its commands.

    ** Not modelled

    The assembly ([entry.S], [kernelvec.S], [trampoline.S], [swtch.S], [initcode.S]) and the link
    scripts: saving and restoring of registers is below the model, in which a
    switch or a trap is one step.  [kernel/defs.h] has prototypes only.
    [kernel/ramdisk.c] is not part of the build, and uses names that the sources no
    longer define.  Code of other harts and processes appears as the steps of a
    schedule, not as an interleaving of instructions. *)

From Stdlib Require Export ZArith Lia.
From stdpp Require Export base numbers list gmap strings functions tactics.

Declare Scope kernel_scope.
Delimit Scope kernel_scope with kern.

(** ** Machine integers

    C integers are kept as [Z].  [u8], [u32] and [u64] reduce to the range of an
    unsigned type; [i32] is the conversion to a two's complement [int]. *)

Definition u8 (z : Z) : Z := (z mod 2 ^ 8)%Z.
Definition u16 (z : Z) : Z := (z mod 2 ^ 16)%Z.
Definition u32 (z : Z) : Z := (z mod 2 ^ 32)%Z.
Definition u64 (z : Z) : Z := (z mod 2 ^ 64)%Z.
Definition i16 (z : Z) : Z := ((z + 2 ^ 15) mod 2 ^ 16 - 2 ^ 15)%Z.
Definition i32 (z : Z) : Z := ((z + 2 ^ 31) mod 2 ^ 32 - 2 ^ 31)%Z.

Definition is_u8 (z : Z) : Prop := (0 ≤ z < 2 ^ 8)%Z.
Definition is_u32 (z : Z) : Prop := (0 ≤ z < 2 ^ 32)%Z.
Definition is_u64 (z : Z) : Prop := (0 ≤ z < 2 ^ 64)%Z.
Definition is_i32 (z : Z) : Prop := (- 2 ^ 31 ≤ z < 2 ^ 31)%Z.

Lemma u8_small z : is_u8 z → u8 z = z.
Proof. apply Z.mod_small. Qed.
Lemma u32_small z : is_u32 z → u32 z = z.
Proof. apply Z.mod_small. Qed.
Lemma u64_small z : is_u64 z → u64 z = z.
Proof. apply Z.mod_small. Qed.
Lemma i32_small z : is_i32 z → i32 z = z.
Proof. unfold is_i32, i32. intros. rewrite Z.mod_small; lia. Qed.

Lemma u8_range z : is_u8 (u8 z).
Proof. apply Z.mod_pos_bound. lia. Qed.
Lemma u32_range z : is_u32 (u32 z).
Proof. apply Z.mod_pos_bound. lia. Qed.
Lemma u64_range z : is_u64 (u64 z).
Proof. apply Z.mod_pos_bound. lia. Qed.
Lemma i32_range z : is_i32 (i32 z).
Proof.
  unfold is_i32, i32.
  pose proof (Z.mod_pos_bound (z + 2 ^ 31) (2 ^ 32) ltac:(lia)). lia.
Qed.

Create HintDb ints discriminated.
#[export] Hint Resolve u8_range u32_range u64_range i32_range : ints.

(** Arithmetic with division and remainder by constants. *)
Ltac zdiv := Z.to_euclidean_division_equations; lia.

(** ** Lists updated in place *)

Section list_alter.
Context {A : Type}.
Implicit Types (l : list A) (f g : A → A).

Lemma list_alter_alter f g i l : alter f i (alter g i l) = alter (f ∘ g) i l.
Proof.
  apply list_eq. intros j. rewrite !list_lookup_alter. case_decide; [|done].
  rewrite decide_True by done. subst. by destruct (l !! j).
Qed.

Lemma list_alter_cong f g i l x :
  l !! i = Some x → f x = g x → alter f i l = alter g i l.
Proof.
  intros Hx Hfg. apply list_eq. intros j. rewrite !list_lookup_alter.
  case_decide; [|done]. subst. rewrite Hx. simpl. by rewrite Hfg.
Qed.

Lemma list_alter_same f i l x : l !! i = Some x → f x = x → alter f i l = l.
Proof.
  intros Hx Hf. apply list_eq. intros j. rewrite !list_lookup_alter.
  case_decide; [|done]. subst. rewrite Hx. simpl. by rewrite Hf.
Qed.
End list_alter.
