(* ===== verification/Bytes.v ===== *)
(** * Arrays of bytes

    C objects that are not pages of memory (structures on the stack, disk blocks,
    strings) are lists of bytes: their little-endian integer fields, slices, and
    the copy of bytes into part of them. *)

From S2P Require Import Prelude.

Local Open Scope Z_scope.

(** The bytes of a string literal, without the final NUL. *)
Definition bytes (s : string) : list Z :=
  map (λ a, Z.of_N (Ascii.N_of_ascii a)) (String.list_ascii_of_string s).

(** The first character of a literal, as a character constant. *)
Definition chr (s : string) : Z := default 0 (head (bytes s)).

(** The bytes of a C string: up to the NUL. *)
Fixpoint cstr (l : list Z) : list Z :=
  match l with
  | [] => []
  | c :: l' => if c =? 0 then [] else c :: cstr l'
  end.

(** ** Little-endian integers *)

Fixpoint le (n : nat) (v : Z) : list Z :=
  match n with
  | O => []
  | S n' => v mod 256 :: le n' (v / 256)
  end.

Fixpoint of_le (l : list Z) : Z :=
  match l with
  | [] => 0
  | c :: l' => c + 256 * of_le l'
  end.

(** ** Parts of an array *)

Definition slice (l : list Z) (off : Z) (n : nat) : list Z :=
  take n (drop (Z.to_nat off) l).

(** [memmove(l + off, x, length x)] *)
Definition splice (l : list Z) (off : Z) (x : list Z) : list Z :=
  take (Z.to_nat off) l ++ x ++ drop (Z.to_nat off + length x) l.

(** Integer fields of [n] bytes at [off]. *)
Definition get_le (n : nat) (l : list Z) (off : Z) : Z := of_le (slice l off n).
Definition put_le (n : nat) (l : list Z) (off v : Z) : list Z := splice l off (le n v).

Definition get16 : list Z → Z → Z := get_le 2.
Definition put16 : list Z → Z → Z → list Z := put_le 2.
Definition get32 : list Z → Z → Z := get_le 4.
Definition put32 : list Z → Z → Z → list Z := put_le 4.
Definition get64 : list Z → Z → Z := get_le 8.

(** ** Laws *)

Lemma le_length n v : length (le n v) = n.
Proof. revert v. induction n as [|n IH]; intros v; simpl; [done|]. by rewrite IH. Qed.

Lemma of_le_le n v : 0 ≤ v < 256 ^ Z.of_nat n → of_le (le n v) = v.
Proof.
  revert v. induction n as [|n IH]; intros v Hv; cbn [le of_le].
  - change (256 ^ Z.of_nat 0) with 1 in Hv. lia.
  - rewrite IH; [pose proof (Z.div_mod v 256); lia|].
    rewrite Nat2Z.inj_succ, Z.pow_succ_r in Hv by lia.
    split; [apply Z.div_pos; lia|]. apply Z.div_lt_upper_bound; lia.
Qed.

Lemma le_of_le l : Forall is_u8 l → le (length l) (of_le l) = l.
Proof.
  induction 1 as [|c l Hc Hl IH]; cbn [length le of_le]; [done|].
  unfold is_u8 in Hc. f_equal.
  - rewrite (Z.mul_comm 256), Z.mod_add by lia. apply Z.mod_small. lia.
  - rewrite (Z.mul_comm 256), Z.div_add, Z.div_small by lia. apply IH.
Qed.

Lemma of_le_range l : Forall is_u8 l → 0 ≤ of_le l < 256 ^ Z.of_nat (length l).
Proof.
  induction 1 as [|c l Hc Hl IH]; cbn [length of_le].
  - done.
  - rewrite Nat2Z.inj_succ, Z.pow_succ_r by lia. unfold is_u8 in Hc. lia.
Qed.

Lemma le_bytes n v : Forall is_u8 (le n v).
Proof.
  revert v. induction n as [|n IH]; intros v; simpl; constructor; [|done].
  apply Z.mod_pos_bound. lia.
Qed.

Lemma splice_length l off x :
  (Z.to_nat off + length x ≤ length l)%nat → length (splice l off x) = length l.
Proof. intros H. unfold splice. rewrite !length_app, length_take, length_drop. lia. Qed.

Lemma slice_length l off n :
  (Z.to_nat off + n ≤ length l)%nat → length (slice l off n) = n.
Proof. intros H. unfold slice. rewrite length_take, length_drop. lia. Qed.

Lemma slice_splice_eq l off x n :
  (Z.to_nat off + length x ≤ length l)%nat → n = length x → slice (splice l off x) off n = x.
Proof.
  intros H ->. unfold slice, splice.
  rewrite drop_app_ge by (rewrite length_take; lia).
  rewrite length_take, Nat.min_l, Nat.sub_diag by lia.
  rewrite drop_0. apply take_app_length.
Qed.

Lemma slice_splice_before l off off' x n :
  (Z.to_nat off' + n ≤ Z.to_nat off)%nat → (Z.to_nat off ≤ length l)%nat →
  slice (splice l off x) off' n = slice l off' n.
Proof.
  intros H1 H2. unfold slice, splice.
  rewrite drop_app_le by (rewrite length_take; lia).
  rewrite take_app_le by (rewrite length_drop, length_take; lia).
  rewrite skipn_firstn_comm, take_take. f_equal. lia.
Qed.

Lemma slice_splice_after l off off' x n :
  (Z.to_nat off + length x ≤ Z.to_nat off')%nat → (Z.to_nat off + length x ≤ length l)%nat →
  slice (splice l off x) off' n = slice l off' n.
Proof.
  intros H1 H2. unfold slice, splice. f_equal.
  rewrite drop_app_ge by (rewrite length_take; lia).
  rewrite length_take, Nat.min_l by lia.
  rewrite drop_app_ge by lia. rewrite drop_drop. f_equal. lia.
Qed.

(** Disjoint parts: a slice outside of the bytes written. *)
Lemma slice_splice_ne l off off' x n :
  (Z.to_nat off + length x ≤ length l)%nat →
  (Z.to_nat off' + n ≤ Z.to_nat off ∨ Z.to_nat off + length x ≤ Z.to_nat off')%nat →
  slice (splice l off x) off' n = slice l off' n.
Proof.
  intros Hl [H|H]; [apply slice_splice_before; lia|apply slice_splice_after; lia].
Qed.

(** A slice inside of the bytes written. *)
Lemma slice_splice_in l x off n :
  0 ≤ off → (Z.to_nat off + n ≤ length x)%nat → slice (splice l 0 x) off n = slice x off n.
Proof.
  intros Ho H. unfold slice, splice. change (Z.to_nat 0) with 0%nat. simpl.
  rewrite drop_app_le by lia. rewrite take_app_le; [done|]. rewrite length_drop. lia.
Qed.

Lemma slice_app_l x y off n :
  (Z.to_nat off + n ≤ length x)%nat → slice (x ++ y) off n = slice x off n.
Proof.
  intros H. unfold slice. rewrite drop_app_le by lia. rewrite take_app_le; [done|].
  rewrite length_drop. lia.
Qed.

Lemma slice_app_r x y off n :
  0 ≤ off → slice (x ++ y) (Z.of_nat (length x) + off) n = slice y off n.
Proof.
  intros H. unfold slice. rewrite drop_app_ge by lia. do 2 f_equal. lia.
Qed.

Lemma slice_full x n : n = length x → slice x 0 n = x.
Proof. intros ->. unfold slice. rewrite drop_0. apply firstn_all. Qed.

(** The [i]-th integer of an array of [n]-byte integers. *)
Lemma slice_array n l i v :
  l !! i = Some v →
  slice (concat (map (le n) l)) (Z.of_nat n * Z.of_nat i) n = le n v.
Proof.
  revert i. induction l as [|x l IH]; intros i Hi; [by rewrite lookup_nil in Hi|].
  cbn [map concat]. destruct i as [|i]; simpl in Hi.
  - simplify_eq. replace (Z.of_nat n * Z.of_nat 0) with 0 by lia.
    rewrite slice_app_l by (rewrite le_length; lia). apply slice_full. by rewrite le_length.
  - replace (Z.of_nat n * Z.of_nat (S i)) with
      (Z.of_nat (length (le n x)) + Z.of_nat n * Z.of_nat i) by (rewrite le_length; lia).
    rewrite slice_app_r by lia. by apply IH.
Qed.

Lemma get_put_eq n l off v :
  (Z.to_nat off + n ≤ length l)%nat → 0 ≤ v < 256 ^ Z.of_nat n →
  get_le n (put_le n l off v) off = v.
Proof.
  intros Hl Hv. unfold get_le, put_le.
  rewrite slice_splice_eq by (rewrite ?le_length; lia). by apply of_le_le.
Qed.

Lemma get_put_ne n n' l off off' v :
  (Z.to_nat off + n ≤ length l)%nat →
  (Z.to_nat off' + n' ≤ Z.to_nat off ∨ Z.to_nat off + n ≤ Z.to_nat off')%nat →
  get_le n' (put_le n l off v) off' = get_le n' l off'.
Proof.
  intros Hl H. unfold get_le, put_le. f_equal.
  apply slice_splice_ne; rewrite ?le_length; lia.
Qed.

Lemma put_length n l off v :
  (Z.to_nat off + n ≤ length l)%nat → length (put_le n l off v) = length l.
Proof. intros H. apply splice_length. rewrite le_length. lia. Qed.

Lemma cstr_no_nul l : 0 ∉ l → cstr l = l.
Proof.
  induction l as [|c l IH]; intros H; simpl; [done|].
  rewrite not_elem_of_cons in H. destruct H as [Hc Hl].
  rewrite (proj2 (Z.eqb_neq c 0)) by lia. by rewrite IH.
Qed.

Lemma cstr_app l r : 0 ∉ l → cstr (l ++ 0 :: r) = l.
Proof.
  induction l as [|c l IH]; intros H; simpl; [done|].
  rewrite not_elem_of_cons in H. destruct H as [Hc Hl].
  rewrite (proj2 (Z.eqb_neq c 0)) by lia. by rewrite IH.
Qed.
