(* ===== verification/Memory.v ===== *)
(** * Physical memory and [kernel/string.c]

    Byte-addressed memory with little-endian words, and the functions of
    [kernel/string.c].  [memset], [memmove] and [memcmp] work on memory through
    addresses.  The string functions work on the buffers that the kernel passes
    to them, given as byte lists: an access outside the buffer is [None]. *)

From S2P Require Import Prelude Bytes.

Local Open Scope Z_scope.

Abbreviation mem := (gmap Z Z).

(** ** Bytes and words *)

Definition byte_at (m : mem) (a : Z) : Z := default 0 (m !! a).

Fixpoint load_le (n : nat) (m : mem) (a : Z) : Z :=
  match n with
  | O => 0
  | S n' => byte_at m a + 2 ^ 8 * load_le n' m (a + 1)
  end.

Fixpoint store_le (n : nat) (m : mem) (a v : Z) : mem :=
  match n with
  | O => m
  | S n' => store_le n' (<[a := u8 v]> m) (a + 1) (v / 2 ^ 8)
  end.

Definition load64 : mem → Z → Z := load_le 8.
Definition store64 : mem → Z → Z → mem := store_le 8.

(** ** [memset], [memmove], [memcmp] *)

(** [for(i = 0; i < n; i++) cdst[i] = c;] *)
Fixpoint memset (m : mem) (dst c : Z) (n : nat) : mem :=
  match n with
  | O => m
  | S n' => memset (<[dst := u8 c]> m) (dst + 1) c n'
  end.

(** [while(n-- > 0) *d++ = *s++;] *)
Fixpoint copy_up (m : mem) (d s : Z) (n : nat) : mem :=
  match n with
  | O => m
  | S n' => copy_up (<[d := byte_at m s]> m) (d + 1) (s + 1) n'
  end.

(** [s += n; d += n; while(n-- > 0) *--d = *--s;] *)
Fixpoint copy_down (m : mem) (d s : Z) (n : nat) : mem :=
  match n with
  | O => m
  | S n' => copy_down (<[d + Z.of_nat n' := byte_at m (s + Z.of_nat n')]> m) d s n'
  end.

Definition memmove (m : mem) (dst src : Z) (n : nat) : mem :=
  if (n =? 0)%nat then m else
  if (src <? dst) && (dst <? src + Z.of_nat n)
  then copy_down m dst src n
  else copy_up m dst src n.

Definition memcpy (m : mem) (dst src : Z) (n : nat) : mem := memmove m dst src n.

Fixpoint memcmp (m : mem) (s1 s2 : Z) (n : nat) : Z :=
  match n with
  | O => 0
  | S n' =>
      if negb (byte_at m s1 =? byte_at m s2) then byte_at m s1 - byte_at m s2
      else memcmp m (s1 + 1) (s2 + 1) n'
  end.

(** ** String functions on buffers *)

Fixpoint strncmp (p q : list Z) (n : nat) {struct n} : option Z :=
  match n with
  | O => Some 0
  | S n' =>
      match p, q with
      | c :: p', d :: q' =>
          if negb (c =? 0) && (c =? d) then strncmp p' q' n' else Some (c - d)
      | _, _ => None
      end
  end.

(** [while(n-- > 0) *s++ = 0;] *)
Fixpoint pad (s : list Z) (n : nat) {struct n} : option (list Z) :=
  match n, s with
  | O, _ => Some s
  | S n', _ :: s' => cons 0 <$> pad s' n'
  | S _, [] => None
  end.

(** The buffer [s] after [strncpy(s, t, n)]. *)
Fixpoint strncpy (s t : list Z) (n : nat) {struct n} : option (list Z) :=
  match n with
  | O => Some s
  | S n' =>
      match s, t with
      | _ :: s', c :: t' => cons c <$> if c =? 0 then pad s' n' else strncpy s' t' n'
      | _, _ => None
      end
  end.

(** The loop of [safestrcpy], with room for [n] more bytes before the final
    [*s = 0]; it stops after it has copied a NUL. *)
Fixpoint safestrcpy_loop (s t : list Z) (n : nat) {struct n} : option (list Z) :=
  match n with
  | O => match s with _ :: s' => Some (0 :: s') | [] => None end
  | S n' =>
      match s, t with
      | _ :: s', c :: t' =>
          if c =? 0
          then match s' with _ :: s'' => Some (c :: 0 :: s'') | [] => None end
          else cons c <$> safestrcpy_loop s' t' n'
      | _, _ => None
      end
  end.

(** The buffer [s] after [safestrcpy(s, t, n)]. *)
Definition safestrcpy (s t : list Z) (n : Z) : option (list Z) :=
  if n <=? 0 then Some s else safestrcpy_loop s t (Z.to_nat (n - 1)).

Fixpoint strlen (s : list Z) : option nat :=
  match s with
  | [] => None
  | c :: s' => if c =? 0 then Some O else S <$> strlen s'
  end.

(** ** Bytes and words: laws *)

Lemma byte_at_insert_eq m a v : byte_at (<[a := v]> m) a = v.
Proof. unfold byte_at. by rewrite lookup_insert_eq. Qed.
Lemma byte_at_insert_ne m a b v : a ≠ b → byte_at (<[a := v]> m) b = byte_at m b.
Proof. intros. unfold byte_at. by rewrite lookup_insert_ne. Qed.

Lemma load_le_ext n m m' a :
  (∀ b, a ≤ b < a + Z.of_nat n → byte_at m b = byte_at m' b) → load_le n m a = load_le n m' a.
Proof.
  revert a. induction n as [|n IH]; intros a H; cbn [load_le]; [done|].
  rewrite (H a) by lia. f_equal. f_equal. apply IH. intros b Hb. apply H. lia.
Qed.

Lemma byte_at_store_le n m a v b :
  ¬ (a ≤ b < a + Z.of_nat n) → byte_at (store_le n m a v) b = byte_at m b.
Proof.
  revert m a v. induction n as [|n IH]; intros m a v H; cbn [store_le]; [done|].
  rewrite IH by lia. apply byte_at_insert_ne. lia.
Qed.

Lemma load_store_le n m a v : load_le n (store_le n m a v) a = v mod 2 ^ (8 * Z.of_nat n).
Proof.
  revert m a v. induction n as [|n IH]; intros m a v; cbn [load_le store_le].
  - by rewrite Z.mod_1_r.
  - rewrite IH, byte_at_store_le, byte_at_insert_eq by lia. unfold u8.
    replace (8 * Z.of_nat (S n)) with (8 + 8 * Z.of_nat n) by lia.
    rewrite Z.pow_add_r, Z.rem_mul_r by lia. done.
Qed.

Lemma load64_ext m m' a :
  (∀ b, a ≤ b < a + 8 → byte_at m b = byte_at m' b) → load64 m a = load64 m' a.
Proof. intros H. apply load_le_ext. intros b Hb. apply H. lia. Qed.

Lemma byte_at_store64 m a v b :
  ¬ (a ≤ b < a + 8) → byte_at (store64 m a v) b = byte_at m b.
Proof. intros H. apply byte_at_store_le. lia. Qed.

Lemma load64_store64 m a v : is_u64 v → load64 (store64 m a v) a = v.
Proof. intros. unfold load64, store64. rewrite load_store_le. by apply Z.mod_small. Qed.

Lemma load64_store64_ne m a b v :
  a + 8 ≤ b ∨ b + 8 ≤ a → load64 (store64 m a v) b = load64 m b.
Proof.
  intros H. apply load64_ext. intros c Hc. apply byte_at_store64. lia.
Qed.

(** ** Memory functions: laws *)

Lemma byte_at_memset m dst c n a :
  byte_at (memset m dst c n) a =
  if decide (dst ≤ a < dst + Z.of_nat n) then u8 c else byte_at m a.
Proof.
  revert m dst. induction n as [|n IH]; intros m dst; cbn [memset].
  - rewrite decide_False by lia. done.
  - rewrite IH. destruct (decide (a = dst)) as [->|Hne].
    + rewrite decide_False, decide_True by lia. apply byte_at_insert_eq.
    + rewrite byte_at_insert_ne by done. repeat case_decide; done || lia.
Qed.

Lemma byte_at_copy_up m d s n a :
  (d ≤ s ∨ s + Z.of_nat n ≤ d) →
  byte_at (copy_up m d s n) a =
  if decide (d ≤ a < d + Z.of_nat n) then byte_at m (s + (a - d)) else byte_at m a.
Proof.
  revert m d s. induction n as [|n IH]; intros m d s H; cbn [copy_up].
  - rewrite decide_False by lia. done.
  - rewrite IH by lia. destruct (decide (a = d)) as [->|Hne].
    + rewrite decide_False, decide_True by lia. rewrite byte_at_insert_eq. f_equal. lia.
    + case_decide.
      * rewrite decide_True by lia. rewrite byte_at_insert_ne by lia. f_equal. lia.
      * rewrite byte_at_insert_ne by done. rewrite decide_False by lia. done.
Qed.

Lemma byte_at_copy_down m d s n a :
  s ≤ d →
  byte_at (copy_down m d s n) a =
  if decide (d ≤ a < d + Z.of_nat n) then byte_at m (s + (a - d)) else byte_at m a.
Proof.
  revert m. induction n as [|n IH]; intros m H; cbn [copy_down].
  - rewrite decide_False by lia. done.
  - rewrite IH by done. destruct (decide (a = d + Z.of_nat n)) as [->|Hne].
    + rewrite decide_False, decide_True by lia. rewrite byte_at_insert_eq. f_equal. lia.
    + case_decide.
      * rewrite decide_True by lia. apply byte_at_insert_ne. lia.
      * rewrite byte_at_insert_ne by done. rewrite decide_False by lia. done.
Qed.

Lemma byte_at_memmove m d s n a :
  byte_at (memmove m d s n) a =
  if decide (d ≤ a < d + Z.of_nat n) then byte_at m (s + (a - d)) else byte_at m a.
Proof.
  unfold memmove. destruct (n =? 0)%nat eqn:E0.
  - apply Nat.eqb_eq in E0 as ->. by rewrite decide_False by lia.
  - destruct ((s <? d) && (d <? s + Z.of_nat n)) eqn:E.
    + apply byte_at_copy_down. lia.
    + apply byte_at_copy_up. lia.
Qed.

(** ** Strings: laws *)

(** The buffer can be read up to a NUL or up to [n] bytes. *)
Definition readable (n : nat) (t : list Z) : Prop := (n ≤ length t)%nat ∨ 0 ∈ t.

Lemma readable_cons n c t : c ≠ 0 → readable (S n) (c :: t) → readable n t.
Proof.
  intros Hc [H|H]; [left; simpl in H; lia|right]. by apply elem_of_cons in H as [|].
Qed.

Lemma readable_nil n t : readable (S n) t → t ≠ [].
Proof. intros [H|H] ->; [simpl in H; lia|by apply not_elem_of_nil in H]. Qed.

Lemma safestrcpy_loop_spec s t n :
  (n < length s)%nat → readable n t →
  ∃ s', safestrcpy_loop s t n = Some s' ∧ length s' = length s ∧
    cstr s' = take n (cstr t) ∧ drop (S n) s' = drop (S n) s ∧ 0 ∈ take (S n) s'.
Proof.
  revert s t. induction n as [|n IH]; intros s t Hs Ht.
  - destruct s as [|x s]; [simpl in Hs; lia|]. exists (0 :: s). cbn.
    split_and!; [done..|]. apply list_elem_of_here.
  - destruct s as [|x s]; [simpl in Hs; lia|].
    destruct t as [|c t]; [by apply readable_nil in Ht|]. cbn.
    destruct (Z.eqb_spec c 0) as [->|Hc].
    + destruct s as [|y s]; [simpl in Hs; lia|]. exists (0 :: 0 :: s). cbn.
      split_and!; [done..|]. apply list_elem_of_here.
    + destruct (IH s t) as (s' & -> & Hl & Hcs & Hd & Hz);
        [simpl in Hs; lia|by eapply readable_cons|].
      exists (c :: s'). cbn. rewrite (proj2 (Z.eqb_neq c 0) Hc). split_and!.
      * done.
      * by rewrite Hl.
      * by rewrite Hcs.
      * done.
      * by apply list_elem_of_further.
Qed.

(** [strncmp] is 0 exactly when the strings agree up to the first [n] bytes. *)
Lemma strncmp_spec p q n :
  readable n p → readable n q →
  ∃ r, strncmp p q n = Some r ∧ (r = 0 ↔ take n (cstr p) = take n (cstr q)).
Proof.
  revert p q. induction n as [|n IH]; intros p q Hp Hq; [by exists 0|].
  destruct p as [|c p]; [by apply readable_nil in Hp|].
  destruct q as [|d q]; [by apply readable_nil in Hq|]. cbn.
  destruct (Z.eqb_spec c 0) as [->|Hc]; cbn [negb andb].
  - exists (0 - d). split; [done|]. destruct (Z.eqb_spec d 0) as [->|Hd]; [done|].
    split; [lia|done].
  - destruct (Z.eqb_spec c d) as [->|Hcd].
    + destruct (IH p q) as (r & -> & Hr); [by eapply readable_cons..|].
      exists r. split; [done|]. rewrite (proj2 (Z.eqb_neq d 0) Hc). cbn. rewrite Hr.
      split; [by intros ->|intros H; by injection H].
    + exists (c - d). split; [done|]. split; [lia|].
      destruct (Z.eqb_spec d 0); cbn; [done|]. intros H. injection H. congruence.
Qed.

Lemma pad_spec s n :
  (n ≤ length s)%nat → pad s n = Some (replicate n 0 ++ drop n s).
Proof.
  revert s. induction n as [|n IH]; intros s Hs; [done|].
  destruct s as [|x s]; [simpl in Hs; lia|]. cbn. rewrite IH by (simpl in Hs; lia). done.
Qed.

(** [strncpy] copies the string, truncated to [n] bytes, and pads with NULs. *)
Lemma strncpy_spec s t n :
  (n ≤ length s)%nat → readable n t →
  strncpy s t n = Some (take n (cstr t) ++ replicate (n - length (cstr t)) 0 ++ drop n s).
Proof.
  revert s t. induction n as [|n IH]; intros s t Hs Ht; [done|].
  destruct s as [|x s]; [simpl in Hs; lia|].
  destruct t as [|c t]; [by apply readable_nil in Ht|]. cbn.
  destruct (Z.eqb_spec c 0) as [->|Hc].
  - rewrite pad_spec by (simpl in Hs; lia). done.
  - rewrite IH; [done|simpl in Hs; lia|by eapply readable_cons].
Qed.

(** Reasoning goes through the laws; evaluation is not affected. *)
#[global] Opaque memset copy_up copy_down memmove load64 store64.
