(* ===== verification/Riscv.v ===== *)
(** * Address arithmetic ([kernel/riscv.h], [kernel/memlayout.h])

    Pages, page-table entries and the memory layout, as the macros define them on
    64-bit integers, with their arithmetic characterisations. *)

From S2P Require Import Prelude.

Local Open Scope Z_scope.

(** ** Pages *)

Definition PGSIZE : Z := 4096.
Definition PGSHIFT : Z := 12.

(** Linear arithmetic on multiples of the page size. *)
Ltac plia := unfold PGSIZE in *; lia.

Definition PGROUNDUP (sz : Z) : Z := Z.land (u64 (sz + PGSIZE - 1)) (Z.lnot (PGSIZE - 1)).
Definition PGROUNDDOWN (a : Z) : Z := Z.land a (Z.lnot (PGSIZE - 1)).

(** ** Page-table entries *)

Definition PTE_V : Z := 1.
Definition PTE_R : Z := 2.
Definition PTE_W : Z := 4.
Definition PTE_X : Z := 8.
Definition PTE_U : Z := 16.

Definition PA2PTE (pa : Z) : Z := u64 (Z.shiftl (Z.shiftr pa 12) 10).
Definition PTE2PA (pte : Z) : Z := u64 (Z.shiftl (Z.shiftr pte 10) 12).
Definition PTE_FLAGS (pte : Z) : Z := Z.land pte 0x3FF.

(** [pte & flag], as a condition. *)
Definition has_flag (pte flag : Z) : bool := negb (Z.land pte flag =? 0).

Definition PXMASK : Z := 0x1FF.
Definition PXSHIFT (level : Z) : Z := PGSHIFT + 9 * level.
Definition PX (level va : Z) : Z := Z.land (Z.shiftr va (PXSHIFT level)) PXMASK.
Definition MAXVA : Z := Z.shiftl 1 (9 + 9 + 9 + 12 - 1).

(** ** Memory layout *)

Definition KERNBASE : Z := 0x80000000.
Definition PHYSTOP : Z := KERNBASE + 128 * 1024 * 1024.
Definition TRAMPOLINE : Z := MAXVA - PGSIZE.
Definition KSTACK (p : nat) : Z := TRAMPOLINE - (Z.of_nat p + 1) * 2 * PGSIZE.
Definition TRAPFRAME : Z := TRAMPOLINE - PGSIZE.

(** Addresses that the linker assigns. *)
Class Image := {
  image_etext : Z;       (* end of the kernel's code *)
  image_end : Z;         (* first address after the kernel *)
  image_trampoline : Z;  (* the trampoline page *)
  image_forkret : Z;     (* the function forkret *)
  image_usertrap : Z;    (* the function usertrap *)
  image_kernelvec : Z;   (* kernelvec, in kernelvec.S *)
  image_uservec : Z;     (* uservec, in trampoline.S *)
  image_userret : Z;     (* userret, in trampoline.S *)
}.

(** The linker places the kernel at [KERNBASE], inside physical memory. *)
Class ImageOk `{Image} : Prop := {
  image_end_range : KERNBASE < image_end ≤ PHYSTOP - PGSIZE;
}.

(** ** Arithmetic characterisation *)

Lemma PGROUNDDOWN_eq a : PGROUNDDOWN a = a - a mod PGSIZE.
Proof.
  unfold PGROUNDDOWN, PGSIZE. change (Z.lnot (4096 - 1)) with (Z.lnot (Z.ones 12)).
  rewrite <- Z.ldiff_land, Z.ldiff_ones_r, Z.shiftl_mul_pow2, Z.shiftr_div_pow2 by lia.
  change (2 ^ 12) with 4096. zdiv.
Qed.

Lemma PGROUNDUP_eq sz :
  0 ≤ sz < 2 ^ 64 - PGSIZE → PGROUNDUP sz = (sz + PGSIZE - 1) - (sz + PGSIZE - 1) mod PGSIZE.
Proof.
  intros H. unfold PGROUNDUP. rewrite u64_small by (unfold is_u64, PGSIZE in *; lia).
  apply PGROUNDDOWN_eq.
Qed.

Definition page_aligned (a : Z) : Prop := a mod PGSIZE = 0.

Lemma PGROUNDDOWN_aligned a : page_aligned (PGROUNDDOWN a).
Proof. unfold page_aligned. rewrite PGROUNDDOWN_eq. unfold PGSIZE. zdiv. Qed.

Lemma PGROUNDDOWN_range a : PGROUNDDOWN a ≤ a < PGROUNDDOWN a + PGSIZE.
Proof.
  rewrite PGROUNDDOWN_eq. unfold PGSIZE.
  pose proof (Z.mod_pos_bound a 4096 ltac:(lia)). lia.
Qed.

Lemma PGROUNDUP_aligned sz : 0 ≤ sz < 2 ^ 64 - PGSIZE → page_aligned (PGROUNDUP sz).
Proof. intros. unfold page_aligned. rewrite PGROUNDUP_eq by done. unfold PGSIZE. zdiv. Qed.

Lemma PGROUNDUP_range sz :
  0 ≤ sz < 2 ^ 64 - PGSIZE → sz ≤ PGROUNDUP sz < sz + PGSIZE.
Proof.
  intros. rewrite PGROUNDUP_eq by done. unfold PGSIZE in *.
  pose proof (Z.mod_pos_bound (sz + 4096 - 1) 4096 ltac:(lia)). lia.
Qed.

Lemma lor_low a b n : 0 ≤ n → 0 ≤ b < 2 ^ n → Z.lor (a * 2 ^ n) b = a * 2 ^ n + b.
Proof.
  intros Hn Hb. symmetry. apply Z.add_nocarry_lor. apply Z.bits_inj'. intros i Hi.
  rewrite Z.land_spec, Z.bits_0, <- Z.shiftl_mul_pow2, Z.shiftl_spec by lia.
  destruct (decide (i < n)).
  - by rewrite Z.testbit_neg_r by lia.
  - rewrite andb_false_iff. right. rewrite <- (Z.mod_small b (2 ^ n)) by done.
    apply Z.mod_pow2_bits_high. lia.
Qed.

Lemma PA2PTE_eq pa : 0 ≤ pa < 2 ^ 56 → PA2PTE pa = pa / 4096 * 2 ^ 10.
Proof.
  intros H. unfold PA2PTE. rewrite Z.shiftl_mul_pow2, Z.shiftr_div_pow2 by lia.
  change (2 ^ 12) with 4096. apply u64_small. unfold is_u64.
  pose proof (Z.div_pos pa 4096 ltac:(lia) ltac:(lia)).
  pose proof (Z.div_lt_upper_bound pa 4096 (2 ^ 44) ltac:(lia) ltac:(lia)). lia.
Qed.

(** A page-table entry keeps the page and the flags it was built from. *)
Lemma pte_lor pa fl : 0 ≤ pa < 2 ^ 56 → 0 ≤ fl < 2 ^ 10 →
  Z.lor (PA2PTE pa) fl = pa / 4096 * 2 ^ 10 + fl.
Proof. intros. rewrite PA2PTE_eq by done. by apply lor_low. Qed.

Lemma PTE2PA_eq pte : 0 ≤ pte < 2 ^ 62 → PTE2PA pte = pte / 2 ^ 10 * 4096.
Proof.
  intros H. unfold PTE2PA. rewrite Z.shiftl_mul_pow2, Z.shiftr_div_pow2 by lia.
  change (2 ^ 12) with 4096. apply u64_small. unfold is_u64.
  pose proof (Z.div_pos pte (2 ^ 10) ltac:(lia) ltac:(lia)).
  pose proof (Z.div_lt_upper_bound pte (2 ^ 10) (2 ^ 52) ltac:(lia) ltac:(lia)). lia.
Qed.

Lemma PTE2PA_pte pa fl :
  page_aligned pa → 0 ≤ pa < 2 ^ 56 → 0 ≤ fl < 2 ^ 10 → PTE2PA (Z.lor (PA2PTE pa) fl) = pa.
Proof.
  intros Ha Hpa Hfl. rewrite pte_lor by done. unfold page_aligned, PGSIZE in Ha.
  pose proof (Z.div_pos pa 4096 ltac:(lia) ltac:(lia)).
  pose proof (Z.div_lt_upper_bound pa 4096 (2 ^ 44) ltac:(lia) ltac:(lia)).
  rewrite PTE2PA_eq by lia. rewrite Z.div_add_l, (Z.div_small fl) by lia. zdiv.
Qed.

Lemma PTE_FLAGS_pte pa fl :
  0 ≤ pa < 2 ^ 56 → 0 ≤ fl < 2 ^ 10 → PTE_FLAGS (Z.lor (PA2PTE pa) fl) = fl.
Proof.
  intros Hpa Hfl. rewrite pte_lor by done. unfold PTE_FLAGS.
  change 0x3FF with (Z.ones 10). rewrite Z.land_ones by lia.
  rewrite Z.add_comm, Z.mod_add by lia. by apply Z.mod_small.
Qed.

Lemma PX_eq level va : 0 ≤ level → PX level va = va / 2 ^ (PXSHIFT level) mod 512.
Proof.
  intros. unfold PX, PXMASK. change 0x1FF with (Z.ones 9).
  rewrite Z.land_ones, Z.shiftr_div_pow2 by (unfold PXSHIFT, PGSHIFT; lia). done.
Qed.

Lemma PX_range level va : 0 ≤ level → 0 ≤ PX level va < 512.
Proof. intros. rewrite PX_eq by done. apply Z.mod_pos_bound. lia. Qed.

Lemma MAXVA_eq : MAXVA = 2 ^ 38.
Proof. reflexivity. Qed.

Lemma PX2_low va : 0 ≤ va < MAXVA → 0 ≤ PX 2 va < 256.
Proof.
  rewrite MAXVA_eq, PX_eq by lia. intros Hva.
  change (2 ^ PXSHIFT 2) with 1073741824. zdiv.
Qed.

(** The virtual page with the given indices. *)
Definition va_of (i j k : Z) : Z := i * 2 ^ 30 + j * 2 ^ 21 + k * 2 ^ 12.

Lemma va_of_spec i j k :
  0 ≤ i < 256 → 0 ≤ j < 512 → 0 ≤ k < 512 →
  page_aligned (va_of i j k) ∧ 0 ≤ va_of i j k < MAXVA ∧
  PX 2 (va_of i j k) = i ∧ PX 1 (va_of i j k) = j ∧ PX 0 (va_of i j k) = k.
Proof.
  intros. unfold page_aligned, va_of, PGSIZE. rewrite MAXVA_eq, !PX_eq by lia.
  change (2 ^ PXSHIFT 2) with 1073741824. change (2 ^ PXSHIFT 1) with 2097152.
  change (2 ^ PXSHIFT 0) with 4096. split_and!; zdiv.
Qed.

(** Two page addresses with the same three indices are the same. *)
Lemma PX_inj va va' :
  page_aligned va → page_aligned va' → 0 ≤ va < MAXVA → 0 ≤ va' < MAXVA →
  PX 2 va = PX 2 va' → PX 1 va = PX 1 va' → PX 0 va = PX 0 va' → va = va'.
Proof.
  unfold page_aligned, PGSIZE. rewrite MAXVA_eq, !PX_eq by lia.
  unfold PXSHIFT, PGSHIFT. change (2 ^ (12 + 9 * 2)) with (4096 * 512 * 512).
  change (2 ^ (12 + 9 * 1)) with (4096 * 512). change (2 ^ (12 + 9 * 0)) with 4096.
  rewrite <- !Z.div_div by lia. intros.
  assert (0 ≤ va / 4096 / 512 / 512 < 512) by zdiv.
  assert (0 ≤ va' / 4096 / 512 / 512 < 512) by zdiv. zdiv.
Qed.

(** ** Flags *)

Lemma has_flag_lor a b f : has_flag (Z.lor a b) f = has_flag a f || has_flag b f.
Proof.
  unfold has_flag. rewrite Z.land_lor_distr_l.
  destruct (Z.land a f =? 0) eqn:Ea, (Z.land b f =? 0) eqn:Eb; simpl;
    rewrite ?Z.eqb_eq, ?Z.eqb_neq in *; rewrite negb_true_iff || rewrite negb_false_iff;
    rewrite ?Z.eqb_eq, ?Z.eqb_neq, Z.lor_eq_0_iff; tauto.
Qed.

Lemma has_flag_0 f : has_flag 0 f = false.
Proof. done. Qed.

#[global] Arguments PX : simpl never.
#[global] Arguments PA2PTE : simpl never.
#[global] Arguments PTE2PA : simpl never.
#[global] Arguments PTE_FLAGS : simpl never.
#[global] Arguments PGROUNDUP : simpl never.
#[global] Arguments PGROUNDDOWN : simpl never.
#[global] Arguments has_flag : simpl never.
