(* ===== verification/Data.v ===== *)
(** * Kernel data

    The constants of [kernel/param.h], [kernel/fs.h], [kernel/stat.h] and
    [kernel/fcntl.h], the identities of locks
    and sleep channels, and the structures of [kernel/proc.h], [kernel/buf.h],
    [kernel/fs.h], [kernel/file.h], [kernel/log.c], [kernel/pipe.c],
    [kernel/console.c] and [kernel/uart.c] as records.  Each field [f] has its
    assignment [set_f]. *)

From S2P Require Import Prelude.

(** ** Parameters ([kernel/param.h]) *)

Definition NPROC : nat := 64.
Definition NCPU : nat := 8.
Definition NOFILE : nat := 16.
Definition NMLFQ : Z := 3.
Definition MLFQ_TICKS_0 : Z := 1.
Definition MLFQ_TICKS_1 : Z := 2.
Definition MLFQ_TICKS_2 : Z := 4.
Definition BOOST_INTERVAL : Z := 100.
Definition NFILE : nat := 100.
Definition NINODE : nat := 50.
Definition NDEV : Z := 10.
Definition ROOTDEV : Z := 1.
Definition MAXARG : nat := 32.
Definition MAXOPBLOCKS : Z := 10.
Definition LOGSIZE : Z := MAXOPBLOCKS * 3.
Definition NBUF : nat := 30.
Definition MAXPATH : nat := 128.
Definition FSSIZE : Z := 2000.

(** On-disk format ([kernel/fs.h]) *)
Definition ROOTINO : Z := 1.
Definition BSIZE : Z := 1024.
Definition FSMAGIC : Z := 0x10203040.
Definition NDIRECT : Z := 12.
Definition NINDIRECT : Z := 256.
Definition MAXFILE : Z := NDIRECT + NINDIRECT.
Definition DIRSIZ : nat := 14.

(** Types of inodes ([kernel/stat.h]) and modes of [open] ([kernel/fcntl.h]) *)
Definition T_DIR : Z := 1.
Definition T_FILE : Z := 2.
Definition T_DEVICE : Z := 3.
Definition O_RDONLY : Z := 0.
Definition O_WRONLY : Z := 1.
Definition O_RDWR : Z := 2.
Definition O_CREATE : Z := 0x200.
Definition O_TRUNC : Z := 0x400.

(** Sizes of the ring buffers of [kernel/pipe.c], [kernel/console.c] and
    [kernel/uart.c] *)
Definition PIPESIZE : Z := 512.
Definition INPUT_BUF_SIZE : Z := 128.
Definition UART_TX_BUF_SIZE : Z := 32.

(** ** Process states *)

Inductive procstate := UNUSED | USED | SLEEPING | RUNNABLE | RUNNING | ZOMBIE.

#[export] Instance procstate_eq_dec : EqDecision procstate.
Proof. solve_decision. Defined.

(** The value of the C enumeration constant. *)
Definition procstate_code (x : procstate) : Z :=
  match x with
  | UNUSED => 0 | USED => 1 | SLEEPING => 2
  | RUNNABLE => 3 | RUNNING => 4 | ZOMBIE => 5
  end%Z.

(** ** Identities

    A [struct spinlock *] and a sleep channel are addresses of distinct kernel
    objects; each object has a constructor. *)

Inductive sleeplock_id := SlBuf (n : nat) | SlInode (n : nat).

Inductive lockid :=
| LkPid | LkWait | LkMlfq | LkTicks | LkKmem
| LkProc (i : nat)
| LkFtable | LkItable | LkBcache | LkLog | LkCons | LkUart | LkPr | LkVdisk
| LkPipe (pa : Z)
| LkSleep (l : sleeplock_id).

Inductive chan :=
| ChTicks                  (* &ticks *)
| ChProc (i : nat)         (* a struct proc * *)
| ChPipeRead (pa : Z)      (* &pi->nread *)
| ChPipeWrite (pa : Z)     (* &pi->nwrite *)
| ChSleep (l : sleeplock_id)
| ChLog | ChCons | ChUartTx | ChDiskFree
| ChBuf (n : nat).

#[export] Instance sleeplock_id_eq_dec : EqDecision sleeplock_id.
Proof. solve_decision. Defined.
#[export] Instance lockid_eq_dec : EqDecision lockid.
Proof. solve_decision. Defined.
#[export] Instance chan_eq_dec : EqDecision chan.
Proof. solve_decision. Defined.

#[export] Instance sleeplock_id_countable : Countable sleeplock_id.
Proof.
  apply (inj_countable'
    (λ l, match l with SlBuf n => inl n | SlInode n => inr n end)
    (λ x, match x with inl n => SlBuf n | inr n => SlInode n end)).
  by intros [].
Defined.

Definition lockid_encode (l : lockid) : nat * Z :=
  match l with
  | LkPid => (0, 0%Z) | LkWait => (1, 0%Z) | LkMlfq => (2, 0%Z)
  | LkTicks => (3, 0%Z) | LkKmem => (4, 0%Z)
  | LkProc i => (5, Z.of_nat i)
  | LkFtable => (6, 0%Z) | LkItable => (7, 0%Z) | LkBcache => (8, 0%Z)
  | LkLog => (9, 0%Z) | LkCons => (10, 0%Z) | LkUart => (11, 0%Z)
  | LkPr => (12, 0%Z) | LkVdisk => (13, 0%Z)
  | LkPipe pa => (14, pa)
  | LkSleep (SlBuf n) => (15, Z.of_nat n)
  | LkSleep (SlInode n) => (16, Z.of_nat n)
  end.

Definition lockid_decode (x : nat * Z) : lockid :=
  match x.1 with
  | 0 => LkPid | 1 => LkWait | 2 => LkMlfq | 3 => LkTicks | 4 => LkKmem
  | 5 => LkProc (Z.to_nat x.2)
  | 6 => LkFtable | 7 => LkItable | 8 => LkBcache | 9 => LkLog
  | 10 => LkCons | 11 => LkUart | 12 => LkPr | 13 => LkVdisk
  | 14 => LkPipe x.2
  | 15 => LkSleep (SlBuf (Z.to_nat x.2))
  | _ => LkSleep (SlInode (Z.to_nat x.2))
  end.

#[export] Instance lockid_countable : Countable lockid.
Proof.
  apply (inj_countable' lockid_encode lockid_decode).
  intros l. destruct l as [| | | | | | | | | | | | | | | []]; cbn; by rewrite ?Nat2Z.id.
Defined.

(** ** Structures of [kernel/proc.h] *)

(** Saved registers for kernel context switches; [ctx_s] holds s0 to s11. *)
Record context := mkContext {
  ctx_ra : Z;
  ctx_sp : Z;
  ctx_s : list Z;
}.

(** Per-CPU state.  The hart's interrupt-enable bit [SSTATUS_SIE] is kept with it. *)
Record cpu := mkCpu {
  c_proc : option nat; (* The process running on this cpu, or null *)
  c_noff : Z; (* Depth of push_off() nesting *)
  c_intena : bool; (* Were interrupts enabled before push_off()? *)
  c_sie : bool; (* SSTATUS_SIE of the hart *)
}.

Definition set_c_proc (v : option nat) (r : cpu) : cpu :=
  mkCpu v (c_noff r) (c_intena r) (c_sie r).
Definition set_c_noff (v : Z) (r : cpu) : cpu :=
  mkCpu (c_proc r) v (c_intena r) (c_sie r).
Definition set_c_intena (v : bool) (r : cpu) : cpu :=
  mkCpu (c_proc r) (c_noff r) v (c_sie r).
Definition set_c_sie (v : bool) (r : cpu) : cpu :=
  mkCpu (c_proc r) (c_noff r) (c_intena r) v.

(** Per-process state.  [p->lock] is [LkProc i] for the process in slot [i]. *)
Record proc := mkProc {
  p_state : procstate; (* Process state *)
  p_chan : option chan; (* If non-zero, sleeping on chan *)
  p_killed : Z; (* If non-zero, have been killed *)
  p_xstate : Z; (* Exit status to be returned to parent's wait *)
  p_pid : Z; (* Process ID *)
  p_parent : option nat; (* Parent process: index in the table *)
  p_kstack : Z; (* Virtual address of kernel stack *)
  p_sz : Z; (* Size of process memory (bytes) *)
  p_pagetable : Z; (* User page table: physical address, 0 if none *)
  p_trapframe : Z; (* Trapframe page: physical address, 0 if none *)
  p_context : context; (* swtch() here to run process *)
  p_ofile : list (option nat); (* Open files: indices in ftable *)
  p_cwd : option nat; (* Current directory: index in itable *)
  p_name : list Z; (* Process name, 16 bytes *)
  p_priority : Z; (* Current priority queue (0=highest, NMLFQ-1=lowest) *)
  p_ticks_used : Z; (* Ticks used in current time slice *)
  p_ticks_total : Z; (* Total ticks used (for statistics) *)
  p_last_run_time : Z; (* Last time the process was scheduled *)
  p_num_scheduled : Z; (* Number of times this process was scheduled *)
  p_num_demoted : Z; (* Number of times demoted to lower queue *)
  p_num_boosted : Z; (* Number of times boosted by priority boost *)
}.

Definition set_p_state (v : procstate) (r : proc) : proc :=
  mkProc v (p_chan r) (p_killed r) (p_xstate r) (p_pid r) (p_parent r) (p_kstack r)
    (p_sz r) (p_pagetable r) (p_trapframe r) (p_context r) (p_ofile r) (p_cwd r)
    (p_name r) (p_priority r) (p_ticks_used r) (p_ticks_total r) (p_last_run_time r)
    (p_num_scheduled r) (p_num_demoted r) (p_num_boosted r).
Definition set_p_chan (v : option chan) (r : proc) : proc :=
  mkProc (p_state r) v (p_killed r) (p_xstate r) (p_pid r) (p_parent r) (p_kstack r)
    (p_sz r) (p_pagetable r) (p_trapframe r) (p_context r) (p_ofile r) (p_cwd r)
    (p_name r) (p_priority r) (p_ticks_used r) (p_ticks_total r) (p_last_run_time r)
    (p_num_scheduled r) (p_num_demoted r) (p_num_boosted r).
Definition set_p_killed (v : Z) (r : proc) : proc :=
  mkProc (p_state r) (p_chan r) v (p_xstate r) (p_pid r) (p_parent r) (p_kstack r)
    (p_sz r) (p_pagetable r) (p_trapframe r) (p_context r) (p_ofile r) (p_cwd r)
    (p_name r) (p_priority r) (p_ticks_used r) (p_ticks_total r) (p_last_run_time r)
    (p_num_scheduled r) (p_num_demoted r) (p_num_boosted r).
Definition set_p_xstate (v : Z) (r : proc) : proc :=
  mkProc (p_state r) (p_chan r) (p_killed r) v (p_pid r) (p_parent r) (p_kstack r)
    (p_sz r) (p_pagetable r) (p_trapframe r) (p_context r) (p_ofile r) (p_cwd r)
    (p_name r) (p_priority r) (p_ticks_used r) (p_ticks_total r) (p_last_run_time r)
    (p_num_scheduled r) (p_num_demoted r) (p_num_boosted r).
Definition set_p_pid (v : Z) (r : proc) : proc :=
  mkProc (p_state r) (p_chan r) (p_killed r) (p_xstate r) v (p_parent r) (p_kstack r)
    (p_sz r) (p_pagetable r) (p_trapframe r) (p_context r) (p_ofile r) (p_cwd r)
    (p_name r) (p_priority r) (p_ticks_used r) (p_ticks_total r) (p_last_run_time r)
    (p_num_scheduled r) (p_num_demoted r) (p_num_boosted r).
Definition set_p_parent (v : option nat) (r : proc) : proc :=
  mkProc (p_state r) (p_chan r) (p_killed r) (p_xstate r) (p_pid r) v (p_kstack r)
    (p_sz r) (p_pagetable r) (p_trapframe r) (p_context r) (p_ofile r) (p_cwd r)
    (p_name r) (p_priority r) (p_ticks_used r) (p_ticks_total r) (p_last_run_time r)
    (p_num_scheduled r) (p_num_demoted r) (p_num_boosted r).
Definition set_p_kstack (v : Z) (r : proc) : proc :=
  mkProc (p_state r) (p_chan r) (p_killed r) (p_xstate r) (p_pid r) (p_parent r) v
    (p_sz r) (p_pagetable r) (p_trapframe r) (p_context r) (p_ofile r) (p_cwd r)
    (p_name r) (p_priority r) (p_ticks_used r) (p_ticks_total r) (p_last_run_time r)
    (p_num_scheduled r) (p_num_demoted r) (p_num_boosted r).
Definition set_p_sz (v : Z) (r : proc) : proc :=
  mkProc (p_state r) (p_chan r) (p_killed r) (p_xstate r) (p_pid r) (p_parent r)
    (p_kstack r) v (p_pagetable r) (p_trapframe r) (p_context r) (p_ofile r) (p_cwd r)
    (p_name r) (p_priority r) (p_ticks_used r) (p_ticks_total r) (p_last_run_time r)
    (p_num_scheduled r) (p_num_demoted r) (p_num_boosted r).
Definition set_p_pagetable (v : Z) (r : proc) : proc :=
  mkProc (p_state r) (p_chan r) (p_killed r) (p_xstate r) (p_pid r) (p_parent r)
    (p_kstack r) (p_sz r) v (p_trapframe r) (p_context r) (p_ofile r) (p_cwd r)
    (p_name r) (p_priority r) (p_ticks_used r) (p_ticks_total r) (p_last_run_time r)
    (p_num_scheduled r) (p_num_demoted r) (p_num_boosted r).
Definition set_p_trapframe (v : Z) (r : proc) : proc :=
  mkProc (p_state r) (p_chan r) (p_killed r) (p_xstate r) (p_pid r) (p_parent r)
    (p_kstack r) (p_sz r) (p_pagetable r) v (p_context r) (p_ofile r) (p_cwd r)
    (p_name r) (p_priority r) (p_ticks_used r) (p_ticks_total r) (p_last_run_time r)
    (p_num_scheduled r) (p_num_demoted r) (p_num_boosted r).
Definition set_p_context (v : context) (r : proc) : proc :=
  mkProc (p_state r) (p_chan r) (p_killed r) (p_xstate r) (p_pid r) (p_parent r)
    (p_kstack r) (p_sz r) (p_pagetable r) (p_trapframe r) v (p_ofile r) (p_cwd r)
    (p_name r) (p_priority r) (p_ticks_used r) (p_ticks_total r) (p_last_run_time r)
    (p_num_scheduled r) (p_num_demoted r) (p_num_boosted r).
Definition set_p_ofile (v : list (option nat)) (r : proc) : proc :=
  mkProc (p_state r) (p_chan r) (p_killed r) (p_xstate r) (p_pid r) (p_parent r)
    (p_kstack r) (p_sz r) (p_pagetable r) (p_trapframe r) (p_context r) v (p_cwd r)
    (p_name r) (p_priority r) (p_ticks_used r) (p_ticks_total r) (p_last_run_time r)
    (p_num_scheduled r) (p_num_demoted r) (p_num_boosted r).
Definition set_p_cwd (v : option nat) (r : proc) : proc :=
  mkProc (p_state r) (p_chan r) (p_killed r) (p_xstate r) (p_pid r) (p_parent r)
    (p_kstack r) (p_sz r) (p_pagetable r) (p_trapframe r) (p_context r) (p_ofile r) v
    (p_name r) (p_priority r) (p_ticks_used r) (p_ticks_total r) (p_last_run_time r)
    (p_num_scheduled r) (p_num_demoted r) (p_num_boosted r).
Definition set_p_name (v : list Z) (r : proc) : proc :=
  mkProc (p_state r) (p_chan r) (p_killed r) (p_xstate r) (p_pid r) (p_parent r)
    (p_kstack r) (p_sz r) (p_pagetable r) (p_trapframe r) (p_context r) (p_ofile r)
    (p_cwd r) v (p_priority r) (p_ticks_used r) (p_ticks_total r) (p_last_run_time r)
    (p_num_scheduled r) (p_num_demoted r) (p_num_boosted r).
Definition set_p_priority (v : Z) (r : proc) : proc :=
  mkProc (p_state r) (p_chan r) (p_killed r) (p_xstate r) (p_pid r) (p_parent r)
    (p_kstack r) (p_sz r) (p_pagetable r) (p_trapframe r) (p_context r) (p_ofile r)
    (p_cwd r) (p_name r) v (p_ticks_used r) (p_ticks_total r) (p_last_run_time r)
    (p_num_scheduled r) (p_num_demoted r) (p_num_boosted r).
Definition set_p_ticks_used (v : Z) (r : proc) : proc :=
  mkProc (p_state r) (p_chan r) (p_killed r) (p_xstate r) (p_pid r) (p_parent r)
    (p_kstack r) (p_sz r) (p_pagetable r) (p_trapframe r) (p_context r) (p_ofile r)
    (p_cwd r) (p_name r) (p_priority r) v (p_ticks_total r) (p_last_run_time r)
    (p_num_scheduled r) (p_num_demoted r) (p_num_boosted r).
Definition set_p_ticks_total (v : Z) (r : proc) : proc :=
  mkProc (p_state r) (p_chan r) (p_killed r) (p_xstate r) (p_pid r) (p_parent r)
    (p_kstack r) (p_sz r) (p_pagetable r) (p_trapframe r) (p_context r) (p_ofile r)
    (p_cwd r) (p_name r) (p_priority r) (p_ticks_used r) v (p_last_run_time r)
    (p_num_scheduled r) (p_num_demoted r) (p_num_boosted r).
Definition set_p_last_run_time (v : Z) (r : proc) : proc :=
  mkProc (p_state r) (p_chan r) (p_killed r) (p_xstate r) (p_pid r) (p_parent r)
    (p_kstack r) (p_sz r) (p_pagetable r) (p_trapframe r) (p_context r) (p_ofile r)
    (p_cwd r) (p_name r) (p_priority r) (p_ticks_used r) (p_ticks_total r) v
    (p_num_scheduled r) (p_num_demoted r) (p_num_boosted r).
Definition set_p_num_scheduled (v : Z) (r : proc) : proc :=
  mkProc (p_state r) (p_chan r) (p_killed r) (p_xstate r) (p_pid r) (p_parent r)
    (p_kstack r) (p_sz r) (p_pagetable r) (p_trapframe r) (p_context r) (p_ofile r)
    (p_cwd r) (p_name r) (p_priority r) (p_ticks_used r) (p_ticks_total r)
    (p_last_run_time r) v (p_num_demoted r) (p_num_boosted r).
Definition set_p_num_demoted (v : Z) (r : proc) : proc :=
  mkProc (p_state r) (p_chan r) (p_killed r) (p_xstate r) (p_pid r) (p_parent r)
    (p_kstack r) (p_sz r) (p_pagetable r) (p_trapframe r) (p_context r) (p_ofile r)
    (p_cwd r) (p_name r) (p_priority r) (p_ticks_used r) (p_ticks_total r)
    (p_last_run_time r) (p_num_scheduled r) v (p_num_boosted r).
Definition set_p_num_boosted (v : Z) (r : proc) : proc :=
  mkProc (p_state r) (p_chan r) (p_killed r) (p_xstate r) (p_pid r) (p_parent r)
    (p_kstack r) (p_sz r) (p_pagetable r) (p_trapframe r) (p_context r) (p_ofile r)
    (p_cwd r) (p_name r) (p_priority r) (p_ticks_used r) (p_ticks_total r)
    (p_last_run_time r) (p_num_scheduled r) (p_num_demoted r) v.

(** ** Structures of the file system *)

(** [b->lock] is the sleep-lock [SlBuf n] of the buffer in slot [n]. *)
Record buf := mkBuf {
  b_valid : bool; (* has data been read from disk? *)
  b_disk : bool; (* does disk 'own' buf? *)
  b_dev : Z;
  b_blockno : Z;
  b_refcnt : Z;
  b_data : list Z; (* data[BSIZE] *)
}.

Definition set_b_valid (v : bool) (r : buf) : buf :=
  mkBuf v (b_disk r) (b_dev r) (b_blockno r) (b_refcnt r) (b_data r).
Definition set_b_disk (v : bool) (r : buf) : buf :=
  mkBuf (b_valid r) v (b_dev r) (b_blockno r) (b_refcnt r) (b_data r).
Definition set_b_dev (v : Z) (r : buf) : buf :=
  mkBuf (b_valid r) (b_disk r) v (b_blockno r) (b_refcnt r) (b_data r).
Definition set_b_blockno (v : Z) (r : buf) : buf :=
  mkBuf (b_valid r) (b_disk r) (b_dev r) v (b_refcnt r) (b_data r).
Definition set_b_refcnt (v : Z) (r : buf) : buf :=
  mkBuf (b_valid r) (b_disk r) (b_dev r) (b_blockno r) v (b_data r).
Definition set_b_data (v : list Z) (r : buf) : buf :=
  mkBuf (b_valid r) (b_disk r) (b_dev r) (b_blockno r) (b_refcnt r) v.

Record superblock := mkSuperblock {
  sb_magic : Z; (* Must be FSMAGIC *)
  sb_size : Z; (* Size of file system image (blocks) *)
  sb_nblocks : Z; (* Number of data blocks *)
  sb_ninodes : Z; (* Number of inodes *)
  sb_nlog : Z; (* Number of log blocks *)
  sb_logstart : Z; (* Block number of first log block *)
  sb_inodestart : Z; (* Block number of first inode block *)
  sb_bmapstart : Z; (* Block number of first free map block *)
}.

(** [log.lh] is the pair of the last two fields. *)
Record log := mkLog {
  lg_start : Z;
  lg_size : Z;
  lg_outstanding : Z; (* how many FS sys calls are executing *)
  lg_committing : bool; (* in commit(), please wait *)
  lg_dev : Z;
  lg_n : Z; (* lh.n *)
  lg_block : list Z; (* lh.block[LOGSIZE] *)
}.

Definition set_lg_start (v : Z) (r : log) : log :=
  mkLog v (lg_size r) (lg_outstanding r) (lg_committing r) (lg_dev r) (lg_n r)
    (lg_block r).
Definition set_lg_size (v : Z) (r : log) : log :=
  mkLog (lg_start r) v (lg_outstanding r) (lg_committing r) (lg_dev r) (lg_n r)
    (lg_block r).
Definition set_lg_outstanding (v : Z) (r : log) : log :=
  mkLog (lg_start r) (lg_size r) v (lg_committing r) (lg_dev r) (lg_n r) (lg_block r).
Definition set_lg_committing (v : bool) (r : log) : log :=
  mkLog (lg_start r) (lg_size r) (lg_outstanding r) v (lg_dev r) (lg_n r) (lg_block r).
Definition set_lg_dev (v : Z) (r : log) : log :=
  mkLog (lg_start r) (lg_size r) (lg_outstanding r) (lg_committing r) v (lg_n r)
    (lg_block r).
Definition set_lg_n (v : Z) (r : log) : log :=
  mkLog (lg_start r) (lg_size r) (lg_outstanding r) (lg_committing r) (lg_dev r) v
    (lg_block r).
Definition set_lg_block (v : list Z) (r : log) : log :=
  mkLog (lg_start r) (lg_size r) (lg_outstanding r) (lg_committing r) (lg_dev r)
    (lg_n r) v.

(** In-memory copy of an inode; [ip->lock] is [SlInode n] for the one in slot [n]. *)
Record inode := mkInode {
  i_dev : Z; (* Device number *)
  i_inum : Z; (* Inode number *)
  i_ref : Z; (* Reference count *)
  i_valid : bool; (* inode has been read from disk? *)
  i_type : Z; (* copy of disk inode *)
  i_major : Z;
  i_minor : Z;
  i_nlink : Z;
  i_size : Z;
  i_addrs : list Z; (* addrs[NDIRECT+1] *)
}.

Definition set_i_dev (v : Z) (r : inode) : inode :=
  mkInode v (i_inum r) (i_ref r) (i_valid r) (i_type r) (i_major r) (i_minor r)
    (i_nlink r) (i_size r) (i_addrs r).
Definition set_i_inum (v : Z) (r : inode) : inode :=
  mkInode (i_dev r) v (i_ref r) (i_valid r) (i_type r) (i_major r) (i_minor r)
    (i_nlink r) (i_size r) (i_addrs r).
Definition set_i_ref (v : Z) (r : inode) : inode :=
  mkInode (i_dev r) (i_inum r) v (i_valid r) (i_type r) (i_major r) (i_minor r)
    (i_nlink r) (i_size r) (i_addrs r).
Definition set_i_valid (v : bool) (r : inode) : inode :=
  mkInode (i_dev r) (i_inum r) (i_ref r) v (i_type r) (i_major r) (i_minor r)
    (i_nlink r) (i_size r) (i_addrs r).
Definition set_i_type (v : Z) (r : inode) : inode :=
  mkInode (i_dev r) (i_inum r) (i_ref r) (i_valid r) v (i_major r) (i_minor r)
    (i_nlink r) (i_size r) (i_addrs r).
Definition set_i_major (v : Z) (r : inode) : inode :=
  mkInode (i_dev r) (i_inum r) (i_ref r) (i_valid r) (i_type r) v (i_minor r)
    (i_nlink r) (i_size r) (i_addrs r).
Definition set_i_minor (v : Z) (r : inode) : inode :=
  mkInode (i_dev r) (i_inum r) (i_ref r) (i_valid r) (i_type r) (i_major r) v
    (i_nlink r) (i_size r) (i_addrs r).
Definition set_i_nlink (v : Z) (r : inode) : inode :=
  mkInode (i_dev r) (i_inum r) (i_ref r) (i_valid r) (i_type r) (i_major r)
    (i_minor r) v (i_size r) (i_addrs r).
Definition set_i_size (v : Z) (r : inode) : inode :=
  mkInode (i_dev r) (i_inum r) (i_ref r) (i_valid r) (i_type r) (i_major r)
    (i_minor r) (i_nlink r) v (i_addrs r).
Definition set_i_addrs (v : list Z) (r : inode) : inode :=
  mkInode (i_dev r) (i_inum r) (i_ref r) (i_valid r) (i_type r) (i_major r)
    (i_minor r) (i_nlink r) (i_size r) v.

Inductive filetype := FD_NONE | FD_PIPE | FD_INODE | FD_DEVICE.

#[export] Instance filetype_eq_dec : EqDecision filetype.
Proof. solve_decision. Defined.

Record file := mkFile {
  f_type : filetype;
  f_ref : Z; (* reference count *)
  f_readable : bool;
  f_writable : bool;
  f_pipe : Z; (* FD_PIPE: physical address of its page *)
  f_ip : option nat; (* FD_INODE and FD_DEVICE: index in itable *)
  f_off : Z; (* FD_INODE *)
  f_major : Z; (* FD_DEVICE *)
}.

Definition set_f_type (v : filetype) (r : file) : file :=
  mkFile v (f_ref r) (f_readable r) (f_writable r) (f_pipe r) (f_ip r) (f_off r)
    (f_major r).
Definition set_f_ref (v : Z) (r : file) : file :=
  mkFile (f_type r) v (f_readable r) (f_writable r) (f_pipe r) (f_ip r) (f_off r)
    (f_major r).
Definition set_f_readable (v : bool) (r : file) : file :=
  mkFile (f_type r) (f_ref r) v (f_writable r) (f_pipe r) (f_ip r) (f_off r)
    (f_major r).
Definition set_f_writable (v : bool) (r : file) : file :=
  mkFile (f_type r) (f_ref r) (f_readable r) v (f_pipe r) (f_ip r) (f_off r)
    (f_major r).
Definition set_f_pipe (v : Z) (r : file) : file :=
  mkFile (f_type r) (f_ref r) (f_readable r) (f_writable r) v (f_ip r) (f_off r)
    (f_major r).
Definition set_f_ip (v : option nat) (r : file) : file :=
  mkFile (f_type r) (f_ref r) (f_readable r) (f_writable r) (f_pipe r) v (f_off r)
    (f_major r).
Definition set_f_off (v : Z) (r : file) : file :=
  mkFile (f_type r) (f_ref r) (f_readable r) (f_writable r) (f_pipe r) (f_ip r) v
    (f_major r).
Definition set_f_major (v : Z) (r : file) : file :=
  mkFile (f_type r) (f_ref r) (f_readable r) (f_writable r) (f_pipe r) (f_ip r)
    (f_off r) v.

Record pipe := mkPipe {
  pi_data : list Z; (* data[PIPESIZE] *)
  pi_nread : Z; (* number of bytes read *)
  pi_nwrite : Z; (* number of bytes written *)
  pi_readopen : bool; (* read fd is still open *)
  pi_writeopen : bool; (* write fd is still open *)
}.

Definition set_pi_data (v : list Z) (r : pipe) : pipe :=
  mkPipe v (pi_nread r) (pi_nwrite r) (pi_readopen r) (pi_writeopen r).
Definition set_pi_nread (v : Z) (r : pipe) : pipe :=
  mkPipe (pi_data r) v (pi_nwrite r) (pi_readopen r) (pi_writeopen r).
Definition set_pi_nwrite (v : Z) (r : pipe) : pipe :=
  mkPipe (pi_data r) (pi_nread r) v (pi_readopen r) (pi_writeopen r).
Definition set_pi_readopen (v : bool) (r : pipe) : pipe :=
  mkPipe (pi_data r) (pi_nread r) (pi_nwrite r) v (pi_writeopen r).
Definition set_pi_writeopen (v : bool) (r : pipe) : pipe :=
  mkPipe (pi_data r) (pi_nread r) (pi_nwrite r) (pi_readopen r) v.

(** ** The disk driver

    Descriptors refer to objects of the driver by their address: a command header
    of [ops], the data of a buffer, or a status byte of [info]. *)
Inductive dma_addr := DmaNull | DmaReq (i : nat) | DmaData (n : nat) | DmaStatus (i : nat).

Record virtq_desc := mkDesc {
  d_addr : dma_addr;
  d_len : Z;
  d_flags : Z;
  d_next : Z;
}.

Record virtio_blk_req := mkReq {
  req_type : Z; (* VIRTIO_BLK_T_IN or ..._OUT *)
  req_reserved : Z;
  req_sector : Z;
}.

Record disk_info := mkInfo {
  inf_b : option nat; (* the buffer of the request *)
  inf_status : Z;
}.

Record vdisk := mkVdisk {
  vd_desc : list virtq_desc; (* desc[NUM] *)
  vd_avail_idx : Z; (* avail->idx (uint16) *)
  vd_avail_ring : list Z; (* avail->ring[NUM] *)
  vd_dev_idx : Z; (* used->idx (uint16), which the device increments *)
  vd_used_ring : list Z; (* used->ring[NUM].id *)
  vd_free : list bool; (* free[NUM]: is a descriptor free? *)
  vd_used_idx : Z; (* used_idx: we've looked this far in used (uint16) *)
  vd_info : list disk_info; (* info[NUM] *)
  vd_ops : list virtio_blk_req; (* ops[NUM]: disk command headers *)
  vd_pages : list Z; (* desc, avail, used: physical addresses of their pages *)
}.

Definition set_vd_desc (v : list virtq_desc) (r : vdisk) : vdisk :=
  mkVdisk v (vd_avail_idx r) (vd_avail_ring r) (vd_dev_idx r) (vd_used_ring r)
    (vd_free r) (vd_used_idx r) (vd_info r) (vd_ops r) (vd_pages r).
Definition set_vd_avail_idx (v : Z) (r : vdisk) : vdisk :=
  mkVdisk (vd_desc r) v (vd_avail_ring r) (vd_dev_idx r) (vd_used_ring r) (vd_free r)
    (vd_used_idx r) (vd_info r) (vd_ops r) (vd_pages r).
Definition set_vd_avail_ring (v : list Z) (r : vdisk) : vdisk :=
  mkVdisk (vd_desc r) (vd_avail_idx r) v (vd_dev_idx r) (vd_used_ring r) (vd_free r)
    (vd_used_idx r) (vd_info r) (vd_ops r) (vd_pages r).
Definition set_vd_dev_idx (v : Z) (r : vdisk) : vdisk :=
  mkVdisk (vd_desc r) (vd_avail_idx r) (vd_avail_ring r) v (vd_used_ring r)
    (vd_free r) (vd_used_idx r) (vd_info r) (vd_ops r) (vd_pages r).
Definition set_vd_used_ring (v : list Z) (r : vdisk) : vdisk :=
  mkVdisk (vd_desc r) (vd_avail_idx r) (vd_avail_ring r) (vd_dev_idx r) v (vd_free r)
    (vd_used_idx r) (vd_info r) (vd_ops r) (vd_pages r).
Definition set_vd_free (v : list bool) (r : vdisk) : vdisk :=
  mkVdisk (vd_desc r) (vd_avail_idx r) (vd_avail_ring r) (vd_dev_idx r)
    (vd_used_ring r) v (vd_used_idx r) (vd_info r) (vd_ops r) (vd_pages r).
Definition set_vd_used_idx (v : Z) (r : vdisk) : vdisk :=
  mkVdisk (vd_desc r) (vd_avail_idx r) (vd_avail_ring r) (vd_dev_idx r)
    (vd_used_ring r) (vd_free r) v (vd_info r) (vd_ops r) (vd_pages r).
Definition set_vd_info (v : list disk_info) (r : vdisk) : vdisk :=
  mkVdisk (vd_desc r) (vd_avail_idx r) (vd_avail_ring r) (vd_dev_idx r)
    (vd_used_ring r) (vd_free r) (vd_used_idx r) v (vd_ops r) (vd_pages r).
Definition set_vd_ops (v : list virtio_blk_req) (r : vdisk) : vdisk :=
  mkVdisk (vd_desc r) (vd_avail_idx r) (vd_avail_ring r) (vd_dev_idx r)
    (vd_used_ring r) (vd_free r) (vd_used_idx r) (vd_info r) v (vd_pages r).
Definition set_vd_pages (v : list Z) (r : vdisk) : vdisk :=
  mkVdisk (vd_desc r) (vd_avail_idx r) (vd_avail_ring r) (vd_dev_idx r)
    (vd_used_ring r) (vd_free r) (vd_used_idx r) (vd_info r) (vd_ops r) v.

(** ** Console and UART *)

Record cons := mkCons {
  cn_buf : list Z; (* buf[INPUT_BUF_SIZE] *)
  cn_r : Z; (* Read index *)
  cn_w : Z; (* Write index *)
  cn_e : Z; (* Edit index *)
}.

Definition set_cn_buf (v : list Z) (r : cons) : cons :=
  mkCons v (cn_r r) (cn_w r) (cn_e r).
Definition set_cn_r (v : Z) (r : cons) : cons :=
  mkCons (cn_buf r) v (cn_w r) (cn_e r).
Definition set_cn_w (v : Z) (r : cons) : cons :=
  mkCons (cn_buf r) (cn_r r) v (cn_e r).
Definition set_cn_e (v : Z) (r : cons) : cons :=
  mkCons (cn_buf r) (cn_r r) (cn_w r) v.

(** The transmit buffer of the driver, and the device: [u_out] and [u_rx] are the
    bytes it was given and the bytes it has for the kernel, [u_polls] its answers
    to the next tests of [LSR_TX_IDLE] (it is idle from then on). *)
Record uart := mkUart {
  u_tx_buf : list Z; (* uart_tx_buf[UART_TX_BUF_SIZE] *)
  u_tx_w : Z; (* uart_tx_w *)
  u_tx_r : Z; (* uart_tx_r *)
  u_out : list Z; (* bytes written to THR, latest first *)
  u_rx : list Z; (* bytes waiting to be read from RHR *)
  u_polls : list bool; (* answers to the next reads of LSR_TX_IDLE *)
}.

Definition set_u_tx_buf (v : list Z) (r : uart) : uart :=
  mkUart v (u_tx_w r) (u_tx_r r) (u_out r) (u_rx r) (u_polls r).
Definition set_u_tx_w (v : Z) (r : uart) : uart :=
  mkUart (u_tx_buf r) v (u_tx_r r) (u_out r) (u_rx r) (u_polls r).
Definition set_u_tx_r (v : Z) (r : uart) : uart :=
  mkUart (u_tx_buf r) (u_tx_w r) v (u_out r) (u_rx r) (u_polls r).
Definition set_u_out (v : list Z) (r : uart) : uart :=
  mkUart (u_tx_buf r) (u_tx_w r) (u_tx_r r) v (u_rx r) (u_polls r).
Definition set_u_rx (v : list Z) (r : uart) : uart :=
  mkUart (u_tx_buf r) (u_tx_w r) (u_tx_r r) (u_out r) v (u_polls r).
Definition set_u_polls (v : list bool) (r : uart) : uart :=
  mkUart (u_tx_buf r) (u_tx_w r) (u_tx_r r) (u_out r) (u_rx r) v.

(** ** Control and status registers of a hart

    [SSTATUS_SIE] is [c_sie] of the hart's [cpu]; [csr_sstatus] has the other bits. *)
Record csr := mkCsr {
  csr_sepc : Z;
  csr_scause : Z;
  csr_stval : Z;
  csr_sstatus : Z;
  csr_stvec : Z;
  csr_satp : Z;
  csr_sip : Z;
  csr_sie : Z;
  csr_mstatus : Z;
  csr_mepc : Z;
  csr_mie : Z;
  csr_medeleg : Z;
  csr_mideleg : Z;
  csr_mtvec : Z;
  csr_pmpcfg0 : Z;
  csr_pmpaddr0 : Z;
  csr_mscratch : Z;
  csr_mcounteren : Z;
}.

Definition set_csr_sepc (v : Z) (r : csr) : csr :=
  mkCsr v (csr_scause r) (csr_stval r) (csr_sstatus r) (csr_stvec r) (csr_satp r)
    (csr_sip r) (csr_sie r) (csr_mstatus r) (csr_mepc r) (csr_mie r) (csr_medeleg r)
    (csr_mideleg r) (csr_mtvec r) (csr_pmpcfg0 r) (csr_pmpaddr0 r) (csr_mscratch r)
    (csr_mcounteren r).
Definition set_csr_scause (v : Z) (r : csr) : csr :=
  mkCsr (csr_sepc r) v (csr_stval r) (csr_sstatus r) (csr_stvec r) (csr_satp r)
    (csr_sip r) (csr_sie r) (csr_mstatus r) (csr_mepc r) (csr_mie r) (csr_medeleg r)
    (csr_mideleg r) (csr_mtvec r) (csr_pmpcfg0 r) (csr_pmpaddr0 r) (csr_mscratch r)
    (csr_mcounteren r).
Definition set_csr_stval (v : Z) (r : csr) : csr :=
  mkCsr (csr_sepc r) (csr_scause r) v (csr_sstatus r) (csr_stvec r) (csr_satp r)
    (csr_sip r) (csr_sie r) (csr_mstatus r) (csr_mepc r) (csr_mie r) (csr_medeleg r)
    (csr_mideleg r) (csr_mtvec r) (csr_pmpcfg0 r) (csr_pmpaddr0 r) (csr_mscratch r)
    (csr_mcounteren r).
Definition set_csr_sstatus (v : Z) (r : csr) : csr :=
  mkCsr (csr_sepc r) (csr_scause r) (csr_stval r) v (csr_stvec r) (csr_satp r)
    (csr_sip r) (csr_sie r) (csr_mstatus r) (csr_mepc r) (csr_mie r) (csr_medeleg r)
    (csr_mideleg r) (csr_mtvec r) (csr_pmpcfg0 r) (csr_pmpaddr0 r) (csr_mscratch r)
    (csr_mcounteren r).
Definition set_csr_stvec (v : Z) (r : csr) : csr :=
  mkCsr (csr_sepc r) (csr_scause r) (csr_stval r) (csr_sstatus r) v (csr_satp r)
    (csr_sip r) (csr_sie r) (csr_mstatus r) (csr_mepc r) (csr_mie r) (csr_medeleg r)
    (csr_mideleg r) (csr_mtvec r) (csr_pmpcfg0 r) (csr_pmpaddr0 r) (csr_mscratch r)
    (csr_mcounteren r).
Definition set_csr_satp (v : Z) (r : csr) : csr :=
  mkCsr (csr_sepc r) (csr_scause r) (csr_stval r) (csr_sstatus r) (csr_stvec r) v
    (csr_sip r) (csr_sie r) (csr_mstatus r) (csr_mepc r) (csr_mie r) (csr_medeleg r)
    (csr_mideleg r) (csr_mtvec r) (csr_pmpcfg0 r) (csr_pmpaddr0 r) (csr_mscratch r)
    (csr_mcounteren r).
Definition set_csr_sip (v : Z) (r : csr) : csr :=
  mkCsr (csr_sepc r) (csr_scause r) (csr_stval r) (csr_sstatus r) (csr_stvec r)
    (csr_satp r) v (csr_sie r) (csr_mstatus r) (csr_mepc r) (csr_mie r)
    (csr_medeleg r) (csr_mideleg r) (csr_mtvec r) (csr_pmpcfg0 r) (csr_pmpaddr0 r)
    (csr_mscratch r) (csr_mcounteren r).
Definition set_csr_sie (v : Z) (r : csr) : csr :=
  mkCsr (csr_sepc r) (csr_scause r) (csr_stval r) (csr_sstatus r) (csr_stvec r)
    (csr_satp r) (csr_sip r) v (csr_mstatus r) (csr_mepc r) (csr_mie r)
    (csr_medeleg r) (csr_mideleg r) (csr_mtvec r) (csr_pmpcfg0 r) (csr_pmpaddr0 r)
    (csr_mscratch r) (csr_mcounteren r).
Definition set_csr_mstatus (v : Z) (r : csr) : csr :=
  mkCsr (csr_sepc r) (csr_scause r) (csr_stval r) (csr_sstatus r) (csr_stvec r)
    (csr_satp r) (csr_sip r) (csr_sie r) v (csr_mepc r) (csr_mie r) (csr_medeleg r)
    (csr_mideleg r) (csr_mtvec r) (csr_pmpcfg0 r) (csr_pmpaddr0 r) (csr_mscratch r)
    (csr_mcounteren r).
Definition set_csr_mepc (v : Z) (r : csr) : csr :=
  mkCsr (csr_sepc r) (csr_scause r) (csr_stval r) (csr_sstatus r) (csr_stvec r)
    (csr_satp r) (csr_sip r) (csr_sie r) (csr_mstatus r) v (csr_mie r) (csr_medeleg r)
    (csr_mideleg r) (csr_mtvec r) (csr_pmpcfg0 r) (csr_pmpaddr0 r) (csr_mscratch r)
    (csr_mcounteren r).
Definition set_csr_mie (v : Z) (r : csr) : csr :=
  mkCsr (csr_sepc r) (csr_scause r) (csr_stval r) (csr_sstatus r) (csr_stvec r)
    (csr_satp r) (csr_sip r) (csr_sie r) (csr_mstatus r) (csr_mepc r) v
    (csr_medeleg r) (csr_mideleg r) (csr_mtvec r) (csr_pmpcfg0 r) (csr_pmpaddr0 r)
    (csr_mscratch r) (csr_mcounteren r).
Definition set_csr_medeleg (v : Z) (r : csr) : csr :=
  mkCsr (csr_sepc r) (csr_scause r) (csr_stval r) (csr_sstatus r) (csr_stvec r)
    (csr_satp r) (csr_sip r) (csr_sie r) (csr_mstatus r) (csr_mepc r) (csr_mie r) v
    (csr_mideleg r) (csr_mtvec r) (csr_pmpcfg0 r) (csr_pmpaddr0 r) (csr_mscratch r)
    (csr_mcounteren r).
Definition set_csr_mideleg (v : Z) (r : csr) : csr :=
  mkCsr (csr_sepc r) (csr_scause r) (csr_stval r) (csr_sstatus r) (csr_stvec r)
    (csr_satp r) (csr_sip r) (csr_sie r) (csr_mstatus r) (csr_mepc r) (csr_mie r)
    (csr_medeleg r) v (csr_mtvec r) (csr_pmpcfg0 r) (csr_pmpaddr0 r) (csr_mscratch r)
    (csr_mcounteren r).
Definition set_csr_mtvec (v : Z) (r : csr) : csr :=
  mkCsr (csr_sepc r) (csr_scause r) (csr_stval r) (csr_sstatus r) (csr_stvec r)
    (csr_satp r) (csr_sip r) (csr_sie r) (csr_mstatus r) (csr_mepc r) (csr_mie r)
    (csr_medeleg r) (csr_mideleg r) v (csr_pmpcfg0 r) (csr_pmpaddr0 r)
    (csr_mscratch r) (csr_mcounteren r).
Definition set_csr_pmpcfg0 (v : Z) (r : csr) : csr :=
  mkCsr (csr_sepc r) (csr_scause r) (csr_stval r) (csr_sstatus r) (csr_stvec r)
    (csr_satp r) (csr_sip r) (csr_sie r) (csr_mstatus r) (csr_mepc r) (csr_mie r)
    (csr_medeleg r) (csr_mideleg r) (csr_mtvec r) v (csr_pmpaddr0 r) (csr_mscratch r)
    (csr_mcounteren r).
Definition set_csr_pmpaddr0 (v : Z) (r : csr) : csr :=
  mkCsr (csr_sepc r) (csr_scause r) (csr_stval r) (csr_sstatus r) (csr_stvec r)
    (csr_satp r) (csr_sip r) (csr_sie r) (csr_mstatus r) (csr_mepc r) (csr_mie r)
    (csr_medeleg r) (csr_mideleg r) (csr_mtvec r) (csr_pmpcfg0 r) v (csr_mscratch r)
    (csr_mcounteren r).
Definition set_csr_mscratch (v : Z) (r : csr) : csr :=
  mkCsr (csr_sepc r) (csr_scause r) (csr_stval r) (csr_sstatus r) (csr_stvec r)
    (csr_satp r) (csr_sip r) (csr_sie r) (csr_mstatus r) (csr_mepc r) (csr_mie r)
    (csr_medeleg r) (csr_mideleg r) (csr_mtvec r) (csr_pmpcfg0 r) (csr_pmpaddr0 r) v
    (csr_mcounteren r).
Definition set_csr_mcounteren (v : Z) (r : csr) : csr :=
  mkCsr (csr_sepc r) (csr_scause r) (csr_stval r) (csr_sstatus r) (csr_stvec r)
    (csr_satp r) (csr_sip r) (csr_sie r) (csr_mstatus r) (csr_mepc r) (csr_mie r)
    (csr_medeleg r) (csr_mideleg r) (csr_mtvec r) (csr_pmpcfg0 r) (csr_pmpaddr0 r)
    (csr_mscratch r) v.
