(* ===== verification/State.v ===== *)
(** * The kernel's state and the effect monad

    The global variables of the kernel as one record, and the monad [K] in which
    the kernel's functions are written. *)

From S2P Require Import Prelude Data.

(** ** The kernel's global variables

    A spinlock with [locked = 1] is in [k_locks] with the index of the cpu that
    [lk->cpu] points to; a free one is absent. *)
Record kstate := mkKstate {
  k_hart : nat; (* tp: the hart executing the code *)
  k_cpus : list cpu; (* cpus[NCPU] *)
  k_locks : gmap lockid nat; (* locked spinlocks, with their holder *)
  k_procs : list proc; (* proc[NPROC] *)
  k_initproc : option nat; (* initproc *)
  k_nextpid : Z; (* nextpid (int) *)
  k_mlfq_ticks : Z; (* mlfq_ticks (uint64) *)
  k_last_boost_tick : Z; (* last_boost_tick (int) *)
  k_ticks : Z; (* ticks (uint) *)
  k_mem : gmap Z Z; (* physical memory, byte by byte *)
  k_freelist : Z; (* kmem.freelist: physical address, 0 if none *)
  k_kernel_pagetable : Z; (* kernel_pagetable: physical address *)
  k_csrs : list csr; (* control and status registers of each hart *)
  k_sleeplocks : gmap sleeplock_id Z; (* locked sleep-locks, with the pid of the holder *)
  k_bufs : list buf; (* bcache.buf[NBUF] *)
  k_lru : list nat; (* the list of bcache.head: indices from head.next on *)
  k_disk : list (Z * list Z); (* the disk: the writes to its blocks, latest first *)
  k_log : log; (* log *)
  k_sb : superblock; (* sb *)
  k_inodes : list inode; (* itable.inode[NINODE] *)
  k_files : list file; (* ftable.file[NFILE] *)
  k_pipes : gmap Z pipe; (* the pipes, by the physical address of their page *)
  k_devsw : list bool; (* devsw[NDEV]: set to the console functions? *)
  k_cons : cons; (* cons *)
  k_uart : uart; (* the transmit buffer and the UART *)
  k_vdisk : vdisk; (* the disk driver *)
  k_irqs : list Z; (* the PLIC: interrupts it will hand out *)
  k_mmio : list (Z * Z); (* the writes to registers of devices, latest first *)
  k_timer_scratch : list (list Z); (* timer_scratch[NCPU][5] *)
  k_pr_locking : bool; (* pr.locking *)
  k_panicked : bool; (* panicked *)
  k_first : bool; (* first, in forkret *)
  k_started : bool; (* started *)
  k_stack : list Z; (* what uninitialised objects of the stack contain *)
}.

Definition set_k_hart (v : nat) (r : kstate) : kstate :=
  mkKstate v (k_cpus r) (k_locks r) (k_procs r) (k_initproc r) (k_nextpid r)
    (k_mlfq_ticks r) (k_last_boost_tick r) (k_ticks r) (k_mem r) (k_freelist r)
    (k_kernel_pagetable r) (k_csrs r) (k_sleeplocks r) (k_bufs r) (k_lru r) (k_disk r)
    (k_log r) (k_sb r) (k_inodes r) (k_files r) (k_pipes r) (k_devsw r) (k_cons r)
    (k_uart r) (k_vdisk r) (k_irqs r) (k_mmio r) (k_timer_scratch r) (k_pr_locking r)
    (k_panicked r) (k_first r) (k_started r) (k_stack r).
Definition set_k_cpus (v : list cpu) (r : kstate) : kstate :=
  mkKstate (k_hart r) v (k_locks r) (k_procs r) (k_initproc r) (k_nextpid r)
    (k_mlfq_ticks r) (k_last_boost_tick r) (k_ticks r) (k_mem r) (k_freelist r)
    (k_kernel_pagetable r) (k_csrs r) (k_sleeplocks r) (k_bufs r) (k_lru r) (k_disk r)
    (k_log r) (k_sb r) (k_inodes r) (k_files r) (k_pipes r) (k_devsw r) (k_cons r)
    (k_uart r) (k_vdisk r) (k_irqs r) (k_mmio r) (k_timer_scratch r) (k_pr_locking r)
    (k_panicked r) (k_first r) (k_started r) (k_stack r).
Definition set_k_locks (v : gmap lockid nat) (r : kstate) : kstate :=
  mkKstate (k_hart r) (k_cpus r) v (k_procs r) (k_initproc r) (k_nextpid r)
    (k_mlfq_ticks r) (k_last_boost_tick r) (k_ticks r) (k_mem r) (k_freelist r)
    (k_kernel_pagetable r) (k_csrs r) (k_sleeplocks r) (k_bufs r) (k_lru r) (k_disk r)
    (k_log r) (k_sb r) (k_inodes r) (k_files r) (k_pipes r) (k_devsw r) (k_cons r)
    (k_uart r) (k_vdisk r) (k_irqs r) (k_mmio r) (k_timer_scratch r) (k_pr_locking r)
    (k_panicked r) (k_first r) (k_started r) (k_stack r).
Definition set_k_procs (v : list proc) (r : kstate) : kstate :=
  mkKstate (k_hart r) (k_cpus r) (k_locks r) v (k_initproc r) (k_nextpid r)
    (k_mlfq_ticks r) (k_last_boost_tick r) (k_ticks r) (k_mem r) (k_freelist r)
    (k_kernel_pagetable r) (k_csrs r) (k_sleeplocks r) (k_bufs r) (k_lru r) (k_disk r)
    (k_log r) (k_sb r) (k_inodes r) (k_files r) (k_pipes r) (k_devsw r) (k_cons r)
    (k_uart r) (k_vdisk r) (k_irqs r) (k_mmio r) (k_timer_scratch r) (k_pr_locking r)
    (k_panicked r) (k_first r) (k_started r) (k_stack r).
Definition set_k_initproc (v : option nat) (r : kstate) : kstate :=
  mkKstate (k_hart r) (k_cpus r) (k_locks r) (k_procs r) v (k_nextpid r)
    (k_mlfq_ticks r) (k_last_boost_tick r) (k_ticks r) (k_mem r) (k_freelist r)
    (k_kernel_pagetable r) (k_csrs r) (k_sleeplocks r) (k_bufs r) (k_lru r) (k_disk r)
    (k_log r) (k_sb r) (k_inodes r) (k_files r) (k_pipes r) (k_devsw r) (k_cons r)
    (k_uart r) (k_vdisk r) (k_irqs r) (k_mmio r) (k_timer_scratch r) (k_pr_locking r)
    (k_panicked r) (k_first r) (k_started r) (k_stack r).
Definition set_k_nextpid (v : Z) (r : kstate) : kstate :=
  mkKstate (k_hart r) (k_cpus r) (k_locks r) (k_procs r) (k_initproc r) v
    (k_mlfq_ticks r) (k_last_boost_tick r) (k_ticks r) (k_mem r) (k_freelist r)
    (k_kernel_pagetable r) (k_csrs r) (k_sleeplocks r) (k_bufs r) (k_lru r) (k_disk r)
    (k_log r) (k_sb r) (k_inodes r) (k_files r) (k_pipes r) (k_devsw r) (k_cons r)
    (k_uart r) (k_vdisk r) (k_irqs r) (k_mmio r) (k_timer_scratch r) (k_pr_locking r)
    (k_panicked r) (k_first r) (k_started r) (k_stack r).
Definition set_k_mlfq_ticks (v : Z) (r : kstate) : kstate :=
  mkKstate (k_hart r) (k_cpus r) (k_locks r) (k_procs r) (k_initproc r) (k_nextpid r)
    v (k_last_boost_tick r) (k_ticks r) (k_mem r) (k_freelist r)
    (k_kernel_pagetable r) (k_csrs r) (k_sleeplocks r) (k_bufs r) (k_lru r) (k_disk r)
    (k_log r) (k_sb r) (k_inodes r) (k_files r) (k_pipes r) (k_devsw r) (k_cons r)
    (k_uart r) (k_vdisk r) (k_irqs r) (k_mmio r) (k_timer_scratch r) (k_pr_locking r)
    (k_panicked r) (k_first r) (k_started r) (k_stack r).
Definition set_k_last_boost_tick (v : Z) (r : kstate) : kstate :=
  mkKstate (k_hart r) (k_cpus r) (k_locks r) (k_procs r) (k_initproc r) (k_nextpid r)
    (k_mlfq_ticks r) v (k_ticks r) (k_mem r) (k_freelist r) (k_kernel_pagetable r)
    (k_csrs r) (k_sleeplocks r) (k_bufs r) (k_lru r) (k_disk r) (k_log r) (k_sb r)
    (k_inodes r) (k_files r) (k_pipes r) (k_devsw r) (k_cons r) (k_uart r) (k_vdisk r)
    (k_irqs r) (k_mmio r) (k_timer_scratch r) (k_pr_locking r) (k_panicked r)
    (k_first r) (k_started r) (k_stack r).
Definition set_k_ticks (v : Z) (r : kstate) : kstate :=
  mkKstate (k_hart r) (k_cpus r) (k_locks r) (k_procs r) (k_initproc r) (k_nextpid r)
    (k_mlfq_ticks r) (k_last_boost_tick r) v (k_mem r) (k_freelist r)
    (k_kernel_pagetable r) (k_csrs r) (k_sleeplocks r) (k_bufs r) (k_lru r) (k_disk r)
    (k_log r) (k_sb r) (k_inodes r) (k_files r) (k_pipes r) (k_devsw r) (k_cons r)
    (k_uart r) (k_vdisk r) (k_irqs r) (k_mmio r) (k_timer_scratch r) (k_pr_locking r)
    (k_panicked r) (k_first r) (k_started r) (k_stack r).
Definition set_k_mem (v : gmap Z Z) (r : kstate) : kstate :=
  mkKstate (k_hart r) (k_cpus r) (k_locks r) (k_procs r) (k_initproc r) (k_nextpid r)
    (k_mlfq_ticks r) (k_last_boost_tick r) (k_ticks r) v (k_freelist r)
    (k_kernel_pagetable r) (k_csrs r) (k_sleeplocks r) (k_bufs r) (k_lru r) (k_disk r)
    (k_log r) (k_sb r) (k_inodes r) (k_files r) (k_pipes r) (k_devsw r) (k_cons r)
    (k_uart r) (k_vdisk r) (k_irqs r) (k_mmio r) (k_timer_scratch r) (k_pr_locking r)
    (k_panicked r) (k_first r) (k_started r) (k_stack r).
Definition set_k_freelist (v : Z) (r : kstate) : kstate :=
  mkKstate (k_hart r) (k_cpus r) (k_locks r) (k_procs r) (k_initproc r) (k_nextpid r)
    (k_mlfq_ticks r) (k_last_boost_tick r) (k_ticks r) (k_mem r) v
    (k_kernel_pagetable r) (k_csrs r) (k_sleeplocks r) (k_bufs r) (k_lru r) (k_disk r)
    (k_log r) (k_sb r) (k_inodes r) (k_files r) (k_pipes r) (k_devsw r) (k_cons r)
    (k_uart r) (k_vdisk r) (k_irqs r) (k_mmio r) (k_timer_scratch r) (k_pr_locking r)
    (k_panicked r) (k_first r) (k_started r) (k_stack r).
Definition set_k_kernel_pagetable (v : Z) (r : kstate) : kstate :=
  mkKstate (k_hart r) (k_cpus r) (k_locks r) (k_procs r) (k_initproc r) (k_nextpid r)
    (k_mlfq_ticks r) (k_last_boost_tick r) (k_ticks r) (k_mem r) (k_freelist r) v
    (k_csrs r) (k_sleeplocks r) (k_bufs r) (k_lru r) (k_disk r) (k_log r) (k_sb r)
    (k_inodes r) (k_files r) (k_pipes r) (k_devsw r) (k_cons r) (k_uart r) (k_vdisk r)
    (k_irqs r) (k_mmio r) (k_timer_scratch r) (k_pr_locking r) (k_panicked r)
    (k_first r) (k_started r) (k_stack r).
Definition set_k_csrs (v : list csr) (r : kstate) : kstate :=
  mkKstate (k_hart r) (k_cpus r) (k_locks r) (k_procs r) (k_initproc r) (k_nextpid r)
    (k_mlfq_ticks r) (k_last_boost_tick r) (k_ticks r) (k_mem r) (k_freelist r)
    (k_kernel_pagetable r) v (k_sleeplocks r) (k_bufs r) (k_lru r) (k_disk r)
    (k_log r) (k_sb r) (k_inodes r) (k_files r) (k_pipes r) (k_devsw r) (k_cons r)
    (k_uart r) (k_vdisk r) (k_irqs r) (k_mmio r) (k_timer_scratch r) (k_pr_locking r)
    (k_panicked r) (k_first r) (k_started r) (k_stack r).
Definition set_k_sleeplocks (v : gmap sleeplock_id Z) (r : kstate) : kstate :=
  mkKstate (k_hart r) (k_cpus r) (k_locks r) (k_procs r) (k_initproc r) (k_nextpid r)
    (k_mlfq_ticks r) (k_last_boost_tick r) (k_ticks r) (k_mem r) (k_freelist r)
    (k_kernel_pagetable r) (k_csrs r) v (k_bufs r) (k_lru r) (k_disk r) (k_log r)
    (k_sb r) (k_inodes r) (k_files r) (k_pipes r) (k_devsw r) (k_cons r) (k_uart r)
    (k_vdisk r) (k_irqs r) (k_mmio r) (k_timer_scratch r) (k_pr_locking r)
    (k_panicked r) (k_first r) (k_started r) (k_stack r).
Definition set_k_bufs (v : list buf) (r : kstate) : kstate :=
  mkKstate (k_hart r) (k_cpus r) (k_locks r) (k_procs r) (k_initproc r) (k_nextpid r)
    (k_mlfq_ticks r) (k_last_boost_tick r) (k_ticks r) (k_mem r) (k_freelist r)
    (k_kernel_pagetable r) (k_csrs r) (k_sleeplocks r) v (k_lru r) (k_disk r)
    (k_log r) (k_sb r) (k_inodes r) (k_files r) (k_pipes r) (k_devsw r) (k_cons r)
    (k_uart r) (k_vdisk r) (k_irqs r) (k_mmio r) (k_timer_scratch r) (k_pr_locking r)
    (k_panicked r) (k_first r) (k_started r) (k_stack r).
Definition set_k_lru (v : list nat) (r : kstate) : kstate :=
  mkKstate (k_hart r) (k_cpus r) (k_locks r) (k_procs r) (k_initproc r) (k_nextpid r)
    (k_mlfq_ticks r) (k_last_boost_tick r) (k_ticks r) (k_mem r) (k_freelist r)
    (k_kernel_pagetable r) (k_csrs r) (k_sleeplocks r) (k_bufs r) v (k_disk r)
    (k_log r) (k_sb r) (k_inodes r) (k_files r) (k_pipes r) (k_devsw r) (k_cons r)
    (k_uart r) (k_vdisk r) (k_irqs r) (k_mmio r) (k_timer_scratch r) (k_pr_locking r)
    (k_panicked r) (k_first r) (k_started r) (k_stack r).
Definition set_k_disk (v : list (Z * list Z)) (r : kstate) : kstate :=
  mkKstate (k_hart r) (k_cpus r) (k_locks r) (k_procs r) (k_initproc r) (k_nextpid r)
    (k_mlfq_ticks r) (k_last_boost_tick r) (k_ticks r) (k_mem r) (k_freelist r)
    (k_kernel_pagetable r) (k_csrs r) (k_sleeplocks r) (k_bufs r) (k_lru r) v
    (k_log r) (k_sb r) (k_inodes r) (k_files r) (k_pipes r) (k_devsw r) (k_cons r)
    (k_uart r) (k_vdisk r) (k_irqs r) (k_mmio r) (k_timer_scratch r) (k_pr_locking r)
    (k_panicked r) (k_first r) (k_started r) (k_stack r).
Definition set_k_log (v : log) (r : kstate) : kstate :=
  mkKstate (k_hart r) (k_cpus r) (k_locks r) (k_procs r) (k_initproc r) (k_nextpid r)
    (k_mlfq_ticks r) (k_last_boost_tick r) (k_ticks r) (k_mem r) (k_freelist r)
    (k_kernel_pagetable r) (k_csrs r) (k_sleeplocks r) (k_bufs r) (k_lru r) (k_disk r)
    v (k_sb r) (k_inodes r) (k_files r) (k_pipes r) (k_devsw r) (k_cons r) (k_uart r)
    (k_vdisk r) (k_irqs r) (k_mmio r) (k_timer_scratch r) (k_pr_locking r)
    (k_panicked r) (k_first r) (k_started r) (k_stack r).
Definition set_k_sb (v : superblock) (r : kstate) : kstate :=
  mkKstate (k_hart r) (k_cpus r) (k_locks r) (k_procs r) (k_initproc r) (k_nextpid r)
    (k_mlfq_ticks r) (k_last_boost_tick r) (k_ticks r) (k_mem r) (k_freelist r)
    (k_kernel_pagetable r) (k_csrs r) (k_sleeplocks r) (k_bufs r) (k_lru r) (k_disk r)
    (k_log r) v (k_inodes r) (k_files r) (k_pipes r) (k_devsw r) (k_cons r) (k_uart r)
    (k_vdisk r) (k_irqs r) (k_mmio r) (k_timer_scratch r) (k_pr_locking r)
    (k_panicked r) (k_first r) (k_started r) (k_stack r).
Definition set_k_inodes (v : list inode) (r : kstate) : kstate :=
  mkKstate (k_hart r) (k_cpus r) (k_locks r) (k_procs r) (k_initproc r) (k_nextpid r)
    (k_mlfq_ticks r) (k_last_boost_tick r) (k_ticks r) (k_mem r) (k_freelist r)
    (k_kernel_pagetable r) (k_csrs r) (k_sleeplocks r) (k_bufs r) (k_lru r) (k_disk r)
    (k_log r) (k_sb r) v (k_files r) (k_pipes r) (k_devsw r) (k_cons r) (k_uart r)
    (k_vdisk r) (k_irqs r) (k_mmio r) (k_timer_scratch r) (k_pr_locking r)
    (k_panicked r) (k_first r) (k_started r) (k_stack r).
Definition set_k_files (v : list file) (r : kstate) : kstate :=
  mkKstate (k_hart r) (k_cpus r) (k_locks r) (k_procs r) (k_initproc r) (k_nextpid r)
    (k_mlfq_ticks r) (k_last_boost_tick r) (k_ticks r) (k_mem r) (k_freelist r)
    (k_kernel_pagetable r) (k_csrs r) (k_sleeplocks r) (k_bufs r) (k_lru r) (k_disk r)
    (k_log r) (k_sb r) (k_inodes r) v (k_pipes r) (k_devsw r) (k_cons r) (k_uart r)
    (k_vdisk r) (k_irqs r) (k_mmio r) (k_timer_scratch r) (k_pr_locking r)
    (k_panicked r) (k_first r) (k_started r) (k_stack r).
Definition set_k_pipes (v : gmap Z pipe) (r : kstate) : kstate :=
  mkKstate (k_hart r) (k_cpus r) (k_locks r) (k_procs r) (k_initproc r) (k_nextpid r)
    (k_mlfq_ticks r) (k_last_boost_tick r) (k_ticks r) (k_mem r) (k_freelist r)
    (k_kernel_pagetable r) (k_csrs r) (k_sleeplocks r) (k_bufs r) (k_lru r) (k_disk r)
    (k_log r) (k_sb r) (k_inodes r) (k_files r) v (k_devsw r) (k_cons r) (k_uart r)
    (k_vdisk r) (k_irqs r) (k_mmio r) (k_timer_scratch r) (k_pr_locking r)
    (k_panicked r) (k_first r) (k_started r) (k_stack r).
Definition set_k_devsw (v : list bool) (r : kstate) : kstate :=
  mkKstate (k_hart r) (k_cpus r) (k_locks r) (k_procs r) (k_initproc r) (k_nextpid r)
    (k_mlfq_ticks r) (k_last_boost_tick r) (k_ticks r) (k_mem r) (k_freelist r)
    (k_kernel_pagetable r) (k_csrs r) (k_sleeplocks r) (k_bufs r) (k_lru r) (k_disk r)
    (k_log r) (k_sb r) (k_inodes r) (k_files r) (k_pipes r) v (k_cons r) (k_uart r)
    (k_vdisk r) (k_irqs r) (k_mmio r) (k_timer_scratch r) (k_pr_locking r)
    (k_panicked r) (k_first r) (k_started r) (k_stack r).
Definition set_k_cons (v : cons) (r : kstate) : kstate :=
  mkKstate (k_hart r) (k_cpus r) (k_locks r) (k_procs r) (k_initproc r) (k_nextpid r)
    (k_mlfq_ticks r) (k_last_boost_tick r) (k_ticks r) (k_mem r) (k_freelist r)
    (k_kernel_pagetable r) (k_csrs r) (k_sleeplocks r) (k_bufs r) (k_lru r) (k_disk r)
    (k_log r) (k_sb r) (k_inodes r) (k_files r) (k_pipes r) (k_devsw r) v (k_uart r)
    (k_vdisk r) (k_irqs r) (k_mmio r) (k_timer_scratch r) (k_pr_locking r)
    (k_panicked r) (k_first r) (k_started r) (k_stack r).
Definition set_k_uart (v : uart) (r : kstate) : kstate :=
  mkKstate (k_hart r) (k_cpus r) (k_locks r) (k_procs r) (k_initproc r) (k_nextpid r)
    (k_mlfq_ticks r) (k_last_boost_tick r) (k_ticks r) (k_mem r) (k_freelist r)
    (k_kernel_pagetable r) (k_csrs r) (k_sleeplocks r) (k_bufs r) (k_lru r) (k_disk r)
    (k_log r) (k_sb r) (k_inodes r) (k_files r) (k_pipes r) (k_devsw r) (k_cons r) v
    (k_vdisk r) (k_irqs r) (k_mmio r) (k_timer_scratch r) (k_pr_locking r)
    (k_panicked r) (k_first r) (k_started r) (k_stack r).
Definition set_k_vdisk (v : vdisk) (r : kstate) : kstate :=
  mkKstate (k_hart r) (k_cpus r) (k_locks r) (k_procs r) (k_initproc r) (k_nextpid r)
    (k_mlfq_ticks r) (k_last_boost_tick r) (k_ticks r) (k_mem r) (k_freelist r)
    (k_kernel_pagetable r) (k_csrs r) (k_sleeplocks r) (k_bufs r) (k_lru r) (k_disk r)
    (k_log r) (k_sb r) (k_inodes r) (k_files r) (k_pipes r) (k_devsw r) (k_cons r)
    (k_uart r) v (k_irqs r) (k_mmio r) (k_timer_scratch r) (k_pr_locking r)
    (k_panicked r) (k_first r) (k_started r) (k_stack r).
Definition set_k_irqs (v : list Z) (r : kstate) : kstate :=
  mkKstate (k_hart r) (k_cpus r) (k_locks r) (k_procs r) (k_initproc r) (k_nextpid r)
    (k_mlfq_ticks r) (k_last_boost_tick r) (k_ticks r) (k_mem r) (k_freelist r)
    (k_kernel_pagetable r) (k_csrs r) (k_sleeplocks r) (k_bufs r) (k_lru r) (k_disk r)
    (k_log r) (k_sb r) (k_inodes r) (k_files r) (k_pipes r) (k_devsw r) (k_cons r)
    (k_uart r) (k_vdisk r) v (k_mmio r) (k_timer_scratch r) (k_pr_locking r)
    (k_panicked r) (k_first r) (k_started r) (k_stack r).
Definition set_k_mmio (v : list (Z * Z)) (r : kstate) : kstate :=
  mkKstate (k_hart r) (k_cpus r) (k_locks r) (k_procs r) (k_initproc r) (k_nextpid r)
    (k_mlfq_ticks r) (k_last_boost_tick r) (k_ticks r) (k_mem r) (k_freelist r)
    (k_kernel_pagetable r) (k_csrs r) (k_sleeplocks r) (k_bufs r) (k_lru r) (k_disk r)
    (k_log r) (k_sb r) (k_inodes r) (k_files r) (k_pipes r) (k_devsw r) (k_cons r)
    (k_uart r) (k_vdisk r) (k_irqs r) v (k_timer_scratch r) (k_pr_locking r)
    (k_panicked r) (k_first r) (k_started r) (k_stack r).
Definition set_k_timer_scratch (v : list (list Z)) (r : kstate) : kstate :=
  mkKstate (k_hart r) (k_cpus r) (k_locks r) (k_procs r) (k_initproc r) (k_nextpid r)
    (k_mlfq_ticks r) (k_last_boost_tick r) (k_ticks r) (k_mem r) (k_freelist r)
    (k_kernel_pagetable r) (k_csrs r) (k_sleeplocks r) (k_bufs r) (k_lru r) (k_disk r)
    (k_log r) (k_sb r) (k_inodes r) (k_files r) (k_pipes r) (k_devsw r) (k_cons r)
    (k_uart r) (k_vdisk r) (k_irqs r) (k_mmio r) v (k_pr_locking r) (k_panicked r)
    (k_first r) (k_started r) (k_stack r).
Definition set_k_pr_locking (v : bool) (r : kstate) : kstate :=
  mkKstate (k_hart r) (k_cpus r) (k_locks r) (k_procs r) (k_initproc r) (k_nextpid r)
    (k_mlfq_ticks r) (k_last_boost_tick r) (k_ticks r) (k_mem r) (k_freelist r)
    (k_kernel_pagetable r) (k_csrs r) (k_sleeplocks r) (k_bufs r) (k_lru r) (k_disk r)
    (k_log r) (k_sb r) (k_inodes r) (k_files r) (k_pipes r) (k_devsw r) (k_cons r)
    (k_uart r) (k_vdisk r) (k_irqs r) (k_mmio r) (k_timer_scratch r) v (k_panicked r)
    (k_first r) (k_started r) (k_stack r).
Definition set_k_panicked (v : bool) (r : kstate) : kstate :=
  mkKstate (k_hart r) (k_cpus r) (k_locks r) (k_procs r) (k_initproc r) (k_nextpid r)
    (k_mlfq_ticks r) (k_last_boost_tick r) (k_ticks r) (k_mem r) (k_freelist r)
    (k_kernel_pagetable r) (k_csrs r) (k_sleeplocks r) (k_bufs r) (k_lru r) (k_disk r)
    (k_log r) (k_sb r) (k_inodes r) (k_files r) (k_pipes r) (k_devsw r) (k_cons r)
    (k_uart r) (k_vdisk r) (k_irqs r) (k_mmio r) (k_timer_scratch r) (k_pr_locking r)
    v (k_first r) (k_started r) (k_stack r).
Definition set_k_first (v : bool) (r : kstate) : kstate :=
  mkKstate (k_hart r) (k_cpus r) (k_locks r) (k_procs r) (k_initproc r) (k_nextpid r)
    (k_mlfq_ticks r) (k_last_boost_tick r) (k_ticks r) (k_mem r) (k_freelist r)
    (k_kernel_pagetable r) (k_csrs r) (k_sleeplocks r) (k_bufs r) (k_lru r) (k_disk r)
    (k_log r) (k_sb r) (k_inodes r) (k_files r) (k_pipes r) (k_devsw r) (k_cons r)
    (k_uart r) (k_vdisk r) (k_irqs r) (k_mmio r) (k_timer_scratch r) (k_pr_locking r)
    (k_panicked r) v (k_started r) (k_stack r).
Definition set_k_started (v : bool) (r : kstate) : kstate :=
  mkKstate (k_hart r) (k_cpus r) (k_locks r) (k_procs r) (k_initproc r) (k_nextpid r)
    (k_mlfq_ticks r) (k_last_boost_tick r) (k_ticks r) (k_mem r) (k_freelist r)
    (k_kernel_pagetable r) (k_csrs r) (k_sleeplocks r) (k_bufs r) (k_lru r) (k_disk r)
    (k_log r) (k_sb r) (k_inodes r) (k_files r) (k_pipes r) (k_devsw r) (k_cons r)
    (k_uart r) (k_vdisk r) (k_irqs r) (k_mmio r) (k_timer_scratch r) (k_pr_locking r)
    (k_panicked r) (k_first r) v (k_stack r).
Definition set_k_stack (v : list Z) (r : kstate) : kstate :=
  mkKstate (k_hart r) (k_cpus r) (k_locks r) (k_procs r) (k_initproc r) (k_nextpid r)
    (k_mlfq_ticks r) (k_last_boost_tick r) (k_ticks r) (k_mem r) (k_freelist r)
    (k_kernel_pagetable r) (k_csrs r) (k_sleeplocks r) (k_bufs r) (k_lru r) (k_disk r)
    (k_log r) (k_sb r) (k_inodes r) (k_files r) (k_pipes r) (k_devsw r) (k_cons r)
    (k_uart r) (k_vdisk r) (k_irqs r) (k_mmio r) (k_timer_scratch r) (k_pr_locking r)
    (k_panicked r) (k_first r) (k_started r) v.

(** ** The monad of kernel code

    A function of the kernel runs on one hart until it returns, panics, spins on
    a lock that another hart holds, or gives up the CPU in [swtch].  The
    [schedule] lists, for each [swtch] in turn, what the rest of the machine does
    to the state before this thread of control is resumed; when it is exhausted
    the thread is [Away], in the state it left.  [Fault] is undefined behaviour
    of C: an array index out of bounds or a null pointer dereferenced. *)

Definition schedule : Type := list (kstate → kstate).

Inductive outcome (A : Type) : Type :=
| Ok (a : A) (e : schedule) (s : kstate)
| Away (s : kstate)
| Panic (msg : string)
| Spin (lk : lockid)
| Fault
| NoFuel.
Arguments Ok {A} a e s.
Arguments Away {A} s.
Arguments Panic {A} msg.
Arguments Spin {A} lk.
Arguments Fault {A}.
Arguments NoFuel {A}.

Definition K (A : Type) : Type := schedule → kstate → outcome A.

#[export] Instance K_ret : MRet K := λ A a e s, Ok a e s.

#[export] Instance K_bind : MBind K := λ A B f m e s,
  match m e s with
  | Ok a e' s' => f a e' s'
  | Away s' => Away s'
  | Panic msg => Panic msg
  | Spin lk => Spin lk
  | Fault => Fault
  | NoFuel => NoFuel
  end.

Definition panic {A} (msg : string) : K A := λ _ _, Panic msg.
Definition fault {A} : K A := λ _ _, Fault.
Definition no_fuel {A} : K A := λ _ _, NoFuel.

(** Reading and assigning global variables. *)
Definition gets {A} (f : kstate → A) : K A := λ e s, Ok (f s) e s.
Definition modify (f : kstate → kstate) : K unit := λ e s, Ok tt e (f s).

Definition when (b : bool) (m : K unit) : K unit := if b then m else mret tt.

(** A pointer that is dereferenced, or an access that may be out of bounds. *)
Definition deref {A} (o : option A) : K A :=
  match o with Some x => mret x | None => fault end.

(** An element of an array. *)
Definition index {A} (l : list A) (i : Z) : K A :=
  if (i <? 0)%Z then fault else
  match l !! Z.to_nat i with Some x => mret x | None => fault end.

(** An uninitialised object of [n] bytes: its contents are indeterminate. *)
Definition uninit (n : nat) : K (list Z) :=
  gets (λ s, take n (k_stack s ++ replicate n 0%Z)).

(** A loop that sleeps in each iteration: every [swtch] takes an element of the
    schedule, so that its length bounds the iterations. *)
Definition sleep_loop {A} (body : nat → K A) : K A := λ e s, body (S (length e)) e s.

(** [proc[i]], read and updated. *)
Definition get_proc (i : nat) : K proc := λ e s,
  match k_procs s !! i with Some p => Ok p e s | None => Fault end.

Definition upd_proc (i : nat) (f : proc → proc) : K unit := λ e s,
  match k_procs s !! i with
  | Some p => Ok tt e (set_k_procs (<[i := f p]> (k_procs s)) s)
  | None => Fault
  end.

(** A [for] loop over a range of indices. *)
Fixpoint for_each {A} (l : list A) (body : A → K unit) : K unit :=
  match l with
  | [] => mret tt
  | x :: l' => body x ;; for_each l' body
  end.

(** The loop [for(p = proc; p < &proc[NPROC]; p++)]. *)
Definition proc_slots : list nat := seq 0 NPROC.

(** Context switch: what runs until this thread is resumed is the next
    element of the schedule. *)
Definition swtch : K unit := λ e s,
  match e with
  | [] => Away s
  | w :: e' => Ok tt e' (w s)
  end.

(** ** Reasoning about [K] *)

(** [m] run from [s] returns [a] in [s'], without a context switch. *)
Definition returns {A} (m : K A) (s : kstate) (a : A) (s' : kstate) : Prop :=
  ∀ e, m e s = Ok a e s'.

Lemma run_bind {A B} (m : K A) (f : A → K B) e s a s' o :
  returns m s a s' → f a e s' = o → (m ≫= f) e s = o.
Proof. intros Hm Hf. unfold mbind, K_bind. by rewrite Hm. Qed.

Lemma run_bind_away {A B} (m : K A) (f : A → K B) e s s' :
  m e s = Away s' → (m ≫= f) e s = Away s'.
Proof. intros Hm. unfold mbind, K_bind. by rewrite Hm. Qed.

Lemma run_bind_spin {A B} (m : K A) (f : A → K B) e s lk :
  m e s = Spin lk → (m ≫= f) e s = Spin lk.
Proof. intros Hm. unfold mbind, K_bind. by rewrite Hm. Qed.

Lemma run_bind_ok {A B} (m : K A) (f : A → K B) e s a e' s' o :
  m e s = Ok a e' s' → f a e' s' = o → (m ≫= f) e s = o.
Proof. intros Hm Hf. unfold mbind, K_bind. by rewrite Hm. Qed.

Lemma returns_bind {A B} (m : K A) (f : A → K B) s a s' b s'' :
  returns m s a s' → returns (f a) s' b s'' → returns (m ≫= f) s b s''.
Proof. intros Hm Hf e. unfold mbind, K_bind. by rewrite Hm. Qed.

(** The final state in another form. *)
Lemma returns_to {A} (m : K A) s a s1 s2 : returns m s a s1 → s1 = s2 → returns m s a s2.
Proof. by intros ? <-. Qed.

Lemma returns_ret {A} (a : A) s : returns (mret a) s a s.
Proof. done. Qed.

Lemma returns_gets {A} (f : kstate → A) s : returns (gets f) s (f s) s.
Proof. done. Qed.

Lemma returns_modify f s : returns (modify f) s tt (f s).
Proof. done. Qed.

Lemma returns_get_proc i p s :
  k_procs s !! i = Some p → returns (get_proc i) s p s.
Proof. intros H e. unfold get_proc. by rewrite H. Qed.

Lemma returns_upd_proc i f p s :
  k_procs s !! i = Some p →
  returns (upd_proc i f) s tt (set_k_procs (<[i := f p]> (k_procs s)) s).
Proof. intros H e. unfold upd_proc. by rewrite H. Qed.

Lemma returns_inj {A} (m : K A) s a s' b s'' :
  returns m s a s' → returns m s b s'' → a = b ∧ s' = s''.
Proof. intros H1 H2. specialize (H1 []). rewrite H2 in H1. by simplify_eq. Qed.

Lemma returns_deref {A} (o : option A) x s : o = Some x → returns (deref o) s x s.
Proof. by intros ->. Qed.

Lemma returns_index {A} (l : list A) (i : Z) x s :
  (0 ≤ i)%Z → l !! Z.to_nat i = Some x → returns (index l i) s x s.
Proof.
  intros Hi Hx e. unfold index. rewrite Hx. by rewrite (proj2 (Z.ltb_ge _ _)).
Qed.

Lemma returns_sleep_loop {A} (body : nat → K A) s a s' :
  (∀ n, returns (body (S n)) s a s') → returns (sleep_loop body) s a s'.
Proof. intros H e. apply H. Qed.

(** What may happen at the context switches of a run, one after the other: step [t] is what
    the rest of the system does between switch [t] and the next turn of the thread. *)
Class Env := env_ok : (nat → kstate → kstate) → Prop.

(** [m] run from [s] returns, after finitely many context switches that the rest of
    the system answers within [Env], from any of its steps on, with a result and a state
    that satisfy [Q]. *)
Definition wp `{Env} {A} (m : K A) (s : kstate) (Q : A → kstate → Prop) : Prop :=
  ∀ w, env_ok w → ∀ k, ∃ n a s', (∀ e, m (map w (seq k n) ++ e) s = Ok a e s') ∧ Q a s'.

Section wp.
Context {En : Env}.

Lemma wp_returns {A} (m : K A) s a s' (Q : A → kstate → Prop) :
  returns m s a s' → Q a s' → wp m s Q.
Proof. intros Hm HQ w Hw k. by exists 0%nat, a, s'. Qed.

Lemma wp_bind {A B} (m : K A) (f : A → K B) s Q :
  wp m s (λ a s', wp (f a) s' Q) → wp (m ≫= f) s Q.
Proof.
  intros Hm w Hw k. destruct (Hm w Hw k) as (n1 & a & s1 & H1 & Hf).
  destruct (Hf w Hw (k + n1)%nat) as (n2 & b & s2 & H2 & HQ).
  exists (n1 + n2)%nat, b, s2. split; [|done]. intros e.
  rewrite seq_app, map_app, <- (assoc (++)). unfold mbind, K_bind. by rewrite H1.
Qed.

Lemma wp_mono {A} (m : K A) s (P Q : A → kstate → Prop) :
  wp m s P → (∀ a s', P a s' → Q a s') → wp m s Q.
Proof.
  intros Hm HPQ w Hw k. destruct (Hm w Hw k) as (n & a & s' & H & HP). exists n, a, s'. auto.
Qed.

Lemma wp_ret {A} (a : A) s (Q : A → kstate → Prop) : Q a s → wp (mret a) s Q.
Proof. intros. by eapply wp_returns. Qed.
End wp.

Create HintDb kernel discriminated.
#[export] Hint Resolve returns_ret returns_gets returns_modify
  returns_get_proc returns_upd_proc : kernel.

(** [kstep] runs the first statement of a sequence; [kret] finishes; [krun]
    does the same in a goal about the outcome of a run. *)
Ltac kstep := eapply returns_bind; [solve [eauto with kernel] | cbn beta].
Ltac krun := eapply run_bind; [solve [eauto with kernel] | cbn beta].
Ltac kret := solve [eauto with kernel].
(** The same for [wp]: [wstep] runs a statement, [wuse H] one specified by [H]. *)
Ltac wstep := apply wp_bind; eapply wp_returns; [solve [eauto with kernel] | cbn beta].
Ltac wuse H := apply wp_bind; eapply wp_mono; [eapply H | cbn beta].

(** ** Initial values

    Static variables of C start as zeros; [nextpid] starts at 1.  [with_procs]
    places the given entries in an otherwise unused table. *)

Definition zero_context : context := mkContext 0 0 (replicate 12 0%Z).
Definition zero_cpu : cpu := mkCpu None 0 false false.
Definition zero_proc : proc :=
  mkProc UNUSED None 0 0 0 None 0 0 0 0 zero_context (replicate NOFILE None) None
    (replicate 16 0%Z) 0 0 0 0 0 0 0.

Definition zero_buf : buf := mkBuf false false 0 0 0 (replicate (Z.to_nat BSIZE) 0%Z).
Definition zero_inode : inode :=
  mkInode 0 0 0 false 0 0 0 0 0 (replicate (Z.to_nat NDIRECT + 1) 0%Z).
Definition zero_file : file := mkFile FD_NONE 0 false false 0 None 0 0.
Definition zero_log : log := mkLog 0 0 0 false 0 0 (replicate (Z.to_nat LOGSIZE) 0%Z).
Definition zero_cons : cons := mkCons (replicate (Z.to_nat INPUT_BUF_SIZE) 0%Z) 0 0 0.
Definition zero_uart : uart := mkUart (replicate (Z.to_nat UART_TX_BUF_SIZE) 0%Z) 0 0 [] [] [].
Definition NUM : nat := 8.
Definition zero_vdisk : vdisk :=
  mkVdisk (replicate NUM (mkDesc DmaNull 0 0 0)) 0 (replicate NUM 0%Z) 0 (replicate NUM 0%Z)
    (replicate NUM false) 0 (replicate NUM (mkInfo None 0)) (replicate NUM (mkReq 0 0 0))
    [0; 0; 0]%Z.
Definition zero_csr : csr := mkCsr 0 0 0 0 0 0 0 0 0 0 0 0 0 0 0 0 0 0.

Definition initial_kstate : kstate :=
  mkKstate 0 (replicate NCPU zero_cpu) ∅ (replicate NPROC zero_proc) None 1 0 0 0 ∅ 0
    0 (replicate NCPU zero_csr) ∅ (replicate NBUF zero_buf) [] [] zero_log
    (mkSuperblock 0 0 0 0 0 0 0 0) (replicate NINODE zero_inode)
    (replicate NFILE zero_file) ∅ (replicate (Z.to_nat NDEV) false) zero_cons zero_uart zero_vdisk []
    [] (replicate NCPU (replicate 5 0%Z))
    false false true false [].

Definition with_procs (l : list (nat * proc)) (s : kstate) : kstate :=
  set_k_procs (foldr (λ x ps, <[x.1 := x.2]> ps) (k_procs s) l) s.

Lemma with_procs_Forall (P : proc → Prop) l :
  P zero_proc → Forall (λ x, P x.2) l → Forall P (k_procs (with_procs l initial_kstate)).
Proof.
  intros H0 Hl. unfold with_procs. cbn [k_procs set_k_procs].
  induction Hl as [|x l Hx Hl IH]; cbn [foldr].
  - by apply Forall_replicate.
  - by apply Forall_insert.
Qed.
