(* ===== verification/Spinlock.v ===== *)
(** * Spinlocks and interrupt nesting ([kernel/spinlock.c], [kernel/proc.c])

    [acquire], [release], [holding], [push_off] and [pop_off] on the executing
    hart, with the rules that the other components use to run a critical section. *)

From S2P Require Import Prelude Data State.

(** ** The executing CPU *)

Definition cpuid : K nat := gets k_hart.

Definition mycpu : K cpu := λ e s,
  match k_cpus s !! k_hart s with Some c => Ok c e s | None => Fault end.

Definition on_cpu (f : cpu → cpu) (s : kstate) : kstate :=
  set_k_cpus (alter f (k_hart s) (k_cpus s)) s.

(** An assignment to a field of [*mycpu()]. *)
Definition upd_cpu (f : cpu → cpu) : K unit := λ e s,
  match k_cpus s !! k_hart s with
  | Some _ => Ok tt e (on_cpu f s)
  | None => Fault
  end.

Definition intr_get : K bool := c ← mycpu; mret (c_sie c).
Definition intr_on : K unit := upd_cpu (set_c_sie true).
Definition intr_off : K unit := upd_cpu (set_c_sie false).

(** ** The lock operations *)

Definition push_off : K unit :=
  old ← intr_get;
  intr_off ;;
  c ← mycpu;
  when (c_noff c =? 0)%Z (upd_cpu (set_c_intena old)) ;;
  upd_cpu (λ c, set_c_noff (c_noff c + 1)%Z c).

Definition pop_off : K unit :=
  c ← mycpu;
  i ← intr_get;
  if (i : bool) then panic "pop_off - interruptible" else
  if (c_noff c <? 1)%Z then panic "pop_off" else
  upd_cpu (λ c, set_c_noff (c_noff c - 1)%Z c) ;;
  c ← mycpu;
  when ((c_noff c =? 0)%Z && c_intena c) intr_on.

Definition initlock (lk : lockid) : K unit :=
  modify (λ s, set_k_locks (delete lk (k_locks s)) s).

(** [lk->locked && lk->cpu == mycpu()] *)
Definition holding (lk : lockid) : K bool :=
  gets (λ s, bool_decide (k_locks s !! lk = Some (k_hart s))).

(** The atomic swap on [lk->locked] succeeds on a free lock and spins on a lock
    that another hart holds; then [lk->cpu] records the holder. *)
Definition test_and_set (lk : lockid) : K unit := λ e s,
  match k_locks s !! lk with
  | Some _ => Spin lk
  | None => Ok tt e (set_k_locks (<[lk := k_hart s]> (k_locks s)) s)
  end.

Definition acquire (lk : lockid) : K unit :=
  push_off ;;
  h ← holding lk;
  if (h : bool) then panic "acquire" else test_and_set lk.

Definition release (lk : lockid) : K unit :=
  h ← holding lk;
  if negb h then panic "release" else
  modify (λ s, set_k_locks (delete lk (k_locks s)) s) ;;
  pop_off.

(** [myproc()]: the process running on this hart, if any. *)
Definition myproc : K (option nat) :=
  push_off ;;
  c ← mycpu;
  let p := c_proc c in
  pop_off ;;
  mret p.

(** ** Critical sections *)

(** The state of a cpu after [push_off]. *)
Definition cpu_enter (c : cpu) : cpu :=
  mkCpu (c_proc c) (c_noff c + 1) (if (c_noff c =? 0)%Z then c_sie c else c_intena c) false.

(** The state after [acquire lk]. *)
Definition locked (lk : lockid) (s : kstate) : kstate :=
  set_k_locks (<[lk := k_hart s]> (k_locks s)) (on_cpu cpu_enter s).

(** A cpu whose bookkeeping is consistent: the nesting depth is not negative,
    interrupts are off while it is positive, and [intena] is up to date when no
    [push_off] is pending. *)
Definition cpu_settled (c : cpu) : Prop :=
  (0 ≤ c_noff c)%Z ∧ ((0 < c_noff c)%Z → c_sie c = false) ∧
  ((c_noff c = 0)%Z → c_intena c = c_sie c).

Definition ready (s : kstate) : Prop :=
  ∃ c, k_cpus s !! k_hart s = Some c ∧ cpu_settled c.

Definition unlocked (lk : lockid) (s : kstate) : Prop := k_locks s !! lk = None.

(** The process running on the executing hart. *)
Definition curproc (s : kstate) : option nat := k_cpus s !! k_hart s ≫= c_proc.

Lemma returns_mycpu s c : k_cpus s !! k_hart s = Some c → returns mycpu s c s.
Proof. intros H e. unfold mycpu. by rewrite H. Qed.

Lemma returns_upd_cpu f s c :
  k_cpus s !! k_hart s = Some c → returns (upd_cpu f) s tt (on_cpu f s).
Proof. intros H e. unfold upd_cpu. by rewrite H. Qed.

Lemma on_cpu_lookup f s c :
  k_cpus s !! k_hart s = Some c →
  k_cpus (on_cpu f s) !! k_hart (on_cpu f s) = Some (f c).
Proof. intros H. simpl. by rewrite list_lookup_alter_eq, H. Qed.

Lemma on_cpu_on_cpu f g s : on_cpu f (on_cpu g s) = on_cpu (f ∘ g) s.
Proof. unfold on_cpu, set_k_cpus; simpl. by rewrite list_alter_alter. Qed.

Lemma on_cpu_cong f g s c :
  k_cpus s !! k_hart s = Some c → f c = g c → on_cpu f s = on_cpu g s.
Proof. intros H Hfg. unfold on_cpu. f_equal. by eapply list_alter_cong. Qed.

Lemma on_cpu_same f s c : k_cpus s !! k_hart s = Some c → f c = c → on_cpu f s = s.
Proof.
  intros H Hf. unfold on_cpu. rewrite (list_alter_same _ _ _ c) by done.
  by destruct s.
Qed.

Lemma returns_push_off s c :
  k_cpus s !! k_hart s = Some c → returns push_off s tt (on_cpu cpu_enter s).
Proof.
  intros Hc. unfold push_off, intr_get, intr_off.
  eapply returns_bind; [eapply returns_bind; [by apply returns_mycpu|apply returns_ret]|].
  eapply returns_bind; [by eapply returns_upd_cpu|].
  eapply returns_bind; [by eapply returns_mycpu, on_cpu_lookup|].
  cbn [c_noff set_c_sie].
  eapply (returns_bind _ _ _ tt (on_cpu (λ c, if (c_noff c =? 0)%Z
            then set_c_intena (c_sie c) (set_c_sie false c)
            else set_c_sie false c) s)).
  - unfold when. destruct (c_noff c =? 0)%Z eqn:E.
    + intros e. erewrite returns_upd_cpu by (by apply on_cpu_lookup).
      rewrite on_cpu_on_cpu. f_equal.
      eapply on_cpu_cong; [done|]. simpl. by rewrite E.
    + intros e. unfold mret, K_ret. f_equal.
      eapply on_cpu_cong; [done|]. simpl. by rewrite E.
  - intros e. erewrite returns_upd_cpu by (by apply on_cpu_lookup).
    rewrite on_cpu_on_cpu. f_equal. eapply on_cpu_cong; [done|].
    simpl. unfold cpu_enter. by destruct (c_noff c =? 0)%Z.
Qed.

(** [pop_off] undoes [push_off]. *)
Lemma returns_pop_off s : ready s → returns pop_off (on_cpu cpu_enter s) tt s.
Proof.
  intros (c & Hc & Hn & Hoff & Hon). pose proof (on_cpu_lookup cpu_enter _ _ Hc) as He.
  unfold pop_off, intr_get.
  eapply returns_bind; [by apply returns_mycpu|].
  eapply returns_bind; [eapply returns_bind; [by apply returns_mycpu|apply returns_ret]|].
  cbn [c_sie c_noff cpu_enter].
  replace (c_noff c + 1 <? 1)%Z with false by lia.
  eapply returns_bind; [by eapply returns_upd_cpu|]. rewrite on_cpu_on_cpu.
  eapply returns_bind; [by eapply returns_mycpu, on_cpu_lookup|].
  intros e. cbn [c_noff c_intena cpu_enter set_c_noff compose].
  replace (c_noff c + 1 - 1)%Z with (c_noff c) by lia.
  unfold when, intr_on. destruct (c_noff c =? 0)%Z eqn:E; cbn [andb].
  - apply Z.eqb_eq in E. specialize (Hon E). destruct (c_sie c) eqn:Es.
    + erewrite returns_upd_cpu by (by apply on_cpu_lookup).
      rewrite on_cpu_on_cpu. f_equal. eapply on_cpu_same; [done|].
      unfold cpu_enter; destruct c; simpl in *. by subst.
    + unfold mret, K_ret. f_equal. eapply on_cpu_same; [done|].
      unfold cpu_enter; destruct c; simpl in *. by subst.
  - unfold mret, K_ret. f_equal. eapply on_cpu_same; [done|].
    unfold cpu_enter, set_c_noff; simpl. rewrite E.
    rewrite <- (Hoff ltac:(lia)). destruct c; simpl in *. f_equal; lia.
Qed.

Lemma returns_holding_locked lk s :
  returns (holding lk) (locked lk s) true (locked lk s).
Proof.
  intros e. unfold holding, gets. f_equal. apply bool_decide_eq_true. simpl.
  by rewrite lookup_insert_eq.
Qed.

(** [acquire] of a free lock takes it. *)
Lemma returns_acquire lk s :
  ready s → unlocked lk s → returns (acquire lk) s tt (locked lk s).
Proof.
  intros (c & Hc & _) Hu. unfold acquire.
  eapply returns_bind; [by eapply returns_push_off|].
  eapply returns_bind; [apply returns_gets|]. simpl.
  rewrite bool_decide_eq_false_2 by (rewrite Hu; done).
  intros e. unfold test_and_set. simpl. by rewrite Hu.
Qed.

(** [acquire] of a lock that another hart holds waits. *)
Lemma acquire_spins lk s h e :
  ready s → k_locks s !! lk = Some h → h ≠ k_hart s → acquire lk e s = Spin lk.
Proof.
  intros (c & Hc & _) Hl Hne. unfold acquire.
  eapply run_bind; [by eapply returns_push_off|].
  eapply run_bind; [apply returns_gets|]. simpl.
  rewrite bool_decide_eq_false_2 by (rewrite Hl; congruence).
  unfold test_and_set. simpl. by rewrite Hl.
Qed.

(** [release] of a lock taken in [s] restores [s]. *)
Lemma returns_release lk s :
  ready s → unlocked lk s → returns (release lk) (locked lk s) tt s.
Proof.
  intros Hr Hu. unfold release.
  eapply returns_bind; [apply returns_holding_locked|]. cbn [negb].
  eapply returns_bind; [apply returns_modify|].
  replace (set_k_locks _ _) with (on_cpu cpu_enter s); [by apply returns_pop_off|].
  unfold locked. simpl. rewrite delete_insert_id by done. by destruct s.
Qed.

Lemma returns_myproc s : ready s → returns myproc s (curproc s) s.
Proof.
  intros Hr. pose proof Hr as (c & Hc & _). unfold myproc, curproc.
  eapply returns_bind; [by eapply returns_push_off|].
  eapply returns_bind; [by eapply returns_mycpu, on_cpu_lookup|].
  eapply returns_bind; [by apply returns_pop_off|].
  rewrite Hc. apply returns_ret.
Qed.

(** The end of a critical section that has changed [s] to [s'], in the form in which
    the code has built the state. *)
Lemma returns_release_from lk s s' :
  s = locked lk s' → ready s' → unlocked lk s' → returns (release lk) s tt s'.
Proof. intros ->. apply returns_release. Qed.

(** A critical section that changes the data of [s] into that of [s']. *)
Lemma returns_critical {A} lk (body : K A) (f : A → K A) s a s' :
  ready s → unlocked lk s → ready s' → unlocked lk s' →
  returns body (locked lk s) a (locked lk s') →
  (∀ s, returns (f a) s a s) →
  returns (acquire lk ;; x ← body; release lk ;; f x) s a s'.
Proof.
  intros. eapply returns_bind; [by apply returns_acquire|].
  eapply returns_bind; [done|]. eapply returns_bind; [by apply returns_release|]. done.
Qed.

(** [ready] looks at the cpus only, and an acquired lock keeps it. *)
Lemma ready_locked lk s : ready s → ready (locked lk s).
Proof.
  intros (c & Hc & Hn & Hoff & Hon). exists (cpu_enter c).
  split; [by apply on_cpu_lookup|]. unfold cpu_settled, cpu_enter; simpl. naive_solver lia.
Qed.

Lemma unlocked_locked lk lk' s : lk ≠ lk' → unlocked lk s → unlocked lk (locked lk' s).
Proof. intros. unfold unlocked, locked; simpl. by rewrite lookup_insert_ne. Qed.

Lemma curproc_locked lk s : curproc (locked lk s) = curproc s.
Proof.
  unfold curproc. simpl. rewrite list_lookup_alter_eq. by destruct (k_cpus s !! k_hart s).
Qed.

(** The order in which two locks were taken does not matter. *)
Lemma locked_comm lk lk' s : lk ≠ lk' → locked lk (locked lk' s) = locked lk' (locked lk s).
Proof.
  intros. unfold locked, on_cpu, set_k_locks, set_k_cpus; simpl.
  by rewrite insert_insert_ne.
Qed.

Lemma returns_release_outer lk lk' s :
  lk ≠ lk' → ready s → unlocked lk s →
  returns (release lk) (locked lk' (locked lk s)) tt (locked lk' s).
Proof.
  intros. rewrite locked_comm by done.
  apply returns_release; [by apply ready_locked|by apply unlocked_locked].
Qed.

(** Assignments to variables other than locks and cpus commute with [acquire]. *)
Lemma locked_set_procs lk v s : locked lk (set_k_procs v s) = set_k_procs v (locked lk s).
Proof. reflexivity. Qed.
Lemma locked_set_bufs lk v s : locked lk (set_k_bufs v s) = set_k_bufs v (locked lk s).
Proof. reflexivity. Qed.
Lemma locked_set_lru lk v s : locked lk (set_k_lru v s) = set_k_lru v (locked lk s).
Proof. reflexivity. Qed.
Lemma locked_set_disk lk v s : locked lk (set_k_disk v s) = set_k_disk v (locked lk s).
Proof. reflexivity. Qed.
Lemma locked_set_log lk v s : locked lk (set_k_log v s) = set_k_log v (locked lk s).
Proof. reflexivity. Qed.
Lemma locked_set_sleeplocks lk v s : locked lk (set_k_sleeplocks v s) = set_k_sleeplocks v (locked lk s).
Proof. reflexivity. Qed.
Lemma locked_set_vdisk lk v s : locked lk (set_k_vdisk v s) = set_k_vdisk v (locked lk s).
Proof. reflexivity. Qed.
Lemma locked_set_mmio lk v s : locked lk (set_k_mmio v s) = set_k_mmio v (locked lk s).
Proof. reflexivity. Qed.
Lemma locked_set_inodes lk v s : locked lk (set_k_inodes v s) = set_k_inodes v (locked lk s).
Proof. reflexivity. Qed.
Lemma locked_set_files lk v s : locked lk (set_k_files v s) = set_k_files v (locked lk s).
Proof. reflexivity. Qed.
Lemma locked_set_pipes lk v s : locked lk (set_k_pipes v s) = set_k_pipes v (locked lk s).
Proof. reflexivity. Qed.
Lemma locked_set_sb lk v s : locked lk (set_k_sb v s) = set_k_sb v (locked lk s).
Proof. reflexivity. Qed.
Lemma locked_set_mem lk v s : locked lk (set_k_mem v s) = set_k_mem v (locked lk s).
Proof. reflexivity. Qed.
Lemma locked_set_freelist lk v s : locked lk (set_k_freelist v s) = set_k_freelist v (locked lk s).
Proof. reflexivity. Qed.
#[export] Hint Rewrite locked_set_procs locked_set_bufs locked_set_lru locked_set_disk locked_set_log
  locked_set_sleeplocks locked_set_vdisk locked_set_mmio locked_set_inodes
  locked_set_files locked_set_pipes locked_set_sb locked_set_mem
  locked_set_freelist : locked.

#[export] Hint Resolve returns_acquire returns_release returns_myproc
  returns_holding_locked ready_locked unlocked_locked : kernel.
#[export] Hint Extern 1 (ready _) => assumption : kernel.
#[export] Hint Extern 1 (unlocked _ _) => assumption : kernel.
