(* ===== verification/Csr.v ===== *)
(** * Control and status registers, device registers ([kernel/riscv.h], [kernel/memlayout.h])

    The accessors of the registers of the executing hart, and writes to the
    memory-mapped registers of devices. *)

From S2P Require Import Prelude Riscv Data State Spinlock.

Local Open Scope Z_scope.

(** ** Registers of the hart *)

Definition get_csr : K csr := λ e s,
  match k_csrs s !! k_hart s with Some c => Ok c e s | None => Fault end.

Definition upd_csr (f : csr → csr) : K unit := λ e s,
  match k_csrs s !! k_hart s with
  | Some _ => Ok tt e (set_k_csrs (alter f (k_hart s) (k_csrs s)) s)
  | None => Fault
  end.

Definition read_csr (f : csr → Z) : K Z := c ← get_csr; mret (f c).

(** [mhartid] and [tp] are the index of the executing hart. *)
Definition r_mhartid : K Z := gets (λ s, Z.of_nat (k_hart s)).
Definition r_tp : K Z := gets (λ s, Z.of_nat (k_hart s)).
Definition w_tp (x : Z) : K unit := modify (set_k_hart (Z.to_nat x)).

Definition MSTATUS_MPP_MASK : Z := Z.shiftl 3 11.
Definition MSTATUS_MPP_M : Z := Z.shiftl 3 11.
Definition MSTATUS_MPP_S : Z := Z.shiftl 1 11.
Definition MSTATUS_MPP_U : Z := Z.shiftl 0 11.
Definition MSTATUS_MIE : Z := Z.shiftl 1 3.

Definition r_mstatus : K Z := read_csr csr_mstatus.
Definition w_mstatus (x : Z) : K unit := upd_csr (set_csr_mstatus x).
Definition w_mepc (x : Z) : K unit := upd_csr (set_csr_mepc x).

Definition SSTATUS_SPP : Z := Z.shiftl 1 8.
Definition SSTATUS_SPIE : Z := Z.shiftl 1 5.
Definition SSTATUS_SIE : Z := Z.shiftl 1 1.

(** [SSTATUS_SIE] is kept in the [cpu] of the hart. *)
Definition r_sstatus : K Z :=
  c ← get_csr;
  sie ← intr_get;
  mret (if (sie : bool) then Z.lor (csr_sstatus c) SSTATUS_SIE
        else Z.ldiff (csr_sstatus c) SSTATUS_SIE).
Definition w_sstatus (x : Z) : K unit :=
  upd_csr (set_csr_sstatus x) ;;
  upd_cpu (set_c_sie (has_flag x SSTATUS_SIE)).

Definition r_sip : K Z := read_csr csr_sip.
Definition w_sip (x : Z) : K unit := upd_csr (set_csr_sip x).

Definition SIE_SEIE : Z := Z.shiftl 1 9.
Definition SIE_STIE : Z := Z.shiftl 1 5.
Definition SIE_SSIE : Z := Z.shiftl 1 1.
Definition r_sie : K Z := read_csr csr_sie.
Definition w_sie (x : Z) : K unit := upd_csr (set_csr_sie x).

Definition MIE_MTIE : Z := Z.shiftl 1 7.
Definition r_mie : K Z := read_csr csr_mie.
Definition w_mie (x : Z) : K unit := upd_csr (set_csr_mie x).

Definition w_sepc (x : Z) : K unit := upd_csr (set_csr_sepc x).
Definition r_sepc : K Z := read_csr csr_sepc.
Definition w_medeleg (x : Z) : K unit := upd_csr (set_csr_medeleg x).
Definition w_mideleg (x : Z) : K unit := upd_csr (set_csr_mideleg x).
Definition w_stvec (x : Z) : K unit := upd_csr (set_csr_stvec x).
Definition r_stvec : K Z := read_csr csr_stvec.
Definition w_mtvec (x : Z) : K unit := upd_csr (set_csr_mtvec x).
Definition w_pmpcfg0 (x : Z) : K unit := upd_csr (set_csr_pmpcfg0 x).
Definition w_pmpaddr0 (x : Z) : K unit := upd_csr (set_csr_pmpaddr0 x).

Definition SATP_SV39 : Z := Z.shiftl 8 60.
Definition MAKE_SATP (pagetable : Z) : Z := Z.lor SATP_SV39 (Z.shiftr pagetable 12).
Definition w_satp (x : Z) : K unit := upd_csr (set_csr_satp x).
Definition r_satp : K Z := read_csr csr_satp.

Definition w_mscratch (x : Z) : K unit := upd_csr (set_csr_mscratch x).
Definition r_scause : K Z := read_csr csr_scause.
Definition r_stval : K Z := read_csr csr_stval.

(** ** Devices *)

Definition CLINT : Z := 0x2000000.
Definition CLINT_MTIMECMP (hartid : Z) : Z := CLINT + 0x4000 + 8 * hartid.
Definition CLINT_MTIME : Z := CLINT + 0xBFF8.
Definition PLIC : Z := 0x0c000000.
Definition PLIC_SENABLE (hart : Z) : Z := PLIC + 0x2080 + hart * 0x100.
Definition PLIC_SPRIORITY (hart : Z) : Z := PLIC + 0x201000 + hart * 0x2000.
Definition PLIC_SCLAIM (hart : Z) : Z := PLIC + 0x201004 + hart * 0x2000.
Definition UART0 : Z := 0x10000000.
Definition UART0_IRQ : Z := 10.
Definition VIRTIO0 : Z := 0x10001000.
Definition VIRTIO0_IRQ : Z := 1.

(** A write to a register; what the device does with it is not in the kernel. *)
Definition mmio_write (addr v : Z) : K unit :=
  modify (λ s, set_k_mmio ((addr, v) :: k_mmio s) s).

(** What a read of a register returns is up to the device. *)
Class Device := mmio_reg : Z → kstate → Z.
Definition mmio_read `{Device} (addr : Z) : K Z := gets (mmio_reg addr).
