(* ===== verification/Kalloc.v ===== *)
(** * Physical page allocator ([kernel/kalloc.c])

    The free list is threaded through the free pages: the first eight bytes of a
    free page hold the address of the next one.  [free_pages] relates the bytes to
    the list of free pages, and the allocator is a stack of pages under it. *)

From S2P Require Import Prelude Memory Riscv Data State Spinlock.

Local Open Scope Z_scope.

Section kalloc.
Context `{Image}.

Definition kfree (pa : Z) : K unit :=
  if negb (pa mod PGSIZE =? 0) || (pa <? image_end) || (PHYSTOP <=? pa)
  then panic "kfree" else
  modify (λ s, set_k_mem (memset (k_mem s) pa 1 (Z.to_nat PGSIZE)) s) ;;
  acquire LkKmem ;;
  modify (λ s, set_k_mem (store64 (k_mem s) pa (k_freelist s)) s) ;;
  modify (set_k_freelist pa) ;;
  release LkKmem.

(** The loop of [freerange]; [fuel] bounds the iterations. *)
Fixpoint freerange_loop (fuel : nat) (p pa_end : Z) : K unit :=
  if p + PGSIZE <=? pa_end then
    match fuel with
    | O => no_fuel
    | S fuel' => kfree p ;; freerange_loop fuel' (p + PGSIZE) pa_end
    end
  else mret tt.

Definition freerange (pa_start pa_end : Z) : K unit :=
  freerange_loop (Z.to_nat (pa_end / PGSIZE)) (PGROUNDUP pa_start) pa_end.

(** [initlock] leaves the lock free. *)
Definition kinit : K unit :=
  modify (λ s, set_k_locks (delete LkKmem (k_locks s)) s) ;;
  freerange image_end PHYSTOP.

Definition kalloc : K Z :=
  acquire LkKmem ;;
  r ← gets k_freelist;
  when (negb (r =? 0)) (modify (λ s, set_k_freelist (load64 (k_mem s) r) s)) ;;
  release LkKmem ;;
  when (negb (r =? 0)) (modify (λ s, set_k_mem (memset (k_mem s) r 5 (Z.to_nat PGSIZE)) s)) ;;
  mret r.

(** ** Representation *)

(** A page that the allocator manages. *)
Definition page_ok (pa : Z) : Prop := page_aligned pa ∧ image_end ≤ pa < PHYSTOP.

Fixpoint free_chain (m : mem) (head : Z) (l : list Z) : Prop :=
  match l with
  | [] => head = 0
  | pa :: l' => head = pa ∧ page_ok pa ∧ free_chain m (load64 m pa) l'
  end.

Definition free_pages (s : kstate) (l : list Z) : Prop :=
  free_chain (k_mem s) (k_freelist s) l ∧ NoDup l.

(** [a] lies in the page at [pa]. *)
Definition in_page (pa a : Z) : Prop := pa ≤ a < pa + PGSIZE.

(** The memories agree outside the pages of [l]. *)
Definition same_outside (l : list Z) (m m' : mem) : Prop :=
  ∀ a, (∀ pa, pa ∈ l → ¬ in_page pa a) → byte_at m' a = byte_at m a.

Lemma pages_disjoint pa pb a :
  page_aligned pa → page_aligned pb → in_page pa a → in_page pb a → pa = pb.
Proof. unfold page_aligned, in_page, PGSIZE. intros. zdiv. Qed.

Lemma same_outside_page l m m' p a :
  Forall page_ok l → page_aligned p → p ∉ l → same_outside l m m' →
  in_page p a → byte_at m' a = byte_at m a.
Proof.
  intros Hok Hp Hni Hs Hin. apply Hs. intros q Hq Hin'. apply Hni.
  rewrite list.Forall_forall in Hok.
  rewrite (pages_disjoint p q a); [done|done|apply Hok, Hq|done|done].
Qed.

Lemma free_chain_ok m head l : free_chain m head l → Forall page_ok l.
Proof.
  revert head. induction l as [|pa l IH]; intros head; simpl; [by constructor|].
  intros (-> & Hok & Hc). constructor; [done|]. by eapply IH.
Qed.

(** The chain does not depend on other pages. *)
Lemma free_chain_frame l' m m' head l :
  Forall page_ok l' → (∀ p, p ∈ l → p ∉ l') → same_outside l' m m' →
  free_chain m head l → free_chain m' head l.
Proof.
  intros Hok. revert head. induction l as [|p l IH]; intros head Hd Hs; simpl; [done|].
  intros (-> & Hp & Hc). split_and!; [done..|]. rewrite <- (load64_ext m m' p).
  - apply IH; [|done|done]. intros q Hq. apply Hd. by right.
  - intros b Hb. symmetry. eapply (same_outside_page l'); [done|apply Hp|apply Hd; by left|done|].
    unfold in_page, PGSIZE. lia.
Qed.

Lemma not_in_singleton (pa : Z) (l : list Z) : pa ∉ l → ∀ p, p ∈ l → p ∉ [pa].
Proof. set_solver. Qed.

Lemma same_outside_memset pa c m :
  same_outside [pa] m (memset m pa c (Z.to_nat PGSIZE)).
Proof.
  intros a Ha. rewrite byte_at_memset, decide_False; [done|]. intros Hin.
  apply (Ha pa); [set_solver|]. unfold in_page, PGSIZE in *. lia.
Qed.

Lemma same_outside_store64 pa v m : same_outside [pa] m (store64 m pa v).
Proof.
  intros a Ha. apply byte_at_store64. intros Hin. apply (Ha pa); [set_solver|].
  unfold in_page, PGSIZE in *. lia.
Qed.

Lemma same_outside_trans l m1 m2 m3 :
  same_outside l m1 m2 → same_outside l m2 m3 → same_outside l m1 m3.
Proof. intros H1 H2 a Ha. rewrite H2 by done. by apply H1. Qed.

(** ** Behaviour *)

(** Only memory and the free list differ. *)
Definition mem_only (s s' : kstate) : Prop :=
  s' = set_k_freelist (k_freelist s') (set_k_mem (k_mem s') s).

Lemma returns_kfree pa s :
  page_ok pa → ready s → unlocked LkKmem s →
  returns (kfree pa) s tt
    (set_k_freelist pa (set_k_mem (store64 (memset (k_mem s) pa 1 (Z.to_nat PGSIZE)) pa
      (k_freelist s)) s)).
Proof.
  intros (Ha & Hl & Hu) Hr Hk. unfold kfree, page_aligned in *.
  replace (pa mod PGSIZE =? 0) with true by lia.
  replace (pa <? image_end) with false by lia.
  replace (PHYSTOP <=? pa) with false by lia. cbn [negb orb].
  set (s1 := set_k_mem (memset (k_mem s) pa 1 (Z.to_nat PGSIZE)) s).
  eapply returns_bind; [apply returns_modify|].
  eapply returns_bind; [by apply (returns_acquire LkKmem s1)|].
  eapply returns_bind; [apply returns_modify|].
  eapply returns_bind; [apply returns_modify|].
  by apply (returns_release LkKmem
    (set_k_freelist pa (set_k_mem (store64 (k_mem s1) pa (k_freelist s)) s1))).
Qed.

Lemma kfree_panics pa e s : ¬ page_ok pa → kfree pa e s = Panic "kfree".
Proof.
  intros Hn. unfold kfree. case_match eqn:E; [done|]. exfalso. apply Hn.
  unfold page_ok, page_aligned. lia.
Qed.

Context {HI : ImageOk}.

Lemma page_ok_range pa : page_ok pa → KERNBASE < pa < PHYSTOP.
Proof. intros [_ ?]. pose proof image_end_range. lia. Qed.

Lemma page_ok_u64 pa : page_ok pa → is_u64 pa.
Proof. intros Hp%page_ok_range. unfold is_u64, PHYSTOP, KERNBASE in *. lia. Qed.

Lemma free_chain_head m head l : free_chain m head l → is_u64 head.
Proof.
  destruct l as [|pa l]; simpl.
  - intros ->. unfold is_u64. lia.
  - intros (-> & Hok & _). by apply page_ok_u64.
Qed.

(** [kfree] pushes the page. *)
Lemma kfree_pushes pa l s :
  page_ok pa → ready s → unlocked LkKmem s → free_pages s l → pa ∉ l →
  ∃ s', returns (kfree pa) s tt s' ∧ mem_only s s' ∧ free_pages s' (pa :: l) ∧
    same_outside [pa] (k_mem s) (k_mem s').
Proof.
  intros Hok Hr Hu [Hc Hnd] Hni. eexists. split; [by apply returns_kfree|].
  assert (same_outside [pa] (k_mem s)
    (store64 (memset (k_mem s) pa 1 (Z.to_nat PGSIZE)) pa (k_freelist s))) as Hs.
  { eapply same_outside_trans; [apply same_outside_memset|apply same_outside_store64]. }
  split_and!; [done| |done]. split; [|by constructor].
  cbn [k_mem k_freelist set_k_freelist set_k_mem free_chain]. split_and!; [done..|].
  rewrite load64_store64 by (by eapply free_chain_head).
  by eapply (free_chain_frame [pa]); [by apply list.Forall_singleton|by apply not_in_singleton|..].
Qed.

(** [kalloc] pops a page, filled with 5. *)
Lemma kalloc_pops pa l s :
  ready s → unlocked LkKmem s → free_pages s (pa :: l) →
  ∃ s', returns kalloc s pa s' ∧ mem_only s s' ∧ free_pages s' l ∧ page_ok pa ∧ pa ∉ l ∧
    same_outside [pa] (k_mem s) (k_mem s') ∧
    ∀ a, in_page pa a → byte_at (k_mem s') a = 5.
Proof.
  intros Hr Hu [(Hhd & Hok & Hc) Hnd]. apply list.NoDup_cons in Hnd as [Hni Hnd].
  pose proof (page_ok_range _ Hok) as Hrange. unfold kalloc.
  exists (set_k_mem (memset (k_mem s) pa 5 (Z.to_nat PGSIZE))
    (set_k_freelist (load64 (k_mem s) pa) s)). split.
  { eapply returns_bind; [by apply returns_acquire|].
    eapply returns_bind; [apply returns_gets|]. cbn [k_freelist locked set_k_locks].
    change (k_freelist (on_cpu cpu_enter s)) with (k_freelist s). rewrite Hhd.
    replace (pa =? 0) with false by (unfold KERNBASE in *; lia). cbn [negb when].
    eapply returns_bind; [apply returns_modify|].
    eapply returns_bind;
      [by apply (returns_release LkKmem (set_k_freelist (load64 (k_mem s) pa) s))|].
    eapply returns_bind; [apply returns_modify|]. apply returns_ret. }
  split_and!; [done| |done|done| |].
  - split; [|done]. by eapply (free_chain_frame [pa]);
      [by apply list.Forall_singleton|by apply not_in_singleton|apply same_outside_memset|].
  - apply same_outside_memset.
  - intros a Ha. cbn. rewrite byte_at_memset, decide_True; [done|].
    unfold in_page, PGSIZE in *. lia.
Qed.

Lemma kalloc_empty s :
  ready s → unlocked LkKmem s → free_pages s [] → returns kalloc s 0 s.
Proof.
  intros Hr Hu [Hhd _]. unfold kalloc. simpl in Hhd.
  eapply returns_bind; [by apply returns_acquire|].
  eapply returns_bind; [apply returns_gets|]. cbn [k_freelist locked set_k_locks].
  change (k_freelist (on_cpu cpu_enter s)) with (k_freelist s). rewrite Hhd. simpl.
  eapply returns_bind; [apply returns_ret|].
  eapply returns_bind; [by apply returns_release|].
  eapply returns_bind; [apply returns_ret|]. apply returns_ret.
Qed.

Lemma mem_only_ready s s' : mem_only s s' → ready s → ready s'.
Proof. by intros ->. Qed.
Lemma mem_only_unlocked lk s s' : mem_only s s' → unlocked lk s → unlocked lk s'.
Proof. by intros ->. Qed.
Lemma mem_only_trans s1 s2 s3 : mem_only s1 s2 → mem_only s2 s3 → mem_only s1 s3.
Proof. unfold mem_only. intros H1 ->. rewrite H1. by destruct s1. Qed.
Lemma mem_only_refl s : mem_only s s.
Proof. by destruct s. Qed.

Lemma mem_only_set_mem s s' m : mem_only s s' → mem_only s (set_k_mem m s').
Proof. unfold mem_only. intros H1. rewrite H1. by destruct s. Qed.

(** ** Initialisation *)

Lemma freerange_loop_frees fuel p pa_end l s :
  page_aligned p → image_end ≤ p → pa_end ≤ PHYSTOP → pa_end < p + PGSIZE * (Z.of_nat fuel + 1) →
  ready s → unlocked LkKmem s → free_pages s l → Forall (λ pa, pa < p) l →
  ∃ l' s', returns (freerange_loop fuel p pa_end) s tt s' ∧ mem_only s s' ∧ free_pages s' l' ∧
    ∀ pa, pa ∈ l' ↔ pa ∈ l ∨ (page_aligned pa ∧ p ≤ pa ∧ pa + PGSIZE ≤ pa_end).
Proof.
  revert p l s. induction fuel as [|fuel IH];
    intros p l s Ha Hlo Hhi Hfuel Hr Hu Hf Hl; cbn [freerange_loop].
  - replace (p + PGSIZE <=? pa_end) with false by lia. exists l, s.
    split_and!; [apply returns_ret|apply mem_only_refl|done|]. intros pa. split; [by left|].
    intros [?|?]; [done|lia].
  - destruct (p + PGSIZE <=? pa_end) eqn:E.
    + assert (page_ok p) as Hok by (unfold page_ok, PGSIZE in *; split; [done|lia]).
      destruct (kfree_pushes p l s) as (s1 & Hk & Hm & Hf1 & _); [done..| |].
      { intros Hin. rewrite list.Forall_forall in Hl. specialize (Hl p Hin). lia. }
      destruct (IH (p + PGSIZE) (p :: l) s1) as (l' & s' & Hret & Hm' & Hf' & Hin').
      * unfold page_aligned, PGSIZE in *. zdiv.
      * unfold PGSIZE. lia.
      * done.
      * lia.
      * by eapply mem_only_ready.
      * by eapply mem_only_unlocked.
      * done.
      * constructor; [unfold PGSIZE; lia|]. apply (list.Forall_impl _ _ _ Hl).
        intros x Hx. unfold PGSIZE. lia.
      * exists l', s'. split_and!; [by eapply returns_bind|by eapply mem_only_trans|done|].
        intros pa. rewrite Hin', elem_of_cons. split.
        -- intros [[->|?]|(? & ? & ?)]; [right|by left|right];
             (split_and!; [done|unfold PGSIZE in *; lia|unfold PGSIZE in *; lia]).
        -- intros [?|(Hpa & Hge & Hle)]; [by left; right|].
           destruct (decide (pa = p)) as [->|Hne]; [by left; left|]. right.
           split_and!; [done| |done]. unfold page_aligned, PGSIZE in *. zdiv.
    + exists l, s. split_and!; [apply returns_ret|apply mem_only_refl|done|]. intros pa.
      split; [by left|]. intros [?|?]; [done|lia].
Qed.

Lemma kinit_frees s :
  ready s → unlocked LkKmem s → k_freelist s = 0 →
  ∃ l s', returns kinit s tt s' ∧ mem_only s s' ∧ free_pages s' l ∧ ∀ pa, pa ∈ l ↔ page_ok pa.
Proof.
  intros Hr Hu H0. pose proof image_end_range as He. unfold kinit.
  assert (0 ≤ image_end < 2 ^ 64 - PGSIZE) as Hb
    by (unfold PHYSTOP, KERNBASE, PGSIZE in *; lia).
  pose proof (PGROUNDUP_range image_end Hb) as Hround.
  destruct (freerange_loop_frees (Z.to_nat (PHYSTOP / PGSIZE)) (PGROUNDUP image_end) PHYSTOP [] s)
    as (l & s' & Hret & Hm & Hf & Hin); try done; try lia.
  - by apply PGROUNDUP_aligned.
  - rewrite Z2Nat.id by done. change (PHYSTOP / PGSIZE) with 557056.
    unfold PHYSTOP, KERNBASE, PGSIZE in *. lia.
  - split; [done|constructor].
  - exists l, s'. split_and!; [|done|done|].
    + eapply returns_bind; [apply returns_modify|]. unfold freerange.
      rewrite delete_id by done. by replace (set_k_locks (k_locks s) s) with s by (by destruct s).
    + intros pa. rewrite Hin. pose proof (PGROUNDUP_aligned image_end Hb) as Hal.
      unfold page_ok, page_aligned, PHYSTOP, KERNBASE, PGSIZE in *. split.
      * intros [?%not_elem_of_nil|?]; [done|]. split; [tauto|lia].
      * intros [Ha ?]. right. split_and!; [done|zdiv|zdiv].
Qed.

End kalloc.
