(* ===== verification/KallocProps.v ===== *)
(** * Correctness of the page allocator

    Clients allocate pages, write to the pages they own, and free them.  In every
    state they can reach from boot, the allocator hands out each page at most once
    and loses none. *)

From S2P Require Import Prelude Memory Riscv Data State Spinlock Kalloc.

Local Open Scope Z_scope.

Section clients.
Context `{HIm : ImageOk}.

(** A hart at boot, before [kinit]. *)
Definition boot (s : kstate) : Prop :=
  ready s ∧ unlocked LkKmem s ∧ k_freelist s = 0.

(** The reachable states, each with the list of the pages that clients own. *)
Inductive alloc_reach (s0 : kstate) : kstate → list Z → Prop :=
| reach_kinit s :
    returns kinit s0 tt s → alloc_reach s0 s []
| reach_kalloc s live pa s' :
    alloc_reach s0 s live → returns kalloc s pa s' →
    alloc_reach s0 s' (if pa =? 0 then live else pa :: live)
| reach_write s live m :
    alloc_reach s0 s live → same_outside live (k_mem s) m →
    alloc_reach s0 (set_k_mem m s) live
| reach_kfree s l1 pa l2 s' :
    alloc_reach s0 s (l1 ++ pa :: l2) → returns (kfree pa) s tt s' →
    alloc_reach s0 s' (l1 ++ l2).

(** The pages are divided into free ones and owned ones. *)
Definition divided (s : kstate) (live : list Z) : Prop :=
  ready s ∧ unlocked LkKmem s ∧
  ∃ l, free_pages s l ∧ NoDup (l ++ live) ∧ ∀ pa, pa ∈ l ++ live ↔ page_ok pa.

Lemma NoDup_app_disjoint (l live : list Z) pa : NoDup (l ++ live) → pa ∈ l → pa ∉ live.
Proof. intros (_ & Hd & _)%list.NoDup_app. apply Hd. Qed.

Lemma divided_kalloc s live :
  divided s live →
  ∃ pa s', returns kalloc s pa s' ∧ divided s' (if pa =? 0 then live else pa :: live) ∧
    (pa = 0 → ∀ q, page_ok q → q ∈ live) ∧ (pa ≠ 0 → page_ok pa ∧ pa ∉ live).
Proof.
  intros (Hr & Hu & [|pa l] & Hf & Hnd & Hall).
  - exists 0, s. split_and!; [by apply kalloc_empty| |by intros _ q Hq%Hall|done].
    split_and!; [done..|]. by exists [].
  - destruct (kalloc_pops pa l s) as (s' & Hk & Hm & Hf' & Hok & Hni & _); [done..|].
    exists pa, s'. pose proof (page_ok_range _ Hok).
    replace (pa =? 0) with false by (unfold KERNBASE in *; lia).
    split_and!; [done| |unfold KERNBASE in *; lia|].
    + split_and!; [by eapply mem_only_ready|by eapply mem_only_unlocked|].
      exists l. split_and!; [done|by rewrite <- Permutation_middle|].
      intros q. by rewrite <- Permutation_middle.
    + intros _. split; [done|]. apply (NoDup_app_disjoint (pa :: l)); [done|by left].
Qed.

Lemma divided_kfree s l1 pa l2 :
  divided s (l1 ++ pa :: l2) → ∃ s', returns (kfree pa) s tt s' ∧ divided s' (l1 ++ l2).
Proof.
  intros (Hr & Hu & l & Hf & Hnd & Hall).
  assert (page_ok pa) as Hok by (apply Hall; set_solver).
  assert (l ++ l1 ++ pa :: l2 ≡ₚ (pa :: l) ++ (l1 ++ l2)) as Hp
    by (by rewrite <- Permutation_middle, <- Permutation_middle).
  destruct (kfree_pushes pa l s) as (s' & Hk & Hm & Hf' & _); [done..| |].
  { intros Hin. by eapply (NoDup_app_disjoint l); [done|done|set_solver]. }
  exists s'. split; [done|].
  split_and!; [by eapply mem_only_ready|by eapply mem_only_unlocked|].
  exists (pa :: l). split_and!; [done|by rewrite <- Hp|]. intros q. by rewrite <- Hp.
Qed.

Lemma divided_write s live m :
  divided s live → same_outside live (k_mem s) m → divided (set_k_mem m s) live.
Proof.
  intros (Hr & Hu & l & [Hc Hl] & Hnd & Hall) Hs. split_and!; [done..|]. exists l.
  split_and!; [|done|done]. split; [|done].
  eapply (free_chain_frame live); [|by intros ?; apply NoDup_app_disjoint|done|done].
  apply list.Forall_forall. intros q Hq. apply Hall. set_solver.
Qed.

Lemma alloc_reach_divided s0 s live : boot s0 → alloc_reach s0 s live → divided s live.
Proof.
  intros (Hr0 & Hu0 & H0). induction 1 as [s Hk|s live pa s' _ IH Hk|s live m _ IH Hs|s l1 pa l2 s' _ IH Hk].
  - destruct (kinit_frees s0) as (l & s' & Hk' & Hm & Hf & Hall); [done..|].
    destruct (returns_inj _ _ _ _ _ _ Hk Hk') as [_ ->].
    split_and!; [by eapply mem_only_ready|by eapply mem_only_unlocked|].
    exists l. rewrite app_nil_r. by destruct Hf.
  - destruct (divided_kalloc _ _ IH) as (pa' & s'' & Hk' & Hd & _).
    by destruct (returns_inj _ _ _ _ _ _ Hk Hk') as [-> ->].
  - by apply divided_write.
  - destruct (divided_kfree _ _ _ _ IH) as (s'' & Hk' & Hd).
    by destruct (returns_inj _ _ _ _ _ _ Hk Hk') as [_ ->].
Qed.

(** C17: in every reachable state, whatever clients wrote to their pages, the
    pages they own are distinct pages of free memory; [kalloc] returns a page that
    nobody owns, or 0 when every page is owned; and [kfree] of an owned page
    succeeds. *)
Theorem allocator_exclusive (s0 s : kstate) (live : list Z) :
  boot s0 → alloc_reach s0 s live →
  NoDup live ∧ Forall page_ok live ∧
  (∃ pa s', returns kalloc s pa s' ∧
    if decide (pa = 0) then ∀ q, page_ok q → q ∈ live else page_ok pa ∧ pa ∉ live) ∧
  (∀ pa, pa ∈ live → ∃ s', returns (kfree pa) s tt s').
Proof.
  intros H0 Hreach. pose proof (alloc_reach_divided _ _ _ H0 Hreach) as Hd.
  pose proof Hd as (_ & _ & l & _ & Hnd & Hall). split_and!.
  - by apply list.NoDup_app in Hnd as (_ & _ & ?).
  - apply list.Forall_forall. intros q Hq. apply Hall. set_solver.
  - destruct (divided_kalloc _ _ Hd) as (pa & s' & Hk & _ & Hz & Hnz). exists pa, s'.
    split; [done|]. case_decide; auto.
  - intros pa (l1 & l2 & ->)%list_elem_of_split. by destruct (divided_kfree _ _ _ _ Hd) as (s' & ? & _); eauto.
Qed.

End clients.

(** A kernel image of the usual size. *)
Definition example_image : Image :=
  {| image_etext := 0x80008000; image_end := 0x80022010;
     image_trampoline := 0x80007000; image_forkret := 0x80001a00;
     image_usertrap := 0x80002600; image_kernelvec := 0x80005800;
     image_uservec := 0x80007000; image_userret := 0x8000709c |}.

Lemma example_image_ok : @ImageOk example_image.
Proof. constructor. by vm_compute. Qed.

Lemma boot_initial : boot initial_kstate.
Proof.
  split_and!; [|done|done]. exists zero_cpu. split; [done|].
  unfold cpu_settled. simpl. split_and!; [lia|lia|done].
Qed.

Lemma allocator_exclusive_witness :
  ∃ pa s, @alloc_reach example_image initial_kstate s [pa] ∧ @page_ok example_image pa.
Proof.
  pose (Im := example_image). pose proof example_image_ok as HI.
  destruct (kinit_frees initial_kstate) as (l & s & Hk & _); [apply boot_initial..|].
  assert (alloc_reach initial_kstate s []) as Hr by (by constructor).
  destruct (allocator_exclusive initial_kstate s [] boot_initial Hr)
    as (_ & _ & (pa & s' & Hka & Hpa) & _).
  exists pa, s'. case_decide as E.
  - exfalso. assert (@page_ok example_image 0x80023000) as Hok by (by vm_compute).
    by apply Hpa, not_elem_of_nil in Hok.
  - split; [|apply Hpa].
    replace [pa] with (if pa =? 0 then [] else [pa]); [by eapply reach_kalloc|].
    by replace (pa =? 0) with false by lia.
Defined.
