(* ===== verification/Vm.v ===== *)
(** * Virtual memory ([kernel/vm.c])

    Page tables are 4096-byte pages of [k_mem] holding 512 entries of 64 bits; the
    functions below read and write those bytes.  Kernel objects other than pages
    (locals, structures) are not addresses of [k_mem], so [copyout] takes the bytes
    of its source and [copyin] and [copyinstr] return the bytes that they stored at
    their destination. *)

From S2P Require Import Prelude Memory Riscv Data State Spinlock Kalloc.

Local Open Scope Z_scope.

(** A write of consecutive bytes. *)
Fixpoint write_bytes (m : mem) (a : Z) (l : list Z) : mem :=
  match l with
  | [] => m
  | c :: l' => write_bytes (<[a := u8 c]> m) (a + 1) l'
  end.

(** A read of consecutive bytes. *)
Fixpoint read_bytes (m : mem) (a : Z) (n : nat) : list Z :=
  match n with
  | O => []
  | S n' => byte_at m a :: read_bytes m (a + 1) n'
  end.

(** Loads, stores and block operations on the machine's memory. *)
Definition load (a : Z) : K Z := gets (λ s, load64 (k_mem s) a).
Definition store (a v : Z) : K unit := modify (λ s, set_k_mem (store64 (k_mem s) a v) s).
Definition zero_page (pa : Z) : K unit :=
  modify (λ s, set_k_mem (memset (k_mem s) pa 0 (Z.to_nat PGSIZE)) s).
Definition move (dst src : Z) (n : nat) : K unit :=
  modify (λ s, set_k_mem (memmove (k_mem s) dst src n) s).
Definition put_bytes (a : Z) (l : list Z) : K unit :=
  modify (λ s, set_k_mem (write_bytes (k_mem s) a l) s).

Section vm.
Context `{Image}.

(** ** Walking *)

(** The loop of [walk] over the upper levels, then the address of the leaf entry;
    0 is the null pointer. *)
Fixpoint walk_levels (levels : list Z) (pagetable va : Z) (alloc : bool) : K Z :=
  match levels with
  | [] => mret (pagetable + 8 * PX 0 va)
  | level :: levels' =>
      let pte := pagetable + 8 * PX level va in
      v ← load pte;
      if has_flag v PTE_V then walk_levels levels' (PTE2PA v) va alloc
      else if negb alloc then mret 0 else
        new ← kalloc;
        if new =? 0 then mret 0 else
        zero_page new ;;
        store pte (Z.lor (PA2PTE new) PTE_V) ;;
        walk_levels levels' new va alloc
  end.

Definition walk (pagetable va : Z) (alloc : bool) : K Z :=
  if MAXVA <=? va then panic "walk" else walk_levels [2; 1] pagetable va alloc.

Definition walkaddr (pagetable va : Z) : K Z :=
  if MAXVA <=? va then mret 0 else
  pte ← walk pagetable va false;
  if pte =? 0 then mret 0 else
  v ← load pte;
  if negb (has_flag v PTE_V) then mret 0 else
  if negb (has_flag v PTE_U) then mret 0 else
  mret (PTE2PA v).

(** ** Mapping *)

Fixpoint mappages_loop (fuel : nat) (pagetable a last pa perm : Z) : K Z :=
  match fuel with
  | O => no_fuel
  | S fuel' =>
      pte ← walk pagetable a true;
      if pte =? 0 then mret (-1) else
      v ← load pte;
      if has_flag v PTE_V then panic "mappages: remap" else
      store pte (Z.lor (Z.lor (PA2PTE pa) perm) PTE_V) ;;
      if a =? last then mret 0
      else mappages_loop fuel' pagetable (u64 (a + PGSIZE)) last (u64 (pa + PGSIZE)) perm
  end.

Definition mappages (pagetable va size pa perm : Z) : K Z :=
  if negb (va mod PGSIZE =? 0) then panic "mappages: va not aligned" else
  if negb (size mod PGSIZE =? 0) then panic "mappages: size not aligned" else
  if size =? 0 then panic "mappages: size" else
  mappages_loop (Z.to_nat (size / PGSIZE)) pagetable va (u64 (va + size - PGSIZE)) pa perm.

Definition kvmmap (kpgtbl va pa sz perm : Z) : K unit :=
  r ← mappages kpgtbl va sz pa perm;
  if negb (r =? 0) then panic "kvmmap" else mret tt.

Fixpoint uvmunmap_loop (fuel : nat) (pagetable a bound : Z) (do_free : bool) : K unit :=
  if a <? bound then
    match fuel with
    | O => no_fuel
    | S fuel' =>
        pte ← walk pagetable a false;
        if pte =? 0 then panic "uvmunmap: walk" else
        v ← load pte;
        if negb (has_flag v PTE_V) then panic "uvmunmap: not mapped" else
        if PTE_FLAGS v =? PTE_V then panic "uvmunmap: not a leaf" else
        when do_free (kfree (PTE2PA v)) ;;
        store pte 0 ;;
        uvmunmap_loop fuel' pagetable (u64 (a + PGSIZE)) bound do_free
    end
  else mret tt.

Definition uvmunmap (pagetable va npages : Z) (do_free : bool) : K unit :=
  if negb (va mod PGSIZE =? 0) then panic "uvmunmap: not aligned" else
  uvmunmap_loop (Z.to_nat npages) pagetable va (u64 (va + npages * PGSIZE)) do_free.

(** ** User address spaces *)

Definition uvmcreate : K Z :=
  pagetable ← kalloc;
  if pagetable =? 0 then mret 0 else
  zero_page pagetable ;;
  mret pagetable.

Definition uvmfirst (pagetable : Z) (src : list Z) : K unit :=
  if PGSIZE <=? Z.of_nat (length src) then panic "uvmfirst: more than a page" else
  new ← kalloc;
  if new =? 0 then fault else
  zero_page new ;;
  _ ← mappages pagetable 0 PGSIZE new (Z.lor (Z.lor (Z.lor PTE_W PTE_R) PTE_X) PTE_U);
  put_bytes new src.

Definition uvmdealloc (pagetable oldsz newsz : Z) : K Z :=
  if oldsz <=? newsz then mret oldsz else
  when (PGROUNDUP newsz <? PGROUNDUP oldsz)
    (let npages := i32 ((PGROUNDUP oldsz - PGROUNDUP newsz) / PGSIZE) in
     uvmunmap pagetable (PGROUNDUP newsz) (u64 npages) true) ;;
  mret newsz.

Fixpoint uvmalloc_loop (fuel : nat) (pagetable oldsz newsz xperm a : Z) : K Z :=
  if a <? newsz then
    match fuel with
    | O => no_fuel
    | S fuel' =>
        new ← kalloc;
        if new =? 0 then
          uvmdealloc pagetable a oldsz ;;
          mret 0
        else
        zero_page new ;;
        r ← mappages pagetable a PGSIZE new (Z.lor (Z.lor PTE_R PTE_U) xperm);
        if negb (r =? 0) then
          kfree new ;;
          uvmdealloc pagetable a oldsz ;;
          mret 0
        else uvmalloc_loop fuel' pagetable oldsz newsz xperm (u64 (a + PGSIZE))
    end
  else mret newsz.

Definition uvmalloc (pagetable oldsz newsz xperm : Z) : K Z :=
  if newsz <? oldsz then mret oldsz else
  let oldsz := PGROUNDUP oldsz in
  uvmalloc_loop (Z.to_nat (newsz / PGSIZE + 1)) pagetable oldsz newsz xperm oldsz.

(** "there are 2^9 = 512 PTEs in a page table." *)
Definition pte_indices : list Z := seqZ 0 512.

(** The recursion of [freewalk] follows the levels of the tree; [depth] bounds it. *)
Fixpoint freewalk (depth : nat) (pagetable : Z) : K unit :=
  match depth with
  | O => no_fuel
  | S depth' =>
      for_each pte_indices (λ i,
        pte ← load (pagetable + 8 * i);
        if has_flag pte PTE_V && (Z.land pte (Z.lor (Z.lor PTE_R PTE_W) PTE_X) =? 0) then
          let child := PTE2PA pte in
          freewalk depth' child ;;
          store (pagetable + 8 * i) 0
        else if has_flag pte PTE_V then panic "freewalk: leaf"
        else mret tt) ;;
      kfree pagetable
  end.

Definition uvmfree (pagetable sz : Z) : K unit :=
  when (0 <? sz) (uvmunmap pagetable 0 (PGROUNDUP sz / PGSIZE) true) ;;
  freewalk 3 pagetable.

Fixpoint uvmcopy_loop (fuel : nat) (old new sz i : Z) : K Z :=
  if i <? sz then
    match fuel with
    | O => no_fuel
    | S fuel' =>
        pte ← walk old i false;
        if pte =? 0 then panic "uvmcopy: pte should exist" else
        v ← load pte;
        if negb (has_flag v PTE_V) then panic "uvmcopy: page not present" else
        let pa := PTE2PA v in
        let flags := PTE_FLAGS v in
        page ← kalloc;
        if page =? 0 then
          uvmunmap new 0 (i / PGSIZE) true ;;
          mret (-1)
        else
        move page pa (Z.to_nat PGSIZE) ;;
        r ← mappages new i PGSIZE page flags;
        if negb (r =? 0) then
          kfree page ;;
          uvmunmap new 0 (i / PGSIZE) true ;;
          mret (-1)
        else uvmcopy_loop fuel' old new sz (u64 (i + PGSIZE))
    end
  else mret 0.

Definition uvmcopy (old new sz : Z) : K Z :=
  uvmcopy_loop (Z.to_nat (sz / PGSIZE + 1)) old new sz 0.

Definition uvmclear (pagetable va : Z) : K unit :=
  pte ← walk pagetable va false;
  if pte =? 0 then panic "uvmclear" else
  v ← load pte;
  store pte (Z.land v (Z.lnot PTE_U)).

(** ** Copying between kernel and user memory *)

Fixpoint copyout_loop (fuel : nat) (pagetable dstva : Z) (src : list Z) : K Z :=
  let len := Z.of_nat (length src) in
  if 0 <? len then
    match fuel with
    | O => no_fuel
    | S fuel' =>
        let va0 := PGROUNDDOWN dstva in
        if MAXVA <=? va0 then mret (-1) else
        pte ← walk pagetable va0 false;
        if pte =? 0 then mret (-1) else
        v ← load pte;
        if negb (has_flag v PTE_V) || negb (has_flag v PTE_U) || negb (has_flag v PTE_W)
        then mret (-1) else
        let pa0 := PTE2PA v in
        let n := PGSIZE - (dstva - va0) in
        let n := if len <? n then len else n in
        put_bytes (pa0 + (dstva - va0)) (take (Z.to_nat n) src) ;;
        copyout_loop fuel' pagetable (u64 (va0 + PGSIZE)) (drop (Z.to_nat n) src)
    end
  else mret 0.

Definition copyout (pagetable dstva : Z) (src : list Z) : K Z :=
  copyout_loop (length src) pagetable dstva src.

(** The result and the bytes stored at [dst]. *)
Fixpoint copyin_loop (fuel : nat) (pagetable srcva len : Z) : K (Z * list Z) :=
  if 0 <? len then
    match fuel with
    | O => no_fuel
    | S fuel' =>
        let va0 := PGROUNDDOWN srcva in
        pa0 ← walkaddr pagetable va0;
        if pa0 =? 0 then mret (-1, []) else
        let n := PGSIZE - (srcva - va0) in
        let n := if len <? n then len else n in
        l ← gets (λ s, read_bytes (k_mem s) (pa0 + (srcva - va0)) (Z.to_nat n));
        r ← copyin_loop fuel' pagetable (u64 (va0 + PGSIZE)) (len - n);
        mret (r.1, l ++ r.2)
    end
  else mret (0, []).

Definition copyin (pagetable srcva len : Z) : K (Z * list Z) :=
  copyin_loop (Z.to_nat len) pagetable srcva len.

(** The inner loop of [copyinstr]: the bytes stored, and [got_null]. *)
Fixpoint copystr_page (m : mem) (p : Z) (n : nat) : list Z * bool :=
  match n with
  | O => ([], false)
  | S n' =>
      let c := byte_at m p in
      if c =? 0 then ([0], true) else
      let r := copystr_page m (p + 1) n' in
      (c :: r.1, r.2)
  end.

Fixpoint copyinstr_loop (fuel : nat) (pagetable srcva max : Z) : K (Z * list Z) :=
  if 0 <? max then
    match fuel with
    | O => no_fuel
    | S fuel' =>
        let va0 := PGROUNDDOWN srcva in
        pa0 ← walkaddr pagetable va0;
        if pa0 =? 0 then mret (-1, []) else
        let n := PGSIZE - (srcva - va0) in
        let n := if max <? n then max else n in
        r ← gets (λ s, copystr_page (k_mem s) (pa0 + (srcva - va0)) (Z.to_nat n));
        if (r.2 : bool) then mret (0, r.1) else
        r' ← copyinstr_loop fuel' pagetable (u64 (va0 + PGSIZE)) (max - n);
        mret (r'.1, r.1 ++ r'.2)
    end
  else mret (-1, []).

Definition copyinstr (pagetable srcva max : Z) : K (Z * list Z) :=
  copyinstr_loop (Z.to_nat max) pagetable srcva max.

End vm.

Lemma elem_of_pte_indices i : i ∈ pte_indices ↔ 0 ≤ i < 512.
Proof. unfold pte_indices. rewrite elem_of_seqZ. lia. Qed.

Lemma NoDup_pte_indices : NoDup pte_indices.
Proof. apply NoDup_seqZ. Qed.

#[global] Opaque pte_indices.
