(* ===== verification/VmFacts.v ===== *)
(** * Page tables as maps

    [pt_rep] describes the three-level tree that [walk] builds: which pages hold
    its tables and which entries point to them.  Under it the functions of [vm.c]
    act on the map [pte_of] from virtual pages to entries, and on the list of free
    pages. *)

From S2P Require Import Prelude Memory Riscv Data State Spinlock Kalloc Vm.

Local Open Scope Z_scope.

(** ** Entries of a table page *)

Definition entry (m : mem) (p i : Z) : Z := load64 m (p + 8 * i).

Definition is_index (i : Z) : Prop := 0 ≤ i < 512.

Lemma PX_index level va : 0 ≤ level → is_index (PX level va).
Proof. apply PX_range. Qed.

Lemma entry_ext m m' p i :
  is_index i → (∀ a, in_page p a → byte_at m' a = byte_at m a) → entry m' p i = entry m p i.
Proof.
  intros Hi Hs. symmetry. apply load64_ext. intros a Ha. symmetry. apply Hs.
  unfold in_page, PGSIZE, is_index in *. lia.
Qed.

Lemma entry_store_same m p i v : is_u64 v → entry (store64 m (p + 8 * i) v) p i = v.
Proof. apply load64_store64. Qed.

Lemma entry_store_other m p i v q j :
  page_aligned p → page_aligned q → is_index i → is_index j → (p, i) ≠ (q, j) →
  entry (store64 m (p + 8 * i) v) q j = entry m q j.
Proof.
  intros Hp Hq Hi Hj Hne. apply load64_store64_ne. unfold page_aligned, PGSIZE, is_index in *.
  destruct (decide (p = q)) as [->|Hpq].
  - assert (i ≠ j) by (intros ->; done). lia.
  - zdiv.
Qed.

Lemma same_outside_store_entry m p i v :
  is_index i → same_outside [p] m (store64 m (p + 8 * i) v).
Proof.
  intros Hi a Ha. apply byte_at_store64. intros Hin. apply (Ha p); [set_solver|].
  unfold in_page, PGSIZE, is_index in *. lia.
Qed.

Lemma entry_zero m p i :
  is_index i → entry (memset m p 0 (Z.to_nat PGSIZE)) p i = 0.
Proof.
  intros Hi. transitivity (load64 ∅ (p + 8 * i)); [|done].
  apply load64_ext. intros b Hb. rewrite byte_at_memset, decide_True; [done|].
  unfold PGSIZE, is_index in *. lia.
Qed.

(** ** Memory operations *)

Lemma returns_zero_page pa s :
  returns (zero_page pa) s tt (set_k_mem (memset (k_mem s) pa 0 (Z.to_nat PGSIZE)) s).
Proof. done. Qed.
Lemma returns_move dst src n s :
  returns (move dst src n) s tt (set_k_mem (memmove (k_mem s) dst src n) s).
Proof. done. Qed.
Lemma returns_put_bytes a l s :
  returns (put_bytes a l) s tt (set_k_mem (write_bytes (k_mem s) a l) s).
Proof. done. Qed.

(** ** Frames *)

Lemma same_outside_refl l m : same_outside l m m.
Proof. by intros a _. Qed.

Lemma same_outside_mono l l' m m' :
  (∀ p, p ∈ l → p ∈ l') → same_outside l m m' → same_outside l' m m'.
Proof. intros Hl Hs a Ha. apply Hs. intros p Hp. apply Ha. auto. Qed.

Lemma same_outside_seq l1 l2 l m1 m2 m3 :
  same_outside l1 m1 m2 → same_outside l2 m2 m3 → l1 ⊆ l → l2 ⊆ l → same_outside l m1 m3.
Proof.
  intros H1 H2 Hl1 Hl2. eapply same_outside_trans;
    (eapply same_outside_mono; [|done]); [apply Hl1|apply Hl2].
Qed.

Section facts.
Context {Im : Image} {HIm : ImageOk}.

Lemma same_outside_entry l m m' p i :
  Forall page_ok l → page_aligned p → p ∉ l → is_index i → same_outside l m m' →
  entry m' p i = entry m p i.
Proof. intros. apply entry_ext; [done|]. intros. by eapply same_outside_page. Qed.

(** ** The tree *)

Record ptable := mkPtable {
  pt_root : Z;
  pt_mids : gmap Z Z;          (* level-2 index to level-1 table *)
  pt_leafs : gmap (Z * Z) Z;   (* level-2 and level-1 index to level-0 table *)
}.

Definition pt_pages (t : ptable) : list Z :=
  pt_root t :: (map_to_list (pt_mids t)).*2 ++ (map_to_list (pt_leafs t)).*2.

Definition entry_ok (v : Z) (o : option Z) : Prop :=
  match o with
  | Some q => v = Z.lor (PA2PTE q) PTE_V
  | None => has_flag v PTE_V = false
  end.

Record pt_rep (m : mem) (t : ptable) : Prop := {
  rep_root : ∀ i, is_index i → entry_ok (entry m (pt_root t) i) (pt_mids t !! i);
  rep_mid : ∀ i q, pt_mids t !! i = Some q → ∀ j, is_index j →
    entry_ok (entry m q j) (pt_leafs t !! (i, j));
  rep_mids_dom : ∀ i, is_Some (pt_mids t !! i) → 0 ≤ i < 256;
  rep_leafs_dom : ∀ i j, is_Some (pt_leafs t !! (i, j)) → is_Some (pt_mids t !! i) ∧ is_index j;
  rep_ok : Forall page_ok (pt_pages t);
  rep_nodup : NoDup (pt_pages t);
}.

(** The address of the entry for [va], and its value; 0 if there is none. *)
Definition pte_slot (t : ptable) (va : Z) : option Z :=
  (λ q, q + 8 * PX 0 va) <$> pt_leafs t !! (PX 2 va, PX 1 va).

Definition pte_of (m : mem) (t : ptable) (va : Z) : Z :=
  match pt_leafs t !! (PX 2 va, PX 1 va) with
  | Some q => entry m q (PX 0 va)
  | None => 0
  end.

Lemma pt_root_in t : pt_root t ∈ pt_pages t.
Proof. left. Qed.
Lemma pt_mid_in t i q : pt_mids t !! i = Some q → q ∈ pt_pages t.
Proof.
  intros Hq. right. apply elem_of_app. left. apply list_elem_of_fmap.
  exists (i, q). split; [done|]. by apply elem_of_map_to_list.
Qed.
Lemma pt_leaf_in t ij q : pt_leafs t !! ij = Some q → q ∈ pt_pages t.
Proof.
  intros Hq. right. apply elem_of_app. right. apply list_elem_of_fmap.
  exists (ij, q). split; [done|]. by apply elem_of_map_to_list.
Qed.

Lemma pt_page_ok m t p : pt_rep m t → p ∈ pt_pages t → page_ok p.
Proof. intros Hr. pose proof (rep_ok _ _ Hr) as Hok. rewrite list.Forall_forall in Hok. auto. Qed.

Lemma entry_ok_Some v q :
  page_ok q → entry_ok v (Some q) → has_flag v PTE_V = true ∧ PTE2PA v = q.
Proof.
  intros Hq ->. pose proof (page_ok_range _ Hq). split.
  - rewrite has_flag_lor. apply orb_true_r.
  - apply PTE2PA_pte; [apply Hq|unfold PHYSTOP, KERNBASE in *; lia|by vm_compute].
Qed.

(** ** Walking without allocation *)

Lemma walk_step level levels p va alloc s q r s' :
  entry_ok (entry (k_mem s) p (PX level va)) (Some q) → page_ok q →
  returns (walk_levels levels q va alloc) s r s' →
  returns (walk_levels (level :: levels) p va alloc) s r s'.
Proof.
  intros He Hq Hw. destruct (entry_ok_Some _ _ Hq He) as [Hv Hpa]. cbn [walk_levels].
  eapply returns_bind; [apply returns_gets|]. fold (entry (k_mem s) p (PX level va)).
  by rewrite Hv, Hpa.
Qed.

Lemma returns_walk va t s :
  pt_rep (k_mem s) t → va < MAXVA →
  returns (walk (pt_root t) va false) s (default 0 (pte_slot t va)) s.
Proof.
  intros Hrep Hva. unfold walk. replace (MAXVA <=? va) with false by lia.
  pose proof (rep_root _ _ Hrep _ (PX_index 2 va ltac:(lia))) as Hroot.
  unfold pte_slot. destruct (pt_mids t !! PX 2 va) as [q|] eqn:Hq.
  - pose proof (rep_mid _ _ Hrep _ _ Hq _ (PX_index 1 va ltac:(lia))) as Hmid.
    eapply walk_step; [done|by eapply pt_page_ok, pt_mid_in|].
    destruct (pt_leafs t !! (PX 2 va, PX 1 va)) as [r|] eqn:Hr.
    + eapply walk_step; [done|by eapply pt_page_ok, pt_leaf_in|]. apply returns_ret.
    + cbn [walk_levels]. eapply returns_bind; [apply returns_gets|]. simpl in Hmid.
      unfold entry in Hmid. rewrite Hmid. apply returns_ret.
  - destruct (pt_leafs t !! (PX 2 va, PX 1 va)) as [r|] eqn:Hr.
    + destruct (rep_leafs_dom _ _ Hrep _ _ (mk_is_Some _ _ Hr)) as [[? ?] _]. congruence.
    + cbn [walk_levels]. eapply returns_bind; [apply returns_gets|]. simpl in Hroot.
      unfold entry in Hroot. rewrite Hroot. apply returns_ret.
Qed.

(** ** Free pages and one page table *)

Definition heap (s : kstate) (t : ptable) (l : list Z) : Prop :=
  ready s ∧ unlocked LkKmem s ∧ free_pages s l ∧ pt_rep (k_mem s) t ∧ NoDup (l ++ pt_pages t).

(** What a function leaves of them: the root stays, pages move between the free
    list and the tables, the map stays, and other memory is untouched. *)
Record grown (s : kstate) (t : ptable) (l : list Z) (s' : kstate) (t' : ptable) (l' : list Z) : Prop := {
  grown_only : mem_only s s';
  grown_heap : heap s' t' l';
  grown_root : pt_root t' = pt_root t;
  grown_pages : l' ++ pt_pages t' ≡ₚ l ++ pt_pages t;
  grown_frame : same_outside (l ++ pt_pages t) (k_mem s) (k_mem s');
}.

Lemma heap_pages_ok s t l : heap s t l → Forall page_ok (l ++ pt_pages t).
Proof.
  intros (_ & _ & [Hc _] & Hrep & _). apply Forall_app. split.
  - by eapply free_chain_ok.
  - by eapply rep_ok.
Qed.

Lemma grown_refl s t l : heap s t l → grown s t l s t l.
Proof. intros. split; [apply mem_only_refl|done|done|done|apply same_outside_refl]. Qed.

Lemma grown_trans s1 t1 l1 s2 t2 l2 s3 t3 l3 :
  grown s1 t1 l1 s2 t2 l2 → grown s2 t2 l2 s3 t3 l3 → grown s1 t1 l1 s3 t3 l3.
Proof.
  intros [O1 H1 R1 P1 F1] [O2 H2 R2 P2 F2]. split.
  - by eapply mem_only_trans.
  - done.
  - congruence.
  - by rewrite P2.
  - eapply same_outside_trans; [done|]. eapply same_outside_mono; [|done].
    intros p. by rewrite P1.
Qed.

(** ** The pages of a tree are distinct *)

Lemma map_to_list_inj {I : Type} `{Countable I} (m : gmap I Z) i j x :
  NoDup (map_to_list m).*2 → m !! i = Some x → m !! j = Some x → i = j.
Proof.
  intros Hnd Hi Hj. rewrite <- elem_of_map_to_list in Hi, Hj.
  apply list_elem_of_lookup in Hi as [a Ha]. apply list_elem_of_lookup in Hj as [b Hb].
  assert (a = b) as ->; [|congruence].
  eapply (NoDup_lookup _ _ _ x Hnd); rewrite list_lookup_fmap; [by rewrite Ha|by rewrite Hb].
Qed.

Section distinct.
Context (t : ptable) (Hnd : NoDup (pt_pages t)).

Lemma pt_mid_ne_root i q : pt_mids t !! i = Some q → q ≠ pt_root t.
Proof.
  intros Hq ->. apply list.NoDup_cons in Hnd as [Hni _]. apply Hni.
  apply elem_of_app. left. apply list_elem_of_fmap. exists (i, pt_root t).
  split; [done|]. by apply elem_of_map_to_list.
Qed.

Lemma pt_leaf_ne_root ij q : pt_leafs t !! ij = Some q → q ≠ pt_root t.
Proof.
  intros Hq ->. apply list.NoDup_cons in Hnd as [Hni _]. apply Hni.
  apply elem_of_app. right. apply list_elem_of_fmap. exists (ij, pt_root t).
  split; [done|]. by apply elem_of_map_to_list.
Qed.

Lemma pt_mid_ne_leaf i q ij r : pt_mids t !! i = Some q → pt_leafs t !! ij = Some r → q ≠ r.
Proof.
  intros Hq Hr ->. apply list.NoDup_cons in Hnd as [_ Hn].
  apply list.NoDup_app in Hn as (_ & Hd & _). apply (Hd r); apply list_elem_of_fmap.
  - exists (i, r). split; [done|]. by apply elem_of_map_to_list.
  - exists (ij, r). split; [done|]. by apply elem_of_map_to_list.
Qed.

Lemma pt_mid_inj i j q : pt_mids t !! i = Some q → pt_mids t !! j = Some q → i = j.
Proof.
  apply map_to_list_inj. apply list.NoDup_cons in Hnd as [_ Hn].
  by apply list.NoDup_app in Hn as (? & _ & _).
Qed.

Lemma pt_leaf_inj ij ij' q : pt_leafs t !! ij = Some q → pt_leafs t !! ij' = Some q → ij = ij'.
Proof.
  apply map_to_list_inj. apply list.NoDup_cons in Hnd as [_ Hn].
  by apply list.NoDup_app in Hn as (_ & _ & ?).
Qed.
End distinct.

(** ** Adding a table *)

Definition add_mid (i pa : Z) (t : ptable) : ptable :=
  mkPtable (pt_root t) (<[i := pa]> (pt_mids t)) (pt_leafs t).
Definition add_leaf (ij : Z * Z) (pa : Z) (t : ptable) : ptable :=
  mkPtable (pt_root t) (pt_mids t) (<[ij := pa]> (pt_leafs t)).

Lemma add_mid_pages i pa t :
  pt_mids t !! i = None → pt_pages (add_mid i pa t) ≡ₚ pa :: pt_pages t.
Proof.
  intros Hi. unfold pt_pages. simpl. rewrite map_to_list_insert by done. simpl.
  by rewrite Permutation_swap.
Qed.

Lemma add_leaf_pages ij pa t :
  pt_leafs t !! ij = None → pt_pages (add_leaf ij pa t) ≡ₚ pa :: pt_pages t.
Proof.
  intros Hi. unfold pt_pages. simpl. rewrite map_to_list_insert by done. simpl.
  by rewrite <- Permutation_middle, Permutation_swap.
Qed.

(** The page [pa] is cleared and entry [i] of table [p] made to point to it. *)
Record linked (pa p i : Z) (m m' : mem) : Prop := {
  linked_zero : ∀ j, is_index j → entry m' pa j = 0;
  linked_entry : entry m' p i = Z.lor (PA2PTE pa) PTE_V;
  linked_other : ∀ q j, page_aligned q → is_index j → q ≠ pa → (p, i) ≠ (q, j) →
    entry m' q j = entry m q j;
  linked_frame : same_outside [pa; p] m m';
}.

Lemma rep_add_mid m m' t i pa :
  pt_rep m t → pt_mids t !! i = None → 0 ≤ i < 256 → page_ok pa → pa ∉ pt_pages t →
  linked pa (pt_root t) i m m' → pt_rep m' (add_mid i pa t).
Proof.
  intros Hrep Hi Hix Hpa Hni [Hz He Ho _].
  pose proof (λ p, pt_page_ok m t p Hrep) as Hok. pose proof (rep_nodup _ _ Hrep) as Hnd.
  assert (∀ j, pt_leafs t !! (i, j) = None) as Hnl.
  { intros j. destruct (pt_leafs t !! (i, j)) eqn:E; [|done].
    destruct (rep_leafs_dom _ _ Hrep i j) as [[? ?] _]; [done|congruence]. }
  split; simpl.
  - intros k Hk. destruct (decide (k = i)) as [->|Hne].
    + by rewrite lookup_insert_eq, He.
    + rewrite lookup_insert_ne, Ho; [by apply Hrep|apply Hok, pt_root_in|done| |congruence|done].
      intros <-. apply Hni, pt_root_in.
  - intros k q Hq j Hj. destruct (decide (k = i)) as [->|Hne].
    + rewrite lookup_insert_eq in Hq. simplify_eq. by rewrite Hz, Hnl by done.
    + rewrite lookup_insert_ne in Hq by done. pose proof (pt_mid_ne_root t Hnd _ _ Hq).
      rewrite Ho; [by eapply rep_mid|by eapply Hok, pt_mid_in|done| |congruence].
      intros ->. by eapply Hni, pt_mid_in.
  - intros k [q Hq]. destruct (decide (k = i)) as [->|Hne]; [done|].
    rewrite lookup_insert_ne in Hq by done. by eapply rep_mids_dom.
  - intros k j Hkj. destruct (rep_leafs_dom _ _ Hrep k j Hkj) as [? ?]. split; [|done].
    rewrite lookup_insert_is_Some. destruct (decide (i = k)); auto.
  - rewrite add_mid_pages by done. constructor; [done|by eapply rep_ok].
  - rewrite add_mid_pages by done. by constructor.
Qed.

Lemma rep_add_leaf m m' t i j pa p :
  pt_rep m t → pt_mids t !! i = Some p → pt_leafs t !! (i, j) = None → is_index j →
  page_ok pa → pa ∉ pt_pages t →
  linked pa p j m m' → pt_rep m' (add_leaf (i, j) pa t).
Proof.
  intros Hrep Hp Hij Hj Hpa Hni [Hz He Ho _].
  pose proof (λ p, pt_page_ok m t p Hrep) as Hok. pose proof (rep_nodup _ _ Hrep) as Hnd.
  pose proof (pt_mid_ne_root t Hnd _ _ Hp) as Hpr.
  split; simpl.
  - intros k Hk. rewrite Ho; [by apply Hrep|apply Hok, pt_root_in|done| |congruence].
    intros <-. apply Hni, pt_root_in.
  - intros k q Hq j' Hj'. destruct (decide ((k, j') = (i, j))) as [[= -> ->]|Hne].
    + simplify_eq. by rewrite lookup_insert_eq, He.
    + rewrite lookup_insert_ne, Ho; [by eapply rep_mid|by eapply Hok, pt_mid_in|done| | |congruence].
      * intros ->. by eapply Hni, pt_mid_in.
      * intros [= -> ->]. apply Hne. f_equal. by eapply pt_mid_inj.
  - intros k Hk. by eapply rep_mids_dom.
  - intros k j' [q Hq]. destruct (decide ((k, j') = (i, j))) as [[= -> ->]|Hne]; [by eauto|].
    rewrite lookup_insert_ne in Hq by congruence. eapply rep_leafs_dom; [done|]. eauto.
  - rewrite add_leaf_pages by done. constructor; [done|by eapply rep_ok].
  - rewrite add_leaf_pages by done. by constructor.
Qed.

Lemma pte_of_add_mid m m' t i pa va :
  pt_rep m t → pa ∉ pt_pages t → linked pa (pt_root t) i m m' →
  pte_of m' (add_mid i pa t) va = pte_of m t va.
Proof.
  intros Hrep Hni [_ _ Ho _]. unfold pte_of. simpl. pose proof (rep_nodup _ _ Hrep) as Hnd.
  destruct (pt_leafs t !! _) as [q|] eqn:Hq; [|done].
  pose proof (pt_leaf_ne_root t Hnd _ _ Hq).
  apply Ho; [by eapply pt_page_ok, pt_leaf_in|by apply PX_index| |congruence].
  intros ->. by eapply Hni, pt_leaf_in.
Qed.

Lemma pte_of_add_leaf m m' t i j pa p va :
  pt_rep m t → pt_mids t !! i = Some p → pt_leafs t !! (i, j) = None → pa ∉ pt_pages t →
  linked pa p j m m' → pte_of m' (add_leaf (i, j) pa t) va = pte_of m t va.
Proof.
  intros Hrep Hp Hij Hni [Hz _ Ho _]. unfold pte_of. simpl. pose proof (rep_nodup _ _ Hrep) as Hnd.
  destruct (decide ((PX 2 va, PX 1 va) = (i, j))) as [E|Hne].
  - rewrite E, lookup_insert_eq, Hij. by apply Hz, PX_index.
  - rewrite lookup_insert_ne by done. destruct (pt_leafs t !! (PX 2 va, _)) as [q|] eqn:Hq; [|done].
    pose proof (pt_mid_ne_leaf t Hnd _ _ _ _ Hp Hq).
    apply Ho; [by eapply pt_page_ok, pt_leaf_in|by apply PX_index| |congruence].
    intros ->. by eapply Hni, pt_leaf_in.
Qed.

Lemma u64_pte pa fl : page_ok pa → 0 ≤ fl < 2 ^ 10 → is_u64 (Z.lor (PA2PTE pa) fl).
Proof.
  intros Hpa%page_ok_range Hfl. unfold PHYSTOP, KERNBASE in *. rewrite pte_lor by lia.
  unfold is_u64. zdiv.
Qed.

(** The statements of [walk] that allocate a table and link it. *)
Lemma link_table pa l p i s :
  ready s → unlocked LkKmem s → free_pages s (pa :: l) →
  page_ok p → p ∉ pa :: l → is_index i →
  ∃ s', (∀ (k : Z → K Z) r s'', returns (k pa) s' r s'' →
      returns (new ← kalloc; if new =? 0 then mret 0 else
               zero_page new ;; store (p + 8 * i) (Z.lor (PA2PTE new) PTE_V) ;; k new) s r s'') ∧
    mem_only s s' ∧ free_pages s' l ∧ page_ok pa ∧ linked pa p i (k_mem s) (k_mem s').
Proof.
  intros Hr Hu Hf Hp Hni Hi. apply not_elem_of_cons in Hni as [Hne Hni].
  destruct (kalloc_pops pa l s) as (s1 & Hk & Hm & [Hc Hnd] & Hpa & Hpl & Hs & _); [done..|].
  set (m2 := memset (k_mem s1) pa 0 (Z.to_nat PGSIZE)).
  set (m3 := store64 m2 (p + 8 * i) (Z.lor (PA2PTE pa) PTE_V)).
  assert (same_outside [pa; p] (k_mem s1) m3) as Hs3.
  { eapply same_outside_trans; (eapply same_outside_mono; [|]).
    2: apply (same_outside_memset pa 0 (k_mem s1)). { set_solver. }
    2: by apply same_outside_store_entry. set_solver. }
  exists (set_k_mem m3 s1). split_and!; [|by apply mem_only_set_mem| |done|].
  - intros k r s'' Hkr. eapply returns_bind; [done|]. pose proof (page_ok_range _ Hpa).
    replace (pa =? 0) with false by (unfold KERNBASE in *; lia).
    eapply returns_bind; [apply returns_modify|].
    by eapply returns_bind; [apply returns_modify|].
  - split; [|done]. eapply (free_chain_frame [pa; p]); [|set_solver|done|done].
    by repeat (apply Forall_cons; [done|]).
  - split.
    + intros j Hj. change (entry m3 pa j = 0). unfold m3.
      rewrite entry_store_other; [by apply entry_zero|apply Hp|apply Hpa|done|done|congruence].
    + apply entry_store_same. by apply u64_pte.
    + intros q j Hq Hj Hqpa Hqj. change (entry m3 q j = entry (k_mem s) q j). unfold m3.
      rewrite entry_store_other; [|apply Hp|done..].
      transitivity (entry (k_mem s1) q j).
      * apply (same_outside_entry [pa]); [by apply list.Forall_singleton|done|set_solver|done|].
        apply same_outside_memset.
      * apply (same_outside_entry [pa]); [by apply list.Forall_singleton|done|set_solver|done|done].
    + eapply same_outside_trans; [|done]. eapply same_outside_mono; [|done]. set_solver.
Qed.

Lemma grown_link pa p l s t s' t' :
  heap s t (pa :: l) → mem_only s s' → free_pages s' l → pt_rep (k_mem s') t' →
  pt_root t' = pt_root t → pt_pages t' ≡ₚ pa :: pt_pages t → p ∈ pt_pages t →
  same_outside [pa; p] (k_mem s) (k_mem s') → grown s t (pa :: l) s' t' l.
Proof.
  intros (Hr & Hu & Hf & Hrep & Hnd) Hm Hf' Hrep' Hroot Hp Hin Hs.
  assert (l ++ pt_pages t' ≡ₚ (pa :: l) ++ pt_pages t) as Hperm
    by (by rewrite Hp, <- Permutation_middle).
  split; [done| |done|done|].
  - split_and!; [by eapply mem_only_ready|by eapply mem_only_unlocked|done|done|by rewrite Hperm].
  - eapply same_outside_mono; [|done]. set_solver.
Qed.

(** Every table of the tree is on the way to an address in [D]. *)
Definition tables_for (D : Z → Prop) (t : ptable) : Prop :=
  (∀ i, is_Some (pt_mids t !! i) → ∃ va, D va ∧ i = PX 2 va) ∧
  (∀ ij, is_Some (pt_leafs t !! ij) → ∃ va, D va ∧ ij = (PX 2 va, PX 1 va)).

Lemma tables_for_add_mid D va pa t : D va → tables_for D t → tables_for D (add_mid (PX 2 va) pa t).
Proof.
  intros Hva [Hm Hl]. split; [|done]. cbn. intros i [q Hq].
  apply lookup_insert_Some in Hq as [[<- _]|[_ Hq]]; eauto.
Qed.

Lemma tables_for_add_leaf D va pa t :
  D va → tables_for D t → tables_for D (add_leaf (PX 2 va, PX 1 va) pa t).
Proof.
  intros Hva [Hm Hl]. split; [done|]. cbn. intros ij [q Hq].
  apply lookup_insert_Some in Hq as [[<- _]|[_ Hq]]; eauto.
Qed.

(** The outcome of a walk that may allocate: an entry of a tree that may have
    grown by [b] tables, for an unchanged map; it fails only when no page is free. *)
Definition walked (b : nat) (va : Z) (s : kstate) (t : ptable) (l : list Z) (m : K Z) : Prop :=
  ∃ r s' t' l', returns m s r s' ∧ grown s t l s' t' l' ∧
    (∀ va', pte_of (k_mem s') t' va' = pte_of (k_mem s) t va') ∧
    (∀ D, D va → tables_for D t → tables_for D t') ∧
    if decide (r = 0) then l' = [] ∧ (length (pt_pages t') < length (pt_pages t) + b)%nat
    else pte_slot t' va = Some r ∧ (length (pt_pages t') ≤ length (pt_pages t) + b)%nat.

Lemma walked_trans c b va s t l s1 t1 l1 m m' :
  (∀ r s', returns m s1 r s' → returns m' s r s') → grown s t l s1 t1 l1 →
  length (pt_pages t1) = (length (pt_pages t) + c)%nat →
  (∀ va', pte_of (k_mem s1) t1 va' = pte_of (k_mem s) t va') →
  (∀ D, D va → tables_for D t → tables_for D t1) →
  walked b va s1 t1 l1 m → walked (c + b) va s t l m'.
Proof.
  intros Hm Hg Hlen Hp HD (r & s' & t' & l' & Hret & Hg' & Hp' & HD' & Hr). exists r, s', t', l'.
  split_and!; [by apply Hm|by eapply grown_trans| | |].
  - intros va'. by rewrite Hp', Hp.
  - auto.
  - case_decide; destruct Hr; (split; [done|lia]).
Qed.

Lemma walked_mono b b' va s t l m : (b ≤ b')%nat → walked b va s t l m → walked b' va s t l m.
Proof.
  intros Hb (r & s' & t' & l' & Hret & Hg' & Hp' & HD & Hr). exists r, s', t', l'.
  split_and!; [done..|]. case_decide; destruct Hr; (split; [done|lia]).
Qed.

Lemma walked_run b va s t l m m' :
  heap s t l → (∀ r s', returns m s r s' → returns m' s r s') →
  walked b va s t l m → walked b va s t l m'.
Proof. intros Hh Hm. apply (walked_trans 0); [done|by apply grown_refl|lia|done|done]. Qed.

Lemma walked_slot va q s t l :
  heap s t l → pt_leafs t !! (PX 2 va, PX 1 va) = Some q →
  walked 0 va s t l (walk_levels [] q va true).
Proof.
  intros Hh Hq. exists (q + 8 * PX 0 va), s, t, l.
  split_and!; [apply returns_ret|by apply grown_refl|done|done|].
  pose proof Hh as (_ & _ & _ & Hrep & _).
  pose proof (page_ok_range q ltac:(by eapply pt_page_ok, pt_leaf_in)).
  pose proof (PX_index 0 va ltac:(lia)) as Hi. unfold is_index, KERNBASE in *.
  rewrite decide_False by lia. unfold pte_slot. rewrite Hq. split; [done|lia].
Qed.

Lemma walked_full va s t : heap s t [] → walked 1 va s t [] (mret 0).
Proof.
  intros Hh. exists 0, s, t, [].
  split_and!; [apply returns_ret|by apply grown_refl|done|done|]. by split; [|lia].
Qed.

(** An invalid entry: the walk allocates. *)
Lemma walk_levels_alloc level levels p va s :
  has_flag (entry (k_mem s) p (PX level va)) PTE_V = false →
  ∀ r s', returns (new ← kalloc; if new =? 0 then mret 0 else zero_page new ;;
      store (p + 8 * PX level va) (Z.lor (PA2PTE new) PTE_V) ;;
      walk_levels levels new va true) s r s' →
    returns (walk_levels (level :: levels) p va true) s r s'.
Proof.
  intros Hv r s' Hret. cbn [walk_levels]. eapply returns_bind; [apply returns_gets|].
  unfold entry in Hv. by rewrite Hv.
Qed.

Lemma walk1_alloc va q t l s :
  heap s t l → pt_mids t !! PX 2 va = Some q → walked 1 va s t l (walk_levels [1] q va true).
Proof.
  intros Hh Hq. pose proof Hh as (Hr & Hu & Hf & Hrep & Hnd).
  pose proof (rep_mid _ _ Hrep _ _ Hq _ (PX_index 1 va ltac:(lia))) as He.
  assert (q ∈ pt_pages t) as Hqin by (by eapply pt_mid_in).
  destruct (pt_leafs t !! (PX 2 va, PX 1 va)) as [r|] eqn:Hleaf.
  - eapply (walked_mono 0); [lia|]. eapply walked_run; [done| |by eapply walked_slot].
    intros. eapply walk_step; [done|by eapply pt_page_ok, pt_leaf_in|done].
  - destruct l as [|pa l].
    { eapply walked_run; [done| |by apply walked_full].
      intros r s' Hret. apply walk_levels_alloc; [done|].
      by eapply returns_bind; [by apply kalloc_empty|]. }
    assert (pa ∉ pt_pages t) as Hpa by (apply list.NoDup_app in Hnd as (_ & Hd & _); apply Hd; by left).
    destruct (link_table pa l q (PX 1 va) s) as (s1 & Hk & Hm & Hf1 & Hok & Hl); try done.
    { by eapply pt_page_ok. } { intros Hin. by apply list.NoDup_app in Hnd as (_ & Hd & _); eapply Hd. }
    { by apply PX_index. }
    pose proof (add_leaf_pages (PX 2 va, PX 1 va) pa t Hleaf) as Hpages.
    assert (grown s t (pa :: l) s1 (add_leaf (PX 2 va, PX 1 va) pa t) l) as Hg.
    { eapply (grown_link pa q); try done; [|apply Hl].
      eapply rep_add_leaf; try done. by apply PX_index. }
    eapply (walked_trans 1 0); [|done| |intros; by eapply pte_of_add_leaf|intros; by apply tables_for_add_leaf|].
    + intros r s' Hret. apply walk_levels_alloc; [done|]. by apply Hk.
    + rewrite Hpages. simpl. lia.
    + apply walked_slot; [apply Hg|]. apply lookup_insert_eq.
Qed.

Lemma returns_walk_alloc va t l s :
  heap s t l → 0 ≤ va < MAXVA → walked 2 va s t l (walk (pt_root t) va true).
Proof.
  intros Hh Hva. pose proof Hh as (Hr & Hu & Hf & Hrep & Hnd).
  pose proof (rep_root _ _ Hrep _ (PX_index 2 va ltac:(lia))) as He.
  unfold walk. replace (MAXVA <=? va) with false by lia.
  destruct (pt_mids t !! PX 2 va) as [q|] eqn:Hmid.
  - eapply (walked_mono 1); [lia|]. eapply walked_run; [done| |by eapply walk1_alloc].
    intros. eapply walk_step; [done|by eapply pt_page_ok, pt_mid_in|done].
  - destruct l as [|pa l].
    { eapply (walked_mono 1); [lia|]. eapply walked_run; [done| |by apply walked_full].
      intros r s' Hret. apply walk_levels_alloc; [done|].
      by eapply returns_bind; [by apply kalloc_empty|]. }
    assert (pa ∉ pt_pages t) as Hpa by (apply list.NoDup_app in Hnd as (_ & Hd & _); apply Hd; by left).
    destruct (link_table pa l (pt_root t) (PX 2 va) s) as (s1 & Hk & Hm & Hf1 & Hok & Hl); try done.
    { eapply pt_page_ok; [done|apply pt_root_in]. }
    { intros Hin. apply list.NoDup_app in Hnd as (_ & Hd & _); eapply Hd; [done|apply pt_root_in]. }
    { by apply PX_index. }
    pose proof (add_mid_pages (PX 2 va) pa t Hmid) as Hpages.
    assert (grown s t (pa :: l) s1 (add_mid (PX 2 va) pa t) l) as Hg.
    { eapply (grown_link pa (pt_root t)); try done; [|apply pt_root_in|apply Hl].
      eapply rep_add_mid; try done. by apply PX2_low. }
    eapply (walked_trans 1 1); [|done| |intros; by eapply pte_of_add_mid|intros; by apply tables_for_add_mid|].
    + intros r s' Hret. apply walk_levels_alloc; [done|]. by apply Hk.
    + rewrite Hpages. simpl. lia.
    + apply walk1_alloc; [apply Hg|]. apply lookup_insert_eq.
Qed.

(** ** Writing an entry *)

(** A virtual page. *)
Definition vpage (va : Z) : Prop := page_aligned va ∧ 0 ≤ va < MAXVA.

Lemma vpage_eq va va' :
  vpage va → vpage va' → (PX 2 va, PX 1 va) = (PX 2 va', PX 1 va') → PX 0 va = PX 0 va' → va = va'.
Proof. intros [? ?] [? ?] [= ? ?] ?. by apply PX_inj. Qed.

Lemma vpage_add a k : vpage a → 0 ≤ k → a + k * PGSIZE < MAXVA → vpage (a + k * PGSIZE).
Proof.
  intros [Ha ?] ? ?. split; [|unfold PGSIZE in *; lia].
  unfold page_aligned, PGSIZE in *. by rewrite Z.mod_add.
Qed.

Lemma pte_slot_load m t va a : pte_slot t va = Some a → load64 m a = pte_of m t va.
Proof. unfold pte_slot, pte_of. destruct (pt_leafs t !! _); naive_solver. Qed.

Lemma pte_slot_None m t va : pte_slot t va = None → pte_of m t va = 0.
Proof. unfold pte_slot, pte_of. by destruct (pt_leafs t !! _). Qed.

Lemma pte_slot_nonzero m t va a : pt_rep m t → pte_slot t va = Some a → a ≠ 0.
Proof.
  intros Hrep. unfold pte_slot. destruct (pt_leafs t !! _) as [q|] eqn:Hq; [|done].
  intros [= <-]. pose proof (page_ok_range q ltac:(by eapply pt_page_ok, pt_leaf_in)).
  pose proof (PX_index 0 va ltac:(lia)). unfold is_index, KERNBASE in *. lia.
Qed.

(** Writes to leaf entries keep the tree. *)
Lemma rep_store_leaf m t ij q i v :
  pt_rep m t → pt_leafs t !! ij = Some q → is_index i → pt_rep (store64 m (q + 8 * i) v) t.
Proof.
  intros Hrep Hq Hi. pose proof (rep_nodup _ _ Hrep) as Hnd.
  assert (page_aligned q) by (by eapply pt_page_ok, pt_leaf_in).
  split; try apply Hrep.
  - intros k Hk. pose proof (pt_leaf_ne_root t Hnd _ _ Hq).
    rewrite entry_store_other; [by apply Hrep|done| |done|done|congruence].
    eapply pt_page_ok; [done|apply pt_root_in].
  - intros k p Hp j Hj. pose proof (pt_mid_ne_leaf t Hnd _ _ _ _ Hp Hq).
    rewrite entry_store_other; [by eapply rep_mid|done| |done|done|congruence].
    by eapply pt_page_ok, pt_mid_in.
Qed.

Lemma heap_store va a v s t l :
  heap s t l → vpage va → pte_slot t va = Some a → is_u64 v →
  grown s t l (set_k_mem (store64 (k_mem s) a v) s) t l ∧
  same_outside (pt_pages t) (k_mem s) (store64 (k_mem s) a v) ∧
  ∀ va', vpage va' → pte_of (store64 (k_mem s) a v) t va' =
    if decide (va' = va) then v else pte_of (k_mem s) t va'.
Proof.
  intros (Hr & Hu & [Hc Hndl] & Hrep & Hnd) Hva Ha Hv. unfold pte_slot in Ha.
  destruct (pt_leafs t !! (PX 2 va, PX 1 va)) as [q|] eqn:Hq; [|done].
  simpl in Ha. simplify_eq. pose proof (PX_index 0 va ltac:(lia)) as Hi.
  assert (q ∈ pt_pages t) as Hqin by (by eapply pt_leaf_in).
  assert (page_ok q) as Hqok by (by eapply pt_page_ok).
  pose proof (same_outside_store_entry (k_mem s) q (PX 0 va) v Hi) as Hs. split_and!.
  - split; [by apply mem_only_set_mem, mem_only_refl| |done|done|].
    + split_and!; [done..| |by eapply rep_store_leaf|done]. split; [|done].
      eapply (free_chain_frame [q]); [by apply list.Forall_singleton| |done|done].
      intros p Hp. apply list.NoDup_app in Hnd as (_ & Hd & _). specialize (Hd p Hp). set_solver.
    + eapply same_outside_mono; [|done]. set_solver.
  - eapply same_outside_mono; [|done]. set_solver.
  - intros va' Hva'. unfold pte_of. case_decide as Heq.
    + subst. rewrite Hq. by apply entry_store_same.
    + destruct (pt_leafs t !! (PX 2 va', _)) as [q'|] eqn:Hq'; [|done].
      apply entry_store_other; [apply Hqok| |done|by apply PX_index|].
      * by eapply pt_page_ok, pt_leaf_in.
      * intros [= -> E]. apply Heq. apply vpage_eq; [done|done| |done].
        eapply pt_leaf_inj; [by eapply rep_nodup|done|done].
Qed.

(** ** Mapping *)

(** The entry that [mappages] writes. *)
Definition mkpte (pa perm : Z) : Z := Z.lor (Z.lor (PA2PTE pa) perm) PTE_V.

Lemma mkpte_eq pa perm : mkpte pa perm = Z.lor (PA2PTE pa) (Z.lor perm PTE_V).
Proof. unfold mkpte. by rewrite Z.lor_assoc. Qed.

Definition is_perm (perm : Z) : Prop := 0 ≤ perm < 2 ^ 10.

Lemma is_perm_lor a b : is_perm a → is_perm b → is_perm (Z.lor a b).
Proof.
  unfold is_perm. intros Ha Hb. assert (0 ≤ Z.lor a b) by (apply Z.lor_nonneg; lia).
  assert (Z.lor a b / 2 ^ 10 = 0) as Hd.
  { rewrite <- Z.shiftr_div_pow2, Z.shiftr_lor, !Z.shiftr_div_pow2 by lia.
    by rewrite !Z.div_small. }
  zdiv.
Qed.

Lemma perm_valid perm : is_perm perm → is_perm (Z.lor perm PTE_V).
Proof. intros. by apply is_perm_lor. Qed.

Lemma mkpte_valid pa perm : has_flag (mkpte pa perm) PTE_V = true.
Proof. unfold mkpte. rewrite has_flag_lor. apply orb_true_r. Qed.

Lemma mkpte_u64 pa perm : 0 ≤ pa < 2 ^ 56 → is_perm perm → is_u64 (mkpte pa perm).
Proof.
  intros Hpa Hperm%perm_valid. rewrite mkpte_eq. unfold is_perm in *. rewrite pte_lor by done.
  unfold is_u64. zdiv.
Qed.

Lemma mkpte_flags pa perm :
  0 ≤ pa < 2 ^ 56 → is_perm perm → PTE_FLAGS (mkpte pa perm) = Z.lor perm PTE_V.
Proof. intros Hpa Hperm%perm_valid. rewrite mkpte_eq. by apply PTE_FLAGS_pte. Qed.

Lemma mkpte_pa pa perm :
  page_aligned pa → 0 ≤ pa < 2 ^ 56 → is_perm perm → PTE2PA (mkpte pa perm) = pa.
Proof. intros Ha Hpa Hperm%perm_valid. rewrite mkpte_eq. by apply PTE2PA_pte. Qed.

(** ** Changes outside the tree *)

Lemma rep_frame l m m' t :
  pt_rep m t → Forall page_ok l → (∀ p, p ∈ pt_pages t → p ∉ l) → same_outside l m m' →
  pt_rep m' t ∧ ∀ va, pte_of m' t va = pte_of m t va.
Proof.
  intros Hrep Hok Hd Hs.
  assert (∀ p i, p ∈ pt_pages t → is_index i → entry m' p i = entry m p i) as He.
  { intros p i Hp Hi. apply (same_outside_entry l); [done| |by apply Hd|done|done].
    by eapply pt_page_ok. }
  split; [split; try apply Hrep|].
  - intros i Hi. rewrite He; [by apply Hrep|apply pt_root_in|done].
  - intros i q Hq j Hj. rewrite He; [by eapply rep_mid|by eapply pt_mid_in|done].
  - intros va. unfold pte_of. destruct (pt_leafs t !! _) eqn:E; [|done].
    apply He; [by eapply pt_leaf_in|by apply PX_index].
Qed.

Lemma heap_kfree pa s t l :
  heap s t l → page_ok pa → pa ∉ l ++ pt_pages t →
  ∃ s', returns (kfree pa) s tt s' ∧ mem_only s s' ∧ heap s' t (pa :: l) ∧
    same_outside [pa] (k_mem s) (k_mem s') ∧
    ∀ va, pte_of (k_mem s') t va = pte_of (k_mem s) t va.
Proof.
  intros (Hr & Hu & Hf & Hrep & Hnd) Hok [Hl Ht]%not_elem_of_app.
  destruct (kfree_pushes pa l s) as (s' & Hk & Hm & Hf' & Hs); [done..|].
  destruct (rep_frame [pa] (k_mem s) (k_mem s') t) as [Hrep' Hp'];
    [done|by apply list.Forall_singleton|set_solver|done|].
  exists s'. split_and!; [done|done| |done|done].
  split_and!; [by eapply mem_only_ready|by eapply mem_only_unlocked|done|done|].
  apply NoDup_cons_2; [|done]. set_solver.
Qed.

Lemma heap_kalloc pa s t l :
  heap s t (pa :: l) →
  ∃ s', returns kalloc s pa s' ∧ mem_only s s' ∧ heap s' t l ∧ page_ok pa ∧
    pa ∉ l ++ pt_pages t ∧ same_outside [pa] (k_mem s) (k_mem s') ∧
    ∀ va, pte_of (k_mem s') t va = pte_of (k_mem s) t va.
Proof.
  intros (Hr & Hu & Hf & Hrep & Hnd).
  destruct (kalloc_pops pa l s) as (s' & Hk & Hm & Hf' & Hok & Hl & Hs & _); [done..|].
  apply NoDup_cons_1_1 in Hnd as Hni. apply NoDup_cons_1_2 in Hnd as Hnd'.
  destruct (rep_frame [pa] (k_mem s) (k_mem s') t) as [Hrep' Hp'];
    [done|by apply list.Forall_singleton|set_solver|done|].
  exists s'. split_and!; [done|done| |done|done|done|done].
  by split_and!; [eapply mem_only_ready|eapply mem_only_unlocked|..].
Qed.

(** A write to pages that are neither free nor tables. *)
Lemma heap_write l' m s t l :
  heap s t l → Forall page_ok l' → (∀ p, p ∈ l' → p ∉ l ++ pt_pages t) →
  same_outside l' (k_mem s) m →
  heap (set_k_mem m s) t l ∧ ∀ va, pte_of m t va = pte_of (k_mem s) t va.
Proof.
  intros (Hr & Hu & [Hc Hndl] & Hrep & Hnd) Hok Hd Hs.
  destruct (rep_frame l' (k_mem s) m t) as [Hrep' Hp'];
    [done|done|intros p Hp Hp'; apply (Hd p Hp'); set_solver|done|].
  split; [|done]. split_and!; [done..| |done|done]. split; [|done].
  apply (free_chain_frame l' (k_mem s)); [done|intros p Hp Hp''; apply (Hd p Hp''); set_solver|done|done].
Qed.

(** ** A new table *)

Definition empty_table (root : Z) : ptable := mkPtable root ∅ ∅.

Lemma pte_of_empty m root va : pte_of m (empty_table root) va = 0.
Proof. unfold pte_of. simpl. by rewrite lookup_empty. Qed.

Lemma rep_empty m root :
  page_ok root → (∀ i, is_index i → entry m root i = 0) → pt_rep m (empty_table root).
Proof.
  intros Hok Hz. split; simpl.
  - intros i Hi. by rewrite Hz, lookup_empty by done.
  - intros i q Hq. by rewrite lookup_empty in Hq.
  - intros i [q Hq]. by rewrite lookup_empty in Hq.
  - intros i j [q Hq]. by rewrite lookup_empty in Hq.
  - unfold pt_pages. simpl. rewrite !map_to_list_empty. by apply list.Forall_singleton.
  - unfold pt_pages. simpl. rewrite !map_to_list_empty. apply NoDup_singleton.
Qed.

(** A fresh page made into an empty table. *)
Lemma fresh_table pa l s :
  ready s → unlocked LkKmem s → free_pages s (pa :: l) →
  ∃ s1 s', returns kalloc s pa s1 ∧ returns (zero_page pa) s1 tt s' ∧ pa ≠ 0 ∧
    mem_only s s' ∧ heap s' (empty_table pa) l ∧ same_outside [pa] (k_mem s) (k_mem s').
Proof.
  intros Hr Hu Hf.
  destruct (kalloc_pops pa l s) as (s1 & Hk & Hm & [Hc Hnd] & Hok & Hni & Hs & _); [done..|].
  pose proof (page_ok_range _ Hok). set (m2 := memset (k_mem s1) pa 0 (Z.to_nat PGSIZE)).
  pose proof (same_outside_memset pa 0 (k_mem s1)) as Hs2. fold m2 in Hs2.
  exists s1, (set_k_mem m2 s1). split_and!; [done|apply returns_zero_page|..].
  - unfold KERNBASE in *. lia.
  - by apply mem_only_set_mem.
  - split_and!; [by apply (mem_only_ready s s1)|by apply (mem_only_unlocked _ s s1)| | |].
    + split; [|done]. by eapply (free_chain_frame [pa]);
        [by apply list.Forall_singleton|by apply not_in_singleton|..].
    + apply rep_empty; [done|]. intros i Hi. by apply entry_zero.
    + unfold pt_pages. simpl. rewrite !map_to_list_empty. simpl.
      rewrite (Permutation_app_comm l [pa]). by apply NoDup_cons_2.
  - by eapply same_outside_trans.
Qed.

Lemma returns_uvmcreate pa l s :
  ready s → unlocked LkKmem s → free_pages s (pa :: l) →
  ∃ s', returns uvmcreate s pa s' ∧ pa ≠ 0 ∧ mem_only s s' ∧ heap s' (empty_table pa) l ∧
    same_outside [pa] (k_mem s) (k_mem s').
Proof.
  intros Hr Hu Hf.
  destruct (fresh_table pa l s) as (s1 & s' & Hk & Hz & Hne & Hrest); [done..|].
  exists s'. split_and!; [|done|apply Hrest..]. unfold uvmcreate.
  eapply returns_bind; [done|]. replace (pa =? 0) with false by lia.
  eapply returns_bind; [done|apply returns_ret].
Qed.

End facts.
