(* ===== verification/VmOps.v ===== *)
(** * Operations on address spaces

    The behaviour of the functions of [vm.c] on the map [pte_of] and on the free
    pages, on every branch: success, exhaustion of memory, and the panics. *)

From S2P Require Import Prelude Memory Riscv Data State Spinlock Kalloc Vm VmFacts.

Local Open Scope Z_scope.

Section ops.
Context {Im : Image} {HIm : ImageOk}.

(** ** mappages *)

(** The map with [k] pages from [a] on mapped to consecutive pages from [pa] on. *)
Definition mapped (f : Z → Z) (a k pa perm va : Z) : Z :=
  if decide (a ≤ va < a + k * PGSIZE) then mkpte (pa + (va - a)) perm else f va.

Lemma mapped_0 f a pa perm va : mapped f a 0 pa perm va = f va.
Proof. unfold mapped. rewrite decide_False by lia. done. Qed.

(** One page, then the rest. *)
Lemma mapped_step f g a k pa perm va :
  vpage a → vpage va → 0 ≤ k →
  g va = (if decide (va = a) then mkpte pa perm else f va) →
  mapped g (a + PGSIZE) k (pa + PGSIZE) perm va = mapped f a (k + 1) pa perm va.
Proof.
  intros [Ha _] [Hva _] Hk Hg. unfold mapped, page_aligned, PGSIZE in *.
  destruct (decide (va = a)) as [->|Hne].
  - rewrite decide_False, decide_True, Hg by lia. f_equal. lia.
  - rewrite Hg. repeat case_decide; try done; try zdiv. f_equal. lia.
Qed.

(** What [mappages] leaves: [k] pages mapped; all of them, or fewer when memory is
    exhausted.  A page needs at most two new tables. *)
Definition maps (n a pa perm : Z) (s : kstate) (t : ptable) (l : list Z) (m : K Z) : Prop :=
  ∃ r k s' t' l', returns m s r s' ∧ grown s t l s' t' l' ∧
    (∀ va, vpage va → pte_of (k_mem s') t' va = mapped (pte_of (k_mem s) t) a k pa perm va) ∧
    (∀ D : Z → Prop, (∀ j, 0 ≤ j < n → D (a + j * PGSIZE)) → tables_for D t → tables_for D t') ∧
    (r = 0 ∧ k = n ∧ (length (pt_pages t') ≤ length (pt_pages t) + 2 * Z.to_nat k)%nat ∨
     r = -1 ∧ 0 ≤ k < n ∧ l' = [] ∧
       (length (pt_pages t') ≤ length (pt_pages t) + 2 * Z.to_nat k + 1)%nat).

(** The entry for [a] is found, created if need be, and written. *)
Lemma map_page a pa perm s t l :
  heap s t l → vpage a → is_perm perm → 0 ≤ pa < 2 ^ 56 →
  has_flag (pte_of (k_mem s) t a) PTE_V = false →
  ∃ r s1 t1 l1, returns (walk (pt_root t) a true) s r s1 ∧ grown s t l s1 t1 l1 ∧
    (∀ va, pte_of (k_mem s1) t1 va = pte_of (k_mem s) t va) ∧
    (∀ D : Z → Prop, D a → tables_for D t → tables_for D t1) ∧
    if decide (r = 0) then l1 = [] ∧ (length (pt_pages t1) ≤ length (pt_pages t) + 1)%nat else
      (length (pt_pages t1) ≤ length (pt_pages t) + 2)%nat ∧
      has_flag (load64 (k_mem s1) r) PTE_V = false ∧
      grown s t l (set_k_mem (store64 (k_mem s1) r (mkpte pa perm)) s1) t1 l1 ∧
      ∀ va, vpage va → pte_of (store64 (k_mem s1) r (mkpte pa perm)) t1 va =
        if decide (va = a) then mkpte pa perm else pte_of (k_mem s) t va.
Proof.
  intros Hh Ha Hperm Hpa Hv.
  destruct (returns_walk_alloc a t l s) as (r & s1 & t1 & l1 & Hw & Hg & Hp & HD & Hr);
    [done|apply Ha|].
  exists r, s1, t1, l1. split_and!; [done..|]. case_decide; destruct Hr as [Hr Hlen].
  { split; [done|lia]. }
  rewrite (pte_slot_load _ _ _ _ Hr), Hp. split; [done|]. split; [done|].
  destruct (heap_store a r (mkpte pa perm) s1 t1 l1) as (Hg2 & _ & Hp2);
    [apply Hg|done|done|by apply mkpte_u64|].
  split; [by eapply grown_trans|]. intros va Hva. by rewrite Hp2, Hp.
Qed.

Lemma mappages_loop_step fuel n a last pa perm s t l :
  heap s t l → vpage a → is_perm perm → 0 ≤ pa < 2 ^ 56 → 1 ≤ n →
  has_flag (pte_of (k_mem s) t a) PTE_V = false →
  (a = last → n = 1) →
  (a ≠ last → ∀ s2 t2 l2, heap s2 t2 l2 → pt_root t2 = pt_root t →
     (∀ va, vpage va → pte_of (k_mem s2) t2 va =
        if decide (va = a) then mkpte pa perm else pte_of (k_mem s) t va) →
     maps (n - 1) (a + PGSIZE) (pa + PGSIZE) perm s2 t2 l2
       (mappages_loop fuel (pt_root t2) (u64 (a + PGSIZE)) last (u64 (pa + PGSIZE)) perm)) →
  maps n a pa perm s t l (mappages_loop (S fuel) (pt_root t) a last pa perm).
Proof.
  intros Hh Ha Hperm Hpa Hn Hv Hlast Hnext.
  destruct (map_page a pa perm s t l) as (r & s1 & t1 & l1 & Hw & Hg & Hp & HD & Hr); [done..|].
  assert (∀ D : Z → Prop, (∀ j, 0 ≤ j < n → D (a + j * PGSIZE)) → tables_for D t → tables_for D t1) as HD1.
  { intros D HD0. apply HD. specialize (HD0 0 ltac:(lia)). by rewrite Z.mul_0_l, Z.add_0_r in HD0. }
  case_decide as Hr0.
  { destruct Hr as [-> Hlen]. exists (-1), 0, s1, t1, []. split_and!; [|done| |done|right; split_and!; done || lia || (simpl; lia)].
    - cbn [mappages_loop]. eapply returns_bind; [done|]. subst. apply returns_ret.
    - intros va _. by rewrite mapped_0, Hp. }
  destruct Hr as (Hlen & Hflag & Hg2 & Hp2). set (s2 := set_k_mem _ s1) in Hg2.
  assert (∀ r' s', returns (if a =? last then mret 0 else
      mappages_loop fuel (pt_root t) (u64 (a + PGSIZE)) last (u64 (pa + PGSIZE)) perm) s2 r' s' →
    returns (mappages_loop (S fuel) (pt_root t) a last pa perm) s r' s') as Hrun.
  { intros r' s' Hret. cbn [mappages_loop]. eapply returns_bind; [done|].
    replace (r =? 0) with false by lia. eapply returns_bind; [apply returns_gets|].
    rewrite Hflag. by eapply returns_bind; [apply returns_modify|]. }
  destruct (decide (a = last)) as [->|Hne].
  - exists 0, 1, s2, t1, l1. split_and!; [|done| |done|left; split_and!; [done|symmetry; auto|exact Hlen]].
    + apply Hrun. rewrite Z.eqb_refl. apply returns_ret.
    + intros va Hva. cbn [k_mem set_k_mem s2]. rewrite Hp2 by done. unfold mapped.
      destruct Ha as [Ha _], Hva as [Hva _]. unfold page_aligned, PGSIZE in *.
      repeat case_decide; try done; try zdiv. f_equal. lia.
  - destruct (Hnext Hne s2 t1 l1) as (r' & k & s' & t' & l' & Hret & Hg' & Hp' & HD' & Hend);
      [apply Hg2|apply Hg2|done|].
    exists r', (k + 1), s', t', l'. split_and!; [|by eapply grown_trans| | |].
    + apply Hrun. replace (a =? last) with false by lia.
      by rewrite <- (grown_root _ _ _ _ _ _ Hg2).
    + intros va Hva. rewrite Hp' by done.
      apply (mapped_step _ _ a); [done|done|lia|by apply Hp2].
    + intros D HD0 Ht. apply HD'; [|by apply HD1]. intros j Hj. specialize (HD0 (j + 1) ltac:(lia)).
      by replace (a + PGSIZE + j * PGSIZE) with (a + (j + 1) * PGSIZE) by lia.
    + destruct Hend as [(-> & -> & ?)|(-> & ? & -> & ?)]; [left|right]; split_and!; done || lia.
Qed.

Lemma mappages_loop_maps n a pa perm s t l :
  heap s t l → vpage a → a + Z.of_nat n * PGSIZE < MAXVA → is_perm perm →
  0 ≤ pa → pa + Z.of_nat n * PGSIZE < 2 ^ 56 →
  (∀ k, 0 ≤ k ≤ Z.of_nat n → has_flag (pte_of (k_mem s) t (a + k * PGSIZE)) PTE_V = false) →
  maps (Z.of_nat n + 1) a pa perm s t l
    (mappages_loop (S n) (pt_root t) a (a + Z.of_nat n * PGSIZE) pa perm).
Proof.
  revert a pa s t l. induction n as [|n IH];
    intros a pa s t l Hh Ha Hlast Hperm Hpa0 Hpa Hv.
  all: assert (has_flag (pte_of (k_mem s) t (a + 0 * PGSIZE)) PTE_V = false) as Hv0 by (apply Hv; lia).
  all: replace (a + 0 * PGSIZE) with a in Hv0 by lia.
  all: apply mappages_loop_step; try done; try (unfold PGSIZE in *; lia).
  intros _ s2 t2 l2 Hh2 Hroot Hp2. pose proof MAXVA_eq as HM. pose proof (proj2 Ha).
  rewrite !u64_small by (unfold is_u64, PGSIZE in *; lia).
  replace (Z.of_nat (S n) + 1 - 1) with (Z.of_nat n + 1) by lia.
  replace (a + Z.of_nat (S n) * PGSIZE) with (a + PGSIZE + Z.of_nat n * PGSIZE) by lia.
  apply IH; try done; try (unfold PGSIZE in *; lia).
  - replace (a + PGSIZE) with (a + 1 * PGSIZE) by lia. apply vpage_add; [done|lia|].
    unfold PGSIZE in *. lia.
  - intros k Hk. specialize (Hv (k + 1) ltac:(lia)).
    replace (a + PGSIZE + k * PGSIZE) with (a + (k + 1) * PGSIZE) by lia.
    rewrite Hp2; [|apply vpage_add; [done|lia|unfold PGSIZE in *; lia]].
    rewrite decide_False; [done|]. unfold PGSIZE. lia.
Qed.

(** [mappages] of [n] pages. *)
Lemma returns_mappages n a pa perm s t l :
  heap s t l → vpage a → 1 ≤ n → a + n * PGSIZE ≤ MAXVA → is_perm perm →
  0 ≤ pa → pa + n * PGSIZE < 2 ^ 56 →
  (∀ k, 0 ≤ k < n → has_flag (pte_of (k_mem s) t (a + k * PGSIZE)) PTE_V = false) →
  maps n a pa perm s t l (mappages (pt_root t) a (n * PGSIZE) pa perm).
Proof.
  intros Hh Ha Hn Hlast Hperm Hpa0 Hpa Hv. unfold mappages. pose proof MAXVA_eq.
  destruct Ha as [Hal Har]. pose proof Hal as Hal'. unfold page_aligned in Hal'. rewrite Hal'.
  rewrite Z.mod_mul by done. cbn [Z.eqb negb].
  replace (n * PGSIZE =? 0) with false by (unfold PGSIZE; lia).
  rewrite Z.div_mul by done. replace (Z.to_nat n) with (S (Z.to_nat (n - 1))) by lia.
  rewrite u64_small by (unfold is_u64, PGSIZE in *; lia).
  replace (a + n * PGSIZE - PGSIZE) with (a + Z.of_nat (Z.to_nat (n - 1)) * PGSIZE)
    by (unfold PGSIZE; lia).
  replace n with (Z.of_nat (Z.to_nat (n - 1)) + 1) at 1 by lia.
  apply mappages_loop_maps; try done; try (unfold PGSIZE in *; lia).
  intros k Hk. apply Hv. lia.
Qed.

(** ** uvmunmap *)

(** The physical pages behind [n] virtual pages from [a] on. *)
Fixpoint phys_pages (f : Z → Z) (a : Z) (n : nat) : list Z :=
  match n with
  | O => []
  | S n' => PTE2PA (f a) :: phys_pages f (a + PGSIZE) n'
  end.

Lemma phys_pages_ext f g a n :
  (∀ k, 0 ≤ k < Z.of_nat n → g (a + k * PGSIZE) = f (a + k * PGSIZE)) →
  phys_pages g a n = phys_pages f a n.
Proof.
  revert a. induction n as [|n IH]; intros a H; simpl; [done|]. f_equal.
  - f_equal. specialize (H 0 ltac:(lia)). by replace (a + 0 * PGSIZE) with a in H by lia.
  - apply IH. intros k Hk. specialize (H (k + 1) ltac:(lia)).
    by replace (a + PGSIZE + k * PGSIZE) with (a + (k + 1) * PGSIZE) by lia.
Qed.

(** A valid entry that is not a pointer to a table. *)
Definition is_leaf (v : Z) : Prop := has_flag v PTE_V = true ∧ PTE_FLAGS v ≠ PTE_V.

Definition cleared (f : Z → Z) (a n va : Z) : Z :=
  if decide (a ≤ va < a + n * PGSIZE) then 0 else f va.

Lemma cleared_step f g a n va :
  vpage a → vpage va → 0 ≤ n → g va = (if decide (va = a) then 0 else f va) →
  cleared g (a + PGSIZE) n va = cleared f a (n + 1) va.
Proof.
  intros [Ha _] [Hva _] Hn Hg. unfold cleared, page_aligned, PGSIZE in *. rewrite Hg.
  repeat case_decide; done || zdiv.
Qed.

(** What [uvmunmap] leaves of the map, of the free list and of memory. *)
Definition unmapped (a : Z) (n : nat) (do_free : bool) (s : kstate) (t : ptable) (l : list Z)
    (s' : kstate) : Prop :=
  let fs := if do_free then phys_pages (pte_of (k_mem s) t) a n else [] in
  mem_only s s' ∧ heap s' t (reverse fs ++ l) ∧
  (∀ va, vpage va → pte_of (k_mem s') t va = cleared (pte_of (k_mem s) t) a (Z.of_nat n) va) ∧
  same_outside (fs ++ pt_pages t) (k_mem s) (k_mem s').

Lemma unmapped_none a do_free s t l : heap s t l → unmapped a 0 do_free s t l s.
Proof.
  intros Hh. split_and!; [apply mem_only_refl|by destruct do_free| |apply same_outside_refl].
  intros va _. unfold cleared. by rewrite decide_False by lia.
Qed.

(** The pages to free are distinct pages, neither free nor tables. *)
Definition freeable (do_free : bool) (a : Z) (n : nat) (s : kstate) (t : ptable) (l : list Z) : Prop :=
  do_free = true → Forall page_ok (phys_pages (pte_of (k_mem s) t) a n) ∧
    NoDup (phys_pages (pte_of (k_mem s) t) a n ++ l ++ pt_pages t).

(** Clearing one entry, after freeing its page if asked to. *)
Lemma unmap_page a (do_free : bool) s t l :
  let v := pte_of (k_mem s) t a in
  let fs := if do_free then [PTE2PA v] else [] in
  heap s t l → vpage a → is_leaf v →
  Forall page_ok fs → (∀ p, p ∈ fs → p ∉ l ++ pt_pages t) →
  ∃ r s1 s2, returns (walk (pt_root t) a false) s r s ∧ r ≠ 0 ∧ load64 (k_mem s) r = v ∧
    returns (when do_free (kfree (PTE2PA v))) s tt s1 ∧ returns (store r 0) s1 tt s2 ∧
    mem_only s s2 ∧ heap s2 t (fs ++ l) ∧ same_outside (fs ++ pt_pages t) (k_mem s) (k_mem s2) ∧
    ∀ va, vpage va → pte_of (k_mem s2) t va = if decide (va = a) then 0 else pte_of (k_mem s) t va.
Proof.
  intros v fs Hh Ha [Hv _] Hok Hd. pose proof Hh as (_ & _ & _ & Hrep & _).
  destruct (pte_slot t a) as [r|] eqn:Hslot.
  2: { unfold v in Hv. by rewrite (pte_slot_None _ _ _ Hslot) in Hv. }
  assert (∃ s1, returns (when do_free (kfree (PTE2PA v))) s tt s1 ∧ mem_only s s1 ∧
    heap s1 t (fs ++ l) ∧ same_outside fs (k_mem s) (k_mem s1) ∧
    ∀ va, pte_of (k_mem s1) t va = pte_of (k_mem s) t va) as (s1 & Hk & Hm & Hh1 & Hs1 & Hp1).
  { destruct do_free; simpl.
    - apply heap_kfree; [done|by inversion Hok|apply Hd; set_solver].
    - exists s. split_and!; [apply returns_ret|apply mem_only_refl|done|apply same_outside_refl|done]. }
  destruct (heap_store a r 0 s1 t (fs ++ l)) as (Hg & Hs2 & Hp); [done..|unfold is_u64; lia|].
  pose proof (returns_walk a t s Hrep (proj2 (proj2 Ha))) as Hw. rewrite Hslot in Hw.
  exists r, s1, (set_k_mem (store64 (k_mem s1) r 0) s1). split_and!; try done.
  - by eapply pte_slot_nonzero.
  - by apply pte_slot_load.
  - by apply mem_only_set_mem.
  - apply Hg.
  - eapply same_outside_seq; [exact Hs1|exact Hs2|clear; set_solver..].
  - intros va Hva. cbn [k_mem set_k_mem]. by rewrite Hp, Hp1.
Qed.

Lemma unmap_rest (f g : Z → Z) a k :
  (∀ va, vpage va → g va = if decide (va = a) then 0 else f va) → vpage a → 0 ≤ k →
  a + PGSIZE + k * PGSIZE < MAXVA → g (a + PGSIZE + k * PGSIZE) = f (a + PGSIZE + k * PGSIZE).
Proof.
  intros Hg Ha Hk Hmax. replace (a + PGSIZE + k * PGSIZE) with (a + (k + 1) * PGSIZE) in * by lia.
  rewrite Hg by (by apply vpage_add; [|lia|]). by rewrite decide_False by plia.
Qed.

(** The rest of the pages, seen from the state after the first was unmapped. *)
Lemma phys_pages_rest (f g : Z → Z) a n :
  (∀ va, vpage va → g va = if decide (va = a) then 0 else f va) → vpage a →
  a + Z.of_nat (S n) * PGSIZE ≤ MAXVA →
  phys_pages g (a + PGSIZE) n = phys_pages f (a + PGSIZE) n.
Proof.
  intros Hg Ha Hmax. apply phys_pages_ext. intros k Hk.
  apply unmap_rest; [done|done|lia|plia].
Qed.

Lemma unmapped_cons a n (do_free : bool) s t l s2 s' :
  let fs := if do_free then [PTE2PA (pte_of (k_mem s) t a)] else [] in
  vpage a → a + Z.of_nat (S n) * PGSIZE ≤ MAXVA → mem_only s s2 →
  same_outside (fs ++ pt_pages t) (k_mem s) (k_mem s2) →
  (∀ va, vpage va → pte_of (k_mem s2) t va =
     if decide (va = a) then 0 else pte_of (k_mem s) t va) →
  unmapped (a + PGSIZE) n do_free s2 t (fs ++ l) s' → unmapped a (S n) do_free s t l s'.
Proof.
  intros fs Ha Hmax Hm2 Hs2 Hp2 (Hm & Hh & Hp & Hs).
  rewrite (phys_pages_rest (pte_of (k_mem s) t)) in Hh, Hs by done.
  unfold unmapped. cbv zeta. split_and!.
  - by eapply mem_only_trans.
  - destruct do_free; [|done]. cbn [phys_pages]. by rewrite reverse_cons, <- app_assoc.
  - intros va Hva. rewrite Hp by done.
    rewrite (cleared_step (pte_of (k_mem s) t) _ a); [f_equal; lia|done|done|lia|by apply Hp2].
  - eapply same_outside_seq; [exact Hs2|exact Hs|..]; unfold fs; destruct do_free;
      cbn [phys_pages]; clear; set_solver.
Qed.

Lemma freeable_head a n (do_free : bool) s t l :
  let fs := if do_free then [PTE2PA (pte_of (k_mem s) t a)] else [] in
  freeable do_free a (S n) s t l →
  Forall page_ok fs ∧ ∀ p, p ∈ fs → p ∉ l ++ pt_pages t.
Proof.
  intros fs Hfree. destruct do_free; simpl in fs; unfold fs.
  - destruct (Hfree eq_refl) as [Hok Hnd]. cbn [phys_pages app] in Hok, Hnd. split.
    + apply list.Forall_singleton. by inversion Hok.
    + intros p ->%list_elem_of_singleton Hin. apply NoDup_cons_1_1 in Hnd.
      apply Hnd, elem_of_app. by right.
  - split; [constructor|]. by intros p ?%not_elem_of_nil.
Qed.

Lemma uvmunmap_loop_unmaps n a (do_free : bool) s t l :
  heap s t l → page_aligned a → 0 ≤ a → a + Z.of_nat n * PGSIZE ≤ MAXVA →
  (∀ k, 0 ≤ k < Z.of_nat n → is_leaf (pte_of (k_mem s) t (a + k * PGSIZE))) →
  freeable do_free a n s t l →
  ∃ s', returns (uvmunmap_loop n (pt_root t) a (a + Z.of_nat n * PGSIZE) do_free) s tt s' ∧
    unmapped a n do_free s t l s'.
Proof.
  revert a s l. induction n as [|n IH]; intros a s l Hh Hal Ha0 Hmax Hleaf Hfree.
  { exists s. rewrite Nat2Z.inj_0, Z.mul_0_l, Z.add_0_r. cbn [uvmunmap_loop].
    rewrite Z.ltb_irrefl. split; [apply returns_ret|by apply unmapped_none]. }
  assert (vpage a) as Hva by (split; [done|plia]). pose proof MAXVA_eq.
  assert (is_leaf (pte_of (k_mem s) t a)) as Hv.
  { specialize (Hleaf 0 ltac:(lia)). by replace (a + 0 * PGSIZE) with a in Hleaf by lia. }
  destruct (freeable_head _ _ _ _ _ _ Hfree) as [Hfok Hfd].
  destruct (unmap_page a do_free s t l) as
    (r & s1 & s2 & Hw & Hr & Hload & Hk & Hst & Hm2 & Hh2 & Hs2 & Hp2); [done..|].
  destruct (IH (a + PGSIZE) s2 ((if do_free then [PTE2PA (pte_of (k_mem s) t a)] else []) ++ l))
    as (s' & Hret & Hun).
  - done.
  - unfold page_aligned, PGSIZE in *. zdiv.
  - plia.
  - plia.
  - intros k Hk'. rewrite (unmap_rest (pte_of (k_mem s) t)); [|done..|lia|plia].
    replace (a + PGSIZE + k * PGSIZE) with (a + (k + 1) * PGSIZE) by lia. apply Hleaf. lia.
  - intros ->. rewrite (phys_pages_rest (pte_of (k_mem s) t)) by done.
    destruct (Hfree eq_refl) as [Hok Hnd]. cbn [phys_pages] in Hok, Hnd.
    split; [by inversion Hok|]. cbn [app]. by rewrite <- Permutation_middle.
  - exists s'. split; [|by eapply unmapped_cons].
    cbn [uvmunmap_loop]. rewrite (proj2 (Z.ltb_lt a _)) by plia.
    eapply returns_bind; [done|]. replace (r =? 0) with false by lia.
    eapply returns_bind; [apply returns_gets|]. rewrite Hload. destruct Hv as [-> Hfl].
    cbn [negb]. rewrite (proj2 (Z.eqb_neq _ _) Hfl).
    eapply returns_bind; [done|]. eapply returns_bind; [done|].
    rewrite u64_small by (unfold is_u64; plia).
    by replace (a + Z.of_nat (S n) * PGSIZE) with (a + PGSIZE + Z.of_nat n * PGSIZE) by lia.
Qed.

(** [uvmunmap] of [n] mapped pages. *)
Lemma returns_uvmunmap n a (do_free : bool) s t l :
  heap s t l → page_aligned a → 0 ≤ a → a + Z.of_nat n * PGSIZE ≤ MAXVA →
  (∀ k, 0 ≤ k < Z.of_nat n → is_leaf (pte_of (k_mem s) t (a + k * PGSIZE))) →
  freeable do_free a n s t l →
  ∃ s', returns (uvmunmap (pt_root t) a (Z.of_nat n) do_free) s tt s' ∧
    unmapped a n do_free s t l s'.
Proof.
  intros Hh Hal Ha0 Hmax Hleaf Hfree. unfold uvmunmap. pose proof MAXVA_eq.
  pose proof Hal as Hal'. unfold page_aligned in Hal'. rewrite Hal', Nat2Z.id. cbn [Z.eqb negb].
  rewrite u64_small by (unfold is_u64; plia). by apply uvmunmap_loop_unmaps.
Qed.

(** ** uvmdealloc *)

(** The number of pages of an address space of [sz] bytes. *)
Definition pages_of (sz : Z) : Z := PGROUNDUP sz / PGSIZE.

Lemma PGROUNDUP_pages sz : 0 ≤ sz ≤ MAXVA → PGROUNDUP sz = pages_of sz * PGSIZE.
Proof.
  intros Hsz. pose proof MAXVA_eq. unfold pages_of.
  pose proof (PGROUNDUP_aligned sz ltac:(plia)) as Ha. unfold page_aligned, PGSIZE in *. zdiv.
Qed.

Lemma pages_of_range sz : 0 ≤ sz ≤ MAXVA → 0 ≤ pages_of sz ≤ 2 ^ 26.
Proof.
  intros Hsz. pose proof MAXVA_eq as HM. pose proof (PGROUNDUP_range sz ltac:(plia)).
  rewrite PGROUNDUP_pages in * by done. plia.
Qed.

Lemma pages_of_mul n : 0 ≤ n → n * PGSIZE ≤ MAXVA → pages_of (n * PGSIZE) = n.
Proof.
  intros Hn Hmax. pose proof MAXVA_eq as HM.
  pose proof (PGROUNDUP_range (n * PGSIZE) ltac:(plia)) as Hr.
  rewrite PGROUNDUP_pages in Hr by plia. plia.
Qed.

Lemma pages_of_bounds sz :
  0 ≤ sz ≤ MAXVA → (pages_of sz - 1) * PGSIZE < sz ≤ pages_of sz * PGSIZE.
Proof.
  intros Hsz. pose proof MAXVA_eq. pose proof (PGROUNDUP_range sz ltac:(plia)).
  rewrite PGROUNDUP_pages in * by lia. plia.
Qed.

Lemma pages_of_mono sz sz' : 0 ≤ sz → sz ≤ sz' → sz' ≤ MAXVA → pages_of sz ≤ pages_of sz'.
Proof.
  intros H0 Hle Hmax. pose proof MAXVA_eq as HM.
  pose proof (PGROUNDUP_range sz ltac:(plia)). pose proof (PGROUNDUP_range sz' ltac:(plia)).
  rewrite !PGROUNDUP_pages in * by lia. plia.
Qed.

Lemma pages_of_max sz : 0 ≤ sz ≤ MAXVA → pages_of sz * PGSIZE ≤ MAXVA.
Proof.
  intros Hsz. pose proof MAXVA_eq. pose proof (PGROUNDUP_range sz ltac:(plia)).
  rewrite PGROUNDUP_pages in * by lia. plia.
Qed.

(** Shrinking: the pages beyond the new size are unmapped and freed. *)
Lemma returns_uvmdealloc oldsz newsz k n s t l :
  heap s t l → 0 ≤ newsz → oldsz ≤ MAXVA → newsz ≤ oldsz →
  k = pages_of newsz → Z.of_nat n = pages_of oldsz - k →
  (∀ j, 0 ≤ j < Z.of_nat n → is_leaf (pte_of (k_mem s) t (k * PGSIZE + j * PGSIZE))) →
  freeable true (k * PGSIZE) n s t l →
  ∃ s', returns (uvmdealloc (pt_root t) oldsz newsz) s newsz s' ∧
    unmapped (k * PGSIZE) n true s t l s'.
Proof.
  intros Hh H0 Hmax Hle Hk Hn Hleaf Hfree. unfold uvmdealloc.
  pose proof (pages_of_range newsz ltac:(lia)) as Hkr. pose proof (pages_of_range oldsz ltac:(lia)).
  pose proof (pages_of_mono newsz oldsz H0 Hle Hmax). rewrite <- Hk in *.
  destruct (decide (newsz = oldsz)) as [Heq|Hne].
  { assert (n = 0%nat) as -> by (subst; lia). exists s. split; [|by apply unmapped_none].
    rewrite Heq, Z.leb_refl. apply returns_ret. }
  replace (oldsz <=? newsz) with false by lia. rewrite !PGROUNDUP_pages, <- Hk by lia.
  destruct (decide (k = pages_of oldsz)) as [Heq|Hneq].
  { assert (n = 0%nat) as -> by lia. exists s. split; [|by apply unmapped_none].
    rewrite Heq, Z.ltb_irrefl. eapply returns_bind; apply returns_ret. }
  destruct (returns_uvmunmap n (k * PGSIZE) true s t l) as (s' & Hret & Hrest);
    [done|by apply Z.mod_mul|plia| |done|done|].
  { pose proof (pages_of_max oldsz ltac:(lia)). plia. }
  exists s'. split; [|done]. replace (k * PGSIZE <? _) with true by plia. cbn [when].
  rewrite <- Z.mul_sub_distr_r, Z.div_mul, i32_small, u64_small
    by (done || unfold is_i32, is_u64; lia).
  rewrite <- Hn. eapply returns_bind; [done|apply returns_ret].
Qed.

End ops.
