(* ===== verification/VmUser.v ===== *)
(** * User address spaces

    Growing, copying and freeing the user part of an address space: what the map
    and the free pages are afterwards when memory suffices, and that nothing is
    lost when it does not. *)

From S2P Require Import Prelude Memory Riscv Data State Spinlock Kalloc Vm VmFacts VmOps.

Local Open Scope Z_scope.

Section user.
Context {Im : Image} {HIm : ImageOk}.

(** The page at [pa] holds the bytes [f]. *)
Definition page_has (m : mem) (pa : Z) (f : Z → Z) : Prop :=
  ∀ o, 0 ≤ o < PGSIZE → byte_at m (pa + o) = f o.

Lemma page_has_zero m pa : page_has (memset m pa 0 (Z.to_nat PGSIZE)) pa (λ _, 0).
Proof. intros o Ho. rewrite byte_at_memset, decide_True; [done|]. plia. Qed.

Lemma page_has_move m dst src :
  page_has (memmove m dst src (Z.to_nat PGSIZE)) dst (λ o, byte_at m (src + o)).
Proof.
  intros o Ho. rewrite byte_at_memmove, decide_True by plia. f_equal. lia.
Qed.

Lemma same_outside_move m dst src :
  same_outside [dst] m (memmove m dst src (Z.to_nat PGSIZE)).
Proof.
  intros a Ha. rewrite byte_at_memmove, decide_False; [done|]. intros Hin.
  apply (Ha dst); [set_solver|]. unfold in_page. plia.
Qed.

Lemma page_has_frame l m m' pa f :
  Forall page_ok l → page_ok pa → pa ∉ l → same_outside l m m' →
  page_has m pa f → page_has m' pa f.
Proof.
  intros Hl [Hpa _] Hni Hs Hz o Ho. erewrite (same_outside_page l); [by apply Hz|done..|].
  unfold in_page. lia.
Qed.

Lemma mkpte_leaf pa perm :
  0 ≤ pa < 2 ^ 56 → is_perm perm → Z.lor perm PTE_V ≠ PTE_V → is_leaf (mkpte pa perm).
Proof. intros. split; [apply mkpte_valid|]. by rewrite mkpte_flags. Qed.

Lemma page_ok_pa pa : page_ok pa → 0 ≤ pa ∧ pa + PGSIZE < 2 ^ 56.
Proof. intros Hpa%page_ok_range. unfold PHYSTOP, KERNBASE in *. plia. Qed.

(** A page from the allocator, filled. *)
Lemma alloc_filled pa s t l (write : mem → mem) f :
  heap s t (pa :: l) →
  (∀ m, same_outside [pa] m (write m)) →
  (∀ m, same_outside [pa] (k_mem s) m → page_has (write m) pa f) →
  ∃ s1, returns kalloc s pa s1 ∧ pa ≠ 0 ∧
    let s2 := set_k_mem (write (k_mem s1)) s1 in
    mem_only s s2 ∧ heap s2 t l ∧ page_ok pa ∧ pa ∉ l ++ pt_pages t ∧
    same_outside [pa] (k_mem s) (k_mem s2) ∧ page_has (k_mem s2) pa f ∧
    ∀ va, pte_of (k_mem s2) t va = pte_of (k_mem s) t va.
Proof.
  intros Hh Hw Hf. destruct (heap_kalloc pa s t l Hh) as (s1 & Hk & Hm & Hh1 & Hok & Hni & Hs & Hp).
  destruct (heap_write [pa] (write (k_mem s1)) s1 t l) as [Hh2 Hp2];
    [done|by apply list.Forall_singleton|by intros p ->%list_elem_of_singleton|done|].
  pose proof (page_ok_range _ Hok). exists s1.
  split_and!; [done|unfold KERNBASE in *; lia|].
  split_and!; [by apply mem_only_set_mem|done|done|done
    |by eapply same_outside_trans|by apply Hf|].
  intros va. cbn [k_mem set_k_mem]. by rewrite Hp2, Hp.
Qed.

Lemma phys_pages_length f a n : length (phys_pages f a n) = n.
Proof. revert a. induction n; intros; simpl; auto. Qed.

Lemma elem_of_phys_pages f a n j :
  0 ≤ j < Z.of_nat n → PTE2PA (f (a + j * PGSIZE)) ∈ phys_pages f a n.
Proof.
  revert a j. induction n as [|n IH]; intros a j Hj; [lia|]. cbn [phys_pages].
  destruct (decide (j = 0)) as [->|Hne]; [rewrite Z.mul_0_l, Z.add_0_r; by left|]. right.
  replace (a + j * PGSIZE) with (a + PGSIZE + (j - 1) * PGSIZE) by lia. apply IH. lia.
Qed.

Lemma phys_pages_snoc f a n :
  phys_pages f a (S n) = phys_pages f a n ++ [PTE2PA (f (a + Z.of_nat n * PGSIZE))].
Proof.
  revert a. induction n as [|n IH]; intros a.
  - cbn [phys_pages app]. by rewrite Nat2Z.inj_0, Z.mul_0_l, Z.add_0_r.
  - cbn [phys_pages]. cbn [phys_pages] in IH. rewrite IH. cbn [app].
    by replace (a + PGSIZE + Z.of_nat n * PGSIZE) with (a + Z.of_nat (S n) * PGSIZE) by lia.
Qed.

(** ** Adding pages to an address space

    Page [j] is to be mapped with permissions [perm j] and contents [fill j]. *)

Record growable (s0 : kstate) (t0 : ptable) (l0 : list Z) (n0 n1 : Z) (perm : Z → Z) : Prop := {
  g_perm : ∀ j, n0 ≤ j < n1 → is_perm (perm j) ∧ Z.lor (perm j) PTE_V ≠ PTE_V;
  g_range : 0 ≤ n0 ≤ n1;
  g_max : n1 * PGSIZE ≤ MAXVA;
  g_heap : heap s0 t0 l0;
  g_free : ∀ k, n0 ≤ k < n1 → pte_of (k_mem s0) t0 (k * PGSIZE) = 0;
}.

Section growing.
Context {s0 : kstate} {t0 : ptable} {l0 : list Z} {n0 n1 : Z} {perm : Z → Z}.
Context (fill : Z → Z → Z) (HG : growable s0 t0 l0 n0 n1 perm).
Let Hperm := g_perm _ _ _ _ _ _ HG.
Let Hn := g_range _ _ _ _ _ _ HG.
Let Hn1 := g_max _ _ _ _ _ _ HG.
Let Hheap := g_heap _ _ _ _ _ _ HG.
Let Hfree := g_free _ _ _ _ _ _ HG.

(** Pages [n0] to [k] have been added, each backed by a page of its own. *)
Record alloc_inv (k : Z) (s : kstate) (t : ptable) (l : list Z) : Prop := {
  ai_only : mem_only s0 s;
  ai_heap : heap s t l;
  ai_root : pt_root t = pt_root t0;
  ai_pages : phys_pages (pte_of (k_mem s) t) (n0 * PGSIZE) (Z.to_nat (k - n0)) ++ l ++ pt_pages t
    ≡ₚ l0 ++ pt_pages t0;
  ai_frame : same_outside (l0 ++ pt_pages t0) (k_mem s0) (k_mem s);
  ai_old : ∀ va, vpage va → ¬ (n0 * PGSIZE ≤ va < k * PGSIZE) →
    pte_of (k_mem s) t va = pte_of (k_mem s0) t0 va;
  ai_new : ∀ j, n0 ≤ j < k → ∃ pa, pte_of (k_mem s) t (j * PGSIZE) = mkpte pa (perm j) ∧
    page_ok pa ∧ page_has (k_mem s) pa (fill j);
}.

Lemma alloc_inv_nodup k s t l :
  alloc_inv k s t l →
  NoDup (phys_pages (pte_of (k_mem s) t) (n0 * PGSIZE) (Z.to_nat (k - n0)) ++ l ++ pt_pages t) ∧
  Forall page_ok (phys_pages (pte_of (k_mem s) t) (n0 * PGSIZE) (Z.to_nat (k - n0)) ++ l ++ pt_pages t).
Proof.
  intros Hi. rewrite (ai_pages _ _ _ _ Hi).
  split; [apply Hheap|by apply (heap_pages_ok s0)].
Qed.

Lemma alloc_inv_leaf k s t l j :
  alloc_inv k s t l → k ≤ n1 → n0 ≤ j < k → is_leaf (pte_of (k_mem s) t (j * PGSIZE)).
Proof.
  intros Hi Hk Hj. destruct (ai_new _ _ _ _ Hi j Hj) as (pa & -> & Hok & _).
  pose proof (page_ok_pa _ Hok). apply mkpte_leaf; [plia|apply Hperm; lia..].
Qed.

Lemma alloc_inv_freeable k s t l :
  alloc_inv k s t l → freeable true (n0 * PGSIZE) (Z.to_nat (k - n0)) s t l.
Proof.
  intros Hi _. destruct (alloc_inv_nodup _ _ _ _ Hi) as [Hnd Hok].
  by apply Forall_app in Hok as [? _].
Qed.

(** Undoing the work done so far. *)
Lemma alloc_inv_undo k s t l s' :
  n0 ≤ k ≤ n1 → alloc_inv k s t l →
  unmapped (n0 * PGSIZE) (Z.to_nat (k - n0)) true s t l s' →
  ∃ l', grown s0 t0 l0 s' t l' ∧
    ∀ va, vpage va → pte_of (k_mem s') t va = pte_of (k_mem s0) t0 va.
Proof.
  intros Hk Hi (Hm & Hh & Hp & Hs).
  set (fs := phys_pages (pte_of (k_mem s) t) (n0 * PGSIZE) (Z.to_nat (k - n0))) in *.
  exists (reverse fs ++ l). split.
  - split; [eapply mem_only_trans; [apply Hi|done]|done|apply Hi| |].
    + rewrite (reverse_Permutation fs), <- app_assoc. apply Hi.
    + eapply same_outside_seq; [apply Hi|exact Hs|done|].
      intros p Hp'. rewrite <- (ai_pages _ _ _ _ Hi). fold fs. set_solver.
  - intros va Hva. rewrite Hp by done. unfold cleared. case_decide as Hin.
    + destruct Hva as [Hal _]. assert (va = va / PGSIZE * PGSIZE) as ->
        by (unfold page_aligned, PGSIZE in *; zdiv).
      rewrite Hfree; [done|]. unfold PGSIZE in *. zdiv.
    + apply Hi; [done|]. plia.
Qed.

(** The pages behind the new part stay distinct from what is used later. *)
Lemma alloc_inv_fresh k s t l j pa :
  alloc_inv k s t l → k ≤ n1 → n0 ≤ j < k → pte_of (k_mem s) t (j * PGSIZE) = mkpte pa (perm j) →
  page_ok pa → pa ∉ l ++ pt_pages t.
Proof.
  intros Hi Hk Hj Hpte Hok. destruct (alloc_inv_nodup _ _ _ _ Hi) as [Hnd _].
  apply list.NoDup_app in Hnd as (_ & Hd & _). apply Hd.
  pose proof (page_ok_pa _ Hok). rewrite <- (mkpte_pa pa (perm j)); [|apply Hok|plia|apply Hperm; lia].
  rewrite <- Hpte. replace (j * PGSIZE) with (n0 * PGSIZE + (j - n0) * PGSIZE) by lia.
  apply elem_of_phys_pages. lia.
Qed.

(** The invariant after a change that adds no page to the map: table pages may
    have been added. *)
Lemma alloc_inv_grown k s t l s' t' l' :
  alloc_inv k s t l → n0 ≤ k ≤ n1 → grown s t l s' t' l' →
  (∀ va, vpage va → pte_of (k_mem s') t' va = pte_of (k_mem s) t va) →
  alloc_inv k s' t' l'.
Proof.
  intros Hi Hk Hg Hp.
  assert (∀ j, n0 ≤ j < k → vpage (j * PGSIZE)) as Hv.
  { intros j Hj. split; [by apply Z.mod_mul|plia]. }
  split.
  - eapply mem_only_trans; [apply Hi|apply Hg].
  - apply Hg.
  - rewrite (grown_root _ _ _ _ _ _ Hg). apply Hi.
  - rewrite (grown_pages _ _ _ _ _ _ Hg). rewrite <- (ai_pages _ _ _ _ Hi).
    f_equiv. rewrite (phys_pages_ext (pte_of (k_mem s) t)); [done|].
    intros j Hj. apply Hp. rewrite <- Z.mul_add_distr_r. apply Hv. lia.
  - eapply same_outside_seq; [apply Hi|apply Hg|done|].
    intros p Hp'. rewrite <- (ai_pages _ _ _ _ Hi). apply elem_of_app. by right.
  - intros va Hva Hni. rewrite Hp by done. by apply Hi.
  - intros j Hj. destruct (ai_new _ _ _ _ Hi j Hj) as (pa & Hpa & Hok & Hz). exists pa.
    rewrite Hp by auto. split_and!; [done..|].
    eapply page_has_frame; [by eapply heap_pages_ok, ai_heap|done| |apply Hg|done].
    eapply alloc_inv_fresh; [exact Hi|lia|exact Hj|done|done].
Qed.

(** One more page. *)
Lemma alloc_inv_snoc k pa l1 s t s3 t3 l3 :
  alloc_inv k s t (pa :: l1) → n0 ≤ k < n1 → mem_only s s3 → heap s3 t3 l3 →
  pt_root t3 = pt_root t → l3 ++ pt_pages t3 ≡ₚ l1 ++ pt_pages t →
  same_outside ((pa :: l1) ++ pt_pages t) (k_mem s) (k_mem s3) → page_ok pa →
  page_has (k_mem s3) pa (fill k) →
  (∀ va, vpage va → pte_of (k_mem s3) t3 va =
     if decide (va = k * PGSIZE) then mkpte pa (perm k) else pte_of (k_mem s) t va) →
  alloc_inv (k + 1) s3 t3 l3.
Proof.
  intros Hi Hk Hm Hh Hroot Hpages Hs Hok Hz Hp. pose proof (page_ok_pa _ Hok).
  assert (∀ j, n0 ≤ j ≤ k → vpage (j * PGSIZE)) as Hv.
  { intros j Hj. split; [by apply Z.mod_mul|plia]. }
  split; [eapply mem_only_trans; [apply Hi|done]|done|rewrite Hroot; apply Hi| | | |].
  - replace (Z.to_nat (k + 1 - n0)) with (S (Z.to_nat (k - n0))) by lia.
    rewrite phys_pages_snoc.
    replace (n0 * PGSIZE + Z.of_nat (Z.to_nat (k - n0)) * PGSIZE) with (k * PGSIZE) by plia.
    rewrite (phys_pages_ext (pte_of (k_mem s) t)).
    + rewrite Hp, decide_True, mkpte_pa
        by (done || apply Hok || plia || (apply Hv; lia) || (apply Hperm; lia)).
      rewrite <- (ai_pages _ _ _ _ Hi), <- app_assoc, Hpages. done.
    + intros j Hj. rewrite <- Z.mul_add_distr_r, Hp by (apply Hv; lia).
      by rewrite decide_False by plia.
  - eapply same_outside_seq; [apply Hi|exact Hs|done|].
    intros p Hp'. rewrite <- (ai_pages _ _ _ _ Hi). apply elem_of_app. by right.
  - intros va Hva Hni. rewrite Hp by done. rewrite decide_False by plia. apply Hi; [done|]. plia.
  - intros j Hj. rewrite Hp by (apply Hv; lia). case_decide as Hjk.
    { exists pa. by replace j with k by plia. }
    destruct (ai_new _ _ _ _ Hi j) as (pb & Hpb & Hokb & Hzb); [unfold PGSIZE in *; lia|].
    exists pb. split_and!; [done..|].
    eapply page_has_frame; [by eapply heap_pages_ok, ai_heap|done| |exact Hs|done].
    eapply alloc_inv_fresh; [done|lia| |done|done]. plia.
Qed.

(** Mapping one more page, which is given back when that fails. *)
Lemma add_page k pa l1 s t s2 :
  alloc_inv k s t (pa :: l1) → n0 ≤ k < n1 → mem_only s s2 → heap s2 t l1 → page_ok pa →
  pa ∉ l1 ++ pt_pages t → same_outside [pa] (k_mem s) (k_mem s2) →
  page_has (k_mem s2) pa (fill k) → (∀ va, pte_of (k_mem s2) t va = pte_of (k_mem s) t va) →
  ∃ r s3 t3, returns (mappages (pt_root t) (k * PGSIZE) PGSIZE pa (perm k)) s2 r s3 ∧
    (r = 0 ∧ (length (pt_pages t3) ≤ length (pt_pages t) + 2)%nat ∧
       (∃ l3, alloc_inv (k + 1) s3 t3 l3) ∨
     r = -1 ∧ (length (pt_pages t3) ≤ length (pt_pages t) + 1)%nat ∧
       ∃ s4, returns (kfree pa) s3 tt s4 ∧ alloc_inv k s4 t3 [pa]).
Proof.
  intros Hi Hk Hm2 Hh2 Hok Hni Hs2 Hz2 Hp2.
  assert (vpage (k * PGSIZE)) as Hv by (split; [by apply Z.mod_mul|plia]).
  pose proof (page_ok_pa _ Hok). destruct (Hperm k Hk) as [Hpk _].
  destruct (returns_mappages 1 (k * PGSIZE) pa (perm k) s2 t l1)
    as (r & kk & s3 & t3 & l3 & Hmp & Hg & Hp3 & _ & Hr); [done|done|lia|plia|done|lia|plia| |].
  { intros j Hj. assert (j = 0) as -> by lia.
    rewrite Z.mul_0_l, Z.add_0_r, Hp2, (ai_old _ _ _ _ Hi), Hfree; [done|done|done|plia]. }
  exists r, s3, t3. rewrite Z.mul_1_l in Hmp. split; [done|].
  assert (same_outside ((pa :: l1) ++ pt_pages t) (k_mem s) (k_mem s3)) as Hs3.
  { eapply same_outside_seq; [exact Hs2|apply Hg|clear; set_solver..]. }
  destruct Hr as [(-> & -> & Hlen)|(-> & Hkk & -> & Hlen)]; [left|right]; (split; [done|]).
  - split; [exact Hlen|]. exists l3. eapply alloc_inv_snoc; try done; try apply Hg.
    + eapply mem_only_trans; [done|apply Hg].
    + by eapply page_has_frame; [by eapply heap_pages_ok|done|done|apply Hg|].
    + intros va Hva. rewrite Hp3 by done. unfold mapped. destruct Hva as [Hva _], Hv as [Hv _].
      unfold page_aligned in *. repeat case_decide; rewrite ?Hp2; try done; try (unfold PGSIZE in *; zdiv).
      f_equal. plia.
  - assert (kk = 0) as -> by lia. rewrite Nat.add_0_r in Hlen. split; [exact Hlen|].
    destruct (heap_kfree pa s3 t3 []) as (s4 & Hkf & Hm4 & Hh4 & Hs4 & Hp4);
      [apply Hg|done|by rewrite (grown_pages _ _ _ _ _ _ Hg)|].
    exists s4. split; [done|]. eapply alloc_inv_grown; [exact Hi|lia| |].
    + split; [eapply mem_only_trans; [done|]; eapply mem_only_trans; [apply Hg|done]|done|apply Hg| |].
      * cbn [app]. f_equiv. apply (grown_pages _ _ _ _ _ _ Hg).
      * eapply same_outside_seq; [exact Hs3|exact Hs4|done|clear; set_solver].
    + intros va Hva. by rewrite Hp4, Hp3, mapped_0, Hp2.
Qed.

(** How many pages there are, counted in the invariant. *)
Lemma alloc_inv_count k s t l :
  alloc_inv k s t l →
  (Z.to_nat (k - n0) + length l + length (pt_pages t) = length l0 + length (pt_pages t0))%nat.
Proof.
  intros Hi. pose proof (Permutation_length (ai_pages _ _ _ _ Hi)) as Hlen.
  rewrite !length_app, phys_pages_length in Hlen. lia.
Qed.

Lemma alloc_inv_start : alloc_inv n0 s0 t0 l0.
Proof.
  split; [apply mem_only_refl|done|done| |apply same_outside_refl|done|lia].
  by replace (Z.to_nat (n0 - n0)) with 0%nat by lia.
Qed.

End growing.

(** ** uvmalloc *)

(** All pages added, or nothing changed; a page needs at most three pages of memory. *)
Definition all_or_nothing (s0 : kstate) (t0 : ptable) (l0 : list Z) (n0 n1 : Z)
    (perm : Z → Z) (fill : Z → Z → Z) (ok err r : Z) (s : kstate) : Prop :=
  ∃ t l, r = ok ∧ @alloc_inv s0 t0 l0 n0 perm fill n1 s t l ∨
    r = err ∧ grown s0 t0 l0 s t l ∧ (length l0 < 3 * Z.to_nat (n1 - n0))%nat ∧
      ∀ va, vpage va → pte_of (k_mem s) t va = pte_of (k_mem s0) t0 va.

Section uvmalloc.
Context (s0 : kstate) (t0 : ptable) (l0 : list Z) (n0 n1 newsz xperm : Z).
Let perm : Z := Z.lor (Z.lor PTE_R PTE_U) xperm.
Hypothesis Hsz : 0 ≤ newsz ≤ MAXVA.
Hypothesis Hn1 : n1 = pages_of newsz.
Hypothesis HG : growable s0 t0 l0 n0 n1 (λ _, perm).

Notation inv := (@alloc_inv s0 t0 l0 n0 (λ _, perm) (λ _ _, 0)).

(** Out of memory: the pages added so far are freed again. *)
Lemma uvmalloc_fails k s t l :
  n0 ≤ k ≤ n1 → inv k s t l → (length l0 < 3 * Z.to_nat (n1 - n0))%nat →
  ∃ s', returns (uvmdealloc (pt_root t) (k * PGSIZE) (n0 * PGSIZE) ;; mret 0) s 0 s' ∧
    all_or_nothing s0 t0 l0 n0 n1 (λ _, perm) (λ _ _, 0) newsz 0 0 s'.
Proof.
  intros Hk Hi Hshort. pose proof (g_max _ _ _ _ _ _ HG). pose proof (g_range _ _ _ _ _ _ HG).
  destruct (returns_uvmdealloc (k * PGSIZE) (n0 * PGSIZE) n0 (Z.to_nat (k - n0)) s t l)
    as (s' & Hret & Hun); [apply Hi|plia..| | | |by eapply (alloc_inv_freeable _ HG)|].
  - by rewrite pages_of_mul by plia.
  - rewrite pages_of_mul by plia. lia.
  - intros j Hj. rewrite <- Z.mul_add_distr_r.
    by eapply (alloc_inv_leaf _ HG); [exact Hi|lia|lia].
  - destruct (alloc_inv_undo _ HG k s t l s' Hk Hi Hun) as (l' & Hg & Hp).
    exists s'. split; [eapply returns_bind; [done|apply returns_ret]|]. exists t, l'. by right.
Qed.

Lemma uvmalloc_loop_ok fuel k s t l :
  n0 ≤ k ≤ n1 → n1 - k ≤ Z.of_nat fuel → inv k s t l →
  (length (pt_pages t) ≤ length (pt_pages t0) + 2 * Z.to_nat (k - n0))%nat →
  ∃ r s', returns (uvmalloc_loop fuel (pt_root t) (n0 * PGSIZE) newsz xperm (k * PGSIZE)) s r s' ∧
    all_or_nothing s0 t0 l0 n0 n1 (λ _, perm) (λ _ _, 0) newsz 0 r s'.
Proof.
  revert k s t l. pose proof MAXVA_eq. pose proof (pages_of_bounds newsz Hsz) as Hb. rewrite <- Hn1 in Hb.
  pose proof (g_max _ _ _ _ _ _ HG). pose proof (g_range _ _ _ _ _ _ HG).
  induction fuel as [|fuel IH]; intros k s t l Hk Hfuel Hi Htabs; cbn [uvmalloc_loop].
  all: destruct (decide (k = n1)) as [->|Hne];
    [replace (n1 * PGSIZE <? newsz) with false by lia; exists newsz, s;
     (split; [apply returns_ret|exists t, l; by left])|].
  { lia. }
  replace (k * PGSIZE <? newsz) with true by plia. fold perm. destruct l as [|pa l1].
  { pose proof (alloc_inv_count _ _ _ _ _ Hi) as Hcount. cbn [length] in Hcount.
    destruct (uvmalloc_fails k s t [] Hk Hi ltac:(lia)) as (s' & Hret & Hend). exists 0, s'. split; [|done].
    destruct (ai_heap _ _ _ _ _ Hi) as (? & ? & ? & _).
    by eapply returns_bind; [by apply kalloc_empty|]. }
  destruct (alloc_filled pa s t l1 (λ m, memset m pa 0 (Z.to_nat PGSIZE)) (λ _, 0))
    as (s1 & Hka & Hpa0 & Hm2 & Hh2 & Hok & Hni & Hs2 & Hz2 & Hp2);
    [apply Hi|intros; apply same_outside_memset|intros; apply page_has_zero|].
  destruct (add_page _ HG k pa l1 s t _ Hi ltac:(lia) Hm2 Hh2 Hok Hni Hs2 Hz2 Hp2)
    as (r & s3 & t3 & Hmp & Hr).
  assert (∀ r' s' (K1 K2 : Z → K Z), returns (if negb (r =? 0) then K1 pa else K2 pa) s3 r' s' →
    returns (new ← kalloc; if new =? 0 then uvmdealloc (pt_root t) (k * PGSIZE) (n0 * PGSIZE) ;; mret 0
      else zero_page new ;; r ← mappages (pt_root t) (k * PGSIZE) PGSIZE new perm;
        if negb (r =? 0) then K1 new else K2 new) s r' s') as Hrun.
  { intros r' s' K1 K2 Hret. eapply returns_bind; [done|]. replace (pa =? 0) with false by lia.
    eapply returns_bind; [apply returns_zero_page|]. by eapply returns_bind. }
  destruct Hr as [(-> & Hlen & l3 & Hi3)|(-> & Hlen & s4 & Hkf & Hi4)].
  - destruct (IH (k + 1) s3 t3 l3) as (r & s' & Hret & Hend); [lia|lia|done|lia|].
    exists r, s'. split; [|done]. apply (Hrun _ _ (λ new, kfree new ;; _) (λ _, _)). cbn [Z.eqb negb].
    rewrite u64_small by (unfold is_u64; plia).
    rewrite (ai_root _ _ _ _ _ Hi), <- (ai_root _ _ _ _ _ Hi3).
    by replace (k * PGSIZE + PGSIZE) with ((k + 1) * PGSIZE) by lia.
  - pose proof (alloc_inv_count _ _ _ _ _ Hi4) as Hcount. cbn [length] in Hcount.
    destruct (uvmalloc_fails k s4 t3 [pa] Hk Hi4 ltac:(lia)) as (s' & Hret & Hend).
    exists 0, s'. split; [|done]. apply (Hrun _ _ (λ new, kfree new ;; _) (λ _, _)). cbn [Z.eqb negb].
    rewrite (ai_root _ _ _ _ _ Hi), <- (ai_root _ _ _ _ _ Hi4).
    by eapply returns_bind.
Qed.

End uvmalloc.

Lemma uvmalloc_perm xperm :
  is_perm xperm →
  let perm := Z.lor (Z.lor PTE_R PTE_U) xperm in is_perm perm ∧ Z.lor perm PTE_V ≠ PTE_V.
Proof.
  intros Hx perm. split; [by apply is_perm_lor|]. intros Hv.
  assert (Z.testbit (Z.lor perm PTE_V) 1 = Z.testbit PTE_V 1) as Hb by (by rewrite Hv).
  unfold perm in Hb. by rewrite !Z.lor_spec in Hb.
Qed.

Lemma returns_uvmalloc s t l oldsz newsz xperm :
  let n0 := pages_of oldsz in let n1 := pages_of newsz in
  heap s t l → 0 ≤ oldsz → oldsz ≤ newsz → newsz ≤ MAXVA → is_perm xperm →
  (∀ k, n0 ≤ k < n1 → pte_of (k_mem s) t (k * PGSIZE) = 0) →
  ∃ r s', returns (uvmalloc (pt_root t) oldsz newsz xperm) s r s' ∧
    all_or_nothing s t l n0 n1 (λ _, Z.lor (Z.lor PTE_R PTE_U) xperm) (λ _ _, 0) newsz 0 r s'.
Proof.
  intros n0 n1 Hh H0 Hle Hmax Hx Hfree. unfold uvmalloc. pose proof MAXVA_eq.
  replace (newsz <? oldsz) with false by lia. cbv zeta. rewrite PGROUNDUP_pages by lia. fold n0.
  pose proof (pages_of_range oldsz ltac:(lia)). pose proof (pages_of_mono oldsz newsz H0 Hle Hmax).
  assert (growable s t l n0 n1 (λ _, Z.lor (Z.lor PTE_R PTE_U) xperm)) as HG.
  { split; [intros; by apply uvmalloc_perm|lia|apply pages_of_max; lia|done|done]. }
  eapply (uvmalloc_loop_ok s t l n0 n1 newsz xperm); [lia|done|done|lia| |exact (alloc_inv_start _ HG)|lia].
  pose proof (pages_of_bounds newsz ltac:(lia)). unfold n0, n1, PGSIZE in *. zdiv.
Qed.

(** ** uvmcopy *)

Lemma flags_perm v : is_perm (PTE_FLAGS v).
Proof.
  unfold PTE_FLAGS, is_perm. change 0x3FF with (Z.ones 10). rewrite Z.land_ones by lia.
  by apply Z.mod_pos_bound.
Qed.

Lemma flags_valid v : has_flag v PTE_V = true → Z.lor (PTE_FLAGS v) PTE_V = PTE_FLAGS v.
Proof.
  intros Hv. assert (Z.testbit v 0 = true) as Hb.
  { unfold has_flag, PTE_V in Hv. change 1 with (Z.ones 1) in Hv.
    rewrite Z.land_ones in Hv by lia. pose proof (Z.bit0_mod v) as Hm.
    destruct (Z.testbit v 0); [done|]. change (2 ^ 1) with 2 in Hv.
    by rewrite <- Hm in Hv. }
  unfold PTE_FLAGS, PTE_V. apply Z.bits_inj'. intros i Hi. rewrite Z.lor_spec, Z.land_spec.
  destruct (decide (i = 0)) as [->|Hne]; [by rewrite Hb|].
  replace (Z.testbit 1 i) with false; [by rewrite orb_false_r|].
  change 1 with (Z.ones 1). by rewrite Z.ones_spec_high by lia.
Qed.

Section uvmcopy.
Context (s0 : kstate) (told t0 : ptable) (l0 : list Z) (n1 sz : Z).
Let old (j : Z) : Z := pte_of (k_mem s0) told (j * PGSIZE).
Let perm (j : Z) : Z := PTE_FLAGS (old j).
Let fill (j o : Z) : Z := byte_at (k_mem s0) (PTE2PA (old j) + o).
Hypothesis Hsz : 0 ≤ sz ≤ MAXVA.
Hypothesis Hn1 : n1 = pages_of sz.
Hypothesis Hheap : heap s0 t0 l0.
Hypothesis Hfree : ∀ k, 0 ≤ k < n1 → pte_of (k_mem s0) t0 (k * PGSIZE) = 0.
Hypothesis Hold : pt_rep (k_mem s0) told.
Hypothesis Hdisj : ∀ p, p ∈ pt_pages told → p ∉ l0 ++ pt_pages t0.
Hypothesis Hleaf : ∀ j, 0 ≤ j < n1 → is_leaf (old j).
Hypothesis Hphys : ∀ j, 0 ≤ j < n1 → page_ok (PTE2PA (old j)) ∧ PTE2PA (old j) ∉ l0 ++ pt_pages t0.

Lemma copy_growable : growable s0 t0 l0 0 n1 perm.
Proof.
  pose proof (pages_of_range sz Hsz).
  split; [|lia|rewrite Hn1; by apply pages_of_max|done|done].
  intros j Hj. destruct (Hleaf j Hj) as [Hv Hf]. unfold perm.
  split; [apply flags_perm|by rewrite flags_valid].
Qed.

Notation inv := (@alloc_inv s0 t0 l0 0 perm fill).

(** The parent's tables and pages are as they were. *)
Lemma copy_old k s t l :
  inv k s t l → pt_rep (k_mem s) told ∧ ∀ va, pte_of (k_mem s) told va = pte_of (k_mem s0) told va.
Proof.
  intros Hi. apply (rep_frame (l0 ++ pt_pages t0)); [done| |done|apply Hi].
  by apply (heap_pages_ok s0).
Qed.

Lemma copy_fails k s t l :
  0 ≤ k ≤ n1 → inv k s t l → (length l0 < 3 * Z.to_nat (n1 - 0))%nat →
  ∃ s', returns (uvmunmap (pt_root t) 0 (k * PGSIZE / PGSIZE) true ;; mret (-1)) s (-1) s' ∧
    all_or_nothing s0 t0 l0 0 n1 perm fill 0 (-1) (-1) s'.
Proof.
  intros Hk Hi Hshort. pose proof copy_growable as HG. pose proof (g_max _ _ _ _ _ _ HG).
  destruct (returns_uvmunmap (Z.to_nat k) 0 true s t l) as (s' & Hret & Hun);
    [apply Hi|done|lia|plia| | |].
  - intros j Hj. by eapply (alloc_inv_leaf _ HG); [exact Hi|lia|lia].
  - pose proof (alloc_inv_freeable _ HG _ _ _ _ Hi) as Hf. by rewrite Z.sub_0_r in Hf.
  - rewrite Z.div_mul by done. rewrite Z2Nat.id in Hret by lia.
    destruct (alloc_inv_undo _ HG k s t l s' Hk Hi) as (l' & Hg & Hp); [by rewrite Z.sub_0_r|].
    exists s'. split; [eapply returns_bind; [done|apply returns_ret]|]. exists t, l'. by right.
Qed.

(** What [memmove] copies to the fresh page [pa]. *)
Lemma copy_content k pa l1 s t m :
  inv k s t (pa :: l1) → 0 ≤ k < n1 → same_outside [pa] (k_mem s) m →
  page_has (memmove m pa (PTE2PA (old k)) (Z.to_nat PGSIZE)) pa (fill k).
Proof.
  intros Hi Hk Hs o Ho. rewrite page_has_move by done. destruct (Hphys k Hk) as [[Hal Hr] Hni].
  pose proof (heap_pages_ok _ _ _ Hheap) as Hok.
  assert (pa ∈ l0 ++ pt_pages t0) as Hpa.
  { rewrite <- (ai_pages _ _ _ _ _ Hi). apply elem_of_app. right. by left. }
  assert (in_page (PTE2PA (old k)) (PTE2PA (old k) + o)) as Hin by (unfold in_page; lia).
  transitivity (byte_at (k_mem s) (PTE2PA (old k) + o)).
  - eapply (same_outside_page [pa]); [|done| |done|done].
    + apply list.Forall_singleton. rewrite list.Forall_forall in Hok. auto.
    + intros Heq%list_elem_of_singleton. apply Hni. by rewrite Heq.
  - eapply (same_outside_page (l0 ++ pt_pages t0)); [done|done|done|apply Hi|done].
Qed.

(** The parent's entry is found, and the rest of the body runs. *)
Lemma uvmcopy_loop_S fuel k s t l r s' :
  inv k s t l → 0 ≤ k < n1 →
  returns (page ← kalloc; if page =? 0 then
        uvmunmap (pt_root t) 0 (k * PGSIZE / PGSIZE) true ;; mret (-1) else
        move page (PTE2PA (old k)) (Z.to_nat PGSIZE) ;;
        r ← mappages (pt_root t) (k * PGSIZE) PGSIZE page (perm k);
        if negb (r =? 0) then
          kfree page ;; uvmunmap (pt_root t) 0 (k * PGSIZE / PGSIZE) true ;; mret (-1)
        else uvmcopy_loop fuel (pt_root told) (pt_root t) sz (u64 (k * PGSIZE + PGSIZE))) s r s' →
  returns (uvmcopy_loop (S fuel) (pt_root told) (pt_root t) sz (k * PGSIZE)) s r s'.
Proof.
  intros Hi Hk Hret. pose proof (pages_of_bounds sz Hsz) as Hb. rewrite <- Hn1 in Hb.
  pose proof (g_max _ _ _ _ _ _ copy_growable).
  destruct (copy_old k s t l Hi) as [Hrep Hsame]. destruct (Hleaf k Hk) as [Hv Hf].
  destruct (pte_slot told (k * PGSIZE)) as [pte|] eqn:Hslot.
  2: { unfold old in Hv. by rewrite (pte_slot_None _ _ _ Hslot) in Hv. }
  pose proof (returns_walk (k * PGSIZE) told s Hrep ltac:(plia)) as Hw. rewrite Hslot in Hw.
  change (default 0 (Some pte)) with pte in Hw.
  pose proof (pte_slot_nonzero _ _ _ _ Hrep Hslot). cbn [uvmcopy_loop].
  replace (k * PGSIZE <? sz) with true by plia.
  eapply returns_bind; [done|]. replace (pte =? 0) with false by lia.
  eapply returns_bind; [apply returns_gets|].
  rewrite (pte_slot_load _ _ _ _ Hslot), Hsame. fold (old k). by rewrite Hv.
Qed.

Lemma uvmcopy_loop_ok fuel k s t l :
  0 ≤ k ≤ n1 → n1 - k ≤ Z.of_nat fuel → inv k s t l →
  (length (pt_pages t) ≤ length (pt_pages t0) + 2 * Z.to_nat (k - 0))%nat →
  ∃ r s', returns (uvmcopy_loop fuel (pt_root told) (pt_root t) sz (k * PGSIZE)) s r s' ∧
    all_or_nothing s0 t0 l0 0 n1 perm fill 0 (-1) r s'.
Proof.
  revert k s t l. pose proof MAXVA_eq. pose proof copy_growable as HG.
  pose proof (pages_of_bounds sz Hsz) as Hb. rewrite <- Hn1 in Hb. pose proof (g_max _ _ _ _ _ _ HG).
  induction fuel as [|fuel IH]; intros k s t l Hk Hfuel Hi Htabs.
  all: destruct (decide (k = n1)) as [->|Hne];
    [cbn [uvmcopy_loop]; replace (n1 * PGSIZE <? sz) with false by lia; exists 0, s;
     (split; [apply returns_ret|exists t, l; by left])|].
  { lia. }
  destruct l as [|pa l1].
  { pose proof (alloc_inv_count _ _ _ _ _ Hi) as Hcount. cbn [length] in Hcount.
    destruct (copy_fails k s t [] Hk Hi ltac:(lia)) as (s' & Hret & Hend). exists (-1), s'. split; [|done].
    destruct (ai_heap _ _ _ _ _ Hi) as (? & ? & ? & _).
    eapply uvmcopy_loop_S; [done|lia|]. by eapply returns_bind; [by apply kalloc_empty|]. }
  destruct (alloc_filled pa s t l1 (λ m, memmove m pa (PTE2PA (old k)) (Z.to_nat PGSIZE)) (fill k))
    as (s1 & Hka & Hpa0 & Hm2 & Hh2 & Hok & Hni & Hs2 & Hz2 & Hp2);
    [apply Hi|intros; apply same_outside_move|intros; by eapply copy_content; [|lia|]|].
  destruct (add_page _ HG k pa l1 s t _ Hi ltac:(lia) Hm2 Hh2 Hok Hni Hs2 Hz2 Hp2)
    as (r & s3 & t3 & Hmp & Hr).
  destruct Hr as [(-> & Hlen & l3 & Hi3)|(-> & Hlen & s4 & Hkf & Hi4)].
  - destruct (IH (k + 1) s3 t3 l3) as (r & s' & Hret & Hend); [lia|lia|done|lia|].
    exists r, s'. split; [|done]. eapply uvmcopy_loop_S; [done|lia|].
    eapply returns_bind; [done|]. replace (pa =? 0) with false by lia.
    eapply returns_bind; [apply returns_move|]. eapply returns_bind; [done|]. cbn [Z.eqb negb].
    rewrite u64_small by (unfold is_u64; plia).
    rewrite (ai_root _ _ _ _ _ Hi), <- (ai_root _ _ _ _ _ Hi3).
    by replace (k * PGSIZE + PGSIZE) with ((k + 1) * PGSIZE) by lia.
  - pose proof (alloc_inv_count _ _ _ _ _ Hi4) as Hcount. cbn [length] in Hcount.
    destruct (copy_fails k s4 t3 [pa] Hk Hi4 ltac:(lia)) as (s' & Hret & Hend).
    exists (-1), s'. split; [|done]. eapply uvmcopy_loop_S; [done|lia|].
    eapply returns_bind; [done|]. replace (pa =? 0) with false by lia.
    eapply returns_bind; [apply returns_move|]. eapply returns_bind; [done|]. cbn [Z.eqb negb].
    rewrite (ai_root _ _ _ _ _ Hi), <- (ai_root _ _ _ _ _ Hi4).
    by eapply returns_bind.
Qed.

Lemma returns_uvmcopy :
  ∃ r s', returns (uvmcopy (pt_root told) (pt_root t0) sz) s0 r s' ∧
    all_or_nothing s0 t0 l0 0 n1 perm fill 0 (-1) r s'.
Proof.
  unfold uvmcopy. pose proof copy_growable as HG. pose proof (pages_of_range sz Hsz).
  eapply (uvmcopy_loop_ok _ 0); [lia| |exact (alloc_inv_start _ HG)|lia].
  pose proof (pages_of_bounds sz Hsz) as Hb. rewrite <- Hn1 in Hb. unfold PGSIZE in *. zdiv.
Qed.

End uvmcopy.

End user.
