(* ===== verification/VmFree.v ===== *)
(** * Freeing an address space

    [freewalk] returns every page of a tree of tables without leaf mappings to the
    allocator, and [uvmfree] every page of an address space. *)

From S2P Require Import Prelude Memory Riscv Data State Spinlock Kalloc Vm VmFacts VmOps VmUser.

Local Open Scope Z_scope.

Section free.
Context {Im : Image} {HIm : ImageOk}.

(** An entry that [freewalk] follows. *)
Definition is_pointer (v : Z) : Prop :=
  has_flag v PTE_V = true ∧ Z.land v (Z.lor (Z.lor PTE_R PTE_W) PTE_X) = 0.

(** [pages] are the table pages below [p], in the order in which they are freed. *)
Fixpoint table_tree (m : mem) (d : nat) (p : Z) (pages : list Z) : Prop :=
  match d with
  | O => False
  | S d' => ∃ f, pages = (pte_indices ≫= f) ++ [p] ∧
      ∀ i, is_index i →
        has_flag (entry m p i) PTE_V = false ∧ f i = [] ∨
        is_pointer (entry m p i) ∧ table_tree m d' (PTE2PA (entry m p i)) (f i)
  end.

Lemma elem_of_bind_2 (f : Z → list Z) (l : list Z) i x : i ∈ l → x ∈ f i → x ∈ l ≫= f.
Proof. intros Hi Hx. apply list_elem_of_bind. eauto. Qed.

Lemma is_index_seq i : is_index i ↔ i ∈ pte_indices.
Proof. by rewrite elem_of_pte_indices. Qed.

Lemma tree_frame L m m' d p pages :
  Forall page_ok L → Forall page_ok pages → (∀ q, q ∈ pages → q ∉ L) →
  same_outside L m m' → table_tree m d p pages → table_tree m' d p pages.
Proof.
  intros HL. revert p pages. induction d as [|d IH]; intros p pages Hok Hd Hs; cbn [table_tree]; [done|].
  intros (f & -> & Hf). exists f. split; [done|]. intros i Hi.
  rewrite list.Forall_forall in Hok.
  rewrite (same_outside_entry L m m' p i); [|done| | |done|done].
  - destruct (Hf i Hi) as [?|[Hp Ht]]; [by left|right]. split; [done|].
    assert (∀ q, q ∈ f i → q ∈ (pte_indices ≫= f) ++ [p]) as Hsub.
    { intros q Hq. apply elem_of_app. left. eapply elem_of_bind_2; [|done]. by apply is_index_seq. }
    apply IH; [|auto|done|done]. apply list.Forall_forall. auto.
  - apply (Hok p). set_solver.
  - apply Hd. set_solver.
Qed.

(** The state in which pages can be freed. *)
Definition pool (s : kstate) (l : list Z) : Prop :=
  ready s ∧ unlocked LkKmem s ∧ free_pages s l.

(** [pages] went back to the free list, and [L] may have been overwritten. *)
Definition freed (pages L : list Z) (s : kstate) (l : list Z) (s' : kstate) : Prop :=
  mem_only s s' ∧ same_outside L (k_mem s) (k_mem s') ∧ ∃ l', pool s' l' ∧ l' ≡ₚ pages ++ l.

Definition freewalk_entry (d : nat) (p i : Z) : K unit :=
  pte ← load (p + 8 * i);
  if has_flag pte PTE_V && (Z.land pte (Z.lor (Z.lor PTE_R PTE_W) PTE_X) =? 0) then
    let child := PTE2PA pte in
    freewalk d child ;;
    store (p + 8 * i) 0
  else if has_flag pte PTE_V then panic "freewalk: leaf"
  else mret tt.

Section level.
Context (d : nat).
Hypothesis freewalk_d : ∀ p pages s l,
  table_tree (k_mem s) d p pages → pool s l → Forall page_ok pages → NoDup (pages ++ l) →
  ∃ s', returns (freewalk d p) s tt s' ∧ freed pages pages s l s'.

(** One entry that points to a table. *)
Lemma freewalk_entry_frees p i pages s l :
  is_index i → page_ok p → p ∉ pages ++ l → is_pointer (entry (k_mem s) p i) →
  table_tree (k_mem s) d (PTE2PA (entry (k_mem s) p i)) pages →
  pool s l → Forall page_ok pages → NoDup (pages ++ l) →
  ∃ s', returns (freewalk_entry d p i) s tt s' ∧ freed pages (p :: pages) s l s' ∧
    ∀ j, is_index j → j ≠ i → entry (k_mem s') p j = entry (k_mem s) p j.
Proof.
  intros Hi Hp Hni [Hv Hrwx] Ht Hpool Hok Hnd.
  destruct (freewalk_d _ _ _ _ Ht Hpool Hok Hnd) as (s1 & Hret & Hm & Hs & l' & (Hr & Hu & Hc & Hnd') & Hl').
  set (m2 := store64 (k_mem s1) (p + 8 * i) 0).
  pose proof (same_outside_store_entry (k_mem s1) p i 0 Hi) as Hs2. fold m2 in Hs2.
  exists (set_k_mem m2 s1). split_and!.
  - unfold freewalk_entry. eapply returns_bind; [apply returns_gets|].
    fold (entry (k_mem s) p i). rewrite Hv, Hrwx. cbn [Z.eqb andb].
    by eapply returns_bind; [done|].
  - split_and!; [by apply mem_only_set_mem| |].
    + eapply same_outside_seq; [exact Hs|exact Hs2|clear; set_solver..].
    + exists l'. split; [|done]. split_and!; [done..|]. split; [|done].
      eapply (free_chain_frame [p]); [by apply list.Forall_singleton| |done|done].
      apply not_in_singleton. by rewrite Hl'.
  - intros j Hj Hne. cbn [k_mem set_k_mem]. unfold m2.
    rewrite entry_store_other; [|apply Hp|apply Hp|done|done|congruence].
    apply (same_outside_entry pages); [done|apply Hp|set_solver|done|done].
Qed.

(** The loop over a part of the entries. *)
Lemma freewalk_loop p f ix s l :
  NoDup ix → Forall is_index ix → page_ok p → p ∉ (ix ≫= f) ++ l →
  (∀ i, i ∈ ix →
     has_flag (entry (k_mem s) p i) PTE_V = false ∧ f i = [] ∨
     is_pointer (entry (k_mem s) p i) ∧ table_tree (k_mem s) d (PTE2PA (entry (k_mem s) p i)) (f i)) →
  pool s l → Forall page_ok ((ix ≫= f)) → NoDup ((ix ≫= f) ++ l) →
  ∃ s', returns (for_each ix (freewalk_entry d p)) s tt s' ∧
    freed ((ix ≫= f)) (p :: (ix ≫= f)) s l s'.
Proof.
  intros His Hix Hp. revert s l. induction His as [|i ix Hi His IH]; intros s l Hni Hf Hpool Hok Hnd.
  { exists s. split; [apply returns_ret|].
    split_and!; [apply mem_only_refl|apply same_outside_refl|by exists l]. }
  inversion Hix as [|? ? Hii Hix']; subst. rewrite bind_cons in *.
  apply Forall_app in Hok as [Hoki Hok]. rewrite <- app_assoc in Hnd, Hni.
  assert (∀ j, j ∈ ix → ∀ q, q ∈ f j → q ∈ (ix ≫= f)) as Hsub
    by (intros; by eapply elem_of_bind_2).
  destruct (Hf i ltac:(by left)) as [[Hv Hfi]|[Hptr Htree]].
  - rewrite Hfi in *. destruct (IH Hix' s l) as (s' & Hret & Hfr); try done.
    { intros j Hj. apply Hf. by right. }
    exists s'. split; [|done]. cbn [for_each]. eapply returns_bind; [|done].
    unfold freewalk_entry. eapply returns_bind; [apply returns_gets|].
    unfold entry in Hv. rewrite Hv. apply returns_ret.
  - assert (NoDup (f i ++ l)) as Hndi.
    { rewrite (Permutation_app_comm (ix ≫= f) l), app_assoc in Hnd.
      by apply list.NoDup_app in Hnd as (? & _ & _). }
    destruct (freewalk_entry_frees p i (f i) s l) as (s1 & Hret1 & (Hm1 & Hs1 & l1 & Hpool1 & Hl1) & He1);
      try done; [set_solver|].
    assert (∀ q, q ∈ (ix ≫= f) → q ∉ p :: f i) as Hdisj.
    { intros q Hq Hq'. apply elem_of_cons in Hq' as [->|Hq']; [set_solver|].
      apply list.NoDup_app in Hnd as (_ & Hd & _). apply (Hd q Hq'). set_solver. }
    destruct (IH Hix' s1 l1) as (s' & Hret & Hm & Hs & l' & Hpool' & Hl').
    + rewrite Hl1. set_solver.
    + intros j Hj. assert (j ≠ i) by (intros ->; done).
      rewrite list.Forall_forall in Hix'. rewrite He1 by auto.
      destruct (Hf j ltac:(by right)) as [?|[? ?]]; [by left|right]. split; [done|].
      eapply (tree_frame (p :: f i)); [by apply Forall_cons| |intros; by eapply Hdisj, Hsub|exact Hs1|done].
      rewrite list.Forall_forall in Hok. apply list.Forall_forall. eauto.
    + done.
    + done.
    + rewrite Hl1. by rewrite (Permutation_app_swap_app _ (f i) l).
    + exists s'. split; [cbn [for_each]; by eapply returns_bind|].
      split_and!; [by eapply mem_only_trans| |].
      * eapply same_outside_seq; [exact Hs1|exact Hs|clear; set_solver..].
      * exists l'. split; [done|]. rewrite Hl', Hl1. by rewrite (Permutation_app_swap_app _ (f i) l), app_assoc.
Qed.
End level.

Lemma freewalk_frees d p pages s l :
  table_tree (k_mem s) d p pages → pool s l → Forall page_ok pages → NoDup (pages ++ l) →
  ∃ s', returns (freewalk d p) s tt s' ∧ freed pages pages s l s'.
Proof.
  revert p pages s l. induction d as [|d IH]; intros p pages s l; cbn [table_tree]; [done|].
  intros (f & -> & Hf) Hpool [Hok Hp%Forall_inv]%Forall_app Hnd.
  rewrite <- app_assoc in Hnd. cbn [app] in Hnd.
  assert (p ∉ (pte_indices ≫= f) ++ l ∧ NoDup ((pte_indices ≫= f) ++ l)) as [Hni Hnd'].
  { rewrite <- Permutation_middle in Hnd. by apply list.NoDup_cons in Hnd. }
  destruct (freewalk_loop d IH p f pte_indices s l) as (s1 & Hret & Hm & Hs & l1 & (Hr & Hu & Hf1) & Hl1);
    try done.
  { apply NoDup_pte_indices. }
  { apply list.Forall_forall. intros i. by rewrite is_index_seq. }
  { intros i Hi. apply Hf. by apply is_index_seq. }
  destruct (kfree_pushes p l1 s1) as (s2 & Hk & Hm2 & Hf2 & Hs2); [done..|by rewrite Hl1|].
  exists s2. split; [by eapply returns_bind|].
  split_and!; [by eapply mem_only_trans| |].
  - eapply same_outside_seq; [exact Hs|exact Hs2|clear; set_solver..].
  - exists (p :: l1). split.
    + by split_and!; [eapply mem_only_ready|eapply mem_only_unlocked|].
    + rewrite Hl1, <- app_assoc. by rewrite Permutation_middle.
Qed.

(** ** The tree of a page table *)

(** No leaf entry is valid. *)
Definition no_mappings (m : mem) (t : ptable) : Prop :=
  ∀ va, vpage va → has_flag (pte_of m t va) PTE_V = false.

Definition leaf_pages (t : ptable) (i : Z) : list Z :=
  pte_indices ≫= λ j, match pt_leafs t !! (i, j) with Some r => [r] | None => [] end.

Definition mid_pages (t : ptable) (i : Z) : list Z :=
  match pt_mids t !! i with Some q => leaf_pages t i ++ [q] | None => [] end.

Lemma elem_of_leaf_pages m t i r :
  pt_rep m t → r ∈ leaf_pages t i ↔ ∃ j, pt_leafs t !! (i, j) = Some r.
Proof.
  intros Hrep. unfold leaf_pages. rewrite list_elem_of_bind. split.
  - intros (j & Hr & _). exists j. destruct (pt_leafs t !! (i, j)); set_solver.
  - intros (j & Hj). exists j. rewrite Hj. split; [by left|]. apply is_index_seq.
    apply (rep_leafs_dom _ _ Hrep i). eauto.
Qed.

Lemma elem_of_mid_pages m t i x :
  pt_rep m t → x ∈ mid_pages t i ↔
    pt_mids t !! i = Some x ∨ ∃ j, pt_leafs t !! (i, j) = Some x.
Proof.
  intros Hrep. unfold mid_pages. destruct (pt_mids t !! i) as [q|] eqn:Hq.
  - rewrite elem_of_app, list_elem_of_singleton, (elem_of_leaf_pages m) by done. naive_solver.
  - split; [by intros ?%not_elem_of_nil|]. intros [?|[j Hj]]; [done|].
    destruct (rep_leafs_dom _ _ Hrep i j) as [[? ?] _]; [eauto|congruence].
Qed.

Lemma NoDup_leaf_pages m t i : pt_rep m t → NoDup (leaf_pages t i).
Proof.
  intros Hrep. apply NoDup_bind; [| |apply NoDup_pte_indices].
  - intros j1 j2 r _ _ H1 H2. pose proof (rep_nodup _ _ Hrep) as Hnd.
    destruct (pt_leafs t !! (i, j1)) eqn:E1; [|set_solver].
    destruct (pt_leafs t !! (i, j2)) eqn:E2; [|set_solver].
    apply list_elem_of_singleton in H1, H2. subst. by simplify_eq (pt_leaf_inj t Hnd _ _ _ E1 E2).
  - intros j _. destruct (pt_leafs t !! (i, j)); [apply NoDup_singleton|constructor].
Qed.

Lemma NoDup_mid_pages m t i : pt_rep m t → NoDup (mid_pages t i).
Proof.
  intros Hrep. unfold mid_pages. destruct (pt_mids t !! i) as [q|] eqn:Hq; [|constructor].
  apply list.NoDup_app. split_and!; [by eapply NoDup_leaf_pages| |apply NoDup_singleton].
  intros r Hr Hr'. apply list_elem_of_singleton in Hr' as ->.
  apply (elem_of_leaf_pages m) in Hr as [j Hj]; [|done].
  by eapply (pt_mid_ne_leaf t); [by eapply rep_nodup|..].
Qed.

Lemma mid_pages_inj m t i j x : pt_rep m t → x ∈ mid_pages t i → x ∈ mid_pages t j → i = j.
Proof.
  intros Hrep. rewrite !(elem_of_mid_pages m) by done. pose proof (rep_nodup _ _ Hrep) as Hnd.
  intros [Hi|[i' Hi]] [Hj|[j' Hj]].
  - by eapply pt_mid_inj.
  - by destruct (pt_mid_ne_leaf t Hnd _ _ _ _ Hi Hj).
  - by destruct (pt_mid_ne_leaf t Hnd _ _ _ _ Hj Hi).
  - by simplify_eq (pt_leaf_inj t Hnd _ _ _ Hi Hj).
Qed.

Lemma elem_of_pt_pages t x :
  x ∈ pt_pages t ↔ x = pt_root t ∨ (∃ i, pt_mids t !! i = Some x) ∨
    ∃ ij, pt_leafs t !! ij = Some x.
Proof.
  unfold pt_pages. rewrite elem_of_cons, elem_of_app, !list_elem_of_fmap.
  split.
  - intros [?|[([i q] & -> & Hq)|([ij q] & -> & Hq)]]; [by left|right; left|right; right];
      apply elem_of_map_to_list in Hq; eauto.
  - intros [?|[[i Hi]|[ij Hij]]]; [by left|right; left|right; right];
      [exists (i, x)|exists (ij, x)]; (split; [done|]); by apply elem_of_map_to_list.
Qed.

Lemma pt_pages_tree m t :
  pt_rep m t → (pte_indices ≫= mid_pages t) ++ [pt_root t] ≡ₚ pt_pages t.
Proof.
  intros Hrep. pose proof (rep_nodup _ _ Hrep) as Hnd.
  assert (∀ x, x ∈ (pte_indices ≫= mid_pages t) ↔
    (∃ i, pt_mids t !! i = Some x) ∨ ∃ ij, pt_leafs t !! ij = Some x) as Hin.
  { intros x. rewrite list_elem_of_bind. split.
    - intros (i & [?|[j ?]]%(elem_of_mid_pages m) & _); eauto.
    - intros [[i Hi]|[[i j] Hij]]; exists i; rewrite (elem_of_mid_pages m), <- is_index_seq by done.
      + split; [by left|]. pose proof (rep_mids_dom _ _ Hrep i ltac:(eauto)). unfold is_index. lia.
      + split; [eauto|]. destruct (rep_leafs_dom _ _ Hrep i j) as [Hm _]; [eauto|].
        pose proof (rep_mids_dom _ _ Hrep i Hm). unfold is_index. lia. }
  apply NoDup_Permutation; [|done|].
  - apply list.NoDup_app. split_and!; [|intros x Hx ->%list_elem_of_singleton|apply NoDup_singleton].
    + apply NoDup_bind; [|intros; by eapply NoDup_mid_pages|apply NoDup_pte_indices].
      intros. by eapply mid_pages_inj.
    + apply Hin in Hx as [[i Hi]|[ij Hij]].
      * by eapply (pt_mid_ne_root t).
      * by eapply (pt_leaf_ne_root t).
  - intros x. rewrite elem_of_app, list_elem_of_singleton, Hin, elem_of_pt_pages. tauto.
Qed.

Lemma pointer_entry q : page_ok q → is_pointer (Z.lor (PA2PTE q) PTE_V).
Proof.
  intros Hq%page_ok_range. split; [rewrite has_flag_lor; apply orb_true_r|].
  assert (PTE_FLAGS (Z.lor (PA2PTE q) PTE_V) = PTE_V) as Hf.
  { apply PTE_FLAGS_pte; [unfold PHYSTOP, KERNBASE in *; lia|by vm_compute]. }
  unfold PTE_FLAGS in Hf.
  change (Z.lor (Z.lor PTE_R PTE_W) PTE_X) with (Z.land 0x3FF (Z.lor (Z.lor PTE_R PTE_W) PTE_X)).
  by rewrite Z.land_assoc, Hf.
Qed.

Lemma leaf_entry_invalid m t i j r k :
  pt_rep m t → no_mappings m t → pt_leafs t !! (i, j) = Some r → is_index k →
  has_flag (entry m r k) PTE_V = false.
Proof.
  intros Hrep Hno Hr Hk. destruct (rep_leafs_dom _ _ Hrep i j) as [Hm Hj]; [eauto|].
  pose proof (rep_mids_dom _ _ Hrep i Hm) as Hi.
  destruct (va_of_spec i j k Hi Hj Hk) as (Hal & Hrange & H2 & H1 & H0).
  assert (vpage (va_of i j k)) as Hv by (by split). specialize (Hno _ Hv).
  unfold pte_of in Hno. by rewrite H2, H1, Hr, H0 in Hno.
Qed.

Lemma bind_empty (l : list Z) : l ≫= (λ _, []) = ([] : list Z).
Proof. induction l; [done|]. by rewrite bind_cons. Qed.

Lemma pt_table_tree m t :
  pt_rep m t → no_mappings m t →
  table_tree m 3 (pt_root t) ((pte_indices ≫= mid_pages t) ++ [pt_root t]).
Proof.
  intros Hrep Hno. exists (mid_pages t). split; [done|]. intros i Hi.
  pose proof (rep_root _ _ Hrep i Hi) as He. unfold mid_pages.
  destruct (pt_mids t !! i) as [q|] eqn:Hq; [right|by left].
  assert (page_ok q) as Hqok by (by eapply pt_page_ok, pt_mid_in).
  destruct (entry_ok_Some _ _ Hqok He) as [_ ->]. simpl in He. rewrite He.
  split; [by apply pointer_entry|].
  exists (λ j, match pt_leafs t !! (i, j) with Some r => [r] | None => [] end). split; [done|].
  intros j Hj. pose proof (rep_mid _ _ Hrep i q Hq j Hj) as He'.
  destruct (pt_leafs t !! (i, j)) as [r|] eqn:Hr; [right|by left].
  assert (page_ok r) as Hrok by (by eapply pt_page_ok, pt_leaf_in).
  destruct (entry_ok_Some _ _ Hrok He') as [_ ->]. simpl in He'. rewrite He'.
  split; [by apply pointer_entry|]. exists (λ _, []). split; [by rewrite bind_empty|].
  intros k Hk. left. split; [|done]. by eapply leaf_entry_invalid.
Qed.

Lemma heap_pool s t l : heap s t l → pool s l.
Proof. by intros (? & ? & ? & _). Qed.

(** [freewalk] of a page table without mappings. *)
Lemma freewalk_table s t l :
  heap s t l → no_mappings (k_mem s) t →
  ∃ s', returns (freewalk 3 (pt_root t)) s tt s' ∧ freed (pt_pages t) (pt_pages t) s l s'.
Proof.
  intros Hh Hno. pose proof Hh as (_ & _ & _ & Hrep & Hnd).
  pose proof (pt_pages_tree _ _ Hrep) as Hperm.
  destruct (freewalk_frees 3 (pt_root t) ((pte_indices ≫= mid_pages t) ++ [pt_root t]) s l)
    as (s' & Hret & Hm & Hs & l' & Hp & Hl').
  - by apply pt_table_tree.
  - by eapply heap_pool.
  - rewrite Hperm. by eapply rep_ok.
  - by rewrite Hperm, (Permutation_app_comm (pt_pages t) l).
  - exists s'. split; [done|]. split_and!; [done| |].
    + eapply same_outside_mono; [|exact Hs]. intros p. by rewrite Hperm.
    + exists l'. by rewrite <- Hperm.
Qed.

(** [uvmfree] gives back the pages behind the user memory and the tables. *)
Lemma returns_uvmfree sz n s t l :
  let fs := phys_pages (pte_of (k_mem s) t) 0 n in
  heap s t l → 0 ≤ sz ≤ MAXVA → Z.of_nat n = pages_of sz →
  (∀ j, 0 ≤ j < Z.of_nat n → is_leaf (pte_of (k_mem s) t (j * PGSIZE))) →
  freeable true 0 n s t l →
  (∀ va, vpage va → sz ≤ va → has_flag (pte_of (k_mem s) t va) PTE_V = false) →
  ∃ s', returns (uvmfree (pt_root t) sz) s tt s' ∧
    freed (fs ++ pt_pages t) (fs ++ pt_pages t) s l s'.
Proof.
  intros fs Hh Hsz Hn Hleaf Hfree Hno. pose proof (pages_of_bounds sz Hsz) as Hb.
  pose proof (pages_of_max sz Hsz) as Hmax.
  assert (∃ s1, returns (when (0 <? sz) (uvmunmap (pt_root t) 0 (PGROUNDUP sz / PGSIZE) true)) s tt s1 ∧
    unmapped 0 n true s t l s1) as (s1 & Hret1 & Hm1 & Hh1 & Hp1 & Hs1).
  { destruct (decide (sz = 0)) as [->|Hne].
    - exists s. split; [apply returns_ret|].
      assert (n = 0%nat) as -> by (change (pages_of 0) with 0 in Hn; lia).
      by apply unmapped_none.
    - replace (0 <? sz) with true by lia. cbn [when].
      fold (pages_of sz). rewrite <- Hn. apply returns_uvmunmap; try done; plia. }
  fold fs in Hh1, Hs1. destruct (freewalk_table s1 t (reverse fs ++ l)) as (s2 & Hret2 & Hm2 & Hs2 & l' & Hp & Hl').
  - done.
  - intros va Hva. rewrite Hp1 by done. unfold cleared. case_decide; [done|].
    apply Hno; [done|]. destruct Hva as [_ ?]. plia.
  - exists s2. split; [by eapply returns_bind|].
    split_and!; [by eapply mem_only_trans| |].
    + eapply same_outside_seq; [exact Hs1|exact Hs2|done|clear; set_solver].
    + exists l'. split; [done|]. rewrite Hl', (reverse_Permutation fs), app_assoc.
      by rewrite (Permutation_app_comm (pt_pages t) fs).
Qed.

End free.
