(* ===== verification/VmCopy.v ===== *)
(** * Copying between kernel and user memory

    [copyout] and [copyin] against the user's view of memory: the byte at a user
    address is a byte of the physical page that the page table gives for it. *)

From S2P Require Import Prelude Memory Riscv Data State Spinlock Kalloc Vm VmFacts VmOps.

Local Open Scope Z_scope.

Lemma byte_at_write_bytes m a l b :
  byte_at (write_bytes m a l) b =
  match (if decide (a ≤ b) then l !! Z.to_nat (b - a) else None) with
  | Some c => u8 c
  | None => byte_at m b
  end.
Proof.
  revert m a. induction l as [|c l IH]; intros m a; cbn [write_bytes].
  - by destruct (decide (a ≤ b)).
  - rewrite IH. destruct (decide (b = a)) as [->|Hne].
    + rewrite decide_False, decide_True by lia. rewrite Z.sub_diag. apply byte_at_insert_eq.
    + rewrite byte_at_insert_ne by done. case_decide.
      * rewrite decide_True by lia. by replace (Z.to_nat (b - a)) with (S (Z.to_nat (b - (a + 1)))) by lia.
      * rewrite decide_False by lia. done.
Qed.

Lemma lookup_read_bytes m a n i :
  (i < n)%nat → read_bytes m a n !! i = Some (byte_at m (a + Z.of_nat i)).
Proof.
  revert a i. induction n as [|n IH]; intros a i Hi; [lia|]. cbn [read_bytes].
  destruct i as [|i]; simpl.
  - by rewrite Z.add_0_r.
  - rewrite IH by lia. do 2 f_equal. lia.
Qed.

Lemma length_read_bytes m a n : length (read_bytes m a n) = n.
Proof. revert a. induction n; intros; simpl; auto. Qed.

Lemma PGROUNDDOWN_in_page va0 va :
  page_aligned va0 → va0 ≤ va < va0 + PGSIZE → PGROUNDDOWN va = va0.
Proof. intros Ha Hin. rewrite PGROUNDDOWN_eq. unfold page_aligned, PGSIZE in *. zdiv. Qed.

(** The user's view: the physical address of a byte that the user may read, or
    write, given the entries of the page table. *)
Definition user_page (v : Z) : bool := has_flag v PTE_V && has_flag v PTE_U && negb (PTE2PA v =? 0).
Definition user_wpage (v : Z) : bool := has_flag v PTE_V && has_flag v PTE_U && has_flag v PTE_W.

Definition phys (ok : Z → bool) (f : Z → Z) (va : Z) : option Z :=
  let va0 := PGROUNDDOWN va in
  if (va0 <? MAXVA) && ok (f va0) then Some (PTE2PA (f va0) + (va - va0)) else None.

Lemma phys_page ok f va0 va :
  page_aligned va0 → va0 ≤ va < va0 + PGSIZE →
  phys ok f va = if (va0 <? MAXVA) && ok (f va0) then Some (PTE2PA (f va0) + (va - va0)) else None.
Proof. intros Ha Hin. unfold phys. by rewrite (PGROUNDDOWN_in_page va0). Qed.

(** The number of bytes copied in the page of [va]. *)
Definition chunk (va len : Z) : Z :=
  let n := PGSIZE - (va - PGROUNDDOWN va) in if len <? n then len else n.

Lemma chunk_range va len :
  0 < len → 0 < chunk va len ≤ len ∧ va + chunk va len ≤ PGROUNDDOWN va + PGSIZE ∧
  (chunk va len = len ∨ va + chunk va len = PGROUNDDOWN va + PGSIZE).
Proof.
  intros Hlen. pose proof (PGROUNDDOWN_range va). unfold chunk.
  destruct (len <? PGSIZE - (va - PGROUNDDOWN va)) eqn:E; lia.
Qed.

Section copy.
Context {Im : Image} {HIm : ImageOk}.

Lemma returns_walkaddr va t s :
  pt_rep (k_mem s) t → vpage va ∨ MAXVA ≤ va →
  returns (walkaddr (pt_root t) va) s
    (if (va <? MAXVA) && user_page (pte_of (k_mem s) t va) then PTE2PA (pte_of (k_mem s) t va) else 0) s.
Proof.
  intros Hrep Hva. unfold walkaddr. destruct (decide (MAXVA ≤ va)) as [Hbig|Hsmall].
  { rewrite (proj2 (Z.leb_le _ _) Hbig). replace (va <? MAXVA) with false by lia. apply returns_ret. }
  replace (MAXVA <=? va) with false by lia. replace (va <? MAXVA) with true by lia. cbn [andb].
  eapply returns_bind; [apply returns_walk; [done|lia]|]. unfold user_page.
  destruct (pte_slot t va) as [a|] eqn:Ha; cbn [default from_option].
  - pose proof (pte_slot_nonzero _ _ _ _ Hrep Ha). change (id a) with a.
    replace (a =? 0) with false by lia. eapply returns_bind; [apply returns_gets|].
    rewrite (pte_slot_load _ _ _ _ Ha). destruct (has_flag _ PTE_V), (has_flag _ PTE_U); simpl;
      try apply returns_ret. destruct (PTE2PA _ =? 0) eqn:E; simpl; [|apply returns_ret].
    apply Z.eqb_eq in E. rewrite E. apply returns_ret.
  - rewrite (pte_slot_None _ _ _ Ha), has_flag_0. cbn. apply returns_ret.
Qed.

(** Looking up the page of [va], where [copyin] and [copyinstr] read. *)
Lemma walkaddr_page {A} va t s (k1 : K A) (k2 : Z → K A) r s' :
  let f := pte_of (k_mem s) t in
  let va0 := PGROUNDDOWN va in
  pt_rep (k_mem s) t → 0 ≤ va →
  returns (if (va0 <? MAXVA) && user_page (f va0) then k2 (PTE2PA (f va0)) else k1) s r s' →
  returns (pa0 ← walkaddr (pt_root t) va0; if pa0 =? 0 then k1 else k2 pa0) s r s'.
Proof.
  intros f va0 Hrep Hva Hret. pose proof (PGROUNDDOWN_range va) as Hr.
  pose proof (PGROUNDDOWN_aligned va) as Hal. fold va0 in Hr, Hal.
  eapply returns_bind; [apply returns_walkaddr; [done|]|].
  - destruct (decide (MAXVA ≤ va0)); [by right|left; split; [done|]].
    unfold page_aligned, PGSIZE in *. split; [zdiv|lia].
  - fold f. destruct ((va0 <? MAXVA) && user_page (f va0)) eqn:Hok; [|done].
    unfold user_page in Hok. by replace (PTE2PA (f va0) =? 0) with false by lia.
Qed.

(** The addresses read there. *)
Lemma phys_chunk ok f va len i :
  let va0 := PGROUNDDOWN va in
  0 < len → 0 ≤ i < chunk va len → (va0 <? MAXVA) && ok (f va0) = true →
  phys ok f (va + i) = Some (PTE2PA (f va0) + (va - va0) + i).
Proof.
  intros va0 Hlen Hi Hok. pose proof (chunk_range va len Hlen). pose proof (PGROUNDDOWN_range va).
  rewrite (phys_page _ _ va0); [|apply PGROUNDDOWN_aligned|lia]. rewrite Hok. f_equal. lia.
Qed.

Lemma phys_none ok f va :
  let va0 := PGROUNDDOWN va in
  (va0 <? MAXVA) && ok (f va0) = false → phys ok f va = None.
Proof. intros va0 Hok. unfold phys. fold va0. by rewrite Hok. Qed.

(** ** copyin *)

(** All of the range is readable and [l] is its contents, or some byte is not. *)
Definition copied (ok : Z → bool) (m : mem) (f : Z → Z) (va len : Z) (r : Z * list Z) : Prop :=
  r.1 = 0 ∧ Z.of_nat (length r.2) = len ∧
    (∀ i c, r.2 !! i = Some c → ∃ a, phys ok f (va + Z.of_nat i) = Some a ∧ c = byte_at m a) ∨
  r.1 = -1 ∧ ∃ i, 0 ≤ i < len ∧ phys ok f (va + i) = None.

Lemma copied_app ok m f va va' pa n len r :
  (∀ i, 0 ≤ i < n → phys ok f (va + i) = Some (pa + i)) → 0 < n ≤ len →
  (len = n ∨ va' = va + n) → copied ok m f va' (len - n) r →
  copied ok m f va len (r.1, read_bytes m pa (Z.to_nat n) ++ r.2).
Proof.
  intros Hp Hn Hva' [(H1 & Hlen & Hl)|(H1 & i & Hi & Hnone)].
  - left. simpl. split_and!; [done|rewrite length_app, length_read_bytes; lia|]. intros i c Hic.
    apply lookup_app_Some in Hic as [Hic|[Hge Hic]].
    + pose proof (lookup_lt_Some _ _ _ Hic) as Hlt. rewrite length_read_bytes in Hlt.
      rewrite lookup_read_bytes in Hic by done. simplify_eq.
      exists (pa + Z.of_nat i). split; [apply Hp; lia|done].
    + rewrite length_read_bytes in Hge, Hic. pose proof (lookup_lt_Some _ _ _ Hic).
      destruct Hva' as [->| ->]; [lia|]. destruct (Hl _ _ Hic) as (a & Ha & ->). exists a.
      split; [|done]. rewrite <- Ha. f_equal. lia.
  - right. split; [done|]. destruct Hva' as [->| ->]; [lia|]. exists (n + i).
    split; [lia|]. by rewrite Z.add_assoc.
Qed.

Lemma copyin_loop_ok fuel va len t s :
  pt_rep (k_mem s) t → 0 ≤ va → 0 ≤ len ≤ Z.of_nat fuel →
  ∃ r, returns (copyin_loop fuel (pt_root t) va len) s r s ∧
    copied user_page (k_mem s) (pte_of (k_mem s) t) va len r.
Proof.
  intros Hrep. set (f := pte_of (k_mem s) t). revert va len.
  induction fuel as [|fuel IH]; intros va len Hva Hlen; cbn [copyin_loop].
  all: destruct (decide (len = 0)) as [->|Hne];
    [exists (0, []); split; [apply returns_ret|left; split_and!; done]|].
  { lia. }
  replace (0 <? len) with true by lia. fold (chunk va len).
  destruct ((PGROUNDDOWN va <? MAXVA) && user_page (f (PGROUNDDOWN va))) eqn:Hok.
  2: { exists (-1, []). split.
    - apply walkaddr_page; [done|done|]. fold f. rewrite Hok. apply returns_ret.
    - right. split; [done|]. exists 0. rewrite Z.add_0_r. split; [lia|by apply phys_none]. }
  pose proof (chunk_range va len ltac:(lia)) as Hn. pose proof MAXVA_eq.
  pose proof (PGROUNDDOWN_range va).
  destruct (IH (u64 (PGROUNDDOWN va + PGSIZE)) (len - chunk va len)) as (r & Hret & Hc);
    [apply u64_range|lia|]. eexists. split.
  - apply walkaddr_page; [done|done|]. fold f. rewrite Hok.
    eapply returns_bind; [apply returns_gets|]. eapply returns_bind; [done|apply returns_ret].
  - eapply copied_app; [|lia| |exact Hc].
    + intros i Hi. by apply (phys_chunk _ _ _ len); [lia|..].
    + rewrite u64_small; [lia|]. unfold is_u64. assert (PGROUNDDOWN va < MAXVA) by lia. plia.
Qed.

Lemma returns_copyin va len t s :
  pt_rep (k_mem s) t → 0 ≤ va → 0 ≤ len →
  ∃ r, returns (copyin (pt_root t) va len) s r s ∧
    copied user_page (k_mem s) (pte_of (k_mem s) t) va len r.
Proof. intros. apply copyin_loop_ok; [done|done|lia]. Qed.

(** ** copyout *)

(** The pages that the user may write are neither free nor tables. *)
Definition user_safe (f : Z → Z) (t : ptable) (l : list Z) : Prop :=
  ∀ va, vpage va → user_wpage (f va) = true →
    page_ok (PTE2PA (f va)) ∧ PTE2PA (f va) ∉ l ++ pt_pages t.

(** No byte is visible at two addresses. *)
Definition user_inj (f : Z → Z) : Prop :=
  ∀ va va' a, 0 ≤ va → 0 ≤ va' → phys user_wpage f va = Some a → phys user_wpage f va' = Some a → va = va'.

(** The write that [copyout] performs in one page. *)
Lemma copyout_write f va0 va src s t l :
  heap s t l → user_safe f t l → vpage va0 → user_wpage (f va0) = true →
  va0 ≤ va → va + Z.of_nat (length src) ≤ va0 + PGSIZE →
  let m := write_bytes (k_mem s) (PTE2PA (f va0) + (va - va0)) src in
  heap (set_k_mem m s) t l ∧ (∀ w, pte_of m t w = pte_of (k_mem s) t w).
Proof.
  intros Hh Hsafe Hv Hw Hge Hle m. destruct (Hsafe va0 Hv Hw) as [Hok Hni].
  apply (heap_write [PTE2PA (f va0)]); [done|by apply list.Forall_singleton
    |by intros p ->%list_elem_of_singleton|].
  intros b Hb. unfold m. rewrite byte_at_write_bytes. case_decide; [|done].
  destruct (src !! Z.to_nat (b - (PTE2PA (f va0) + (va - va0)))) eqn:E; [|done].
  apply lookup_lt_Some in E. exfalso. apply (Hb (PTE2PA (f va0))); [set_solver|].
  unfold in_page. lia.
Qed.

(** The bytes of [src] are at [va] in the user's view, and nothing else changed; or
    some byte of the range cannot be written. *)
Definition wrote (f : Z → Z) (va : Z) (src : list Z) (m : mem) (r : Z) (m' : mem) : Prop :=
  (∀ a, (∀ i, 0 ≤ i < Z.of_nat (length src) → phys user_wpage f (va + i) ≠ Some a) →
     byte_at m' a = byte_at m a) ∧
  (r = 0 ∧ (∀ i c, src !! i = Some c →
      ∃ a, phys user_wpage f (va + Z.of_nat i) = Some a ∧ byte_at m' a = u8 c) ∨
   r = -1 ∧ ∃ i, 0 ≤ i < Z.of_nat (length src) ∧ phys user_wpage f (va + i) = None).

Lemma phys_ext ok f g va : (∀ w, g w = f w) → phys ok g va = phys ok f va.
Proof. intros Hg. unfold phys. by rewrite !Hg. Qed.

Lemma wrote_ext f g va src m r m' :
  (∀ w, g w = f w) → wrote g va src m r m' → wrote f va src m r m'.
Proof.
  intros Hg [Hsame Hr]. pose proof (λ va, phys_ext user_wpage f g va Hg) as Hp. split.
  - intros a Ha. apply Hsame. intros i Hi. rewrite Hp. auto.
  - destruct Hr as [[-> Hr]|(-> & i & Hi & Hnone)]; [left|right]; (split; [done|]).
    + intros i c Hic. rewrite <- Hp. auto.
    + exists i. by rewrite <- Hp.
Qed.

Lemma wrote_app f va va' pa n src m r m' :
  user_inj f → 0 ≤ va → (n ≤ length src)%nat →
  (∀ i, 0 ≤ i < Z.of_nat n → phys user_wpage f (va + i) = Some (pa + i)) →
  (length src = n ∨ va' = va + Z.of_nat n) →
  wrote f va' (drop n src) (write_bytes m pa (take n src)) r m' →
  wrote f va src m r m'.
Proof.
  intros Hinj Hva Hn Hp Hva' [Hsame Hr].
  assert (Z.of_nat (length (drop n src)) = Z.of_nat (length src) - Z.of_nat n) as Hlen
    by (rewrite length_drop; lia).
  split.
  - intros a Ha. rewrite Hsame.
    + rewrite byte_at_write_bytes. case_decide; [|done].
      destruct (take n src !! Z.to_nat (a - pa)) eqn:E; [|done]. exfalso.
      apply lookup_lt_Some in E. rewrite length_take in E.
      apply (Ha (a - pa)); [lia|]. rewrite Hp by lia. f_equal. lia.
    + intros i Hi. destruct Hva' as [?| ->]; [lia|]. rewrite <- Z.add_assoc. apply Ha. lia.
  - destruct Hr as [[-> Hr]|(-> & i & Hi & Hnone)]; [left|right]; (split; [done|]).
    + intros i c Hic. destruct (decide (i < n)%nat) as [Hlt|Hge].
      * exists (pa + Z.of_nat i). split; [apply Hp; lia|]. rewrite Hsame.
        -- rewrite byte_at_write_bytes, decide_True by lia.
           replace (Z.to_nat (pa + Z.of_nat i - pa)) with i by lia. by rewrite lookup_take_lt, Hic.
        -- intros j Hj Heq. destruct Hva' as [?| ->]; [lia|].
           pose proof (Hinj (va + Z.of_nat n + j) (va + Z.of_nat i) _ ltac:(lia) ltac:(lia) Heq
             (Hp (Z.of_nat i) ltac:(lia))). lia.
      * pose proof (lookup_lt_Some _ _ _ Hic). destruct Hva' as [?| ->]; [lia|].
        destruct (Hr (i - n)%nat c) as (a & Ha & Hb).
        { rewrite lookup_drop. by replace (n + (i - n))%nat with i by lia. }
        exists a. split; [|done]. rewrite <- Ha. f_equal. lia.
    + destruct Hva' as [?| ->]; [lia|]. exists (Z.of_nat n + i). split; [lia|].
      by rewrite Z.add_assoc.
Qed.

(** The test of [copyout] on the entry for a page. *)
Lemma copyout_check {A} va t s (k1 : K A) (k2 : Z → K A) r s' :
  pt_rep (k_mem s) t → 0 ≤ va < MAXVA →
  returns (if user_wpage (pte_of (k_mem s) t va) then k2 (pte_of (k_mem s) t va) else k1) s r s' →
  returns (pte ← walk (pt_root t) va false;
    if pte =? 0 then k1 else
    v ← load pte;
    if negb (has_flag v PTE_V) || negb (has_flag v PTE_U) || negb (has_flag v PTE_W)
    then k1 else k2 v) s r s'.
Proof.
  intros Hrep Hva Hret. eapply returns_bind; [apply returns_walk; [done|lia]|]. unfold user_wpage in Hret.
  destruct (pte_slot t va) as [a|] eqn:Ha.
  - change (default 0 (Some a)) with a. pose proof (pte_slot_nonzero _ _ _ _ Hrep Ha).
    replace (a =? 0) with false by lia. eapply returns_bind; [apply returns_gets|].
    rewrite (pte_slot_load _ _ _ _ Ha).
    by destruct (has_flag _ PTE_V), (has_flag _ PTE_U), (has_flag _ PTE_W).
  - by rewrite (pte_slot_None _ _ _ Ha), has_flag_0 in Hret.
Qed.

Lemma copyout_loop_S fuel va src t s r s' :
  let f := pte_of (k_mem s) t in
  let va0 := PGROUNDDOWN va in
  let n := Z.to_nat (chunk va (Z.of_nat (length src))) in
  pt_rep (k_mem s) t → 0 ≤ va → 0 < Z.of_nat (length src) →
  returns (if (va0 <? MAXVA) && user_wpage (f va0) then
      put_bytes (PTE2PA (f va0) + (va - va0)) (take n src) ;;
      copyout_loop fuel (pt_root t) (u64 (va0 + PGSIZE)) (drop n src)
    else mret (-1)) s r s' →
  returns (copyout_loop (S fuel) (pt_root t) va src) s r s'.
Proof.
  intros f va0 n Hrep Hva Hpos Hret. cbn [copyout_loop].
  replace (0 <? Z.of_nat (length src)) with true by lia. fold va0.
  pose proof (PGROUNDDOWN_aligned va) as Hal. pose proof (PGROUNDDOWN_range va) as Hr. fold va0 in Hal, Hr.
  destruct (decide (MAXVA ≤ va0)) as [Hbig|Hsmall].
  - rewrite (proj2 (Z.leb_le _ _) Hbig). by replace (va0 <? MAXVA) with false in Hret by lia.
  - replace (MAXVA <=? va0) with false by lia. replace (va0 <? MAXVA) with true in Hret by lia.
    apply (copyout_check va0 t s (mret (-1)) (λ v, put_bytes (PTE2PA v + (va - va0)) (take n src) ;;
      copyout_loop fuel (pt_root t) (u64 (va0 + PGSIZE)) (drop n src))); [done| |done].
    unfold page_aligned, PGSIZE in *. split; [zdiv|lia].
Qed.

Lemma copyout_loop_ok fuel va src t l s :
  heap s t l → user_safe (pte_of (k_mem s) t) t l → user_inj (pte_of (k_mem s) t) →
  0 ≤ va → (length src ≤ fuel)%nat →
  ∃ r s', returns (copyout_loop fuel (pt_root t) va src) s r s' ∧ mem_only s s' ∧ heap s' t l ∧
    (∀ w, pte_of (k_mem s') t w = pte_of (k_mem s) t w) ∧
    wrote (pte_of (k_mem s) t) va src (k_mem s) r (k_mem s').
Proof.
  revert va src s. induction fuel as [|fuel IH]; intros va src s Hh Hsafe Hinj Hva Hlen.
  all: destruct (decide (length src = 0%nat)) as [->%length_zero_iff_nil|Hne];
    [exists 0, s; split_and!; [apply returns_ret|apply mem_only_refl|done|done|];
     (split; [done|left; split; [done|intros; done]])|].
  { lia. }
  set (f := pte_of (k_mem s) t) in *. set (va0 := PGROUNDDOWN va).
  set (n := Z.to_nat (chunk va (Z.of_nat (length src)))).
  pose proof Hh as (_ & _ & _ & Hrep & _). pose proof MAXVA_eq.
  pose proof (PGROUNDDOWN_range va) as Hr. pose proof (PGROUNDDOWN_aligned va) as Hal.
  pose proof (chunk_range va (Z.of_nat (length src)) ltac:(lia)) as Hn. fold va0 in Hr, Hal, Hn.
  assert (0 ≤ va0) as H0 by (unfold page_aligned, PGSIZE in *; zdiv).
  pose proof (λ v, phys_page user_wpage f va0 v Hal) as Hphys.
  destruct ((va0 <? MAXVA) && user_wpage (f va0)) eqn:Hok.
  2: { exists (-1), s. split_and!; [|apply mem_only_refl|done|done|].
    - apply copyout_loop_S; [done|done|lia|]. fold va0 f. rewrite Hok. apply returns_ret.
    - split; [done|]. right. split; [done|]. exists 0. rewrite Z.add_0_r, Hphys by lia. by split; [lia|]. }
  apply andb_true_iff in Hok as Hok'. destruct Hok' as [Hmax Hw].
  assert (length (take n src) = n) as Htake by (rewrite length_take; lia).
  destruct (copyout_write f va0 va (take n src) s t l) as [Hh1 Hp1]; [done|done|split; [done|lia]|done|lia|lia|].
  set (m1 := write_bytes _ _ _) in Hh1, Hp1.
  destruct (IH (u64 (va0 + PGSIZE)) (drop n src) (set_k_mem m1 s)) as (r & s' & Hret & Hm & Hh' & Hp' & Hwr).
  - done.
  - intros w Hw'. cbn [k_mem set_k_mem]. rewrite Hp1. by apply Hsafe.
  - intros w w' a. cbn [k_mem set_k_mem]. unfold phys. rewrite !Hp1. apply Hinj.
  - apply u64_range.
  - rewrite length_drop. lia.
  - exists r, s'. split_and!; [|by eapply mem_only_trans; [apply mem_only_set_mem, mem_only_refl|]|done| |].
    + apply copyout_loop_S; [done|done|lia|]. fold va0 f n. rewrite Hok.
      by eapply returns_bind; [apply returns_put_bytes|].
    + intros w. rewrite Hp'. apply Hp1.
    + eapply (wrote_app f va (u64 (va0 + PGSIZE)) (PTE2PA (f va0) + (va - va0)) n); [done|done|lia| | |].
      * intros i Hi. rewrite Hphys by lia. f_equal. lia.
      * rewrite u64_small by (unfold is_u64; plia). lia.
      * eapply wrote_ext; [|exact Hwr]. apply Hp1.
Qed.

Lemma returns_copyout va src t l s :
  heap s t l → user_safe (pte_of (k_mem s) t) t l → user_inj (pte_of (k_mem s) t) → 0 ≤ va →
  ∃ r s', returns (copyout (pt_root t) va src) s r s' ∧ mem_only s s' ∧ heap s' t l ∧
    (∀ w, pte_of (k_mem s') t w = pte_of (k_mem s) t w) ∧
    wrote (pte_of (k_mem s) t) va src (k_mem s) r (k_mem s').
Proof. intros. by apply copyout_loop_ok. Qed.

(** ** copyinstr *)

(** [l] is what the user sees at [va]. *)
Definition sees (m : mem) (f : Z → Z) (va : Z) (l : list Z) : Prop :=
  ∀ i c, l !! i = Some c → ∃ a, phys user_page f (va + Z.of_nat i) = Some a ∧ c = byte_at m a.

Lemma sees_app m f va l l' :
  sees m f va l → sees m f (va + Z.of_nat (length l)) l' → sees m f va (l ++ l').
Proof.
  intros H1 H2 i c [Hi|[Hge Hi]]%lookup_app_Some; [by apply H1|].
  destruct (H2 _ _ Hi) as (a & Ha & ->). exists a. split; [|done]. rewrite <- Ha. f_equal. lia.
Qed.

(** The string with its NUL was copied; or there is none in the range, or before
    the first byte that cannot be read. *)
Definition str_copied (m : mem) (f : Z → Z) (va max : Z) (r : Z * list Z) : Prop :=
  sees m f va r.2 ∧ Z.of_nat (length r.2) ≤ max ∧
  (r.1 = 0 ∧ (∃ str, r.2 = str ++ [0] ∧ Forall (λ c, c ≠ 0) str) ∨
   r.1 = -1 ∧ Forall (λ c, c ≠ 0) r.2 ∧
     (Z.of_nat (length r.2) = max ∨ phys user_page f (va + Z.of_nat (length r.2)) = None)).

Lemma copystr_page_spec m p n :
  let r := copystr_page m p n in
  (length r.1 ≤ n)%nat ∧ (∀ i c, r.1 !! i = Some c → c = byte_at m (p + Z.of_nat i)) ∧
  if r.2 then ∃ str, r.1 = str ++ [0] ∧ Forall (λ c, c ≠ 0) str
  else length r.1 = n ∧ Forall (λ c, c ≠ 0) r.1.
Proof.
  revert p. induction n as [|n IH]; intros p; cbn [copystr_page].
  - cbn. split_and!; [lia|done|done|constructor].
  - destruct (byte_at m p =? 0) eqn:E.
    + apply Z.eqb_eq in E. cbn. split_and!; [lia| |by exists []].
      intros [|i] c Hi; simplify_eq/=. by rewrite Z.add_0_r.
    + specialize (IH (p + 1)). destruct (copystr_page m (p + 1) n) as [l g]. cbn in *.
      destruct IH as (Hlen & Hl & Hg). split_and!; [lia| |].
      * intros [|i] c Hi; simplify_eq/=; [by rewrite Z.add_0_r|].
        rewrite (Hl _ _ Hi). f_equal. lia.
      * assert (byte_at m p ≠ 0) by lia. destruct g.
        -- destruct Hg as (str & -> & Hs). exists (byte_at m p :: str). split; [done|by constructor].
        -- destruct Hg as [<- Hs]. split; [done|by constructor].
Qed.

Lemma str_copied_app m f va va' n max l r :
  sees m f va l → Z.of_nat (length l) = n → Forall (λ c, c ≠ 0) l → n ≤ max →
  (n = max ∨ va' = va + n) → str_copied m f va' (max - n) r →
  str_copied m f va max (r.1, l ++ r.2).
Proof.
  intros Hl <- Hnz Hmax Hva' (Hs & Hlen & Hr).
  assert (sees m f (va + Z.of_nat (length l)) r.2 ∧
    (va' = va + Z.of_nat (length l) ∨ Z.of_nat (length l) = max)) as [Hs' Hva''].
  { destruct Hva' as [E| ->]; [|by split; [|left]]. split; [|by right].
    assert (length r.2 = 0)%nat as ->%length_zero_iff_nil by lia. done. }
  split_and!; [by apply sees_app|cbn; rewrite length_app; lia|]. cbn.
  destruct Hr as [[-> (str & -> & Hstr)]|(-> & Hnz' & Hend)]; [left|right].
  - split; [done|]. exists (l ++ str). split; [apply app_assoc|by apply Forall_app].
  - split_and!; [done|by apply Forall_app|]. rewrite length_app, Nat2Z.inj_add.
    destruct Hend as [?|Hnone]; [left; lia|]. destruct Hva'' as [->|?]; [right|left; lia].
    by rewrite Z.add_assoc.
Qed.

Lemma copyinstr_loop_ok fuel va max t s :
  pt_rep (k_mem s) t → 0 ≤ va → 0 ≤ max ≤ Z.of_nat fuel →
  ∃ r, returns (copyinstr_loop fuel (pt_root t) va max) s r s ∧
    str_copied (k_mem s) (pte_of (k_mem s) t) va max r.
Proof.
  intros Hrep. set (f := pte_of (k_mem s) t). revert va max.
  induction fuel as [|fuel IH]; intros va max Hva Hmax; cbn [copyinstr_loop].
  all: destruct (decide (max = 0)) as [->|Hne];
    [exists (-1, []); split; [apply returns_ret|split_and!; [done|done|right; by split_and!; [|constructor|left]]]|].
  { lia. }
  replace (0 <? max) with true by lia. fold (chunk va max).
  destruct ((PGROUNDDOWN va <? MAXVA) && user_page (f (PGROUNDDOWN va))) eqn:Hok.
  2: { exists (-1, []). split.
    - apply walkaddr_page; [done|done|]. fold f. rewrite Hok. apply returns_ret.
    - split_and!; [done|cbn; lia|]. right. split_and!; [done|constructor|right].
      cbn. rewrite Z.add_0_r. by apply phys_none. }
  pose proof (chunk_range va max ltac:(lia)) as Hn. pose proof MAXVA_eq.
  pose proof (PGROUNDDOWN_range va).
  set (pa := PTE2PA (f (PGROUNDDOWN va)) + (va - PGROUNDDOWN va)).
  destruct (copystr_page_spec (k_mem s) pa (Z.to_nat (chunk va max))) as (Hlen & Hl & Hg).
  assert (sees (k_mem s) f va (copystr_page (k_mem s) pa (Z.to_nat (chunk va max))).1) as Hsee.
  { intros i c Hi. exists (pa + Z.of_nat i). split; [|by apply Hl].
    apply lookup_lt_Some in Hi. apply (phys_chunk _ _ _ max); [lia|lia|done]. }
  destruct (copystr_page (k_mem s) pa (Z.to_nat (chunk va max))) as [l []] eqn:Hcp; cbn [fst snd] in *.
  - exists (0, l). split; [|by split_and!; [|cbn; lia|left]].
    apply walkaddr_page; [done|done|]. fold f. rewrite Hok.
    eapply returns_bind; [apply returns_gets|]. fold pa. rewrite Hcp. apply returns_ret.
  - destruct Hg as [Hln Hnz].
    destruct (IH (u64 (PGROUNDDOWN va + PGSIZE)) (max - chunk va max)) as (r & Hret & Hr);
      [apply u64_range|lia|].
    exists (r.1, l ++ r.2). split.
    + apply walkaddr_page; [done|done|]. fold f. rewrite Hok.
      eapply returns_bind; [apply returns_gets|]. fold pa. rewrite Hcp.
      eapply returns_bind; [done|apply returns_ret].
    + eapply str_copied_app; [done| |done| | |exact Hr]; [lia|lia|].
      rewrite u64_small; [lia|]. unfold is_u64. assert (PGROUNDDOWN va < MAXVA) by lia. plia.
Qed.

Lemma returns_copyinstr va max t s :
  pt_rep (k_mem s) t → 0 ≤ va → 0 ≤ max →
  ∃ r, returns (copyinstr (pt_root t) va max) s r s ∧
    str_copied (k_mem s) (pte_of (k_mem s) t) va max r.
Proof. intros. apply copyinstr_loop_ok; [done|done|lia]. Qed.

End copy.
