(* ===== verification/VmProps.v ===== *)
(** * Correctness of virtual memory

    The functions of [vm.c] against the translation that the hardware performs,
    and against the allocator: what is mapped, what stays, and that no page is lost
    on any path. *)

From S2P Require Import Prelude Memory Riscv Data State Spinlock Kalloc KallocProps Vm VmFacts VmOps VmUser VmFree VmCopy.

Local Open Scope Z_scope.

(** ** The hardware

    Sv39 translation, from the RISC-V privileged architecture: an entry with R or X
    is a leaf, at any level; an entry with W but not R is reserved. *)

Definition is_hw_leaf (pte : Z) : bool := has_flag pte PTE_R || has_flag pte PTE_X.
Definition is_hw_reserved (pte : Z) : bool := negb (has_flag pte PTE_R) && has_flag pte PTE_W.

Fixpoint sv39_walk (levels : list Z) (m : mem) (table va : Z) : option (Z * Z) :=
  match levels with
  | [] => None
  | level :: levels' =>
      let pte := entry m table (PX level va) in
      if negb (has_flag pte PTE_V) || is_hw_reserved pte then None else
      if is_hw_leaf pte then
        let size := 2 ^ PXSHIFT level in
        if PTE2PA pte mod size =? 0 then Some (PTE2PA pte + va mod size, PTE_FLAGS pte) else None
      else sv39_walk levels' m (PTE2PA pte) va
  end.

(** The physical address and the flags for a virtual address. *)
Definition sv39 (m : mem) (root va : Z) : option (Z * Z) := sv39_walk [2; 1; 0] m root va.

(** The same, from the entry for the page. *)
Definition translate (f : Z → Z) (va : Z) : option (Z * Z) :=
  let v := f (PGROUNDDOWN va) in
  if negb (has_flag v PTE_V) || is_hw_reserved v then None else
  if is_hw_leaf v then
    if PTE2PA v mod PGSIZE =? 0 then Some (PTE2PA v + va mod PGSIZE, PTE_FLAGS v) else None
  else None.

Lemma PX_page level va : 0 ≤ level → 0 ≤ va → PX level (PGROUNDDOWN va) = PX level va.
Proof.
  intros Hl Hva. rewrite !PX_eq by done. f_equal. rewrite PGROUNDDOWN_eq. unfold PXSHIFT, PGSHIFT, PGSIZE.
  rewrite Z.pow_add_r by lia. change (2 ^ 12) with 4096.
  rewrite <- !Z.div_div by lia. f_equal. zdiv.
Qed.

Lemma PGROUNDDOWN_vpage va : 0 ≤ va < MAXVA → vpage (PGROUNDDOWN va).
Proof.
  intros Hva. pose proof (PGROUNDDOWN_range va). split; [apply PGROUNDDOWN_aligned|].
  rewrite PGROUNDDOWN_eq in *. unfold PGSIZE in *. zdiv.
Qed.

Section props.
Context {Im : Image} {HIm : ImageOk}.

Lemma pointer_flags q :
  page_ok q → let v := Z.lor (PA2PTE q) PTE_V in
  has_flag v PTE_V = true ∧ is_hw_reserved v = false ∧ is_hw_leaf v = false.
Proof.
  intros Hq v. destruct (pointer_entry q Hq) as [Hv Hz]. fold v in Hv, Hz.
  assert (∀ fl, Z.land (Z.lor (Z.lor PTE_R PTE_W) PTE_X) fl = fl → has_flag v fl = false) as Hfl.
  { intros fl Hsub. unfold has_flag. by rewrite <- Hsub, Z.land_assoc, Hz. }
  unfold is_hw_reserved, is_hw_leaf. by rewrite Hv, !Hfl.
Qed.

(** The hardware finds the entry that [walk] finds. *)
Lemma sv39_translate m t va :
  pt_rep m t → 0 ≤ va < MAXVA → sv39 m (pt_root t) va = translate (pte_of m t) va.
Proof.
  intros Hrep Hva. unfold sv39, translate, pte_of. rewrite !PX_page by lia.
  pose proof (rep_root _ _ Hrep _ (PX_index 2 va ltac:(lia))) as Hroot. cbn [sv39_walk].
  destruct (pt_mids t !! PX 2 va) as [q|] eqn:Hq.
  - assert (page_ok q) as Hqok by (by eapply pt_page_ok, pt_mid_in).
    destruct (entry_ok_Some _ _ Hqok Hroot) as [_ ->]. simpl in Hroot. rewrite Hroot.
    destruct (pointer_flags q Hqok) as (-> & -> & ->). cbn [negb orb].
    pose proof (rep_mid _ _ Hrep _ _ Hq _ (PX_index 1 va ltac:(lia))) as Hmid.
    destruct (pt_leafs t !! (PX 2 va, PX 1 va)) as [r|] eqn:Hr.
    + assert (page_ok r) as Hrok by (by eapply pt_page_ok, pt_leaf_in).
      destruct (entry_ok_Some _ _ Hrok Hmid) as [_ ->]. simpl in Hmid. rewrite Hmid.
      destruct (pointer_flags r Hrok) as (-> & -> & ->). by cbn [negb orb].
    + simpl in Hmid. by rewrite Hmid, has_flag_0.
  - simpl in Hroot. rewrite Hroot.
    destruct (pt_leafs t !! _) as [r|] eqn:Hr; [|by rewrite has_flag_0].
    destruct (rep_leafs_dom _ _ Hrep _ _ (mk_is_Some _ _ Hr)) as [[? ?] _]. congruence.
Qed.

Lemma has_flag_mkpte pa perm fl :
  0 ≤ pa < 2 ^ 56 → is_perm perm → Z.land 0x3FF fl = fl →
  has_flag (mkpte pa perm) fl = has_flag (Z.lor perm PTE_V) fl.
Proof.
  intros Hpa Hperm Hfl. unfold has_flag. rewrite <- Hfl at 1. rewrite Z.land_assoc.
  fold (PTE_FLAGS (mkpte pa perm)). by rewrite mkpte_flags.
Qed.

(** Permissions with which the hardware accepts a leaf. *)
Definition hw_perm (perm : Z) : Prop :=
  is_perm perm ∧ has_flag perm PTE_R || has_flag perm PTE_X = true ∧
  (has_flag perm PTE_W = true → has_flag perm PTE_R = true).

Lemma translate_mapped f a k pa perm va :
  vpage a → 0 ≤ k → 0 ≤ va < MAXVA → page_aligned pa → 0 ≤ pa → pa + k * PGSIZE < 2 ^ 56 →
  hw_perm perm →
  translate (mapped f a k pa perm) va =
  if decide (a ≤ va < a + k * PGSIZE) then Some (pa + (va - a), Z.lor perm PTE_V)
  else translate f va.
Proof.
  intros [Ha _] Hk Hva Hpa Hpa0 Hpa1 (Hperm & Hrx & Hw).
  pose proof (PGROUNDDOWN_range va) as Hr. pose proof (PGROUNDDOWN_aligned va) as Hal.
  unfold translate, mapped. set (va0 := PGROUNDDOWN va) in *.
  assert (a ≤ va0 < a + k * PGSIZE ↔ a ≤ va < a + k * PGSIZE) as Hiff
    by (unfold page_aligned, PGSIZE in *; split; zdiv).
  destruct (decide (a ≤ va0 < a + k * PGSIZE)) as [Hin|Hout].
  - rewrite (decide_True _ _ (proj1 Hiff Hin)).
    assert (page_aligned (pa + (va0 - a))) as Hal' by (unfold page_aligned, PGSIZE in *; zdiv).
    unfold is_hw_reserved, is_hw_leaf.
    rewrite mkpte_valid, mkpte_pa, mkpte_flags, !has_flag_mkpte, !has_flag_lor by (done || plia).
    change (has_flag PTE_V PTE_R) with false. change (has_flag PTE_V PTE_X) with false.
    change (has_flag PTE_V PTE_W) with false. rewrite !orb_false_r, Hrx. cbn [negb orb].
    replace (negb (has_flag perm PTE_R) && has_flag perm PTE_W) with false
      by (destruct (has_flag perm PTE_W); [rewrite Hw by done|rewrite andb_false_r]; done).
    unfold page_aligned in Hal'. rewrite Hal'. cbn [Z.eqb]. do 2 f_equal.
    replace (va mod PGSIZE) with (va - va0); [lia|]. unfold page_aligned, PGSIZE in *. zdiv.
  - rewrite (decide_False _ _ (λ H, Hout (proj2 Hiff H))). done.
Qed.

Lemma translate_ext f g va : g (PGROUNDDOWN va) = f (PGROUNDDOWN va) → translate g va = translate f va.
Proof. intros Hg. unfold translate. by rewrite Hg. Qed.

(** ** Mapping and unmapping *)

(** C18: [mappages] of [n] unmapped pages.  It returns 0 after mapping all of them,
    or -1 after mapping the first [k], and then no page is left in the free list.
    The hardware translates the mapped range to the physical range with the given
    permissions and every other address as before; pages only move from the free
    list to the tables, and memory outside these is untouched. *)
Theorem mappages_correct (n a pa perm : Z) (s : kstate) (t : ptable) (l : list Z) :
  heap s t l → vpage a → 1 ≤ n → a + n * PGSIZE ≤ MAXVA → hw_perm perm →
  page_aligned pa → 0 ≤ pa → pa + n * PGSIZE < 2 ^ 56 →
  (∀ k, 0 ≤ k < n → has_flag (pte_of (k_mem s) t (a + k * PGSIZE)) PTE_V = false) →
  ∃ r k s' t' l', returns (mappages (pt_root t) a (n * PGSIZE) pa perm) s r s' ∧
    (r = 0 ∧ k = n ∨ r = -1 ∧ 0 ≤ k < n ∧ l' = []) ∧
    heap s' t' l' ∧ pt_root t' = pt_root t ∧ l' ++ pt_pages t' ≡ₚ l ++ pt_pages t ∧
    same_outside (l ++ pt_pages t) (k_mem s) (k_mem s') ∧
    ∀ va, 0 ≤ va < MAXVA → sv39 (k_mem s') (pt_root t) va =
      if decide (a ≤ va < a + k * PGSIZE) then Some (pa + (va - a), Z.lor perm PTE_V)
      else sv39 (k_mem s) (pt_root t) va.
Proof.
  intros Hh Ha Hn Hmax Hperm Hpal Hpa0 Hpa1 Hv.
  destruct (returns_mappages n a pa perm s t l) as (r & k & s' & t' & l' & Hret & Hg & Hp & _ & Hr);
    [done..|apply Hperm|done|done|done|].
  exists r, k, s', t', l'. pose proof Hg as [_ Hh' Hroot Hpages Hs].
  split_and!; [done|naive_solver|done|done|done|done|]. intros va Hva.
  rewrite <- Hroot. rewrite (sv39_translate _ t') by (done || apply Hh').
  rewrite Hroot, (sv39_translate _ t) by (done || apply Hh).
  rewrite (translate_ext (mapped (pte_of (k_mem s) t) a k pa perm))
    by (by apply Hp, PGROUNDDOWN_vpage).
  apply translate_mapped; try done; [lia|]. destruct Hr as [(_ & -> & _)|(_ & ? & _)]; plia.
Qed.

(** C19: [uvmunmap] of [n] mapped pages never panics.  Afterwards the hardware
    refuses every address of the range and translates every other address as before;
    with [do_free] the pages behind the range are in the free list. *)
Theorem uvmunmap_correct (n : nat) (a : Z) (do_free : bool) (s : kstate) (t : ptable) (l : list Z) :
  let fs := if do_free then phys_pages (pte_of (k_mem s) t) a n else [] in
  heap s t l → vpage a → a + Z.of_nat n * PGSIZE ≤ MAXVA →
  (∀ k, 0 ≤ k < Z.of_nat n → is_leaf (pte_of (k_mem s) t (a + k * PGSIZE))) →
  freeable do_free a n s t l →
  ∃ s', returns (uvmunmap (pt_root t) a (Z.of_nat n) do_free) s tt s' ∧
    heap s' t (reverse fs ++ l) ∧ same_outside (fs ++ pt_pages t) (k_mem s) (k_mem s') ∧
    ∀ va, 0 ≤ va < MAXVA → sv39 (k_mem s') (pt_root t) va =
      if decide (a ≤ va < a + Z.of_nat n * PGSIZE) then None else sv39 (k_mem s) (pt_root t) va.
Proof.
  intros fs Hh [Hal Ha] Hmax Hleaf Hfree.
  destruct (returns_uvmunmap n a do_free s t l) as (s' & Hret & Hm & Hh' & Hp & Hs);
    [done|done|lia|done..|].
  exists s'. split_and!; [done..|]. intros va Hva.
  pose proof (PGROUNDDOWN_range va) as Hr. pose proof (PGROUNDDOWN_aligned va) as Hvl.
  rewrite !(sv39_translate _ t) by (done || apply Hh' || apply Hh).
  rewrite (translate_ext (cleared (pte_of (k_mem s) t) a (Z.of_nat n)))
    by (by apply Hp, PGROUNDDOWN_vpage).
  unfold translate, cleared. set (va0 := PGROUNDDOWN va) in *.
  assert (a ≤ va0 < a + Z.of_nat n * PGSIZE ↔ a ≤ va < a + Z.of_nat n * PGSIZE) as Hiff
    by (unfold page_aligned, PGSIZE in *; split; zdiv).
  repeat case_decide; [by rewrite has_flag_0|tauto|tauto|done].
Qed.

(** ** Growing *)

(** C20: [uvmalloc] either adds every page between the old and the new size, each
    backed by a cleared page of its own with the given permissions and taken from
    the free list, or returns 0 with the map and all memory outside the free list
    and the tables as before and no page lost.  It fails only when fewer than three
    free pages per added page were available. *)
Theorem uvmalloc_all_or_nothing (oldsz newsz xperm : Z) (s : kstate) (t : ptable) (l : list Z) :
  let n0 := pages_of oldsz in let n1 := pages_of newsz in
  let perm := Z.lor (Z.lor PTE_R PTE_U) xperm in
  heap s t l → 0 ≤ oldsz → oldsz ≤ newsz → newsz ≤ MAXVA → is_perm xperm →
  (∀ k, n0 ≤ k < n1 → pte_of (k_mem s) t (k * PGSIZE) = 0) →
  ∃ r s' t' l', returns (uvmalloc (pt_root t) oldsz newsz xperm) s r s' ∧
    heap s' t' l' ∧ pt_root t' = pt_root t ∧
    same_outside (l ++ pt_pages t) (k_mem s) (k_mem s') ∧
    (r = newsz ∧
      phys_pages (pte_of (k_mem s') t') (n0 * PGSIZE) (Z.to_nat (n1 - n0)) ++ l' ++ pt_pages t'
        ≡ₚ l ++ pt_pages t ∧
      (∀ va, vpage va → ¬ (n0 * PGSIZE ≤ va < n1 * PGSIZE) →
         pte_of (k_mem s') t' va = pte_of (k_mem s) t va) ∧
      (∀ j, n0 ≤ j < n1 → ∃ pa, pte_of (k_mem s') t' (j * PGSIZE) = mkpte pa perm ∧
         page_ok pa ∧ page_has (k_mem s') pa (λ _, 0)) ∨
     r = 0 ∧ l' ++ pt_pages t' ≡ₚ l ++ pt_pages t ∧ (length l < 3 * Z.to_nat (n1 - n0))%nat ∧
      ∀ va, vpage va → pte_of (k_mem s') t' va = pte_of (k_mem s) t va).
Proof.
  intros n0 n1 perm Hh H0 Hle Hmax Hx Hfree.
  destruct (returns_uvmalloc s t l oldsz newsz xperm)
    as (r & s' & Hret & t' & l' & [[-> Hi]|(-> & Hg & Hlen & Hp)]); [done..| |].
  - exists newsz, s', t', l'. split_and!; [done|apply Hi|apply Hi|apply Hi|].
    left. split_and!; [done|apply Hi..].
  - exists 0, s', t', l'. split_and!; [done|apply Hg|apply Hg|apply Hg|].
    right. by split_and!; [|apply Hg|..].
Qed.

(** ** Copying and freeing an address space *)

(** The address space of a parent: its table and the pages of its first [n] virtual
    pages lie outside the free list and the child's table. *)
Record parent_of (n : Z) (told t : ptable) (l : list Z) (m : mem) : Prop := {
  parent_rep : pt_rep m told;
  parent_tables : ∀ p, p ∈ pt_pages told → p ∉ l ++ pt_pages t;
  parent_leaf : ∀ j, 0 ≤ j < n → is_leaf (pte_of m told (j * PGSIZE));
  parent_phys : ∀ j, 0 ≤ j < n → page_ok (PTE2PA (pte_of m told (j * PGSIZE))) ∧
    PTE2PA (pte_of m told (j * PGSIZE)) ∉ l ++ pt_pages t;
}.

(** C21: [uvmcopy] gives the child, for each page of the parent, a page of its own
    with the same contents and the same permissions, or fails with the child's map
    as before and no page lost, which happens only when fewer than three free pages
    per copied page were available.  Either way the parent's table and memory are as
    before: only free pages and the child's tables are written. *)
Theorem uvmcopy_isolates (sz : Z) (told t : ptable) (l : list Z) (s : kstate) :
  let n := pages_of sz in
  let old j := pte_of (k_mem s) told (j * PGSIZE) in
  0 ≤ sz ≤ MAXVA → heap s t l → parent_of n told t l (k_mem s) →
  (∀ k, 0 ≤ k < n → pte_of (k_mem s) t (k * PGSIZE) = 0) →
  ∃ r s' t' l', returns (uvmcopy (pt_root told) (pt_root t) sz) s r s' ∧
    heap s' t' l' ∧ pt_root t' = pt_root t ∧
    same_outside (l ++ pt_pages t) (k_mem s) (k_mem s') ∧
    (∀ va, pte_of (k_mem s') told va = pte_of (k_mem s) told va) ∧
    (r = 0 ∧
      phys_pages (pte_of (k_mem s') t') 0 (Z.to_nat n) ++ l' ++ pt_pages t' ≡ₚ l ++ pt_pages t ∧
      (∀ j, 0 ≤ j < n → ∃ pa, pte_of (k_mem s') t' (j * PGSIZE) = mkpte pa (PTE_FLAGS (old j)) ∧
         page_ok pa ∧ pa ≠ PTE2PA (old j) ∧
         ∀ o, 0 ≤ o < PGSIZE → byte_at (k_mem s') (pa + o) = byte_at (k_mem s) (PTE2PA (old j) + o)) ∨
     r = -1 ∧ l' ++ pt_pages t' ≡ₚ l ++ pt_pages t ∧ (length l < 3 * Z.to_nat n)%nat ∧
      ∀ va, vpage va → pte_of (k_mem s') t' va = pte_of (k_mem s) t va).
Proof.
  intros n old Hsz Hh [Hrep Htab Hleaf Hphys] Hfree.
  destruct (returns_uvmcopy s told t l n sz)
    as (r & s' & Hret & t' & l' & Hend); [done..|].
  assert (same_outside (l ++ pt_pages t) (k_mem s) (k_mem s')) as Hs
    by (by destruct Hend as [[_ Hi]|(_ & Hg & _)]; [apply Hi|apply Hg]).
  destruct (rep_frame (l ++ pt_pages t) (k_mem s) (k_mem s') told) as [_ Hpold];
    [done|by apply (heap_pages_ok s)|done|done|].
  exists r, s', t', l'. destruct Hend as [[-> Hi]|(-> & Hg & Hlen & Hp)].
  - split_and!; [done|apply Hi|apply Hi|done|done|]. left. split; [done|].
    pose proof (ai_pages _ _ _ _ _ Hi) as Hpages. rewrite Z.mul_0_l, Z.sub_0_r in Hpages.
    split; [done|]. intros j Hj. destruct (ai_new _ _ _ _ _ Hi j Hj) as (pa & Hpa & Hok & Hhas).
    exists pa. split_and!; [done|done| |done]. intros Heq.
    destruct (Hphys j Hj) as [_ Hni]. fold (old j) in Hni. rewrite <- Heq in Hni. apply Hni.
    rewrite <- Hpages, elem_of_app. left. pose proof (page_ok_pa _ Hok).
    rewrite <- (mkpte_pa pa (PTE_FLAGS (old j))); [|apply Hok|plia|apply flags_perm].
    fold (old j) in Hpa. rewrite <- Hpa. replace (j * PGSIZE) with (0 + j * PGSIZE) by lia. apply elem_of_phys_pages. lia.
  - split_and!; [done|apply Hg|apply Hg|done|done|]. right. split_and!; [done|apply Hg| |done].
    by rewrite Z.sub_0_r in Hlen.
Qed.

(** C22: [uvmfree] of an address space of [sz] bytes, all of whose pages are mapped
    and nothing else, never panics and returns every page behind it and every page
    of its tables to the free list, each once. *)
Theorem uvmfree_returns_all (sz : Z) (n : nat) (s : kstate) (t : ptable) (l : list Z) :
  heap s t l → 0 ≤ sz ≤ MAXVA → Z.of_nat n = pages_of sz →
  (∀ j, 0 ≤ j < Z.of_nat n → is_leaf (pte_of (k_mem s) t (j * PGSIZE))) →
  freeable true 0 n s t l →
  (∀ va, vpage va → sz ≤ va → has_flag (pte_of (k_mem s) t va) PTE_V = false) →
  ∃ s' l', returns (uvmfree (pt_root t) sz) s tt s' ∧ mem_only s s' ∧ free_pages s' l' ∧
    l' ≡ₚ (phys_pages (pte_of (k_mem s) t) 0 n ++ pt_pages t) ++ l.
Proof.
  intros Hh Hsz Hn Hleaf Hfree Hno.
  destruct (returns_uvmfree sz n s t l) as (s' & Hret & Hm & _ & l' & (_ & _ & Hf) & Hl); [done..|].
  by exists s', l'.
Qed.

(** ** Copying to and from user memory *)

Lemma phys_readable f t l va a :
  user_safe f t l → 0 ≤ va → phys user_wpage f va = Some a → phys user_page f va = Some a.
Proof.
  intros Hsafe Hva. unfold phys. destruct (PGROUNDDOWN va <? MAXVA) eqn:E; [|done]. cbn [andb].
  destruct (user_wpage _) eqn:Hw; [|done]. intros <-.
  destruct (Hsafe (PGROUNDDOWN va)) as [Hok _]; [|done|].
  { split; [apply PGROUNDDOWN_aligned|]. rewrite PGROUNDDOWN_eq in *. unfold PGSIZE in *. zdiv. }
  apply page_ok_range in Hok. unfold user_wpage in Hw. unfold user_page.
  destruct (has_flag _ PTE_V), (has_flag _ PTE_U); try done. cbn [andb].
  by replace (PTE2PA _ =? 0) with false by (unfold KERNBASE in *; lia).
Qed.

(** C23: [copyout] changes no byte other than those that the user may write in the
    given range.  If it returns 0, [copyin] of the range returns exactly the bytes
    copied out; otherwise it returns -1, and some byte of the range is not writable
    by the user. *)
Theorem copyout_copyin (va : Z) (src : list Z) (s : kstate) (t : ptable) (l : list Z) :
  let f := pte_of (k_mem s) t in
  let len := Z.of_nat (length src) in
  heap s t l → user_safe f t l → user_inj f → 0 ≤ va → Forall is_u8 src →
  ∃ r s', returns (copyout (pt_root t) va src) s r s' ∧ mem_only s s' ∧ heap s' t l ∧
    (∀ a, (∀ i, 0 ≤ i < len → phys user_wpage f (va + i) ≠ Some a) →
       byte_at (k_mem s') a = byte_at (k_mem s) a) ∧
    (r = 0 ∧ returns (copyin (pt_root t) va len) s' (0, src) s' ∨
     r = -1 ∧ ∃ i, 0 ≤ i < len ∧ phys user_wpage f (va + i) = None).
Proof.
  intros f len Hh Hsafe Hinj Hva Hu8.
  destruct (returns_copyout va src t l s) as (r & s' & Hret & Hm & Hh' & Hp & Hsame & Hr); [done..|].
  exists r, s'. split_and!; [done..|]. destruct Hr as [[-> Hr]|?]; [left|by right]. split; [done|].
  destruct (returns_copyin va len t s') as (r2 & Hret2 & Hc); [apply Hh'|done|lia|].
  assert (∀ i c, src !! i = Some c →
    ∃ a, phys user_page (pte_of (k_mem s') t) (va + Z.of_nat i) = Some a ∧ byte_at (k_mem s') a = c) as Hsee.
  { intros i c Hic. destruct (Hr i c Hic) as (a & Ha & Hb). exists a. split.
    - rewrite (phys_ext _ f) by done. eapply phys_readable; [done|lia|done].
    - rewrite Hb. apply u8_small. rewrite list.Forall_forall in Hu8. by eapply Hu8, list_elem_of_lookup_2. }
  replace (0, src) with r2; [done|]. destruct r2 as [r2 l2].
  destruct Hc as [(Hr2 & Hlen & Hl2)|(_ & i & Hi & Hnone)]; cbn in *.
  - subst r2. f_equal. apply list_eq_same_length with (length src); [lia|lia|]. intros i x y Hi Hx Hy.
    destruct (Hl2 _ _ Hx) as (a & Ha & ->). destruct (Hsee _ _ Hy) as (a' & Ha' & <-). congruence.
  - exfalso. destruct (lookup_lt_is_Some_2 src (Z.to_nat i)) as [c Hic]; [lia|].
    destruct (Hsee _ _ Hic) as (a & Ha & _). rewrite Z2Nat.id in Ha by lia. congruence.
Qed.

(** C24: [copyinstr] stores at most [max] bytes, which are what the user sees at the
    given address.  It returns 0 exactly when these end with the first NUL; else the
    limit was reached or the next byte cannot be read by the user. *)
Theorem copyinstr_correct (va max : Z) (s : kstate) (t : ptable) :
  let f := pte_of (k_mem s) t in
  pt_rep (k_mem s) t → 0 ≤ va → 0 ≤ max →
  ∃ r dst, returns (copyinstr (pt_root t) va max) s (r, dst) s ∧
    Z.of_nat (length dst) ≤ max ∧
    (∀ i c, dst !! i = Some c → ∃ a, phys user_page f (va + Z.of_nat i) = Some a ∧
       c = byte_at (k_mem s) a) ∧
    (r = 0 ∧ (∃ str, dst = str ++ [0] ∧ Forall (λ c, c ≠ 0) str) ∨
     r = -1 ∧ Forall (λ c, c ≠ 0) dst ∧
       (Z.of_nat (length dst) = max ∨ phys user_page f (va + Z.of_nat (length dst)) = None)).
Proof.
  intros f Hrep Hva Hmax. destruct (returns_copyinstr va max t s) as ([r dst] & Hret & Hs & Hlen & Hr); [done..|].
  by exists r, dst.
Qed.

End props.

(** ** Examples: a kernel that has just booted *)

#[local] Existing Instance example_image.
#[local] Existing Instance example_image_ok.

Definition example_pages : list Z := (λ i, 0x80100000 + i * PGSIZE) <$> seqZ 0 20.

Lemma example_pool : ∃ l s, pool s l ∧ 20 ≤ Z.of_nat (length l).
Proof.
  destruct boot_initial as (Hr & Hu & H0).
  destruct (kinit_frees initial_kstate Hr Hu H0) as (l & s & _ & Hm & Hf & Hall).
  exists l, s. split; [by split_and!; [eapply mem_only_ready|eapply mem_only_unlocked|]|].
  assert (NoDup example_pages) as Hnd by (apply NoDup_fmap_2; [intros x y; plia|apply NoDup_seqZ]).
  assert (example_pages ⊆ l) as Hsub.
  { intros pa Hpa. apply Hall.
    assert (Forall (λ pa, page_ok pa) example_pages) as Hok.
    { apply list.Forall_forall. intros q (i & -> & Hi%elem_of_seqZ)%list_elem_of_fmap.
      unfold page_ok, page_aligned, PHYSTOP, KERNBASE. change image_end with 0x80022010.
      split; [|plia]. unfold PGSIZE. zdiv. }
    rewrite list.Forall_forall in Hok. auto. }
  pose proof (submseteq_length _ _ (NoDup_submseteq _ _ Hnd Hsub)) as Hlen.
  change (length example_pages) with 20%nat in Hlen. lia.
Qed.

(** An empty address space, and a page table of another process. *)
Lemma example_spaces :
  ∃ s t t' l, heap s t l ∧ heap s t' l ∧ (∀ p, p ∈ pt_pages t' → p ∉ l ++ pt_pages t) ∧
    (∀ va, pte_of (k_mem s) t va = 0) ∧ (∀ va, pte_of (k_mem s) t' va = 0) ∧
    (18 ≤ length l)%nat.
Proof.
  destruct example_pool as ([|pa [|pb l]] & s & (Hr & Hu & Hf) & Hlen); [simpl in Hlen; lia..|].
  destruct (returns_uvmcreate pa (pb :: l) s Hr Hu Hf) as (s1 & _ & _ & _ & Hh1 & _).
  pose proof Hh1 as (Hr1 & Hu1 & Hf1 & Hrep1 & Hnd1).
  destruct (returns_uvmcreate pb l s1 Hr1 Hu1 Hf1) as (s2 & _ & _ & _ & Hh2 & Hs2).
  cbn [app] in Hnd1. apply list.NoDup_cons in Hnd1 as [Hpb Hnd1].
  assert (∀ p, p ∈ pt_pages (empty_table pb) ↔ p = pb) as Hpages.
  { intros p. unfold pt_pages. simpl. rewrite !map_to_list_empty. set_solver. }
  destruct (rep_frame [pb] (k_mem s1) (k_mem s2) (empty_table pa)) as [Hrep _]; [done| | |done|].
  { apply list.Forall_singleton. eapply (pt_page_ok (k_mem s2) (empty_table pb)); [apply Hh2|].
    by apply Hpages. }
  { set_solver. }
  pose proof Hh2 as (Hr2 & Hu2 & Hf2 & _ & _).
  exists s2, (empty_table pa), (empty_table pb), l.
  split_and!; [done| |by intros p ->%Hpages|apply pte_of_empty..|simpl in Hlen; lia].
  apply Hh2.
Qed.

(** A process with one page, and an empty address space for its child. *)
Lemma example_parent :
  ∃ s told t l pa, heap s told l ∧ heap s t l ∧ (∀ va, pte_of (k_mem s) t va = 0) ∧
    pte_of (k_mem s) told 0 = mkpte pa (Z.lor (Z.lor PTE_R PTE_U) PTE_W) ∧
    page_ok pa ∧ pa ∉ l ++ pt_pages told ∧ pa ∉ l ++ pt_pages t ∧
    (∀ p, p ∈ pt_pages told → p ∉ l ++ pt_pages t) ∧
    ∀ va, vpage va → va ≠ 0 → pte_of (k_mem s) told va = 0.
Proof.
  destruct example_spaces as (s & told & t & l & Hh & Hht & Hdisj & Hz & Hzt & Hlen).
  destruct (returns_uvmalloc s told l 0 PGSIZE PTE_W) as (r & s' & _ & told' & l' & Hend);
    [done|done|done|done|done|intros; apply Hz|].
  change (pages_of 0) with 0 in *. change (pages_of PGSIZE) with 1 in *.
  destruct Hend as [[_ Hi]|(_ & _ & Hshort & _)]; [|simpl in Hshort; lia].
  destruct (ai_new _ _ _ _ _ Hi 0) as (pa & Hpa & Hok & _); [lia|].
  pose proof (page_ok_pa _ Hok). pose proof (ai_pages _ _ _ _ _ Hi) as Hperm.
  change (Z.to_nat (1 - 0)) with 1%nat in Hperm. cbn [phys_pages app] in Hperm.
  rewrite Z.mul_0_l in Hperm, Hpa. rewrite Hpa in Hperm.
  rewrite mkpte_pa in Hperm by (done || apply Hok || plia).
  destruct (rep_frame (l ++ pt_pages told) (k_mem s) (k_mem s') t) as [Hrep' Hzt'];
    [apply Hht|by apply (heap_pages_ok s)|done|apply Hi|].
  assert (∀ p, p ∈ pt_pages t → p ∉ pa :: l' ++ pt_pages told') as Hd'
    by (intros p Hp; rewrite Hperm; auto).
  pose proof (ai_heap _ _ _ _ _ Hi) as (Hr & Hu & Hf & Hrepo & Hndo).
  exists s', told', t, l', pa. split_and!; [done| | |done|done| | | |].
  - split_and!; [done..|]. apply list.NoDup_app. apply list.NoDup_app in Hndo as (? & _ & _).
    split_and!; [done| |by eapply rep_nodup, Hht]. intros p Hp Hp'. apply (Hd' p Hp'). set_solver.
  - intros va. rewrite Hzt'. apply Hzt.
  - apply NoDup_cons_1_1. rewrite Hperm. apply Hh.
  - intros [Hin|Hin]%elem_of_app; [|apply (Hd' pa Hin); by left].
    assert (pa ∉ l' ++ pt_pages told') as Hni by (apply NoDup_cons_1_1; rewrite Hperm; apply Hh).
    set_solver.
  - intros p Hp [Hin|Hin]%elem_of_app; [|apply (Hd' p Hin); set_solver].
    apply list.NoDup_app in Hndo as (_ & Hd & _). by apply (Hd p).
  - intros va Hva Hne. rewrite (ai_old _ _ _ _ _ Hi), Hz; [done|done|]. destruct Hva as [Hal _].
    unfold page_aligned, PGSIZE in *. zdiv.
Qed.

Lemma mappages_correct_witness :
  ∃ r s s' t, returns (mappages (pt_root t) 0x1000 (1 * PGSIZE) 0x80100000 PTE_R) s r s' ∧
    (r = 0 → sv39 (k_mem s') (pt_root t) 0x1234 = Some (0x80100234, 3)).
Proof.
  destruct example_spaces as (s & t & t' & l & Hh & _ & _ & Hz & _).
  destruct (mappages_correct 1 0x1000 0x80100000 PTE_R s t l)
    as (r & k & s' & t1 & l1 & Hret & Hr & _ & _ & _ & _ & Hsv);
    [done|by split|done|done|done|done|done|done|intros; rewrite Hz; apply has_flag_0|].
  exists r, s, s', t. split; [done|]. intros ->. rewrite Hsv by done.
  destruct Hr as [[_ ->]|[? _]]; [|done]. by rewrite decide_True by (unfold PGSIZE; lia).
Defined.

(** The page of [example_parent] as an argument of [uvmunmap] and [uvmfree]. *)
Lemma example_freeable s t l pa perm :
  heap s t l → pte_of (k_mem s) t 0 = mkpte pa (Z.lor (Z.lor PTE_R PTE_U) perm) → is_perm perm →
  page_ok pa → pa ∉ l ++ pt_pages t →
  (∀ k, 0 ≤ k < Z.of_nat 1 → is_leaf (pte_of (k_mem s) t (k * PGSIZE))) ∧
  freeable true 0 1 s t l ∧ phys_pages (pte_of (k_mem s) t) 0 1 = [pa].
Proof.
  intros Hh Hpte Hperm Hok Hni. pose proof (page_ok_pa _ Hok).
  destruct (uvmalloc_perm perm Hperm) as [Hp Hv].
  assert (phys_pages (pte_of (k_mem s) t) 0 1 = [pa]) as Hpages.
  { cbn [phys_pages]. rewrite Hpte, mkpte_pa; [done|apply Hok|plia|done]. }
  split_and!; [| |done].
  - intros k Hk. assert (k = 0) as -> by lia. rewrite Z.mul_0_l, Hpte. apply mkpte_leaf; [plia|done|done].
  - intros _. rewrite Hpages. split; [by apply list.Forall_singleton|]. apply NoDup_cons_2; [done|apply Hh].
Qed.

Lemma uvmunmap_correct_witness :
  ∃ s s' t pa l, returns (uvmunmap (pt_root t) 0 (Z.of_nat 1) true) s tt s' ∧ heap s' t (pa :: l).
Proof.
  destruct example_parent as (s & t & _ & l & pa & Hh & _ & _ & Hpte & Hok & Hni & _).
  destruct (example_freeable s t l pa PTE_W) as (Hleaf & Hfree & Hpages); [done..|].
  destruct (uvmunmap_correct 1 0 true s t l) as (s' & Hret & Hh' & _);
    [done|by split|by vm_compute|intros; apply Hleaf; lia|done|].
  rewrite Hpages in Hh'. by exists s, s', t, pa, l.
Defined.

Lemma uvmalloc_all_or_nothing_witness :
  ∃ s s' t, returns (uvmalloc (pt_root t) 0 5000 PTE_W) s 5000 s'.
Proof.
  destruct example_spaces as (s & t & t' & l & Hh & _ & _ & Hz & _ & Hlen).
  destruct (uvmalloc_all_or_nothing 0 5000 PTE_W s t l) as (r & s' & t1 & l1 & Hret & _ & _ & _ & Hr);
    [done|done|done|done|done|intros; apply Hz|].
  exists s, s', t. destruct Hr as [[-> _]|(_ & _ & Hshort & _)]; [done|].
  change (Z.to_nat (pages_of 5000 - pages_of 0)) with 2%nat in Hshort. lia.
Defined.

Lemma uvmcopy_isolates_witness :
  ∃ r s s' told t, pt_root told ≠ pt_root t ∧
    returns (uvmcopy (pt_root told) (pt_root t) PGSIZE) s r s'.
Proof.
  destruct example_parent as
    (s & told & t & l & pa & Hho & Hh & Hz & Hpte & Hok & Hni & Hnit & Hd & _).
  destruct (example_freeable s told l pa PTE_W) as (Hleaf & _ & Hpages); [done..|].
  destruct (uvmcopy_isolates PGSIZE told t l s) as (r & s' & t1 & l1 & Hret & _);
    [done|done| |intros; apply Hz|].
  - change (pages_of PGSIZE) with (Z.of_nat 1). split; [apply Hho|done|done|].
    intros j Hj. assert (j = 0) as -> by lia. rewrite Z.mul_0_l.
    cbn [phys_pages] in Hpages. injection Hpages as ->. by split.
  - exists r, s, s', told, t. split; [|done]. intros Heq.
    apply (Hd (pt_root told)); [apply pt_root_in|]. rewrite Heq, elem_of_app. right. apply pt_root_in.
Defined.

Lemma uvmfree_returns_all_witness :
  ∃ s s' t pa l l', returns (uvmfree (pt_root t) 100) s tt s' ∧ l' ≡ₚ pa :: pt_pages t ++ l ∧
    free_pages s' l'.
Proof.
  destruct example_parent as (s & t & _ & l & pa & Hh & _ & _ & Hpte & Hok & Hni & _ & _ & Hz).
  destruct (example_freeable s t l pa PTE_W) as (Hleaf & Hfree & Hpages); [done..|].
  destruct (uvmfree_returns_all 100 1 s t l) as (s' & l' & Hret & _ & Hf & Hl);
    [done|done|done|done|done| |].
  - intros va Hva Hge. rewrite Hz; [apply has_flag_0|done|lia].
  - rewrite Hpages in Hl. by exists s, s', t, pa, l, l'.
Defined.

(** The user of [example_parent] can read and write the first page. *)
Lemma example_user :
  ∃ s t l, let f := pte_of (k_mem s) t in heap s t l ∧ user_safe f t l ∧ user_inj f ∧
    ∀ va, 0 ≤ va < PGSIZE → ∃ a, phys user_wpage f va = Some a.
Proof.
  destruct example_parent as (s & t & _ & l & pa & Hh & _ & _ & Hpte & Hok & Hni & _ & _ & Hz).
  assert (PTE2PA (pte_of (k_mem s) t 0) = pa) as Hpa
    by (rewrite Hpte, mkpte_pa; [done|apply Hok|pose proof (page_ok_pa _ Hok); plia|done]).
  assert (∀ va a, 0 ≤ va → phys user_wpage (pte_of (k_mem s) t) va = Some a → a = pa + va) as Hphys.
  { intros va a Hva. unfold phys. destruct (PGROUNDDOWN va <? MAXVA) eqn:E; [|done]. cbn [andb].
    destruct (decide (PGROUNDDOWN va = 0)) as [->|Hne].
    - destruct (user_wpage _); [|done]. intros [= <-]. lia.
    - rewrite Hz; [done| |done]. split; [apply PGROUNDDOWN_aligned|].
      rewrite PGROUNDDOWN_eq in *. unfold PGSIZE in *. zdiv. }
  exists s, t, l. split_and!; [done| | |].
  - intros va Hva Hw. destruct (decide (va = 0)) as [->|Hne]; [by rewrite Hpa|by rewrite Hz in Hw].
  - intros va va' a Hva Hva' H1 H2. apply Hphys in H1, H2; lia.
  - intros va Hva. eexists. unfold phys.
    assert (PGROUNDDOWN va = 0) as -> by (rewrite PGROUNDDOWN_eq; unfold PGSIZE in *; zdiv).
    replace (user_wpage _) with true; [done|]. rewrite Hpte. symmetry.
    pose proof (page_ok_pa _ Hok). unfold user_wpage. by rewrite !has_flag_mkpte by (plia || done).
Qed.

Lemma copyout_copyin_witness :
  ∃ r s s' t, returns (copyout (pt_root t) 10 [1; 2; 3]) s r s' ∧
    (r = 0 → returns (copyin (pt_root t) 10 3) s' (0, [1; 2; 3]) s').
Proof.
  destruct example_user as (s & t & l & Hh & Hsafe & Hinj & _).
  destruct (copyout_copyin 10 [1; 2; 3] s t l) as (r & s' & Hret & _ & _ & _ & Hr);
    [done..|by repeat (constructor; [done|])|].
  exists r, s, s', t. split; [done|]. intros ->. by destruct Hr as [[_ ?]|[? _]].
Defined.

Lemma copyinstr_correct_witness :
  ∃ r dst s t, returns (copyinstr (pt_root t) 0 16) s (r, dst) s ∧ Z.of_nat (length dst) ≤ 16.
Proof.
  destruct example_parent as (s & t & _ & l & pa & Hh & _).
  destruct (copyinstr_correct 0 16 s t) as (r & dst & Hret & Hlen & _); [apply Hh|done|done|].
  by exists r, dst, s, t.
Defined.
