(* ===== verification/Table.v ===== *)
(** * Rules for the process table

    How accesses to [proc[i]] under [p->lock] act on the table, and the rule for
    loops over the whole table that lock one entry at a time. *)

From S2P Require Import Prelude Data State Spinlock.

(** The state with [proc[i]] replaced. *)
Definition put_proc (i : nat) (p : proc) (s : kstate) : kstate :=
  set_k_procs (<[i := p]> (k_procs s)) s.

(** A state in which a kernel function may lock table entries: the executing
    cpu is consistent, the table has its size and no entry is locked. *)
Definition quiet (s : kstate) : Prop :=
  ready s ∧ (∀ i, unlocked (LkProc i) s) ∧ length (k_procs s) = NPROC.

Lemma put_proc_lookup i p s :
  i < length (k_procs s) → k_procs (put_proc i p s) !! i = Some p.
Proof. intros. simpl. by apply list_lookup_insert_eq. Qed.

Lemma put_proc_put_proc i p q s : put_proc i q (put_proc i p s) = put_proc i q s.
Proof. unfold put_proc, set_k_procs; simpl. by rewrite list_insert_insert_eq. Qed.

Lemma put_proc_id i p s : k_procs s !! i = Some p → put_proc i p s = s.
Proof. intros H. unfold put_proc. rewrite list_insert_id by done. by destruct s. Qed.

Section locked_access.
Context (lk : lockid) (i : nat) (s : kstate).

Lemma returns_get_locked p :
  k_procs s !! i = Some p → returns (get_proc i) (locked lk s) p (locked lk s).
Proof. intros H. by apply (returns_get_proc i p (locked lk s)). Qed.

Lemma returns_upd_locked f p :
  k_procs s !! i = Some p →
  returns (upd_proc i f) (locked lk s) tt (locked lk (put_proc i (f p) s)).
Proof. intros H. by apply (returns_upd_proc i f p (locked lk s)). Qed.

Lemma returns_get_locked_put p :
  i < length (k_procs s) →
  returns (get_proc i) (locked lk (put_proc i p s)) p (locked lk (put_proc i p s)).
Proof.
  intros H. by apply (returns_get_proc i p (locked lk (put_proc i p s))), put_proc_lookup.
Qed.

Lemma returns_upd_locked_put f p :
  i < length (k_procs s) →
  returns (upd_proc i f) (locked lk (put_proc i p s)) tt (locked lk (put_proc i (f p) s)).
Proof.
  intros Hi. rewrite <- (put_proc_put_proc i p (f p) s).
  by apply (returns_upd_proc i f p (locked lk (put_proc i p s))), put_proc_lookup.
Qed.

Lemma returns_release_put p :
  ready s → unlocked lk s →
  returns (release lk) (locked lk (put_proc i p s)) tt (put_proc i p s).
Proof. apply (returns_release lk (put_proc i p s)). Qed.
End locked_access.

#[export] Hint Resolve returns_get_locked returns_upd_locked returns_get_locked_put
  returns_upd_locked_put returns_release_put lookup_lt_Some : kernel.

Lemma quiet_ready s : quiet s → ready s.
Proof. by intros (? & ? & ?). Qed.
Lemma quiet_unlocked s i : quiet s → unlocked (LkProc i) s.
Proof. intros (? & ? & ?). done. Qed.
Lemma quiet_length s : quiet s → length (k_procs s) = NPROC.
Proof. by intros (? & ? & ?). Qed.
Lemma quiet_set_procs ps s :
  quiet s → length ps = length (k_procs s) → quiet (set_k_procs ps s).
Proof. intros (? & ? & ?) Hl. split_and!; [done..|]. simpl. congruence. Qed.
Lemma quiet_put_proc i p s : quiet s → quiet (put_proc i p s).
Proof. intros. apply quiet_set_procs; [done|]. apply length_insert. Qed.
Lemma quiet_lookup s i : quiet s → i < NPROC → is_Some (k_procs s !! i).
Proof. intros (? & ? & Hl) Hi. apply lookup_lt_is_Some. lia. Qed.

#[export] Hint Resolve quiet_ready quiet_unlocked quiet_put_proc : kernel.
#[export] Hint Extern 1 (ready _) =>
  match goal with H : quiet _ |- _ => exact (quiet_ready _ H) end : kernel.
#[export] Hint Extern 1 (unlocked (LkProc ?i) _) =>
  match goal with H : quiet _ |- _ => exact (quiet_unlocked _ i H) end : kernel.

(** ** Loops over the table *)

(** The table after the loop has passed the first [k] entries. *)
Definition slots_done (k : nat) (f : nat → proc → proc) (ps : list proc) : list proc :=
  imap (λ i p, if decide (i < k) then f i p else p) ps.

Lemma slots_done_0 f ps : slots_done 0 f ps = ps.
Proof.
  unfold slots_done. apply list_eq. intros i. rewrite list_lookup_imap.
  destruct (ps !! i); [|done]. cbn [fmap option_fmap option_map]. case_decide; [lia|done].
Qed.

Lemma slots_done_S k f ps p :
  ps !! k = Some p → <[k := f k p]> (slots_done k f ps) = slots_done (S k) f ps.
Proof.
  intros Hk. apply list_eq. intros i. destruct (decide (i = k)) as [->|Hne].
  - rewrite list_lookup_insert_eq.
    + unfold slots_done. rewrite list_lookup_imap, Hk.
      cbn [fmap option_fmap option_map]. case_decide; [done|lia].
    + unfold slots_done. rewrite length_imap. by eapply lookup_lt_Some.
  - rewrite list_lookup_insert_ne by done. unfold slots_done. rewrite !list_lookup_imap.
    destruct (ps !! i); [|done].
    cbn [fmap option_fmap option_map]. repeat case_decide; done || lia.
Qed.

Lemma slots_done_all k f ps : length ps ≤ k → slots_done k f ps = imap f ps.
Proof.
  intros Hl. unfold slots_done. apply list_eq. intros i. rewrite !list_lookup_imap.
  destruct (ps !! i) eqn:E; [|done]. apply lookup_lt_Some in E.
  cbn [fmap option_fmap option_map]. case_decide; [done|lia].
Qed.

Section table_loop.
Context (body : nat → K unit) (f : nat → proc → proc) (Inv : kstate → Prop).
Hypothesis Inv_procs : ∀ ps s, Inv s → length ps = length (k_procs s) → Inv (set_k_procs ps s).
Hypothesis body_ok : ∀ i p s,
  Inv s → k_procs s !! i = Some p → returns (body i) s tt (put_proc i (f i p) s).

Lemma returns_for_slots_from k n s ps :
  Inv s → length (k_procs s) = length ps → k + n = length ps →
  k_procs s = slots_done k f ps →
  returns (for_each (seq k n) body) s tt (set_k_procs (imap f ps) s).
Proof.
  revert k s. induction n as [|n IH]; intros k s HI Hl Hkn Hps; simpl.
  - rewrite <- (slots_done_all k) by lia. rewrite <- Hps.
    replace (set_k_procs (k_procs s) s) with s by (by destruct s). apply returns_ret.
  - destruct (lookup_lt_is_Some_2 ps k) as [p Hp]; [lia|].
    assert (k_procs s !! k = Some p) as Hk.
    { rewrite Hps. unfold slots_done. rewrite list_lookup_imap, Hp.
      cbn [fmap option_fmap option_map]. case_decide; [lia|done]. }
    eapply returns_bind; [by apply body_ok|].
    replace (set_k_procs (imap f ps) s) with
      (set_k_procs (imap f ps) (put_proc k (f k p) s)) by done.
    apply (IH (S k)); [|simpl; by rewrite length_insert|lia|].
    + apply Inv_procs; [done|]. apply length_insert.
    + simpl. rewrite Hps. by apply slots_done_S.
Qed.

(** A loop whose body maps entry [i] with [f i] maps the whole table. *)
Lemma returns_for_slots s :
  Inv s → length (k_procs s) = NPROC →
  returns (for_each proc_slots body) s tt (set_k_procs (imap f (k_procs s)) s).
Proof.
  intros HI Hl. apply returns_for_slots_from; [done|done|by rewrite Hl|].
  by rewrite slots_done_0.
Qed.
End table_loop.
