(* ===== verification/Mlfq.v ===== *)
(** * The multi-level feedback queue scheduler ([kernel/proc.c])

    Scheduling, blocking and waking of the processes in the process table, and
    the operations that other processes apply to a table entry ([kill],
    [setprocpriority]), with their lock discipline and their effect on the table. *)

From S2P Require Import Prelude Data State Spinlock.

(** ** Time slices and boosts *)

Definition get_time_slice (priority : Z) : Z :=
  match priority with
  | 0 => MLFQ_TICKS_0
  | 1 => MLFQ_TICKS_1
  | 2 => MLFQ_TICKS_2
  | _ => MLFQ_TICKS_2
  end%Z.

Definition boost_slot (i : nat) : K unit :=
  acquire (LkProc i) ;;
  p ← get_proc i;
  when (bool_decide (p_state p ≠ UNUSED))
    (when (0 <? p_priority p)%Z
       (upd_proc i (λ p, set_p_num_boosted (i32 (p_num_boosted p + 1)) p)) ;;
     upd_proc i (set_p_priority 0%Z) ;;
     upd_proc i (set_p_ticks_used 0%Z)) ;;
  release (LkProc i).

Definition priority_boost : K unit :=
  acquire LkTicks ;;
  t ← gets k_ticks;
  modify (set_k_last_boost_tick (i32 t)) ;;
  release LkTicks ;;
  for_each proc_slots boost_slot.

(** ** The scheduler loop *)

(** "Check for priority boost" *)
Definition check_boost : K unit :=
  acquire LkMlfq ;;
  t ← gets k_mlfq_ticks;
  if (BOOST_INTERVAL <=? t)%Z then
    modify (set_k_mlfq_ticks 0%Z) ;;
    release LkMlfq ;;
    priority_boost
  else release LkMlfq.

(** The inner search loop: the first runnable process of the table at the given
    level, returned with its lock held. *)
Fixpoint scan_level (l : list nat) (priority : Z) : K (option nat) :=
  match l with
  | [] => mret None
  | i :: l' =>
      acquire (LkProc i) ;;
      p ← get_proc i;
      if bool_decide (p_state p = RUNNABLE) && (p_priority p =? priority)%Z
      then mret (Some i)
      else release (LkProc i) ;; scan_level l' priority
  end.

(** The outer search loop. *)
Fixpoint scan_levels (levels : list Z) : K (option nat) :=
  match levels with
  | [] => mret None
  | priority :: levels' =>
      selected ← scan_level proc_slots priority;
      match selected with
      | Some i => mret (Some i)
      | None => scan_levels levels'
      end
  end.

Definition levels : list Z := seqZ 0 NMLFQ.

(** [c->proc = p] for the cpu that the scheduler thread runs on. *)
Definition set_cpu_proc (h : nat) (p : option nat) : K unit := λ e s,
  match k_cpus s !! h with
  | Some _ => Ok tt e (set_k_cpus (alter (set_c_proc p) h (k_cpus s)) s)
  | None => Fault
  end.

(** One iteration of the loop of [scheduler]. *)
Definition scheduler_iter (h : nat) : K unit :=
  intr_on ;;
  check_boost ;;
  selected ← scan_levels levels;
  match selected with
  | Some i =>
      upd_proc i (set_p_state RUNNING) ;;
      upd_proc i (λ p, set_p_num_scheduled (i32 (p_num_scheduled p + 1)) p) ;;
      set_cpu_proc h (Some i) ;;
      swtch ;;
      set_cpu_proc h None ;;
      release (LkProc i)
  | None => mret tt
  end.

(** [scheduler], which loops forever: its first [n] iterations. *)
Definition scheduler (n : nat) : K unit :=
  h ← cpuid;
  set_cpu_proc h None ;;
  for_each (seq 0 n) (λ _, scheduler_iter h).

(** ** Giving up the CPU *)

(** [myproc()] where the code dereferences the result. *)
Definition this_proc : K nat :=
  p ← myproc;
  match p with Some i => mret i | None => fault end.

Definition sched : K unit :=
  i ← this_proc;
  h ← holding (LkProc i);
  if negb h then panic "sched p->lock" else
  c ← mycpu;
  if negb (c_noff c =? 1)%Z then panic "sched locks" else
  p ← get_proc i;
  if bool_decide (p_state p = RUNNING) then panic "sched running" else
  ie ← intr_get;
  if (ie : bool) then panic "sched interruptible" else
  c ← mycpu;
  let intena := c_intena c in
  swtch ;;
  upd_cpu (set_c_intena intena).

Definition yield : K unit :=
  i ← this_proc;
  acquire (LkProc i) ;;
  p ← get_proc i;
  let time_slice := get_time_slice (p_priority p) in
  when (time_slice <=? p_ticks_used p)%Z
    (when (p_priority p <? NMLFQ - 1)%Z
       (upd_proc i (λ p, set_p_priority (i32 (p_priority p + 1)) p) ;;
        upd_proc i (λ p, set_p_num_demoted (i32 (p_num_demoted p + 1)) p)) ;;
     upd_proc i (set_p_ticks_used 0%Z)) ;;
  upd_proc i (set_p_state RUNNABLE) ;;
  sched ;;
  release (LkProc i).

(** [sleep] on given lock operations, so that it can also be run with what other harts do
    after each of them. *)
Definition sleep_with (acquire release : lockid → K unit) (ch : chan) (lk : lockid) : K unit :=
  i ← this_proc;
  acquire (LkProc i) ;;
  release lk ;;
  upd_proc i (set_p_ticks_used 0%Z) ;;
  upd_proc i (set_p_chan (Some ch)) ;;
  upd_proc i (set_p_state SLEEPING) ;;
  sched ;;
  upd_proc i (set_p_chan None) ;;
  release (LkProc i) ;;
  acquire lk.

Definition sleep : chan → lockid → K unit := sleep_with acquire release.

Definition wakeup_slot (ch : option chan) (i : nat) : K unit :=
  me ← myproc;
  when (bool_decide (Some i ≠ me))
    (acquire (LkProc i) ;;
     p ← get_proc i;
     when (bool_decide (p_state p = SLEEPING) && bool_decide (p_chan p = ch))
       (upd_proc i (set_p_state RUNNABLE)) ;;
     release (LkProc i)).

Definition wakeup (ch : option chan) : K unit := for_each proc_slots (wakeup_slot ch).

(** ** Operations on another process *)

Fixpoint kill_loop (l : list nat) (pid : Z) : K Z :=
  match l with
  | [] => mret (-1)%Z
  | i :: l' =>
      acquire (LkProc i) ;;
      p ← get_proc i;
      if (p_pid p =? pid)%Z then
        upd_proc i (set_p_killed 1%Z) ;;
        when (bool_decide (p_state p = SLEEPING)) (upd_proc i (set_p_state RUNNABLE)) ;;
        release (LkProc i) ;;
        mret 0%Z
      else
        release (LkProc i) ;;
        kill_loop l' pid
  end.

Definition kill (pid : Z) : K Z := kill_loop proc_slots pid.

Definition setkilled (i : nat) : K unit :=
  acquire (LkProc i) ;;
  upd_proc i (set_p_killed 1%Z) ;;
  release (LkProc i).

Definition killed (i : nat) : K Z :=
  acquire (LkProc i) ;;
  p ← get_proc i;
  let k := p_killed p in
  release (LkProc i) ;;
  mret k.

Fixpoint setprocpriority_loop (l : list nat) (pid priority : Z) : K Z :=
  match l with
  | [] => mret (-1)%Z
  | i :: l' =>
      acquire (LkProc i) ;;
      p ← get_proc i;
      if (p_pid p =? pid)%Z && bool_decide (p_state p ≠ UNUSED) then
        upd_proc i (set_p_priority priority) ;;
        upd_proc i (set_p_ticks_used 0%Z) ;;
        release (LkProc i) ;;
        mret 0%Z
      else
        release (LkProc i) ;;
        setprocpriority_loop l' pid priority
  end.

Definition setprocpriority (pid priority : Z) : K Z :=
  if (priority <? 0)%Z || (2 <? priority)%Z then mret (-1)%Z
  else setprocpriority_loop proc_slots pid priority.

Definition allocpid : K Z :=
  acquire LkPid ;;
  pid ← gets k_nextpid;
  modify (λ s, set_k_nextpid (i32 (k_nextpid s + 1)) s) ;;
  release LkPid ;;
  mret pid.

(** ** Timer ticks ([kernel/trap.c]) *)

Definition mlfq_check_timer : K unit :=
  p ← myproc;
  match p with
  | None => mret tt
  | Some i =>
      acquire (LkProc i) ;;
      upd_proc i (λ p, set_p_ticks_used (i32 (p_ticks_used p + 1)) p) ;;
      upd_proc i (λ p, set_p_ticks_total (i32 (p_ticks_total p + 1)) p) ;;
      release (LkProc i) ;;
      acquire LkMlfq ;;
      modify (λ s, set_k_mlfq_ticks (u64 (k_mlfq_ticks s + 1)) s) ;;
      release LkMlfq
  end.

Definition clockintr : K unit :=
  acquire LkTicks ;;
  modify (λ s, set_k_ticks (u32 (k_ticks s + 1)) s) ;;
  wakeup (Some ChTicks) ;;
  release LkTicks.
