(* ===== verification/MlfqFacts.v ===== *)
(** * Effects of the scheduler's functions

    Each function of [Mlfq] that returns without a context switch is shown to
    return, to release every lock it takes, and to act on the table as a pure
    function of the entries; the functions that give up the CPU are
    characterised by the state they leave behind. *)

From S2P Require Import Prelude Data State Spinlock Table Mlfq.

(** ** Pure effect on one table entry *)

Definition boosted (p : proc) : proc :=
  if bool_decide (p_state p ≠ UNUSED) then
    set_p_ticks_used 0 (set_p_priority 0
      (if (0 <? p_priority p)%Z then set_p_num_boosted (i32 (p_num_boosted p + 1)) p else p))
  else p.

Definition awakened (cur : option nat) (ch : option chan) (i : nat) (p : proc) : proc :=
  if bool_decide (Some i ≠ cur) && bool_decide (p_state p = SLEEPING)
     && bool_decide (p_chan p = ch)
  then set_p_state RUNNABLE p else p.

(** The demotion rule that [yield] applies: a process that has used up its time
    slice moves one level down, unless it is at the lowest, and starts a new slice. *)
Definition demoted (p : proc) : proc :=
  if (get_time_slice (p_priority p) <=? p_ticks_used p)%Z then
    set_p_ticks_used 0
      (if (p_priority p <? NMLFQ - 1)%Z
       then set_p_num_demoted (i32 (p_num_demoted p + 1))
              (set_p_priority (i32 (p_priority p + 1)) p)
       else p)
  else p.

Definition yielded (p : proc) : proc := set_p_state RUNNABLE (demoted p).

Definition asleep (ch : chan) (p : proc) : proc :=
  set_p_state SLEEPING (set_p_chan (Some ch) (set_p_ticks_used 0 p)).

Definition ticked (p : proc) : proc :=
  set_p_ticks_total (i32 (p_ticks_total p + 1))
    (set_p_ticks_used (i32 (p_ticks_used p + 1)) p).

Definition dispatched (p : proc) : proc :=
  set_p_num_scheduled (i32 (p_num_scheduled p + 1)) (set_p_state RUNNING p).

Definition killed_proc (p : proc) : proc :=
  let p' := set_p_killed 1 p in
  if bool_decide (p_state p = SLEEPING) then set_p_state RUNNABLE p' else p'.

Definition reprioritised (priority : Z) (p : proc) : proc :=
  set_p_ticks_used 0 (set_p_priority priority p).

(** ** Boost, wakeup and the timer *)

Lemma returns_boost_slot i p s :
  quiet s → k_procs s !! i = Some p → returns (boost_slot i) s tt (put_proc i (boosted p) s).
Proof.
  intros Hq Hp. unfold boost_slot. kstep. kstep.
  unfold boosted, when. destruct (bool_decide (p_state p ≠ UNUSED)).
  - destruct (0 <? p_priority p)%Z.
    + eapply returns_bind; [|kret].
      eapply returns_bind; [kret|]. kstep. kret.
    + eapply returns_bind; [|kret]. kstep. kstep. kret.
  - kstep. rewrite (put_proc_id i p s) by done. kret.
Qed.

Lemma returns_priority_boost s :
  quiet s → unlocked LkTicks s →
  returns priority_boost s tt
    (set_k_procs (boosted <$> k_procs s) (set_k_last_boost_tick (i32 (k_ticks s)) s)).
Proof.
  intros Hq Ht. unfold priority_boost. kstep. kstep. kstep.
  eapply returns_bind; [apply (returns_release LkTicks (set_k_last_boost_tick _ s)); kret|].
  rewrite <- (imap_const boosted).
  refine (returns_for_slots boost_slot (λ _, boosted) quiet _ _
    (set_k_last_boost_tick _ s) _ _); auto using quiet_set_procs, returns_boost_slot.
  by apply quiet_length.
Qed.

(** [check_boost], on both branches. *)
Definition boost_checked (s : kstate) : kstate :=
  if (BOOST_INTERVAL <=? k_mlfq_ticks s)%Z then
    set_k_procs (boosted <$> k_procs s)
      (set_k_last_boost_tick (i32 (k_ticks s)) (set_k_mlfq_ticks 0 s))
  else s.

Lemma returns_check_boost s :
  quiet s → unlocked LkTicks s → unlocked LkMlfq s →
  returns check_boost s tt (boost_checked s).
Proof.
  intros Hq Ht Hm. unfold check_boost, boost_checked. kstep. kstep.
  cbn [k_mlfq_ticks locked set_k_locks on_cpu set_k_cpus].
  destruct (BOOST_INTERVAL <=? k_mlfq_ticks s)%Z; [|kret]. kstep.
  eapply returns_bind; [apply (returns_release LkMlfq (set_k_mlfq_ticks 0 s)); kret|].
  by apply (returns_priority_boost (set_k_mlfq_ticks 0 s)).
Qed.

Lemma returns_wakeup_slot ch i p s :
  ready s → unlocked (LkProc i) s → k_procs s !! i = Some p →
  returns (wakeup_slot ch i) s tt (put_proc i (awakened (curproc s) ch i p) s).
Proof.
  intros Hr Hu Hp. unfold wakeup_slot, awakened, when. kstep.
  destruct (bool_decide (Some i ≠ curproc s)); cbn [andb].
  - kstep. kstep. destruct (_ && _).
    + kstep. kret.
    + kstep. rewrite (put_proc_id i p s) by done. kret.
  - rewrite (put_proc_id i p s) by done. kret.
Qed.

Lemma returns_wakeup ch s :
  quiet s →
  returns (wakeup ch) s tt (set_k_procs (imap (awakened (curproc s) ch) (k_procs s)) s).
Proof.
  intros Hq. apply (returns_for_slots _ _ (λ s', quiet s' ∧ curproc s' = curproc s)).
  - intros ps s' [? ?] ?. split; [by apply quiet_set_procs|done].
  - intros i p s' [? <-] ?. apply returns_wakeup_slot; kret.
  - done.
  - by apply quiet_length.
Qed.

Lemma returns_mlfq_check_timer i p s :
  quiet s → unlocked LkMlfq s → curproc s = Some i → k_procs s !! i = Some p →
  returns mlfq_check_timer s tt
    (set_k_mlfq_ticks (u64 (k_mlfq_ticks s + 1)) (put_proc i (ticked p) s)).
Proof.
  intros Hq Hm Hc Hp. unfold mlfq_check_timer. kstep. rewrite Hc.
  kstep. kstep. kstep. kstep. kstep. kstep.
  apply (returns_release LkMlfq (set_k_mlfq_ticks _ (put_proc i (ticked p) s))); kret.
Qed.

Lemma returns_mlfq_check_timer_idle s :
  ready s → curproc s = None → returns mlfq_check_timer s tt s.
Proof. intros Hq Hc. unfold mlfq_check_timer. kstep. rewrite Hc. kret. Qed.

Lemma quiet_locked lk s :
  (∀ i, LkProc i ≠ lk) → quiet s → quiet (locked lk s).
Proof. intros Hne (? & ? & ?). split_and!; eauto with kernel. Qed.

Lemma returns_clockintr s :
  quiet s → unlocked LkTicks s →
  returns clockintr s tt
    (set_k_procs (imap (awakened (curproc s) (Some ChTicks)) (k_procs s))
       (set_k_ticks (u32 (k_ticks s + 1)) s)).
Proof.
  intros Hq Ht. unfold clockintr. kstep. kstep.
  set (s1 := set_k_ticks (u32 (k_ticks s + 1)) s).
  eapply returns_bind.
  { apply (returns_wakeup (Some ChTicks) (locked LkTicks s1)). by apply quiet_locked. }
  rewrite curproc_locked.
  apply (returns_release LkTicks
    (set_k_procs (imap (awakened (curproc s) (Some ChTicks)) (k_procs s)) s1)); kret.
Qed.

(** ** Choosing a process *)

(** The table entry that the search selects: the first runnable process of the
    highest nonempty level. *)
Definition first_at (ps : list proc) (priority : Z) : option nat :=
  fst <$> list_find (λ p, p_state p = RUNNABLE ∧ p_priority p = priority) ps.

Fixpoint first_of (ps : list proc) (l : list Z) : option nat :=
  match l with
  | [] => None
  | priority :: l' =>
      match first_at ps priority with Some i => Some i | None => first_of ps l' end
  end.

Definition pick (ps : list proc) : option nat := first_of ps levels.

(** The state in which the search ends: the lock of the entry found is held. *)
Definition holding_pick (sel : option nat) (s : kstate) : kstate :=
  match sel with Some i => locked (LkProc i) s | None => s end.

Lemma candidate_true p priority :
  p_state p = RUNNABLE ∧ p_priority p = priority ↔
  bool_decide (p_state p = RUNNABLE) && (p_priority p =? priority)%Z = true.
Proof. rewrite andb_true_iff, bool_decide_eq_true, Z.eqb_eq. done. Qed.

Lemma returns_scan_level_from k n priority s :
  quiet s → k + n = NPROC →
  returns (scan_level (seq k n) priority) s
    ((λ x, k + x.1) <$> list_find (λ p, p_state p = RUNNABLE ∧ p_priority p = priority)
                     (drop k (k_procs s)))
    (holding_pick ((λ x, k + x.1) <$> list_find
       (λ p, p_state p = RUNNABLE ∧ p_priority p = priority) (drop k (k_procs s))) s).
Proof.
  intros Hq. revert k. induction n as [|n IH]; intros k Hk.
  - rewrite drop_ge by (rewrite quiet_length by done; lia). apply returns_ret.
  - destruct (quiet_lookup s k) as [p Hp]; [done|lia|].
    rewrite (drop_S _ p) by done. cbn [seq scan_level list_find].
    kstep. kstep. case_decide as Hc.
    + rewrite (proj1 (candidate_true _ _) Hc). cbn. rewrite Nat.add_0_r. apply returns_ret.
    + rewrite candidate_true, not_true_iff_false in Hc. rewrite Hc. kstep.
      specialize (IH (S k) ltac:(lia)).
      destruct (list_find _ (drop (S k) (k_procs s))) as [[j q]|]; [|done].
      cbn in *. by rewrite Nat.add_succ_r.
Qed.

Lemma returns_scan_level priority s :
  quiet s →
  returns (scan_level proc_slots priority) s (first_at (k_procs s) priority)
    (holding_pick (first_at (k_procs s) priority) s).
Proof. intros Hq. exact (returns_scan_level_from 0 NPROC priority s Hq eq_refl). Qed.

Lemma returns_scan_levels l s :
  quiet s →
  returns (scan_levels l) s (first_of (k_procs s) l) (holding_pick (first_of (k_procs s) l) s).
Proof.
  intros Hq. induction l as [|priority l IH]; [apply returns_ret|]. simpl.
  eapply returns_bind; [by apply returns_scan_level|].
  destruct (first_at _ _); [apply returns_ret|exact IH].
Qed.

(** Entry [i] is the one an MLFQ scheduler has to run next. *)
Definition best (ps : list proc) (i : nat) : Prop :=
  ∃ p, ps !! i = Some p ∧ p_state p = RUNNABLE ∧
    ∀ j q, ps !! j = Some q → p_state q = RUNNABLE →
      (p_priority p < p_priority q)%Z ∨ (p_priority p = p_priority q ∧ i ≤ j).

(** Every live process is in one of the [NMLFQ] queues. *)
Definition prio_ok (p : proc) : Prop := (0 ≤ p_priority p < NMLFQ)%Z.

Lemma first_at_Some ps priority i :
  first_at ps priority = Some i ↔
  ∃ p, ps !! i = Some p ∧ p_state p = RUNNABLE ∧ p_priority p = priority ∧
    ∀ j q, ps !! j = Some q → p_state q = RUNNABLE → p_priority q = priority → i ≤ j.
Proof.
  unfold first_at. rewrite fmap_Some. split.
  - intros ([i' p] & H & ->). apply list_find_Some in H as (Hp & [? ?] & Hj).
    exists p. split_and!; [done..|]. intros j q Hq Hr Hpr.
    destruct (le_lt_dec i' j); [done|]. exfalso. by eapply (Hj j q).
  - intros (p & Hp & Hr & Hpr & Hj). exists (i, p). split; [|done].
    apply list_find_Some. split_and!; [done..|]. intros j q Hq Hlt [? ?].
    specialize (Hj j q). naive_solver lia.
Qed.

Lemma first_at_None ps priority :
  first_at ps priority = None ↔
  ∀ j q, ps !! j = Some q → p_state q = RUNNABLE → p_priority q ≠ priority.
Proof.
  unfold first_at. rewrite fmap_None, list_find_None, Forall_lookup. naive_solver.
Qed.

Lemma prio_ok_cases p :
  prio_ok p → p_priority p = 0%Z ∨ p_priority p = 1%Z ∨ p_priority p = 2%Z.
Proof. unfold prio_ok, NMLFQ. lia. Qed.

Lemma pick_best ps i : Forall prio_ok ps → pick ps = Some i → best ps i.
Proof.
  intros Hok. rewrite Forall_lookup in Hok.
  unfold pick. change levels with [0; 1; 2]%Z. simpl.
  intros H. destruct (first_at ps 0) eqn:E0; [|destruct (first_at ps 1) eqn:E1;
    [|destruct (first_at ps 2) eqn:E2; [|done]]]; simplify_eq.
  - apply first_at_Some in E0 as (p & Hp & Hr & Hpr & Hj).
    exists p. split_and!; [done..|]. intros j q Hq Hrq. rewrite Hpr.
    destruct (prio_ok_cases q) as [?|[?|?]]; [by eapply Hok| |lia|lia].
    right. split; [done|]. by eapply Hj.
  - apply first_at_Some in E1 as (p & Hp & Hr & Hpr & Hj). rewrite first_at_None in E0.
    exists p. split_and!; [done..|]. intros j q Hq Hrq. rewrite Hpr.
    destruct (prio_ok_cases q) as [?|[?|?]]; [by eapply Hok| | |lia].
    { by destruct (E0 j q). }
    right. split; [done|]. by eapply Hj.
  - apply first_at_Some in E2 as (p & Hp & Hr & Hpr & Hj).
    rewrite first_at_None in E0. rewrite first_at_None in E1.
    exists p. split_and!; [done..|]. intros j q Hq Hrq. rewrite Hpr.
    destruct (prio_ok_cases q) as [?|[?|?]]; [by eapply Hok| | |].
    { by destruct (E0 j q). } { by destruct (E1 j q). }
    right. split; [done|]. by eapply Hj.
Qed.

Lemma pick_None ps :
  Forall prio_ok ps → pick ps = None → ∀ j q, ps !! j = Some q → p_state q ≠ RUNNABLE.
Proof.
  intros Hok. rewrite Forall_lookup in Hok.
  unfold pick. change levels with [0; 1; 2]%Z. simpl. intros H j q Hq Hr.
  destruct (first_at ps 0) eqn:E0; [done|]. destruct (first_at ps 1) eqn:E1; [done|].
  destruct (first_at ps 2) eqn:E2; [done|]. rewrite first_at_None in E0, E1, E2.
  destruct (prio_ok_cases q) as [?|[?|?]]; naive_solver.
Qed.

Lemma best_unique ps i j : best ps i → best ps j → i = j.
Proof.
  intros (p & Hp & Hrp & Hbp) (q & Hq & Hrq & Hbq).
  specialize (Hbp j q Hq Hrq). specialize (Hbq i p Hp Hrp). lia.
Qed.

Lemma pick_lookup ps i : pick ps = Some i → ∃ p, ps !! i = Some p ∧ p_state p = RUNNABLE.
Proof.
  unfold pick. generalize levels. intros l. induction l as [|pr l IH]; simpl; [done|].
  destruct (first_at ps pr) eqn:E; [|done]. intros [= ->].
  apply first_at_Some in E as (p & ? & ? & _). eauto.
Qed.

(** ** Giving up the CPU *)

(** The running process [i] of the executing hart may call the scheduler: no
    lock is held and no [push_off] is pending. *)
Definition running (i : nat) (p : proc) (s : kstate) : Prop :=
  quiet s ∧ k_procs s !! i = Some p ∧ curproc s = Some i ∧
  ∃ c, k_cpus s !! k_hart s = Some c ∧ c_noff c = 0%Z.

Lemma returns_this_proc i s : ready s → curproc s = Some i → returns this_proc s i s.
Proof. intros Hr Hc. unfold this_proc. kstep. rewrite Hc. kret. Qed.

(** [sched] called with exactly the lock of the current process, in a state
    other than [RUNNING], passes its checks and switches; when it is resumed, it
    restores the interrupt flag of its own thread. *)
Lemma sched_switches i p s c e :
  running i p s → p_state p ≠ RUNNING → k_cpus s !! k_hart s = Some c →
  sched e (locked (LkProc i) s) = (swtch ;; upd_cpu (set_c_intena (c_sie c))) e (locked (LkProc i) s).
Proof.
  intros (Hq & Hp & Hc & c' & Hcpu & Hn) Hst Hcpu'. simplify_eq.
  pose proof (on_cpu_lookup cpu_enter _ _ Hcpu) as He.
  assert (returns this_proc (locked (LkProc i) s) i (locked (LkProc i) s)).
  { apply returns_this_proc; [eauto with kernel|]. by rewrite curproc_locked. }
  unfold sched, intr_get. krun. krun. cbn [negb].
  eapply run_bind; [by apply returns_mycpu|]. cbn [c_noff cpu_enter]. rewrite Hn. cbn.
  krun. rewrite bool_decide_eq_false_2 by done.
  eapply run_bind; [eapply returns_bind; [by apply returns_mycpu|apply returns_ret]|].
  cbn [c_sie cpu_enter].
  eapply run_bind; [by apply returns_mycpu|].
  unfold cpu_enter. by rewrite Hn.
Qed.

(** The thread's own interrupt flag, reinstated on the cpu that resumes it. *)
Definition resume_intr (ie : bool) (s : kstate) : kstate :=
  on_cpu (λ c, set_c_sie ie (set_c_intena ie c)) s.

(** The schedule resumes process [i] as [scheduler] does: with the lock of the
    process held on a cpu that has no other lock. *)
Definition resumes (w : kstate → kstate) (i : nat) (s s' : kstate) : Prop :=
  w (locked (LkProc i) s) = locked (LkProc i) s' ∧ ready s' ∧ unlocked (LkProc i) s' ∧
  ∃ c, k_cpus s' !! k_hart s' = Some c ∧ c_noff c = 0%Z.

Lemma resume_intr_ready ie s :
  (∃ c, k_cpus s !! k_hart s = Some c ∧ c_noff c = 0%Z) → ready (resume_intr ie s).
Proof.
  intros (c & Hc & Hn). exists (set_c_sie ie (set_c_intena ie c)).
  split; [by apply (on_cpu_lookup (λ c, set_c_sie ie (set_c_intena ie c)))|].
  unfold cpu_settled; simpl. rewrite Hn. split_and!; [lia|lia|done].
Qed.

Lemma returns_restore_intena ie lk s c :
  k_cpus s !! k_hart s = Some c → c_noff c = 0%Z →
  returns (upd_cpu (set_c_intena ie)) (locked lk s) tt (locked lk (resume_intr ie s)).
Proof.
  intros Hc Hn e. erewrite returns_upd_cpu by (by apply (on_cpu_lookup cpu_enter)). f_equal.
  unfold locked, resume_intr, on_cpu, set_k_locks, set_k_cpus; simpl.
  f_equal. rewrite !list_alter_alter. eapply list_alter_cong; [done|].
  unfold cpu_enter; simpl. by rewrite Hn.
Qed.

Lemma sched_resumed i p s w e c s' :
  running i p s → p_state p ≠ RUNNING → k_cpus s !! k_hart s = Some c →
  resumes w i s s' →
  sched (w :: e) (locked (LkProc i) s)
  = Ok tt e (locked (LkProc i) (resume_intr (c_sie c) s')).
Proof.
  intros Hrun Hst Hcpu (Hw & Hr & Hu & c' & Hc' & Hn). erewrite sched_switches by done.
  unfold mbind, K_bind, swtch. rewrite Hw. by erewrite returns_restore_intena.
Qed.

Lemma running_put i p q s : running i p s → running i q (put_proc i q s).
Proof.
  intros (Hq & Hp & Hc & c & Hcpu & Hn). split_and!; [by apply quiet_put_proc| |done|eauto].
  apply put_proc_lookup. by eapply lookup_lt_Some.
Qed.

(** [yield] up to the switch. *)
Lemma yield_switches i p s e :
  running i p s →
  yield e s = (sched ;; release (LkProc i)) e (locked (LkProc i) (put_proc i (yielded p) s)).
Proof.
  intros Hrun. pose proof Hrun as (Hq & Hp & Hc & _).
  assert (returns this_proc s i s) by (apply returns_this_proc; eauto with kernel).
  unfold yield. krun. krun. krun.
  eapply (run_bind _ _ _ _ tt (locked (LkProc i) (put_proc i (demoted p) s))).
  { unfold when, demoted. destruct (_ <=? _)%Z; [|rewrite put_proc_id by done; kret].
    destruct (p_priority p <? NMLFQ - 1)%Z.
    - eapply returns_bind; [eapply returns_bind; kret|kret].
    - eapply returns_bind; kret. }
  krun. done.
Qed.

(** [sleep] up to the switch: it gives up [lk] only once it holds the lock of
    its process, so that no wakeup can be missed. *)
Lemma sleep_switches i p ch lk s e :
  running i p s → unlocked lk s → (∀ j, lk ≠ LkProc j) →
  sleep ch lk e (locked lk s)
  = (sched ;; upd_proc i (set_p_chan None) ;; release (LkProc i) ;; acquire lk) e
      (locked (LkProc i) (put_proc i (asleep ch p) s)).
Proof.
  intros Hrun Hu Hlk. pose proof Hrun as (Hq & Hp & Hc & c & Hcpu & Hn).
  assert (returns this_proc (locked lk s) i (locked lk s)).
  { apply returns_this_proc; [eauto with kernel|]. by rewrite curproc_locked. }
  unfold sleep, sleep_with. krun.
  eapply run_bind; [apply returns_acquire; [eauto with kernel|]|].
  { apply unlocked_locked; [by apply not_eq_sym|]. eauto with kernel. }
  eapply run_bind; [apply returns_release_outer; eauto with kernel|].
  krun. krun. krun. done.
Qed.

(** ** Functions applied to another process *)

Lemma returns_setkilled i p s :
  quiet s → k_procs s !! i = Some p →
  returns (setkilled i) s tt (put_proc i (set_p_killed 1 p) s).
Proof. intros Hq Hp. unfold setkilled. kstep. kstep. kret. Qed.

Lemma returns_killed i p s :
  quiet s → k_procs s !! i = Some p → returns (killed i) s (p_killed p) s.
Proof. intros Hq Hp. unfold killed. kstep. kstep. kstep. kret. Qed.

(** The first entry that satisfies [P], from entry [k] on. *)
Definition find_from (P : proc → Prop) `{∀ p, Decision (P p)} (k : nat) (ps : list proc)
    : option (nat * proc) :=
  prod_map (Nat.add k) id <$> list_find P (drop k ps).

Section search_loop.
Context (P : proc → Prop) `{∀ p, Decision (P p)}.
Context (loop : list nat → K Z) (test : proc → bool) (hit : nat → proc → K Z).
Context (f : proc → proc).
Hypothesis test_P : ∀ p, test p = bool_decide (P p).
Hypothesis loop_nil : loop [] = mret (-1)%Z.
Hypothesis loop_cons : ∀ i l,
  loop (i :: l) = (acquire (LkProc i) ;;
    p ← get_proc i;
    if test p then hit i p else release (LkProc i) ;; loop l).
Hypothesis hit_ok : ∀ i p s,
  quiet s → k_procs s !! i = Some p →
  returns (hit i p) (locked (LkProc i) s) 0%Z (put_proc i (f p) s).

Lemma returns_search_from k n s :
  quiet s → k + n = NPROC →
  match find_from P k (k_procs s) with
  | Some (i, p) => returns (loop (seq k n)) s 0%Z (put_proc i (f p) s)
  | None => returns (loop (seq k n)) s (-1)%Z s
  end.
Proof.
  intros Hq. revert k. induction n as [|n IH]; intros k Hk; unfold find_from in *.
  - rewrite drop_ge by (rewrite quiet_length by done; lia). simpl. rewrite loop_nil.
    apply returns_ret.
  - destruct (quiet_lookup s k) as [p Hp]; [done|lia|].
    rewrite (drop_S _ p) by done. cbn [seq list_find]. rewrite loop_cons.
    case_decide as Hc.
    + cbn. rewrite Nat.add_0_r. kstep. kstep.
      rewrite test_P, bool_decide_eq_true_2 by done. by apply hit_ok.
    + specialize (IH (S k) ltac:(lia)).
      destruct (list_find P (drop (S k) (k_procs s))) as [[j q]|]; cbn in *.
      * rewrite Nat.add_succ_r. kstep. kstep.
        rewrite test_P, bool_decide_eq_false_2 by done. kstep. done.
      * kstep. kstep. rewrite test_P, bool_decide_eq_false_2 by done. kstep. done.
Qed.

(** A search through the whole table: [f] is applied to the first entry that
    satisfies [P]; without one the result is -1 and nothing changes. *)
Lemma returns_search s :
  quiet s →
  match list_find P (k_procs s) with
  | Some (i, p) => returns (loop proc_slots) s 0%Z (put_proc i (f p) s)
  | None => returns (loop proc_slots) s (-1)%Z s
  end.
Proof.
  intros Hq. pose proof (returns_search_from 0 NPROC s Hq eq_refl) as Hs.
  unfold find_from in Hs. rewrite drop_0 in Hs.
  by destruct (list_find P (k_procs s)) as [[i p]|].
Qed.
End search_loop.

Lemma kill_spec pid s :
  quiet s →
  match list_find (λ p, p_pid p = pid) (k_procs s) with
  | Some (i, p) => returns (kill pid) s 0%Z (put_proc i (killed_proc p) s)
  | None => returns (kill pid) s (-1)%Z s
  end.
Proof.
  apply (returns_search _ (λ l, kill_loop l pid) (λ p, (p_pid p =? pid)%Z) (λ i p,
    upd_proc i (set_p_killed 1%Z) ;;
    when (bool_decide (p_state p = SLEEPING)) (upd_proc i (set_p_state RUNNABLE)) ;;
    release (LkProc i) ;; mret 0%Z)); [|done|done|].
  - intros p. apply eq_true_iff_eq. by rewrite Z.eqb_eq, bool_decide_eq_true.
  - intros i p s' Hq Hp. kstep. unfold when, killed_proc.
    destruct (bool_decide _); kstep; kstep; kret.
Qed.

Lemma setprocpriority_spec pid priority s :
  quiet s → (0 ≤ priority ≤ 2)%Z →
  match list_find (λ p, p_pid p = pid ∧ p_state p ≠ UNUSED) (k_procs s) with
  | Some (i, p) =>
      returns (setprocpriority pid priority) s 0%Z (put_proc i (reprioritised priority p) s)
  | None => returns (setprocpriority pid priority) s (-1)%Z s
  end.
Proof.
  intros Hq Hpr. unfold setprocpriority.
  replace ((priority <? 0)%Z || (2 <? priority)%Z) with false by lia.
  revert Hq. apply (returns_search _ (λ l, setprocpriority_loop l pid priority)
    (λ p, (p_pid p =? pid)%Z && bool_decide (p_state p ≠ UNUSED)) (λ i p,
    upd_proc i (set_p_priority priority) ;; upd_proc i (set_p_ticks_used 0%Z) ;;
    release (LkProc i) ;; mret 0%Z)); [|done|done|].
  - intros p. apply eq_true_iff_eq.
    by rewrite andb_true_iff, Z.eqb_eq, !bool_decide_eq_true.
  - intros i p s' Hq Hp. kstep. kstep. kstep. kret.
Qed.

Lemma setprocpriority_invalid pid priority s :
  ¬ (0 ≤ priority ≤ 2)%Z → returns (setprocpriority pid priority) s (-1)%Z s.
Proof.
  intros H. unfold setprocpriority.
  replace ((priority <? 0)%Z || (2 <? priority)%Z) with true by lia. apply returns_ret.
Qed.

Lemma returns_allocpid s :
  ready s → unlocked LkPid s →
  returns allocpid s (k_nextpid s) (set_k_nextpid (i32 (k_nextpid s + 1)) s).
Proof.
  intros Hr Hu. unfold allocpid. kstep. kstep. kstep.
  eapply returns_bind; [apply (returns_release LkPid (set_k_nextpid _ s)); kret|]. kret.
Qed.

(** ** The scheduler loop *)

(** The scheduler thread of the executing hart, between two processes: no lock
    that it needs is held. *)
Definition scheduling (s : kstate) : Prop :=
  (∀ i, unlocked (LkProc i) s) ∧ unlocked LkTicks s ∧ unlocked LkMlfq s ∧
  length (k_procs s) = NPROC ∧
  ∃ c, k_cpus s !! k_hart s = Some c ∧ c_noff c = 0%Z.

Lemma scheduling_resume_quiet ie s : scheduling s → quiet (resume_intr ie s).
Proof.
  intros (Hp & _ & _ & Hl & Hc). split_and!; [by apply resume_intr_ready|done|done].
Qed.

(** An acquire overwrites [intena], so enabling interrupts just before it is
    the same as running with interrupts enabled all along. *)
Lemma acquire_after_intr_on lk s c e :
  k_cpus s !! k_hart s = Some c → c_noff c = 0%Z →
  acquire lk e (on_cpu (set_c_sie true) s) = acquire lk e (resume_intr true s).
Proof.
  intros Hc Hn.
  assert (returns push_off (on_cpu (set_c_sie true) s) tt
            (on_cpu (cpu_enter ∘ set_c_sie true) s)) as H1.
  { rewrite <- on_cpu_on_cpu. by eapply returns_push_off, on_cpu_lookup. }
  assert (returns push_off (resume_intr true s) tt
            (on_cpu (cpu_enter ∘ set_c_sie true) s)) as H2.
  { rewrite (on_cpu_cong _ (cpu_enter ∘ (λ c, set_c_sie true (set_c_intena true c))) _ c);
      [|done|unfold cpu_enter; simpl; by rewrite Hn].
    rewrite <- on_cpu_on_cpu. unfold resume_intr.
    by eapply returns_push_off, (on_cpu_lookup (λ c, set_c_sie true (set_c_intena true c))). }
  unfold acquire, mbind, K_bind. by rewrite H1, H2.
Qed.

Lemma returns_intr_on_check_boost s :
  scheduling s →
  returns (intr_on ;; check_boost) s tt (boost_checked (resume_intr true s)).
Proof.
  intros Hs e. pose proof Hs as (Hp & Ht & Hm & Hl & c & Hc & Hn).
  eapply run_bind; [by eapply returns_upd_cpu|].
  pose proof (returns_check_boost (resume_intr true s) (scheduling_resume_quiet _ _ Hs)
    Ht Hm e) as H.
  rewrite <- H. unfold check_boost, mbind, K_bind. by erewrite acquire_after_intr_on by done.
Qed.

(** The state in which process [i] is switched to. *)
Definition dispatch (i : nat) (p : proc) (s : kstate) : kstate :=
  put_proc i (dispatched p) (on_cpu (set_c_proc (Some i)) s).

Lemma quiet_boost_checked s : quiet s → quiet (boost_checked s).
Proof.
  intros Hq. unfold boost_checked. case_match; [|done].
  apply (quiet_set_procs _ (set_k_last_boost_tick _ (set_k_mlfq_ticks 0 s))); [done|].
  by rewrite length_fmap.
Qed.

Lemma boost_checked_cpus s : k_cpus (boost_checked s) = k_cpus s.
Proof. unfold boost_checked. by case_match. Qed.
Lemma boost_checked_hart s : k_hart (boost_checked s) = k_hart s.
Proof. unfold boost_checked. by case_match. Qed.
Lemma boost_checked_locks s : k_locks (boost_checked s) = k_locks s.
Proof. unfold boost_checked. by case_match. Qed.

Lemma set_cpu_proc_locked lk o s :
  ready s →
  returns (set_cpu_proc (k_hart s) o) (locked lk s) tt (locked lk (on_cpu (set_c_proc o) s)).
Proof.
  intros (c & Hc & _) e. unfold set_cpu_proc.
  pose proof (on_cpu_lookup cpu_enter _ _ Hc) as He. simpl in *. rewrite He.
  f_equal. unfold locked, on_cpu, set_k_locks, set_k_cpus; simpl.
  f_equal. rewrite !list_alter_alter. by eapply list_alter_cong.
Qed.

(** An iteration, up to the switch to the process it selects. *)
Lemma scheduler_iter_switches s e :
  scheduling s →
  let s1 := boost_checked (resume_intr true s) in
  match pick (k_procs s1) with
  | Some i => ∃ p, k_procs s1 !! i = Some p ∧
      scheduler_iter (k_hart s) e s
      = (swtch ;; set_cpu_proc (k_hart s) None ;; release (LkProc i)) e
          (locked (LkProc i) (dispatch i p s1))
  | None => scheduler_iter (k_hart s) e s = Ok tt e s1
  end.
Proof.
  intros Hs s1. assert (quiet s1) as Hq.
  { by apply quiet_boost_checked, scheduling_resume_quiet. }
  pose proof (returns_intr_on_check_boost s Hs) as Hb.
  pose proof (returns_scan_levels levels s1 Hq) as Hsc. fold (pick (k_procs s1)) in Hsc.
  assert (scheduler_iter (k_hart s) e s =
    (selected ← scan_levels levels;
     match selected with
     | Some i =>
         upd_proc i (set_p_state RUNNING) ;;
         upd_proc i (λ p, set_p_num_scheduled (i32 (p_num_scheduled p + 1)) p) ;;
         set_cpu_proc (k_hart s) (Some i) ;; swtch ;; set_cpu_proc (k_hart s) None ;;
         release (LkProc i)
     | None => mret tt
     end) e s1) as ->.
  { specialize (Hb e). revert Hb. unfold scheduler_iter, mbind, K_bind.
    destruct (intr_on e s); try done. intros ->. done. }
  destruct (pick (k_procs s1)) as [i|] eqn:Hpick.
  - destruct (pick_lookup _ _ Hpick) as (p & Hp & _). exists p. split; [done|].
    eapply run_bind; [exact Hsc|]. cbn [holding_pick]. krun. krun.
    replace (k_hart s) with (k_hart (put_proc i (dispatched p) s1)) by
      (simpl; subst s1; by rewrite boost_checked_hart).
    eapply run_bind; [apply (set_cpu_proc_locked (LkProc i)); kret|]. done.
  - eapply run_bind; [exact Hsc|]. done.
Qed.
