(* ===== verification/MlfqSys.v ===== *)
(** * The scheduler at work on CPU-bound processes

    [scheduler] composed with the timer path of the traps: in each round the
    scheduler dispatches a process, which runs until the next timer interrupt and
    is sent back by [yield]. *)

From S2P Require Import Prelude Data State Spinlock Table Mlfq MlfqFacts.

(** ** One round *)

(** A timer interrupt of a process that has not been killed, as far as the scheduler's data
    go: [devintr] counts the tick on hart 0, then the trap handler charges the process and
    yields.  [TrapFacts] relates it to [usertrap]. *)
Definition timer_trap : K unit :=
  h ← cpuid;
  when (h =? 0) clockintr ;;
  mlfq_check_timer ;;
  yield.

(** A CPU-bound process from the moment [scheduler] switches to it: it finishes
    the [yield] in which it gave up the CPU (restoring its thread's interrupt
    flag, which is off in a trap handler), computes in user space, and takes the
    next timer interrupt. *)
Definition run_slice : K unit :=
  i ← this_proc;
  upd_cpu (set_c_intena false) ;;
  release (LkProc i) ;;
  intr_off ;;
  timer_trap.

(** What the scheduler thread observes of it: the state at the switch back. *)
Definition cpu_bound (s : kstate) : kstate :=
  match run_slice [] s with Away s' => s' | _ => s end.

(** ** The round as a function of the table *)

Definition used_slice (p : proc) : proc := yielded (ticked (dispatched p)).

Definition clock (h : nat) (t : Z) : Z := if (h =? 0)%nat then u32 (t + 1) else t.

(** No process waits for the clock: the others are runnable or wait for
    something else. *)
Definition no_tick_sleeper (ps : list proc) : Prop :=
  Forall (λ p, p_state p = SLEEPING → p_chan p ≠ Some ChTicks) ps.

Lemma awakened_none i ps : no_tick_sleeper ps → imap (awakened (Some i) (Some ChTicks)) ps = ps.
Proof.
  intros H. apply list_eq. intros j. rewrite list_lookup_imap.
  destruct (ps !! j) as [p|] eqn:E; [|done]. simpl. f_equal.
  unfold no_tick_sleeper in H. rewrite Forall_lookup in H. specialize (H j p E).
  unfold awakened. repeat case_bool_decide; naive_solver.
Qed.

Lemma away_run_bind {A B} (m : K A) (f : A → K B) s a s' s'' :
  returns m s a s' → f a [] s' = Away s'' → (m ≫= f) [] s = Away s''.
Proof. apply run_bind. Qed.

(** The tick of hart 0, when no process waits for it. *)
Lemma returns_tick i s :
  quiet s → unlocked LkTicks s → curproc s = Some i → no_tick_sleeper (k_procs s) →
  returns (when (k_hart s =? 0)%nat clockintr) s tt (set_k_ticks (clock (k_hart s) (k_ticks s)) s).
Proof.
  intros Hq Ht Hc Hns. unfold when, clock. destruct (k_hart s =? 0)%nat.
  - pose proof (returns_clockintr s Hq Ht) as H1. rewrite Hc, awakened_none in H1 by done.
    replace (set_k_procs (k_procs s) (set_k_ticks _ s)) with
      (set_k_ticks (u32 (k_ticks s + 1)) s) in H1 by (by destruct s). done.
  - replace (set_k_ticks (k_ticks s) s) with s by (by destruct s). apply returns_ret.
Qed.

(** The process is charged for the tick and gives up the CPU. *)
Lemma charged_away i p s :
  running i p s → unlocked LkMlfq s →
  (mlfq_check_timer ;; yield) [] s = Away (locked (LkProc i)
    (put_proc i (yielded (ticked p)) (set_k_mlfq_ticks (u64 (k_mlfq_ticks s + 1)) s))).
Proof.
  intros Hrun Hm. pose proof Hrun as (Hq & Hp & Hc & Hcpu).
  eapply away_run_bind; [apply (returns_mlfq_check_timer i p s); done|].
  set (s2 := set_k_mlfq_ticks _ _).
  assert (running i (ticked p) s2) as Hrun2 by (by eapply (running_put i p)).
  rewrite (yield_switches i (ticked p) s2) by done.
  eapply run_bind_away. destruct Hcpu as (c & Hcpu & Hn).
  erewrite (sched_switches i (yielded (ticked p)) _ c); [|by eapply running_put| |done].
  - unfold mbind, K_bind, swtch. f_equal. f_equal. subst s2.
    unfold put_proc, set_k_procs; simpl. by rewrite list_insert_insert_eq.
  - simpl. done.
Qed.

Lemma timer_trap_away i p s :
  running i p s → unlocked LkTicks s → unlocked LkMlfq s →
  no_tick_sleeper (k_procs s) →
  timer_trap [] s = Away (locked (LkProc i)
    (put_proc i (yielded (ticked p))
       (set_k_mlfq_ticks (u64 (k_mlfq_ticks s + 1))
          (set_k_ticks (clock (k_hart s) (k_ticks s)) s)))).
Proof.
  intros Hrun Ht Hm Hns. pose proof Hrun as (Hq & _ & Hc & _).
  unfold timer_trap. eapply away_run_bind; [apply returns_gets|].
  eapply away_run_bind; [by apply (returns_tick i)|].
  exact (charged_away i p (set_k_ticks (clock (k_hart s) (k_ticks s)) s) Hrun Hm).
Qed.

Lemma cpu_bound_run i p s c :
  quiet s → unlocked LkTicks s → unlocked LkMlfq s → no_tick_sleeper (k_procs s) →
  curproc s = Some i → k_procs s !! i = Some p →
  k_cpus s !! k_hart s = Some c → c_noff c = 0%Z →
  cpu_bound (locked (LkProc i) s) = locked (LkProc i)
    (put_proc i (yielded (ticked p))
       (set_k_mlfq_ticks (u64 (k_mlfq_ticks s + 1))
          (set_k_ticks (clock (k_hart s) (k_ticks s)) (resume_intr false s)))).
Proof.
  intros Hq Ht Hm Hns Hc Hp Hcpu Hn. unfold cpu_bound.
  set (s1 := resume_intr false s).
  assert (ready s1) as Hr1 by (apply resume_intr_ready; eauto).
  pose proof (on_cpu_lookup (λ c, set_c_sie false (set_c_intena false c)) _ _ Hcpu) as Hcpu1.
  assert (running i p s1) as Hrun.
  { split_and!; [by destruct Hq as (_ & ? & ?)|done| |].
    - unfold curproc, s1, resume_intr. rewrite Hcpu1. simpl. rewrite <- Hc.
      unfold curproc. by rewrite Hcpu.
    - eexists. split; [exact Hcpu1|done]. }
  enough (run_slice [] (locked (LkProc i) s) = Away (locked (LkProc i)
    (put_proc i (yielded (ticked p)) (set_k_mlfq_ticks (u64 (k_mlfq_ticks s + 1))
      (set_k_ticks (clock (k_hart s) (k_ticks s)) s1))))) as -> by done.
  unfold run_slice.
  eapply away_run_bind.
  { apply returns_this_proc; [eauto with kernel|by rewrite curproc_locked]. }
  eapply away_run_bind; [by eapply returns_restore_intena|].
  eapply away_run_bind; [apply returns_release; eauto with kernel|].
  eapply (away_run_bind _ _ _ tt s1).
  { unfold intr_off. intros e. erewrite returns_upd_cpu by done. f_equal.
    by eapply on_cpu_same. }
  exact (timer_trap_away i p s1 Hrun Ht Hm Hns).
Qed.

Lemma boosted_chan p : p_state (boosted p) = p_state p ∧ p_chan (boosted p) = p_chan p.
Proof. unfold boosted. by repeat case_match. Qed.

Lemma no_tick_sleeper_boost_checked s :
  no_tick_sleeper (k_procs s) → no_tick_sleeper (k_procs (boost_checked s)).
Proof.
  unfold boost_checked, no_tick_sleeper. case_match; [|done]. cbn.
  rewrite Forall_fmap. apply Forall_impl. cbn. intros p.
  by destruct (boosted_chan p) as [-> ->].
Qed.

(** Back in the scheduler thread, which forgets the process and unlocks it. *)
Lemma returns_scheduler_back i s :
  ready s → unlocked (LkProc i) s →
  returns (set_cpu_proc (k_hart s) None ;; release (LkProc i)) (locked (LkProc i) s) tt
    (on_cpu (set_c_proc None) s).
Proof.
  intros Hr Hu. eapply returns_bind; [by apply set_cpu_proc_locked|].
  apply returns_release; [|done]. destruct Hr as (c & Hc & Hset).
  exists (set_c_proc None c). split; [by apply (on_cpu_lookup (set_c_proc None))|done].
Qed.

Lemma quiet_set_proc o s : quiet s → quiet (on_cpu (set_c_proc o) s).
Proof.
  intros ((c & Hc & Hset) & Hu & Hlen). split_and!; [|done|done].
  exists (set_c_proc o c). split; [by apply (on_cpu_lookup (set_c_proc o))|done].
Qed.

(** The table and the clocks after a round in which process [i] used a tick. *)
Definition round_to (i : nat) (p : proc) (s1 s' : kstate) : Prop :=
  k_procs s' = <[i := used_slice p]> (k_procs s1) ∧
  k_mlfq_ticks s' = u64 (k_mlfq_ticks s1 + 1) ∧
  k_ticks s' = clock (k_hart s1) (k_ticks s1) ∧
  k_locks s' = k_locks s1 ∧ k_hart s' = k_hart s1.

(** A dispatched CPU-bound process, and the return to the scheduler thread. *)
Lemma dispatch_round i p s1 c e :
  quiet s1 → unlocked LkTicks s1 → unlocked LkMlfq s1 → no_tick_sleeper (k_procs s1) →
  k_procs s1 !! i = Some p → k_cpus s1 !! k_hart s1 = Some c → c_noff c = 0%Z →
  ∃ s', (swtch ;; set_cpu_proc (k_hart s1) None ;; release (LkProc i)) (cpu_bound :: e)
          (locked (LkProc i) (dispatch i p s1)) = Ok tt e s' ∧
    scheduling s' ∧ round_to i p s1 s'.
Proof.
  intros Hq Ht Hm Hns Hp Hc Hn. set (sd := dispatch i p s1).
  assert (k_cpus sd !! k_hart sd = Some (set_c_proc (Some i) c)) as Hcd.
  { by apply (on_cpu_lookup (set_c_proc (Some i))). }
  assert (quiet sd) as Hqd.
  { destruct Hq as ((c' & Hc' & ?) & ? & ?). simplify_eq.
    split_and!; [eexists; split; [exact Hcd|done]|done|].
    unfold sd, dispatch, put_proc. simpl. by rewrite length_insert. }
  assert (no_tick_sleeper (k_procs sd)) as Hnsd.
  { unfold no_tick_sleeper, sd, dispatch, put_proc. simpl. by apply Forall_insert. }
  assert (curproc sd = Some i) as Hcur by (unfold curproc; by rewrite Hcd).
  assert (k_procs sd !! i = Some (dispatched p)) as Hpd.
  { by apply (put_proc_lookup i _ (on_cpu _ s1)), (lookup_lt_Some (k_procs s1) i p). }
  pose proof (cpu_bound_run i (dispatched p) sd _ Hqd Ht Hm Hnsd Hcur Hpd Hcd Hn) as Hrun.
  set (s2 := put_proc i _ _) in Hrun. eexists. split_and!.
  - unfold mbind at 1, K_bind at 1, swtch. rewrite Hrun.
    apply (returns_scheduler_back i s2); [|eauto with kernel].
    apply resume_intr_ready. by exists (set_c_proc (Some i) c).
  - destruct Hqd as (_ & Hlk & Hl). split_and!; [done..| |].
    + simpl. by rewrite length_insert.
    + eexists. split; [apply (on_cpu_lookup (set_c_proc None) s2),
        (on_cpu_lookup (λ c, set_c_sie false (set_c_intena false c)) sd), Hcd|exact Hn].
  - split_and!; [|done..]. simpl. by rewrite list_insert_insert_eq.
Qed.

Lemma scheduler_round s e i :
  scheduling s → no_tick_sleeper (k_procs s) →
  let s1 := boost_checked (resume_intr true s) in
  pick (k_procs s1) = Some i →
  ∃ p s', k_procs s1 !! i = Some p ∧
    scheduler_iter (k_hart s) (cpu_bound :: e) s = Ok tt e s' ∧
    scheduling s' ∧ round_to i p s1 s'.
Proof.
  intros Hs Hns s1 Hpick.
  pose proof (scheduler_iter_switches s (cpu_bound :: e) Hs) as Hit.
  cbv zeta in Hit. fold s1 in Hit. rewrite Hpick in Hit. destruct Hit as (p & Hp & ->).
  exists p. pose proof Hs as (Hlk & Ht & Hm & Hl & c & Hc & Hn).
  assert (k_locks s1 = k_locks s) as Hlocks by (by unfold s1; rewrite boost_checked_locks).
  assert (k_hart s1 = k_hart s) as Hhart by (by unfold s1; rewrite boost_checked_hart).
  rewrite <- Hhart.
  edestruct (dispatch_round i p s1) as (s' & ? & ? & ?); [..|by exists s'].
  - by apply quiet_boost_checked, scheduling_resume_quiet.
  - unfold unlocked. by rewrite Hlocks.
  - unfold unlocked. by rewrite Hlocks.
  - by apply no_tick_sleeper_boost_checked.
  - done.
  - unfold s1. rewrite boost_checked_cpus, boost_checked_hart.
    by apply (on_cpu_lookup (λ c, set_c_sie true (set_c_intena true c))).
  - done.
Qed.

(** ** After a boost every runnable process gets its turn *)

(** A process at the start of a slice in the highest queue. *)
Definition fresh (p : proc) : Prop := p_priority p = 0%Z ∧ p_ticks_used p = 0%Z.

Definition all_fresh (ps : list proc) : Prop :=
  Forall (λ p, p_state p = RUNNABLE → fresh p) ps.

(** A runnable process has had one tick of CPU. *)
Definition sweep (_ : nat) (p : proc) : proc :=
  if bool_decide (p_state p = RUNNABLE) then used_slice p else p.

Lemma used_slice_state p : p_state (used_slice p) = RUNNABLE.
Proof. done. Qed.

Lemma used_slice_fresh p : fresh p → p_priority (used_slice p) = 1%Z.
Proof.
  intros [H1 H2]. unfold used_slice, yielded, demoted, ticked, dispatched. simpl.
  by rewrite H1, H2.
Qed.

Lemma slots_done_lookup k f ps i :
  slots_done k f ps !! i = (λ p, if decide (i < k) then f i p else p) <$> ps !! i.
Proof. unfold slots_done. by rewrite list_lookup_imap. Qed.

(** The search finds the first process that has not had its turn. *)
Lemma pick_swept t ps i p :
  all_fresh ps → t ≤ i → ps !! i = Some p → p_state p = RUNNABLE →
  (∀ j q, t ≤ j < i → ps !! j = Some q → p_state q ≠ RUNNABLE) →
  pick (slots_done t sweep ps) = Some i.
Proof.
  intros Hf Hti Hp Hr Hno. unfold all_fresh in Hf. rewrite Forall_lookup in Hf.
  unfold pick. change levels with [0; 1; 2]%Z. simpl.
  assert (first_at (slots_done t sweep ps) 0 = Some i) as ->; [|done].
  apply first_at_Some. exists p. rewrite slots_done_lookup, Hp. cbn [fmap option_fmap option_map].
  rewrite decide_False by lia. split_and!; [done..|by apply (Hf i p)|].
  intros j q Hq Hrq Hpq. destruct (le_lt_dec i j) as [|Hji]; [done|exfalso].
  rewrite slots_done_lookup in Hq. destruct (ps !! j) as [q0|] eqn:Hq0; [|done].
  cbn [fmap option_fmap option_map] in Hq. injection Hq as <-. case_decide.
  - unfold sweep in *. case_bool_decide; [|done].
    rewrite used_slice_fresh in Hpq by (by apply (Hf j q0)). done.
  - by apply (Hno j q0); [lia|..].
Qed.

Lemma slots_done_skip t i ps p :
  t ≤ i → ps !! i = Some p → p_state p = RUNNABLE →
  (∀ j q, t ≤ j < i → ps !! j = Some q → p_state q ≠ RUNNABLE) →
  <[i := used_slice p]> (slots_done t sweep ps) = slots_done (S i) sweep ps.
Proof.
  intros Hti Hp Hr Hno. apply list_eq. intros j.
  destruct (decide (j = i)) as [->|Hne].
  - rewrite list_lookup_insert_eq, slots_done_lookup, Hp.
    + cbn [fmap option_fmap option_map]. rewrite decide_True by lia. unfold sweep.
      by rewrite bool_decide_eq_true_2.
    + unfold slots_done. rewrite length_imap. by eapply lookup_lt_Some.
  - rewrite list_lookup_insert_ne, !slots_done_lookup by done.
    destruct (ps !! j) as [q|] eqn:Hq; [|done]. cbn [fmap option_fmap option_map]. f_equal.
    repeat case_decide; try done; try lia. unfold sweep.
    rewrite bool_decide_eq_false_2; [done|]. apply (Hno j q); [lia|done].
Qed.

(** The number of processes from entry [t] on that can run. *)
Definition runnable_from (t : nat) (ps : list proc) : nat :=
  length (filter (λ p, p_state p = RUNNABLE) (drop t ps)).

Lemma runnable_from_0 t ps :
  runnable_from t ps = 0 → slots_done t sweep ps = slots_done (length ps) sweep ps.
Proof.
  intros H0. apply list_eq. intros i. rewrite !slots_done_lookup.
  destruct (ps !! i) as [p|] eqn:Hp; [|done]. cbn [fmap option_fmap option_map]. f_equal.
  pose proof (lookup_lt_Some _ _ _ Hp).
  rewrite (decide_True (P := i < length ps)) by done. case_decide; [done|].
  unfold sweep. rewrite bool_decide_eq_false_2; [done|]. intros Hr.
  apply nil_length_inv in H0. apply (not_elem_of_nil p). rewrite <- H0.
  apply list_elem_of_filter. split; [done|]. apply list_elem_of_lookup. exists (i - t).
  rewrite lookup_drop. by replace (t + (i - t)) with i by lia.
Qed.

Lemma runnable_from_S t n ps :
  runnable_from t ps = S n →
  ∃ i p, t ≤ i ∧ ps !! i = Some p ∧ p_state p = RUNNABLE ∧ runnable_from (S i) ps = n ∧
    (∀ j q, t ≤ j < i → ps !! j = Some q → p_state q ≠ RUNNABLE).
Proof.
  remember (length ps - t) as m eqn:Hm. revert t Hm. induction m as [|m IH]; intros t Hm.
  - unfold runnable_from. rewrite drop_ge by lia. done.
  - destruct (lookup_lt_is_Some_2 ps t) as [p Hp]; [lia|]. unfold runnable_from.
    rewrite (drop_S _ p) by done. rewrite filter_cons. case_decide as Hr.
    + intros [= Hn]. exists t, p. split_and!; [done..|]. intros; lia.
    + intros Hn. destruct (IH (S t)) as (i & q & ? & Hq & ? & ? & Hno); [lia|done|].
      exists i, q. split_and!; [lia|done..|]. intros j r Hj Hrj.
      destruct (decide (j = t)) as [->|]; [by simplify_eq|]. apply (Hno j r); [lia|done].
Qed.

Lemma boost_checked_resume ie s :
  k_procs (boost_checked (resume_intr ie s)) = k_procs (boost_checked s) ∧
  k_mlfq_ticks (boost_checked (resume_intr ie s)) = k_mlfq_ticks (boost_checked s).
Proof. unfold boost_checked, resume_intr, on_cpu. simpl. by case_match. Qed.

Lemma boost_not_due s : (k_mlfq_ticks s < BOOST_INTERVAL)%Z → boost_checked s = s.
Proof. intros. unfold boost_checked. case_match; [|done]. unfold BOOST_INTERVAL in *. lia. Qed.

Lemma no_tick_sleeper_round i p s1 s' :
  no_tick_sleeper (k_procs s1) → round_to i p s1 s' → no_tick_sleeper (k_procs s').
Proof. intros H (-> & _). unfold no_tick_sleeper. by apply Forall_insert. Qed.

(** With CPU-bound processes only, each further round runs the next process of
    the table, until all that could run have had a tick. *)
Lemma sweep_rounds n k t s ps e :
  scheduling s → no_tick_sleeper (k_procs s) → all_fresh ps → length ps = NPROC →
  k_procs (boost_checked s) = slots_done t sweep ps →
  runnable_from t ps = n →
  (0 ≤ k_mlfq_ticks (boost_checked s))%Z →
  (k_mlfq_ticks (boost_checked s) + Z.of_nat n < BOOST_INTERVAL)%Z →
  ∃ s', for_each (seq k n) (λ _, scheduler_iter (k_hart s)) (replicate n cpu_bound ++ e) s
          = Ok tt e s' ∧
    scheduling s' ∧ k_procs (boost_checked s') = imap sweep ps ∧
    (0 < n → boost_checked s' = s').
Proof.
  revert k t s. induction n as [|n IH]; intros k t s Hs Hns Hf Hl Hps Hn H0 H1.
  - exists s. split_and!; [done..| |lia]. rewrite Hps, runnable_from_0 by done.
    by apply slots_done_all.
  - destruct (boost_checked_resume true s) as [Hps1 Hmt1].
    apply runnable_from_S in Hn as (i & p & Hti & Hp & Hr & Hn & Hno).
    destruct (scheduler_round s (replicate n cpu_bound ++ e) i) as (p' & s' & Hp' & Hit & Hs' & Hto);
      [done..| |].
    { rewrite Hps1, Hps. by eapply pick_swept. }
    assert (p' = p) as ->.
    { rewrite Hps1, Hps, slots_done_lookup, Hp in Hp'.
      cbn [fmap option_fmap option_map] in Hp'. rewrite decide_False in Hp' by lia. congruence. }
    pose proof Hto as (Hps' & Hmt' & _ & _ & Hh').
    rewrite Hps1, Hps, slots_done_skip in Hps' by done.
    rewrite Hmt1, u64_small in Hmt' by (unfold is_u64, BOOST_INTERVAL in *; lia).
    rewrite boost_checked_hart in Hh'. cbn in Hh'.
    assert (boost_checked s' = s') as Hb by (apply boost_not_due; lia).
    destruct (IH (S k) (S i) s') as (s'' & Hrun & ? & ? & Hb''); [done| |done|done|..].
    { eapply no_tick_sleeper_round; [|exact Hto]. by apply no_tick_sleeper_boost_checked. }
    { by rewrite Hb. } { done. } { rewrite Hb. lia. } { rewrite Hb. lia. }
    exists s''. split_and!; [|done..|].
    + simpl. eapply run_bind_ok; [exact Hit|]. by rewrite <- Hh'.
    + intros _. destruct n; [|apply Hb''; lia]. cbn in Hrun. injection Hrun as <-. exact Hb.
Qed.

Lemma boosted_fresh p : p_state p ≠ UNUSED → fresh (boosted p).
Proof. intros. unfold boosted. rewrite bool_decide_eq_true_2 by done. done. Qed.

Lemma all_fresh_boosted ps : all_fresh (boosted <$> ps).
Proof.
  unfold all_fresh. apply Forall_fmap, Forall_true. intros p. cbn.
  destruct (boosted_chan p) as [-> _]. intros Hr. apply boosted_fresh. by rewrite Hr.
Qed.

Lemma boosted_stats p :
  p_num_scheduled (boosted p) = p_num_scheduled p ∧ p_ticks_total (boosted p) = p_ticks_total p.
Proof. unfold boosted. by repeat case_match. Qed.

Lemma used_slice_stats p :
  p_num_scheduled (used_slice p) = i32 (p_num_scheduled p + 1) ∧
  p_ticks_total (used_slice p) = i32 (p_ticks_total p + 1).
Proof. unfold used_slice, yielded, demoted. by repeat case_match. Qed.

Lemma runnable_from_le t ps : runnable_from t ps ≤ length ps.
Proof.
  unfold runnable_from. etransitivity; [apply length_filter|]. rewrite length_drop. lia.
Qed.

Lemma runnable_boosted ps : runnable_from 0 (boosted <$> ps) = runnable_from 0 ps.
Proof.
  unfold runnable_from. rewrite !drop_0. induction ps as [|p ps IH]; [done|].
  rewrite fmap_cons, !filter_cons. destruct (boosted_chan p) as [-> _].
  case_decide; simpl; by rewrite IH.
Qed.

(** ** A process that keeps the CPU *)

Lemma solo_rounds n k i p s e :
  scheduling s → no_tick_sleeper (k_procs s) → k_procs s !! i = Some p →
  (0 ≤ k_mlfq_ticks s)%Z → (k_mlfq_ticks s + Z.of_nat n ≤ BOOST_INTERVAL)%Z →
  (∀ m, m < n → pick (<[i := Nat.iter m used_slice p]> (k_procs s)) = Some i) →
  ∃ s', for_each (seq k n) (λ _, scheduler_iter (k_hart s)) (replicate n cpu_bound ++ e) s
          = Ok tt e s' ∧
    scheduling s' ∧ k_procs s' = <[i := Nat.iter n used_slice p]> (k_procs s) ∧
    k_mlfq_ticks s' = (k_mlfq_ticks s + Z.of_nat n)%Z.
Proof.
  revert k p s. induction n as [|n IH]; intros k p s Hs Hns Hp H0 H1 Hpick.
  - exists s. split_and!; [done..| |lia]. simpl. by rewrite list_insert_id.
  - destruct (boost_checked_resume true s) as [Hps1 Hmt1].
    rewrite (boost_not_due s) in Hps1, Hmt1 by lia.
    destruct (scheduler_round s (replicate n cpu_bound ++ e) i) as (p' & s' & Hp' & Hit & Hs' & Hto);
      [done..| |].
    { rewrite Hps1. specialize (Hpick 0 ltac:(lia)). simpl in Hpick.
      by rewrite list_insert_id in Hpick. }
    assert (p' = p) as -> by (rewrite Hps1 in Hp'; congruence).
    pose proof Hto as (Hps' & Hmt' & _ & _ & Hh'). rewrite Hps1 in Hps'.
    rewrite Hmt1, u64_small in Hmt' by (unfold is_u64, BOOST_INTERVAL in *; lia).
    rewrite boost_checked_hart in Hh'. cbn in Hh'.
    destruct (IH (S k) (used_slice p) s') as (s'' & Hrun & Hs'' & Hps'' & Hmt''); [done|..].
    + eapply no_tick_sleeper_round; [|exact Hto]. by apply no_tick_sleeper_boost_checked.
    + rewrite Hps'. apply list_lookup_insert_eq. by eapply lookup_lt_Some.
    + lia.
    + lia.
    + intros m Hm. rewrite Hps', list_insert_insert_eq, <- Nat.iter_succ_r.
      apply Hpick. lia.
    + exists s''. split_and!; [|done| |lia].
      * simpl. eapply run_bind_ok; [exact Hit|]. by rewrite <- Hh'.
      * rewrite Hps'', Hps', list_insert_insert_eq. by rewrite Nat.iter_succ_r.
Qed.

(** The queue and the ticks of the current slice of a process that has computed
    for [n] ticks since it was at the top. *)
Definition level_after (n : nat) : Z := if (n <? 1)%nat then 0 else if (n <? 3)%nat then 1 else 2.
Definition ticks_after (n : nat) : Z :=
  if (n <? 1)%nat then 0 else if (n <? 3)%nat then Z.of_nat n - 1 else (Z.of_nat n - 3) mod 4.

Lemma used_slice_levels p :
  p_priority (used_slice p) = p_priority (demoted (ticked p)) ∧
  p_ticks_used (used_slice p) = p_ticks_used (demoted (ticked p)).
Proof. unfold used_slice, yielded, demoted; simpl. by repeat case_match. Qed.

Lemma iter_used_slice_levels n p :
  fresh p →
  p_priority (Nat.iter n used_slice p) = level_after n ∧
  p_ticks_used (Nat.iter n used_slice p) = ticks_after n.
Proof.
  intros [Hpr Htk]. induction n as [|n [IH1 IH2]]; [done|]. rewrite Nat.iter_succ.
  set (q := Nat.iter n used_slice p) in *. clearbody q.
  destruct (used_slice_levels q) as [-> ->].
  destruct n as [|[|[|n]]].
  1-3: unfold demoted, ticked; simpl; by rewrite IH1, IH2.
  assert (level_after (S (S (S n))) = 2%Z) as E by done. rewrite E in IH1. clear E.
  assert (ticks_after (S (S (S n))) = (Z.of_nat n mod 4)%Z) as E.
  { unfold ticks_after. simpl. f_equal. lia. }
  rewrite E in IH2. clear E.
  assert (ticks_after (S (S (S (S n)))) = ((Z.of_nat n + 1) mod 4)%Z) as ->.
  { unfold ticks_after. simpl. f_equal. lia. }
  assert (level_after (S (S (S (S n)))) = 2%Z) as -> by done.
  pose proof (Z.mod_pos_bound (Z.of_nat n) 4 ltac:(lia)) as Hb.
  unfold demoted, ticked; simpl. rewrite IH1, IH2. cbn [get_time_slice].
  rewrite i32_small by (unfold is_i32; lia). unfold MLFQ_TICKS_2.
  destruct (4 <=? Z.of_nat n mod 4 + 1)%Z eqn:E; simpl; rewrite ?IH1.
  - split; [done|]. rewrite <- Zplus_mod_idemp_l.
    replace (Z.of_nat n mod 4 + 1)%Z with 4%Z by lia. done.
  - split; [done|]. rewrite <- Zplus_mod_idemp_l. symmetry. apply Z.mod_small. lia.
Qed.

Lemma iter_used_slice_state n p :
  p_state p = RUNNABLE → p_state (Nat.iter n used_slice p) = RUNNABLE.
Proof. destruct n; done. Qed.

Lemma iter_used_slice_lowest n p :
  p_priority p = 2%Z → p_priority (Nat.iter n used_slice p) = 2%Z.
Proof.
  intros H. induction n as [|n IH]; [done|]. rewrite Nat.iter_succ.
  destruct (used_slice_levels (Nat.iter n used_slice p)) as [-> _].
  unfold demoted, ticked. simpl. rewrite IH. by case_match; simpl.
Qed.
