(* ===== verification/MlfqProps.v ===== *)
(** * Correctness of the scheduler

    The properties of the MLFQ scheduler: which process it runs, when a process
    is demoted and boosted, and what its guarantees are worth to CPU-bound
    processes. *)

From S2P Require Import Prelude Data State Spinlock Table Mlfq MlfqFacts MlfqSys.

(** ** Facts about table entries *)

Lemma boosted_prio_ok p : prio_ok p → prio_ok (boosted p).
Proof. unfold boosted, prio_ok, NMLFQ. repeat case_match; simpl; lia. Qed.

Lemma prio_ok_boost_checked s :
  Forall prio_ok (k_procs s) → Forall prio_ok (k_procs (boost_checked s)).
Proof.
  unfold boost_checked. case_match; [|done]. cbn. rewrite Forall_fmap.
  apply Forall_impl. apply boosted_prio_ok.
Qed.

(** ** Concrete states, for the examples *)

Definition runnable_at (pid priority : Z) : proc :=
  set_p_priority priority (set_p_pid pid (set_p_state RUNNABLE zero_proc)).

(** Processes in entries 3 and 5, both at the given level. *)
Definition two_procs (priority : Z) : kstate :=
  with_procs [(3, runnable_at 7 priority); (5, runnable_at 9 priority)] initial_kstate.

(** Hart 0 runs the process in entry 3. *)
Definition running_three (p : proc) : kstate :=
  on_cpu (set_c_proc (Some 3)) (with_procs [(3, set_p_state RUNNING p)] initial_kstate).

Lemma quiet_initial ps s :
  length ps = NPROC → s = set_k_procs ps initial_kstate → quiet s.
Proof.
  intros Hl ->. split_and!; [|done|done]. exists zero_cpu.
  split; [done|]. unfold cpu_settled. simpl. split_and!; [lia|lia|done].
Qed.

Lemma scheduling_initial ps s :
  length ps = NPROC → s = set_k_procs ps initial_kstate → scheduling s.
Proof. intros Hl ->. split_and!; [done..|]. by exists zero_cpu. Qed.

Lemma scheduling_two_procs priority : scheduling (two_procs priority).
Proof. by apply (scheduling_initial (k_procs (two_procs priority))). Qed.

Lemma prio_ok_two_procs priority :
  (0 ≤ priority < NMLFQ)%Z → Forall prio_ok (k_procs (two_procs priority)).
Proof.
  intros H. apply with_procs_Forall; [done|].
  repeat (apply Forall_cons; [exact H|]). done.
Qed.


Lemma running_running_three p : running 3 (set_p_state RUNNING p) (running_three p).
Proof.
  split_and!; [|done|done|by exists (set_c_proc (Some 3) zero_cpu)].
  split_and!; [|done|done]. exists (set_c_proc (Some 3) zero_cpu). split; [done|].
  unfold cpu_settled. simpl. split_and!; [lia|lia|done].
Qed.

(** ** Which process runs *)

(** The outcome of an iteration of the loop from [s]. *)
Definition dispatches_best (s : kstate) (o : outcome unit) : Prop :=
  match o with
  | Away s' => ∃ i p,
      best (k_procs (boost_checked s)) i ∧ k_procs (boost_checked s) !! i = Some p ∧
      k_procs s' = <[i := set_p_num_scheduled (i32 (p_num_scheduled p + 1))
                            (set_p_state RUNNING p)]> (k_procs (boost_checked s)) ∧
      curproc s' = Some i ∧ k_locks s' = <[LkProc i := k_hart s]> (k_locks s)
  | Ok _ _ s' =>
      (∀ j q, k_procs s' !! j = Some q → p_state q ≠ RUNNABLE) ∧
      k_procs s' = k_procs (boost_checked s) ∧ k_locks s' = k_locks s
  | _ => False
  end.

(** C2: an iteration of the scheduler loop never panics, spins or faults.  It
    switches to the runnable process of the highest nonempty queue, the first in
    table order among equals, marks it running and counts the dispatch, and holds
    exactly that process's lock at the switch; when no process is runnable it
    comes around with no lock held.  The table searched is the one after the
    periodic boost, if that was due. *)
Theorem scheduler_runs_best (s : kstate) :
  scheduling s → Forall prio_ok (k_procs s) →
  dispatches_best s (scheduler_iter (k_hart s) [] s).
Proof.
  intros Hs Hok. pose proof (scheduler_iter_switches s [] Hs) as H. cbv zeta in H.
  destruct (boost_checked_resume true s) as [Hps _]. rewrite Hps in H.
  pose proof (prio_ok_boost_checked _ Hok) as Hok'.
  set (s1 := boost_checked (resume_intr true s)) in *.
  assert (k_locks s1 = k_locks s) as Hlk by (by unfold s1; rewrite boost_checked_locks).
  assert (k_hart s1 = k_hart s) as Hh by (by unfold s1; rewrite boost_checked_hart).
  destruct (pick (k_procs (boost_checked s))) as [i|] eqn:Hpick.
  - destruct H as (p & Hp & ->).
    change (dispatches_best s (Away (locked (LkProc i) (dispatch i p s1)))).
    exists i, p. split_and!.
    + by apply pick_best.
    + done.
    + by rewrite <- Hps.
    + rewrite curproc_locked. unfold curproc. destruct Hs as (_ & _ & _ & _ & c & Hc & _).
      simpl. rewrite list_lookup_alter_eq. unfold s1.
      rewrite boost_checked_cpus, boost_checked_hart. simpl.
      by rewrite list_lookup_alter_eq, Hc.
    + simpl. by rewrite Hlk, Hh.
  - rewrite H. rewrite <- Hps in Hpick, Hok'. split_and!; [|done|done]. by apply pick_None.
Qed.

Lemma scheduler_runs_best_witness :
  dispatches_best (two_procs 1) (scheduler_iter 0 [] (two_procs 1)) ∧
  match scheduler_iter 0 [] (two_procs 1) with Away s' => curproc s' = Some 3 | _ => False end.
Proof.
  split; [|by vm_compute].
  apply (scheduler_runs_best (two_procs 1)); [apply scheduling_two_procs|].
  by apply prio_ok_two_procs.
Defined.

(** ** Demotion *)

(** C4: [yield], called by a running process that holds no lock, gives up the CPU
    without panicking, holding exactly the lock of its process, which becomes
    runnable.  The queue changes if and only if the time slice of its queue is
    used up: then the process moves one queue down, unless it is in the lowest,
    its slice starts anew, and the demotion is counted. *)
Theorem yield_demotes (i : nat) (p : proc) (s : kstate) :
  running i p s → prio_ok p →
  ∃ p' s', yield [] s = Away s' ∧
    k_procs s' = <[i := p']> (k_procs s) ∧ k_locks s' = <[LkProc i := k_hart s]> (k_locks s) ∧
    p_state p' = RUNNABLE ∧ p_pid p' = p_pid p ∧ p_ticks_total p' = p_ticks_total p ∧
    if decide (p_ticks_used p < get_time_slice (p_priority p))%Z then
      p_priority p' = p_priority p ∧ p_ticks_used p' = p_ticks_used p ∧
      p_num_demoted p' = p_num_demoted p
    else
      p_priority p' = Z.min (p_priority p + 1) (NMLFQ - 1) ∧ p_ticks_used p' = 0%Z ∧
      p_num_demoted p' = if decide (p_priority p = NMLFQ - 1)%Z then p_num_demoted p
                         else i32 (p_num_demoted p + 1).
Proof.
  intros Hrun Hok. pose proof Hrun as (_ & _ & _ & c & Hc & _).
  exists (yielded p), (locked (LkProc i) (put_proc i (yielded p) s)). split.
  { rewrite (yield_switches i p) by done. apply run_bind_away.
    erewrite (sched_switches i (yielded p) _ c); [done|by eapply running_put|done|done]. }
  split; [done|]. split; [done|]. unfold yielded, demoted.
  unfold prio_ok, NMLFQ in *. case_decide as Hlt; simpl.
  - replace (get_time_slice (p_priority p) <=? p_ticks_used p)%Z with false by lia. done.
  - replace (get_time_slice (p_priority p) <=? p_ticks_used p)%Z with true by lia.
    destruct (p_priority p <? 3 - 1)%Z eqn:E; simpl.
    + rewrite decide_False by lia. rewrite i32_small by (unfold is_i32; lia).
      split_and!; done || lia.
    + rewrite decide_True by lia. split_and!; done || lia.
Qed.

Lemma yield_demotes_witness :
  ∃ p' s', yield [] (running_three (set_p_ticks_used 1 zero_proc)) = Away s' ∧
    k_procs s' !! 3 = Some p' ∧ p_priority p' = 1%Z.
Proof.
  destruct (yield_demotes 3 _ _ (running_running_three (set_p_ticks_used 1 zero_proc)))
    as (p' & s' & Hy & Hps & _ & _ & _ & _ & Hd); [by unfold prio_ok, NMLFQ|].
  exists p', s'. split_and!; [done| |by destruct Hd].
  rewrite Hps. apply list_lookup_insert_eq. simpl. lia.
Defined.

(** ** Boost *)

(** C5: the boost test of the scheduler loop.  Below the interval it changes
    nothing.  Once [BOOST_INTERVAL] ticks have been charged it restarts the
    count, records the time, and puts every process that is in use at the start of a
    slice in the highest queue, counting a boost for those that were lower.  Unused
    entries, all other fields of the entries, and all other variables stay as they
    were, the locks among them. *)
Theorem boost_resets_all (s : kstate) :
  quiet s → unlocked LkTicks s → unlocked LkMlfq s →
  ∃ s', returns check_boost s tt s' ∧
    if decide (k_mlfq_ticks s < BOOST_INTERVAL)%Z then s' = s else
      s' = set_k_procs (k_procs s') (set_k_last_boost_tick (i32 (k_ticks s)) (set_k_mlfq_ticks 0 s)) ∧
      length (k_procs s') = length (k_procs s) ∧
      ∀ i p, k_procs s !! i = Some p → k_procs s' !! i = Some
        (if decide (p_state p = UNUSED) then p else
         let boosts := if decide (0 < p_priority p)%Z then i32 (p_num_boosted p + 1) else p_num_boosted p in
         set_p_num_boosted boosts (set_p_ticks_used 0 (set_p_priority 0 p))).
Proof.
  intros Hq Ht Hm. exists (boost_checked s). split; [by apply returns_check_boost|].
  case_decide; [by apply boost_not_due|].
  unfold boost_checked. replace (BOOST_INTERVAL <=? k_mlfq_ticks s)%Z with true by lia.
  split_and!; [done|cbn; by rewrite length_fmap|].
  intros i p Hp. cbn. rewrite list_lookup_fmap, Hp. cbn. f_equal.
  unfold boosted. case_bool_decide; case_decide; try done.
  case_decide; destruct (0 <? p_priority p)%Z eqn:E; try lia; by destruct p.
Qed.

Lemma boost_resets_all_witness :
  ∃ s', returns check_boost (set_k_mlfq_ticks 100 (two_procs 2)) tt s' ∧
    p_priority <$> (k_procs s' !! 5) = Some 0%Z.
Proof.
  destruct (boost_resets_all (set_k_mlfq_ticks 100 (two_procs 2))) as (s' & Hr & Hd); [|done|done|].
  - by apply (quiet_initial (k_procs (two_procs 2)) (two_procs 2)).
  - exists s'. split; [done|]. rewrite decide_False in Hd by (vm_compute; congruence).
    destruct Hd as (_ & _ & Hp). by rewrite (Hp 5 (runnable_at 9 2) eq_refl).
Defined.



(** ** Processes that keep computing *)




Lemma pick_only ps i p :
  ps !! i = Some p → p_state p = RUNNABLE → prio_ok p →
  (∀ j q, ps !! j = Some q → p_state q = RUNNABLE → j = i) → pick ps = Some i.
Proof.
  intros Hp Hr Hok Honly. unfold pick. change levels with [0; 1; 2]%Z.
  assert (∀ l, first_at ps l = if decide (p_priority p = l) then Some i else None) as Hf.
  { intros l. case_decide as E.
    - apply first_at_Some. exists p. split_and!; [done..|]. intros j q Hq Hrq _.
      by rewrite (Honly j q).
    - apply first_at_None. intros j q Hq Hrq. assert (j = i) as -> by eauto. by simplify_eq. }
  simpl. rewrite !Hf. destruct (prio_ok_cases p Hok) as [->|[->| ->]]; done.
Qed.

Lemma level_after_range n : (0 ≤ level_after n < NMLFQ)%Z.
Proof. unfold level_after, NMLFQ. repeat case_match; lia. Qed.

(** C13: a lone CPU-bound process, not killed, that starts a slice at the top sinks through the
    queues as the time slices 1, 2 and 4 prescribe: after [n] ticks without a boost it is
    in queue 0 if [n = 0], in queue 1 if [n < 3] and in queue 2 from then on, and has
    used 0, [n - 1] and [(n - 3) mod 4] ticks of its current slice. *)
Theorem cpu_bound_sinks (n i : nat) (p : proc) (s : kstate) :
  scheduling s → no_tick_sleeper (k_procs s) → k_procs s !! i = Some p →
  p_state p = RUNNABLE → fresh p →
  (∀ j q, k_procs s !! j = Some q → p_state q = RUNNABLE → j = i) →
  (0 ≤ k_mlfq_ticks s)%Z → (k_mlfq_ticks s + Z.of_nat n ≤ BOOST_INTERVAL)%Z →
  ∃ s' p', for_each (seq 0 n) (λ _, scheduler_iter (k_hart s)) (replicate n cpu_bound) s
             = Ok tt [] s' ∧
    k_procs s' !! i = Some p' ∧ p_priority p' = level_after n ∧ p_ticks_used p' = ticks_after n.
Proof.
  intros Hs Hns Hp Hr Hf Honly H0 H1. pose proof (lookup_lt_Some _ _ _ Hp) as Hlt.
  destruct (solo_rounds n 0 i p s []) as (s' & Hrun & _ & Hps & _); [done..| |].
  - intros m Hm. eapply (pick_only _ _ (Nat.iter m used_slice p)).
    + by apply list_lookup_insert_eq.
    + by apply iter_used_slice_state.
    + unfold prio_ok. destruct (iter_used_slice_levels m p Hf) as [-> _].
      apply level_after_range.
    + intros j q Hq Hrq. destruct (decide (i = j)) as [|]; [done|].
      rewrite list_lookup_insert_ne in Hq by done. by eapply Honly.
  - rewrite app_nil_r in Hrun. exists s', (Nat.iter n used_slice p).
    split_and!; [done| |by apply iter_used_slice_levels..].
    rewrite Hps. by apply list_lookup_insert_eq.
Qed.

(** A single process, in entry 3. *)
Definition one_proc : kstate := with_procs [(3, runnable_at 7 0)] initial_kstate.

Lemma one_proc_only j q : k_procs one_proc !! j = Some q → p_state q = RUNNABLE → j = 3.
Proof.
  intros Hq Hr. destruct (decide (j = 3)) as [|Hne]; [done|]. exfalso.
  change (k_procs one_proc) with (<[3 := runnable_at 7 0]> (replicate NPROC zero_proc)) in Hq.
  rewrite list_lookup_insert_ne in Hq by done.
  apply lookup_replicate in Hq as [-> _]. done.
Qed.

Lemma cpu_bound_sinks_witness :
  ∃ s' p', for_each (seq 0 9) (λ _, scheduler_iter 0) (replicate 9 cpu_bound) one_proc
             = Ok tt [] s' ∧ k_procs s' !! 3 = Some p' ∧ p_priority p' = 2%Z ∧ p_ticks_used p' = 2%Z.
Proof.
  destruct (cpu_bound_sinks 9 3 (runnable_at 7 0) one_proc) as (s' & p' & Hrun & ? & ? & ?).
  - by apply (scheduling_initial (k_procs one_proc)).
  - apply (with_procs_Forall (λ p, p_state p = SLEEPING → p_chan p ≠ Some ChTicks)); [done|].
    by apply Forall_cons.
  - done.
  - done.
  - done.
  - apply one_proc_only.
  - done.
  - done.
  - exists s', p'. split; [exact Hrun|]. split_and!; assumption.
Defined.

(** ** Operations on other processes *)

(** C15: [setprocpriority] succeeds exactly when the priority names a queue and
    some entry in use has the pid.  On success it moves the first such entry to that queue
    with a new slice and changes nothing else; on failure it returns -1 and
    changes nothing.  Every process stays in one of the queues. *)
Theorem setprocpriority_correct (pid priority : Z) (s : kstate) :
  quiet s → Forall prio_ok (k_procs s) →
  ∃ r s', returns (setprocpriority pid priority) s r s' ∧ Forall prio_ok (k_procs s') ∧
    ((r = 0%Z ∧ (0 ≤ priority < NMLFQ)%Z ∧
      ∃ i p, k_procs s !! i = Some p ∧ p_pid p = pid ∧ p_state p ≠ UNUSED ∧
        s' = put_proc i (set_p_ticks_used 0 (set_p_priority priority p)) s) ∨
     (r = (-1)%Z ∧ s' = s ∧
      ((0 ≤ priority < NMLFQ)%Z →
       ∀ i p, k_procs s !! i = Some p → p_pid p = pid → p_state p = UNUSED))).
Proof.
  intros Hq Hok. destruct (decide (0 ≤ priority < NMLFQ)%Z) as [Hpr|Hpr].
  - pose proof (setprocpriority_spec pid priority s Hq ltac:(unfold NMLFQ in Hpr; lia)) as H.
    destruct (list_find _ _) as [[i p]|] eqn:E.
    + apply list_find_Some in E as (Hp & [? ?] & _).
      eexists _, _. split; [exact H|]. split.
      * simpl. by apply Forall_insert.
      * left. split_and!; [done|lia|lia|]. by exists i, p.
    + eexists _, _. split; [exact H|]. split; [done|]. right. split_and!; [done..|].
      intros _ i p Hp Hpid. apply list_find_None in E. rewrite Forall_lookup in E.
      specialize (E i p Hp). destruct (decide (p_state p = UNUSED)); naive_solver.
  - exists (-1)%Z, s. split; [apply setprocpriority_invalid; unfold NMLFQ in Hpr; lia|].
    split; [done|]. right. split_and!; [done..|lia].
Qed.

Lemma setprocpriority_correct_witness :
  ∃ r s', returns (setprocpriority 9 2) (two_procs 0) r s' ∧ r = 0%Z ∧
    p_priority <$> k_procs s' !! 5 = Some 2%Z.
Proof.
  destruct (setprocpriority_correct 9 2 (two_procs 0)) as (r & s' & Hr & _ & Hd).
  - by apply (quiet_initial (k_procs (two_procs 0))).
  - by apply prio_ok_two_procs.
  - exists r, s'. split; [exact Hr|]. specialize (Hr []). vm_compute in Hr.
    injection Hr as <- <-. done.
Defined.

(** C16: [kill] marks the first entry with the given pid as killed, makes it
    runnable if it was asleep, and changes nothing else; it returns -1 exactly
    when no entry has the pid. *)
Theorem kill_correct (pid : Z) (s : kstate) :
  quiet s →
  ∃ r s', returns (kill pid) s r s' ∧
    ((r = 0%Z ∧ ∃ i p p', k_procs s !! i = Some p ∧ p_pid p = pid ∧
        (∀ j q, j < i → k_procs s !! j = Some q → p_pid q ≠ pid) ∧
        s' = put_proc i p' s ∧ p_killed p' = 1%Z ∧
        p_state p' = (if decide (p_state p = SLEEPING) then RUNNABLE else p_state p) ∧
        set_p_state (p_state p) (set_p_killed (p_killed p) p') = p) ∨
     (r = (-1)%Z ∧ s' = s ∧ ∀ i p, k_procs s !! i = Some p → p_pid p ≠ pid)).
Proof.
  intros Hq. pose proof (kill_spec pid s Hq) as H. destruct (list_find _ _) as [[i p]|] eqn:E.
  - apply list_find_Some in E as (Hp & Hpid & Hj). eexists _, _. split; [exact H|]. left.
    split; [done|]. exists i, p, (killed_proc p). split_and!; [done..| | | | |].
    + intros j q Hlt Hq'. by apply (Hj j q).
    + done.
    + unfold killed_proc. by case_bool_decide.
    + unfold killed_proc. by case_bool_decide; case_decide.
    + unfold killed_proc. case_bool_decide; by destruct p.
  - eexists _, _. split; [exact H|]. right. split_and!; [done..|].
    intros i p Hp. apply list_find_None in E. rewrite Forall_lookup in E. by apply (E i p).
Qed.

Lemma kill_correct_witness :
  ∃ r s', returns (kill 9) (two_procs 0) r s' ∧ r = 0%Z ∧
    p_killed <$> k_procs s' !! 5 = Some 1%Z.
Proof.
  destruct (kill_correct 9 (two_procs 0)) as (r & s' & Hr & _).
  - by apply (quiet_initial (k_procs (two_procs 0))).
  - exists r, s'. split; [exact Hr|]. specialize (Hr []). vm_compute in Hr.
    injection Hr as <- <-. done.
Defined.

(** ** Sleep and wakeup *)

(** C14: [wakeup] makes runnable exactly the processes asleep on the channel,
    the caller excepted; their queue and the ticks of their slice stay, so that a process
    that blocks keeps its priority. *)
Theorem wakeup_exact (ch : option chan) (s : kstate) :
  quiet s →
  ∃ s', returns (wakeup ch) s tt s' ∧ k_locks s' = k_locks s ∧ k_cpus s' = k_cpus s ∧
    ∀ i p, k_procs s !! i = Some p → ∃ p', k_procs s' !! i = Some p' ∧
      p' = set_p_state (p_state p') p ∧
      p_state p' = if decide (p_state p = SLEEPING ∧ p_chan p = ch ∧ curproc s ≠ Some i)
                   then RUNNABLE else p_state p.
Proof.
  intros Hq. eexists. split; [by apply returns_wakeup|]. split_and!; [done..|].
  intros i p Hp. cbn. rewrite list_lookup_imap, Hp. eexists. split; [done|].
  unfold awakened. repeat case_bool_decide; simpl; split; try (by destruct p);
    case_decide; naive_solver.
Qed.

(** Entry 3 sleeps on the clock. *)
Definition sleeper : kstate :=
  with_procs [(3, set_p_chan (Some ChTicks) (set_p_state SLEEPING zero_proc))] initial_kstate.

Lemma wakeup_exact_witness :
  ∃ s', returns (wakeup (Some ChTicks)) sleeper tt s' ∧
    p_state <$> k_procs s' !! 3 = Some RUNNABLE.
Proof.
  destruct (wakeup_exact (Some ChTicks) sleeper) as (s' & Hr & _ & _ & Hp).
  - by apply (quiet_initial (k_procs sleeper)).
  - exists s'. split; [exact Hr|].
    destruct (Hp 3 _ eq_refl) as (p' & -> & _ & Hst). simpl. f_equal.
    rewrite decide_True in Hst; done.
Defined.

(** A waker on hart [h], as the kernel's code has it: it calls [wakeup] with the lock [lk] of the
    condition held. *)
Definition waker (ch : chan) (lk : lockid) : K unit := acquire lk ;; wakeup (Some ch) ;; release lk.

(** A waker that runs on hart [h] at this point has to wait for a lock; if it could go through
    instead, the outcome is [Fault]. *)
Definition waker_waits (h : nat) (ch : chan) (lk : lockid) : K unit := λ e s,
  match waker ch lk [] (set_k_hart h s) with Spin _ => Ok tt e s | _ => Fault end.

(** A lock operation with this check after it. *)
Definition watched (h : nat) (ch : chan) (lk : lockid) (op : lockid → K unit) (l : lockid) : K unit :=
  op l ;; waker_waits h ch lk.

(** [wakeup] stops at an entry whose lock another hart holds. *)
Lemma wakeup_blocked_from ch i k n s :
  ready s → k_locks s !! LkProc i ≠ None → k_locks s !! LkProc i ≠ Some (k_hart s) →
  (∀ j, j ≠ i → unlocked (LkProc j) s) → curproc s ≠ Some i → length (k_procs s) = NPROC →
  k ≤ i < k + n → k + n ≤ NPROC →
  for_each (seq k n) (wakeup_slot ch) [] s = Spin (LkProc i).
Proof.
  revert k s. induction n as [|n IH]; intros k s Hr Hl Hne Hu Hc Hlen Hk Hn; [lia|]. cbn [seq for_each].
  destruct (decide (k = i)) as [->|Hki].
  - apply run_bind_spin. unfold wakeup_slot. eapply run_bind; [by apply returns_myproc|].
    unfold when. rewrite bool_decide_eq_true_2 by congruence.
    destruct (k_locks s !! LkProc i) as [h|] eqn:E; [|done].
    apply run_bind_spin, (acquire_spins _ _ h); [done|done|congruence].
  - destruct (lookup_lt_is_Some_2 (k_procs s) k) as [p Hp]; [lia|].
    eapply run_bind; [apply returns_wakeup_slot; [done|by apply Hu|done]|].
    apply IH; try done; [|lia|lia]. cbn. by rewrite length_insert.
Qed.

Lemma waker_waits_for_proc ch lk i h c s :
  k_cpus s !! h = Some c → cpu_settled c → c_proc c ≠ Some i → unlocked lk s → (∀ j, lk ≠ LkProc j) →
  h ≠ k_hart s → k_locks s !! LkProc i = Some (k_hart s) → (∀ j, j ≠ i → unlocked (LkProc j) s) →
  length (k_procs s) = NPROC → i < NPROC →
  waker ch lk [] (set_k_hart h s) = Spin (LkProc i).
Proof.
  intros Hc Hset Hnc Hu Hlk Hh Hl Hus Hlen Hi. set (s1 := set_k_hart h s).
  assert (ready s1) as Hr by (by exists c).
  unfold waker. eapply run_bind; [by apply returns_acquire|]. apply run_bind_spin.
  assert (k_locks (locked lk s1) !! LkProc i = Some (k_hart s)) as Hl1.
  { cbn. rewrite lookup_insert_ne; [done|apply Hlk]. }
  apply wakeup_blocked_from; [by apply ready_locked| | | | |done|lia|done].
  - by rewrite Hl1.
  - rewrite Hl1. cbn. congruence.
  - intros j Hj. apply unlocked_locked; [apply not_eq_sym, Hlk|by apply Hus].
  - rewrite curproc_locked. unfold curproc. cbn. by rewrite Hc.
Qed.

Lemma waker_waits_for_lock ch lk h h' c s :
  k_cpus s !! h = Some c → cpu_settled c → k_locks s !! lk = Some h' → h' ≠ h →
  waker ch lk [] (set_k_hart h s) = Spin lk.
Proof.
  intros Hc Hset Hl Hne. apply run_bind_spin, (acquire_spins _ _ h'); [by exists c|done|done].
Qed.

Lemma run_watched h ch lk op l e s s' lk' :
  returns (op l) s tt s' → waker ch lk [] (set_k_hart h s') = Spin lk' →
  watched h ch lk op l e s = Ok tt e s'.
Proof. intros Hop Hw. unfold watched. eapply run_bind; [exact Hop|]. unfold waker_waits. by rewrite Hw. Qed.
Lemma other_cpu f h s : h ≠ k_hart s → k_cpus (on_cpu f s) !! h = k_cpus s !! h.
Proof. intros Hh. cbn. by apply list_lookup_alter_ne, not_eq_sym. Qed.

Lemma locked_other_cpu lk h s : h ≠ k_hart s → k_cpus (locked lk s) !! h = k_cpus s !! h.
Proof. apply (other_cpu cpu_enter). Qed.

(** [sleep] up to the switch, with a waker that is kept waiting after each lock operation. *)
Lemma watched_sleep_switches i p ch lk h c s :
  running i p s → unlocked lk s → (∀ j, lk ≠ LkProc j) →
  h ≠ k_hart s → k_cpus s !! h = Some c → cpu_settled c → c_proc c ≠ Some i →
  sleep_with (watched h ch lk acquire) (watched h ch lk release) ch lk [] (locked lk s)
  = Away (locked (LkProc i) (put_proc i (asleep ch p) s)).
Proof.
  intros Hrun Hu Hlk Hh Hc Hset Hnc. pose proof Hrun as (Hq & Hp & Hcur & c0 & Hcpu & Hn).
  pose proof Hq as (Hr & Hus & Hlen). unfold sleep_with.
  eapply run_bind; [apply returns_this_proc; [by apply ready_locked|by rewrite curproc_locked]|].
  eapply run_bind_ok.
  { eapply run_watched.
    - apply returns_acquire; [by apply ready_locked|]. apply unlocked_locked; [by apply not_eq_sym|done].
    - apply (waker_waits_for_lock _ _ _ (k_hart s) c); [|done| |by apply not_eq_sym].
      + by rewrite !locked_other_cpu.
      + cbn. rewrite lookup_insert_ne by (apply not_eq_sym, Hlk). apply lookup_insert_eq. }
  eapply run_bind_ok.
  { eapply run_watched; [by apply returns_release_outer|].
    apply (waker_waits_for_proc _ _ i h c); try done.
    - by rewrite locked_other_cpu.
    - apply unlocked_locked; [apply Hlk|done].
    - apply lookup_insert_eq.
    - intros j Hj. apply unlocked_locked; [congruence|apply Hus].
    - rewrite <- Hlen. by eapply lookup_lt_Some. }
  krun. krun. krun. apply run_bind_away.
  erewrite (sched_switches i (asleep ch p) _ c0); [done|by eapply running_put|done|done].
Qed.

(** The waker completes once the scheduler has let go of the sleeping process. *)
Lemma waker_wakes i p ch lk h c s :
  quiet s → k_procs s !! i = Some p → p_state p = SLEEPING → p_chan p = Some ch →
  unlocked lk s → (∀ j, lk ≠ LkProc j) → k_cpus s !! h = Some c → cpu_settled c → c_proc c ≠ Some i →
  ∃ s', returns (waker ch lk) (set_k_hart h s) tt s' ∧ k_procs s' !! i = Some (set_p_state RUNNABLE p).
Proof.
  intros (Hr & Hus & Hlen) Hp Hst Hch Hu Hlk Hc Hset Hnc. set (s1 := set_k_hart h s).
  assert (quiet s1) as Hq1 by (split_and!; [by exists c|done|done]).
  exists (set_k_procs (imap (awakened (curproc s1) (Some ch)) (k_procs s1)) s1). split.
  - unfold waker. eapply returns_bind; [apply returns_acquire; [apply Hq1|done]|].
    eapply returns_bind; [apply returns_wakeup, quiet_locked; [intros j; apply not_eq_sym, Hlk|done]|].
    rewrite curproc_locked. apply returns_release_from; [done|apply Hq1|done].
  - cbn. rewrite list_lookup_imap, Hp. cbn. unfold awakened. rewrite Hst, Hch, !bool_decide_eq_true_2; [done|done|done|].
    unfold curproc. cbn. rewrite Hc. cbn. congruence.
Qed.

(** C7: no wakeup is lost.  Another hart tries, after each operation of [sleep] on a lock, to run
    a waker, which takes [lk], calls [wakeup] on the channel and releases [lk].  As long as
    [sleep] has not reached the switch, the waker waits: first for [lk], and after the
    release of [lk] for the lock of the process.  At the switch the process is asleep on
    the channel with its slice reset, and [lk] is free; once the scheduler has released the
    lock of the process, the waker goes through and makes it runnable. *)
Theorem sleep_no_lost_wakeup (i : nat) (p : proc) (ch : chan) (lk : lockid) (h : nat) (c : cpu) (s : kstate) :
  running i p s → unlocked lk s → (∀ j, lk ≠ LkProc j) →
  h ≠ k_hart s → k_cpus s !! h = Some c → cpu_settled c → c_proc c ≠ Some i →
  let p' := set_p_state SLEEPING (set_p_chan (Some ch) (set_p_ticks_used 0 p)) in
  ∃ s' s2 s3, sleep ch lk [] (locked lk s) = Away s' ∧
    sleep_with (watched h ch lk acquire) (watched h ch lk release) ch lk [] (locked lk s) = Away s' ∧
    k_procs s' = <[i := p']> (k_procs s) ∧ unlocked lk s' ∧
    returns (set_cpu_proc (k_hart s) None ;; release (LkProc i)) s' tt s2 ∧
    returns (waker ch lk) (set_k_hart h s2) tt s3 ∧
    k_procs s3 !! i = Some (set_p_state RUNNABLE p').
Proof.
  intros Hrun Hu Hlk Hh Hc Hset Hnc p'. pose proof Hrun as (Hq & Hp & _ & c0 & Hcpu & _).
  set (s1 := put_proc i p' s). set (s2 := on_cpu (set_c_proc None) s1).
  assert (quiet s1) as Hq1 by (by apply quiet_put_proc). assert (ready s1) as Hr1 by apply Hq1.
  assert (i < length (k_procs s)) as Hi by (by eapply lookup_lt_Some).
  destruct (waker_wakes i p' ch lk h c s2) as (s3 & Hw & Hp3); try done.
  - by apply quiet_set_proc.
  - by apply put_proc_lookup.
  - unfold s2. by rewrite other_cpu.
  - exists (locked (LkProc i) s1), s2, s3. split_and!; [|by eapply watched_sleep_switches|done| | |done|done].
    + rewrite (sleep_switches i p) by done. apply run_bind_away.
      erewrite (sched_switches i p' _ c0); [done|by eapply running_put|done|done].
    + apply unlocked_locked; done.
    + exact (returns_scheduler_back i s1 Hr1 (proj1 (proj2 Hq1) i)).
Qed.

Lemma sleep_no_lost_wakeup_witness :
  ∃ s' s2 s3, sleep ChTicks LkTicks [] (locked LkTicks (running_three zero_proc)) = Away s' ∧
    returns (set_cpu_proc 0 None ;; release (LkProc 3)) s' tt s2 ∧
    returns (waker ChTicks LkTicks) (set_k_hart 1 s2) tt s3 ∧
    p_state <$> (k_procs s3 !! 3) = Some RUNNABLE.
Proof.
  destruct (sleep_no_lost_wakeup 3 _ ChTicks LkTicks 1 zero_cpu _ (running_running_three zero_proc))
    as (s' & s2 & s3 & Hs & _ & _ & _ & H2 & H3 & Hp); [done..|].
  exists s', s2, s3. split_and!; [done|done|done|]. by rewrite Hp.
Defined.
