(* ===== verification/Uart.v ===== *)
(** * The UART driver ([kernel/uart.c]) and kernel output ([kernel/printf.c])

    The device is a memory-mapped 16550: a write to THR is appended to [u_out], a
    read of RHR takes the next byte of [u_rx], and a test of [LSR_TX_IDLE] takes
    the next answer of [u_polls]. *)

From S2P Require Import Prelude Bytes Data State Spinlock Mlfq.

Local Open Scope Z_scope.

(** ** Registers *)

Definition upd_uart (f : uart → uart) : K unit := modify (λ s, set_k_uart (f (k_uart s)) s).

(** [WriteReg(THR, c)] *)
Definition write_thr (c : Z) : K unit := upd_uart (λ u, set_u_out (u8 c :: u_out u) u).

(** [ReadReg(LSR) & LSR_TX_IDLE] *)
Definition tx_idle : K bool :=
  u ← gets k_uart;
  match u_polls u with
  | [] => mret true
  | b :: l => upd_uart (set_u_polls l) ;; mret b
  end.

(** The answers left after the device has been found idle. *)
Fixpoint after_idle (l : list bool) : list bool :=
  match l with
  | [] => []
  | b :: l' => if b then l' else after_idle l'
  end.

(** ** Output *)

(** [for(;;) ;] *)
Definition spin_forever {A} : K A := no_fuel.

Definition uartputc_sync (c : Z) : K unit :=
  push_off ;;
  panicked ← gets k_panicked;
  if (panicked : bool) then spin_forever else
  upd_uart (λ u, set_u_polls (after_idle (u_polls u)) u) ;;
  write_thr c ;;
  pop_off.

(** The loop of [uartstart]; each iteration that does not return sends a byte of the
    [u64 (w - r)] that are waiting. *)
Fixpoint uartstart_loop (fuel : nat) : K unit :=
  u ← gets k_uart;
  if u_tx_w u =? u_tx_r u then mret tt else
  match fuel with
  | O => no_fuel
  | S fuel' =>
      idle ← tx_idle;
      if negb idle then mret tt else
      c ← index (u_tx_buf u) (u_tx_r u mod UART_TX_BUF_SIZE);
      upd_uart (λ u, set_u_tx_r (u64 (u_tx_r u + 1)) u) ;;
      wakeup (Some ChUartTx) ;;
      write_thr c ;;
      uartstart_loop fuel'
  end.

Definition uartstart : K unit :=
  u ← gets k_uart;
  uartstart_loop (Z.to_nat (u64 (u_tx_w u - u_tx_r u))).

(** [while(uart_tx_w == uart_tx_r + UART_TX_BUF_SIZE) sleep(...)] *)
Fixpoint uart_wait_space (fuel : nat) : K unit :=
  match fuel with
  | O => no_fuel
  | S fuel' =>
      u ← gets k_uart;
      if u_tx_w u =? u64 (u_tx_r u + UART_TX_BUF_SIZE)
      then sleep ChUartTx LkUart ;; uart_wait_space fuel'
      else mret tt
  end.

Definition uartputc (c : Z) : K unit :=
  acquire LkUart ;;
  panicked ← gets k_panicked;
  if (panicked : bool) then spin_forever else
  sleep_loop uart_wait_space ;;
  u ← gets k_uart;
  let i := u_tx_w u mod UART_TX_BUF_SIZE in
  _ ← index (u_tx_buf u) i;
  upd_uart (λ u, set_u_tx_buf (<[Z.to_nat i := u8 c]> (u_tx_buf u)) u) ;;
  upd_uart (λ u, set_u_tx_w (u64 (u_tx_w u + 1)) u) ;;
  uartstart ;;
  release LkUart.

(** ** Input *)

Definition uartgetc : K Z :=
  u ← gets k_uart;
  match u_rx u with
  | [] => mret (-1)
  | c :: l => upd_uart (set_u_rx l) ;; mret (u8 c)
  end.

(** ** [printf] *)

Definition BACKSPACE : Z := 0x100.

Definition consputc (c : Z) : K unit :=
  if c =? BACKSPACE then uartputc_sync 8 ;; uartputc_sync 32 ;; uartputc_sync 8
  else uartputc_sync c.

Definition digits : list Z := bytes "0123456789abcdef".

(** The digits of [x] from the lowest, stored in [buf[16]]. *)
Fixpoint int_digits (fuel : nat) (x base : Z) : option (list Z) :=
  match fuel with
  | O => None
  | S fuel' =>
      d ← digits !! Z.to_nat (x mod base);
      if x / base =? 0 then Some [d]
      else l ← int_digits fuel' (x / base) base; Some (d :: l)
  end.

Definition printint (xx base : Z) (sign : bool) : K unit :=
  let neg := sign && (xx <? 0) in
  let x := u32 (if neg then - xx else xx) in
  match int_digits (if neg then 15 else 16) x base with
  | None => fault
  | Some l => for_each (reverse (l ++ if neg then [chr "-"] else [])) consputc
  end.

Definition printptr (x : Z) : K unit :=
  consputc (chr "0") ;;
  consputc (chr "x") ;;
  for_each (seqZ 0 16) (λ i,
    d ← index digits (Z.shiftr (u64 (Z.shiftl x (4 * i))) 60);
    consputc d).

(** A variable argument. *)
Inductive arg := AInt (n : Z) | APtr (x : Z) | AStr (s : option (list Z)).

Fixpoint printf_loop (fmt : list Z) (ap : list arg) : K unit :=
  match fmt with
  | [] => mret tt
  | c :: fmt' =>
      if c =? 0 then mret tt else
      if negb (c =? chr "%") then consputc c ;; printf_loop fmt' ap else
      match fmt' with
      | [] => mret tt
      | c :: fmt'' =>
          if c =? 0 then mret tt else
          if c =? chr "d" then
            match ap with
            | AInt n :: ap' => printint n 10 true ;; printf_loop fmt'' ap'
            | _ => fault
            end
          else if c =? chr "x" then
            match ap with
            | AInt n :: ap' => printint n 16 true ;; printf_loop fmt'' ap'
            | _ => fault
            end
          else if c =? chr "p" then
            match ap with
            | APtr x :: ap' => printptr x ;; printf_loop fmt'' ap'
            | _ => fault
            end
          else if c =? chr "s" then
            match ap with
            | AStr s :: ap' =>
                for_each (cstr (default (bytes "(null)") s)) consputc ;;
                printf_loop fmt'' ap'
            | _ => fault
            end
          else if c =? chr "%" then consputc (chr "%") ;; printf_loop fmt'' ap
          else consputc (chr "%") ;; consputc c ;; printf_loop fmt'' ap
      end
  end.

Definition printf (fmt : string) (ap : list arg) : K unit :=
  locking ← gets k_pr_locking;
  when locking (acquire LkPr) ;;
  printf_loop (bytes fmt) ap ;;
  when locking (release LkPr).

(** A literal followed by a newline. *)
Definition newline : string := String (Ascii.ascii_of_nat 10) EmptyString.

Definition printfinit : K unit :=
  initlock LkPr ;;
  modify (set_k_pr_locking true).
