(* ===== verification/Proc.v ===== *)
(** * Process creation and destruction ([kernel/proc.c], [kernel/vm.c])

    The process table, the address space of a process, [wait], the copies between
    kernel and user memory, and the system calls that report on the table.  The
    functions that use the file system ([fork], [exit], [userinit]) are in
    [Process.v]. *)

From S2P Require Import Prelude Bytes Memory Riscv Data State Spinlock Csr Kalloc Vm Mlfq Uart.

Local Open Scope Z_scope.

(** ** The trapframe *)

(** Offsets in [struct trapframe], and its size. *)
Definition tf_kernel_satp : Z := 0.
Definition tf_kernel_sp : Z := 8.
Definition tf_kernel_trap : Z := 16.
Definition tf_epc : Z := 24.
Definition tf_kernel_hartid : Z := 32.
Definition tf_sp : Z := 48.
Definition tf_a0 : Z := 112.
Definition tf_a1 : Z := 120.
Definition tf_a7 : Z := 168.
Definition sizeof_trapframe : Z := 288.

(** [p->trapframe->field] *)
Definition get_tf (i : nat) (off : Z) : K Z :=
  p ← get_proc i;
  if p_trapframe p =? 0 then fault else load (p_trapframe p + off).
Definition set_tf (i : nat) (off v : Z) : K unit :=
  p ← get_proc i;
  if p_trapframe p =? 0 then fault else store (p_trapframe p + off) v.

(** An [int] in memory. *)
Definition load_int (a : Z) : K Z := gets (λ s, i32 (of_le (read_bytes (k_mem s) a 4))).
Definition store_int (a v : Z) : K unit := put_bytes a (le 4 v).

Section proc.
Context `{Image}.

(** ** The kernel's address space *)

Definition proc_mapstacks (kpgtbl : Z) : K unit :=
  for_each proc_slots (λ i,
    pa ← kalloc;
    if pa =? 0 then panic "kalloc" else
    kvmmap kpgtbl (KSTACK i) pa PGSIZE (Z.lor PTE_R PTE_W)).

(** A null [kpgtbl] is written to: the code does not test the result of [kalloc]. *)
Definition kvmmake : K Z :=
  kpgtbl ← kalloc;
  if kpgtbl =? 0 then fault else
  zero_page kpgtbl ;;
  kvmmap kpgtbl UART0 UART0 PGSIZE (Z.lor PTE_R PTE_W) ;;
  kvmmap kpgtbl VIRTIO0 VIRTIO0 PGSIZE (Z.lor PTE_R PTE_W) ;;
  kvmmap kpgtbl PLIC PLIC 0x400000 (Z.lor PTE_R PTE_W) ;;
  kvmmap kpgtbl KERNBASE KERNBASE (image_etext - KERNBASE) (Z.lor PTE_R PTE_X) ;;
  kvmmap kpgtbl image_etext image_etext (PHYSTOP - image_etext) (Z.lor PTE_R PTE_W) ;;
  kvmmap kpgtbl TRAMPOLINE image_trampoline PGSIZE (Z.lor PTE_R PTE_X) ;;
  proc_mapstacks kpgtbl ;;
  mret kpgtbl.

Definition kvminit : K unit :=
  pt ← kvmmake;
  modify (set_k_kernel_pagetable pt).

Definition kvminithart : K unit :=
  pt ← gets k_kernel_pagetable;
  w_satp (MAKE_SATP pt).

(** ** The process table *)

Definition procinit : K unit :=
  initlock LkPid ;;
  initlock LkWait ;;
  initlock LkMlfq ;;
  for_each proc_slots (λ i,
    initlock (LkProc i) ;;
    upd_proc i (set_p_state UNUSED) ;;
    upd_proc i (set_p_kstack (KSTACK i))).

Definition proc_pagetable (i : nat) : K Z :=
  pagetable ← uvmcreate;
  if pagetable =? 0 then mret 0 else
  r ← mappages pagetable TRAMPOLINE PGSIZE image_trampoline (Z.lor PTE_R PTE_X);
  if r <? 0 then
    uvmfree pagetable 0 ;;
    mret 0
  else
  p ← get_proc i;
  r ← mappages pagetable TRAPFRAME PGSIZE (p_trapframe p) (Z.lor PTE_R PTE_W);
  if r <? 0 then
    uvmunmap pagetable TRAMPOLINE 1 false ;;
    uvmfree pagetable 0 ;;
    mret 0
  else mret pagetable.

Definition proc_freepagetable (pagetable sz : Z) : K unit :=
  uvmunmap pagetable TRAMPOLINE 1 false ;;
  uvmunmap pagetable TRAPFRAME 1 false ;;
  uvmfree pagetable sz.

(** The assignments of [freeproc] after the memory has been freed. *)
Definition reset_proc (p : proc) : proc :=
  mkProc UNUSED None 0 0 0 None (p_kstack p) 0 0 (p_trapframe p) (p_context p)
    (p_ofile p) (p_cwd p) (<[0%nat := 0]> (p_name p)) 0 0 0 0 0 0 0.

Definition freeproc (i : nat) : K unit :=
  p ← get_proc i;
  when (negb (p_trapframe p =? 0)) (kfree (p_trapframe p)) ;;
  upd_proc i (set_p_trapframe 0) ;;
  p ← get_proc i;
  when (negb (p_pagetable p =? 0)) (proc_freepagetable (p_pagetable p) (p_sz p)) ;;
  upd_proc i reset_proc.

(** The search loop of [allocproc]: an unused entry, with its lock held. *)
Fixpoint find_unused (l : list nat) : K (option nat) :=
  match l with
  | [] => mret None
  | i :: l' =>
      acquire (LkProc i) ;;
      p ← get_proc i;
      if bool_decide (p_state p = UNUSED) then mret (Some i)
      else release (LkProc i) ;; find_unused l'
  end.

(** "new process starts at highest priority" *)
Definition init_mlfq (p : proc) : proc :=
  set_p_num_boosted 0 (set_p_num_demoted 0 (set_p_num_scheduled 0 (set_p_last_run_time 0
    (set_p_ticks_total 0 (set_p_ticks_used 0 (set_p_priority 0 p)))))).

Definition allocproc : K (option nat) :=
  found ← find_unused proc_slots;
  match found with
  | None => mret None
  | Some i =>
      pid ← allocpid;
      upd_proc i (set_p_pid pid) ;;
      upd_proc i (set_p_state USED) ;;
      tf ← kalloc;
      upd_proc i (set_p_trapframe tf) ;;
      if tf =? 0 then freeproc i ;; release (LkProc i) ;; mret None else
      pt ← proc_pagetable i;
      upd_proc i (set_p_pagetable pt) ;;
      if pt =? 0 then freeproc i ;; release (LkProc i) ;; mret None else
      upd_proc i (λ p, set_p_context
        (mkContext image_forkret (p_kstack p + PGSIZE) (replicate 12 0)) p) ;;
      upd_proc i init_mlfq ;;
      mret (Some i)
  end.

Definition growproc (n : Z) : K Z :=
  i ← this_proc;
  p ← get_proc i;
  let sz := p_sz p in
  if 0 <? n then
    sz ← uvmalloc (p_pagetable p) sz (u64 (sz + n)) PTE_W;
    if sz =? 0 then mret (-1) else
    upd_proc i (set_p_sz sz) ;;
    mret 0
  else if n <? 0 then
    sz ← uvmdealloc (p_pagetable p) sz (u64 (sz + n));
    upd_proc i (set_p_sz sz) ;;
    mret 0
  else
    upd_proc i (set_p_sz sz) ;;
    mret 0.

(** ** Waiting for children *)

(** [wakeup] of a process pointer *)
Definition wakeup_proc (p : option nat) : K unit := wakeup (ChProc <$> p).

Definition reparent (i : nat) : K unit :=
  for_each proc_slots (λ j,
    pp ← get_proc j;
    when (bool_decide (p_parent pp = Some i))
      (initproc ← gets k_initproc;
       upd_proc j (set_p_parent initproc) ;;
       initproc ← gets k_initproc;
       wakeup_proc initproc)).

(** The scan of [wait]: [inl] of the result, with the locks released, or [inr]
    of [havekids]. *)
Fixpoint wait_scan (l : list nat) (i : nat) (addr : Z) (havekids : bool) : K (Z + bool) :=
  match l with
  | [] => mret (inr havekids)
  | j :: l' =>
      pp ← get_proc j;
      if bool_decide (p_parent pp = Some i) then
        acquire (LkProc j) ;;
        pp ← get_proc j;
        if bool_decide (p_state pp = ZOMBIE) then
          let pid := p_pid pp in
          p ← get_proc i;
          r ← (if addr =? 0 then mret 0
               else copyout (p_pagetable p) addr (le 4 (p_xstate pp)));
          if r <? 0 then
            release (LkProc j) ;;
            release LkWait ;;
            mret (inl (-1))
          else
            freeproc j ;;
            release (LkProc j) ;;
            release LkWait ;;
            mret (inl pid)
        else
          release (LkProc j) ;;
          wait_scan l' i addr true
      else wait_scan l' i addr havekids
  end.

Fixpoint wait_loop (fuel : nat) (i : nat) (addr : Z) : K Z :=
  match fuel with
  | O => no_fuel
  | S fuel' =>
      r ← wait_scan proc_slots i addr false;
      match r with
      | inl v => mret v
      | inr havekids =>
          k ← (if (havekids : bool) then killed i else mret 1);
          if negb (k =? 0) then
            release LkWait ;;
            mret (-1)
          else
            sleep (ChProc i) LkWait ;;
            wait_loop fuel' i addr
      end
  end.

Definition wait (addr : Z) : K Z :=
  i ← this_proc;
  acquire LkWait ;;
  sleep_loop (λ fuel, wait_loop fuel i addr).

(** ** Copies to and from user or kernel memory

    [user_dst] and the address are a [place]; an object of the kernel that is
    not a page (a local variable, a buffer) is [AtKernelObject], its new contents
    being the bytes copied. *)

Inductive place := AtUser (va : Z) | AtPhys (pa : Z) | AtKernelObject.

Definition either_copyout (dst : place) (src : list Z) : K Z :=
  i ← this_proc;
  p ← get_proc i;
  match dst with
  | AtUser va => copyout (p_pagetable p) va src
  | AtPhys pa => put_bytes pa src ;; mret 0
  | AtKernelObject => mret 0
  end.

(** The source of [either_copyin]: an object's contents are given. *)
Inductive source := FromUser (va : Z) | FromPhys (pa : Z) | FromObject (l : list Z).

Definition either_copyin (src : source) (len : Z) : K (Z * list Z) :=
  i ← this_proc;
  p ← get_proc i;
  match src with
  | FromUser va => copyin (p_pagetable p) va len
  | FromPhys pa => l ← gets (λ s, read_bytes (k_mem s) pa (Z.to_nat len)); mret (0, l)
  | FromObject l => mret (0, take (Z.to_nat len) l)
  end.

(** ** Reports on the process table *)

Definition state_name (x : procstate) : list Z :=
  bytes (match x with
         | UNUSED => "unused" | USED => "used" | SLEEPING => "sleep "
         | RUNNABLE => "runble" | RUNNING => "run   " | ZOMBIE => "zombie"
         end).

Definition procdump : K unit :=
  printf newline [] ;;
  for_each proc_slots (λ i,
    p ← get_proc i;
    if bool_decide (p_state p = UNUSED) then mret tt else
    printf "%d %s %s" [AInt (p_pid p); AStr (Some (state_name (p_state p)));
                       AStr (Some (p_name p))] ;;
    printf newline []).

(** The local structure of [getprocinfo]; [name] is what the array holds before
    the entry is filled in. *)
Definition pinfo_entry (p : proc) (name : list Z) : list Z :=
  if bool_decide (p_state p = UNUSED) then
    le 4 0 ++ le 4 0 ++ le 4 0 ++ le 4 0 ++ le 4 0 ++ le 4 0 ++ <[0%nat := 0]> name
  else
    le 4 1 ++ le 4 (p_pid p) ++ le 4 (p_priority p) ++ le 4 (procstate_code (p_state p)) ++
    le 4 (p_ticks_used p) ++ le 4 (p_ticks_total p) ++ p_name p.

Definition sizeof_pinfo : Z := 40.

Fixpoint getprocinfo_loop (l : list nat) (pagetable addr : Z) (name : list Z) : K Z :=
  match l with
  | [] => mret 0
  | i :: l' =>
      acquire (LkProc i) ;;
      p ← get_proc i;
      let pinfo := pinfo_entry p name in
      release (LkProc i) ;;
      r ← copyout pagetable (u64 (addr + Z.of_nat i * sizeof_pinfo)) pinfo;
      if r <? 0 then mret (-1)
      else getprocinfo_loop l' pagetable addr (drop 24 pinfo)
  end.

Definition getprocinfo (addr : Z) : K Z :=
  i ← this_proc;
  p ← get_proc i;
  name ← uninit 16;
  getprocinfo_loop proc_slots (p_pagetable p) addr name.

(** *** [getpstat] *)

(** Offsets of the fields of [struct mlfq_stat] and [struct proc_stat]. *)
Definition ps_next_boost_in : Z := 8.
Definition ps_queue_count : Z := 12.
Definition ps_total : Z := 24.
Definition ps_running : Z := 28.
Definition ps_sleeping : Z := 32.
Definition ps_runnable : Z := 36.
Definition ps_procs : Z := 40.
Definition sizeof_proc_stat : Z := 60.
Definition sizeof_pstat : Z := ps_procs + Z.of_nat NPROC * sizeof_proc_stat.

(** The increment of an [int] in memory. *)
Definition incr_int (a : Z) : K unit := v ← load_int a; store_int a (i32 (v + 1)).

Definition pstat_slot (kstat : Z) (i : nat) : K unit :=
  let a := kstat + ps_procs + Z.of_nat i * sizeof_proc_stat in
  acquire (LkProc i) ;;
  p ← get_proc i;
  when (bool_decide (p_state p ≠ UNUSED))
    (ppid ← (match p_parent p with
             | Some j => pp ← get_proc j; mret (p_pid pp)
             | None => mret 0
             end);
     put_bytes a
       (le 4 1 ++ le 4 (p_pid p) ++ le 4 ppid ++ le 4 (procstate_code (p_state p)) ++
        le 4 (p_priority p) ++ le 4 (p_ticks_used p) ++ le 4 (p_ticks_total p) ++
        le 4 (if p_priority p =? 0 then MLFQ_TICKS_0
              else if p_priority p =? 1 then MLFQ_TICKS_1 else MLFQ_TICKS_2) ++
        le 4 (p_num_scheduled p) ++ le 4 (p_num_demoted p) ++ le 4 (p_num_boosted p) ++
        p_name p) ;;
     incr_int (kstat + ps_total) ;;
     when ((0 <=? p_priority p) && (p_priority p <? NMLFQ))
       (incr_int (kstat + ps_queue_count + 4 * p_priority p)) ;;
     match p_state p with
     | RUNNING => incr_int (kstat + ps_running)
     | SLEEPING => incr_int (kstat + ps_sleeping)
     | RUNNABLE => incr_int (kstat + ps_runnable)
     | _ => mret tt
     end) ;;
  release (LkProc i).

Definition getpstat (addr : Z) : K Z :=
  i ← this_proc;
  kstat ← kalloc;
  if kstat =? 0 then mret (-1) else
  modify (λ s, set_k_mem (memset (k_mem s) kstat 0 (Z.to_nat sizeof_pstat)) s) ;;
  acquire LkTicks ;;
  t ← gets k_ticks;
  store_int kstat t ;;
  b ← gets k_last_boost_tick;
  store_int (kstat + 4) b ;;
  release LkTicks ;;
  acquire LkMlfq ;;
  m ← gets k_mlfq_ticks;
  store_int (kstat + ps_next_boost_in) (BOOST_INTERVAL - m mod BOOST_INTERVAL) ;;
  release LkMlfq ;;
  for_each proc_slots (pstat_slot kstat) ;;
  p ← get_proc i;
  l ← gets (λ s, read_bytes (k_mem s) kstat (Z.to_nat sizeof_pstat));
  r ← copyout (p_pagetable p) addr l;
  if r <? 0 then
    kfree kstat ;;
    mret (-1)
  else
    kfree kstat ;;
    mret 0.

End proc.
