(* ===== verification/BootVm.v ===== *)
(** * The kernel's address space at start-up

    [kvmmake] of [vm.c] with [proc_mapstacks] of [proc.c]: none of the mappings
    overlaps another, and the tables they need are few enough for memory. *)

From S2P Require Import Prelude Memory Riscv Data State Spinlock Csr Kalloc Vm VmFacts VmOps Proc.

Local Open Scope Z_scope.

(** The layout that [kernel.ld] gives the image: the code ends on a page boundary and is
    followed by the data, the trampoline is in physical memory, and at least 160 pages are
    left for start-up. *)
Class ImageFits `{Image} : Prop := {
  etext_aligned : page_aligned image_etext;
  etext_range : KERNBASE < image_etext ≤ image_end;
  trampoline_range : 0 ≤ image_trampoline < PHYSTOP;
  image_room : PGROUNDUP image_end + 160 * PGSIZE ≤ PHYSTOP;
}.

(** ** Counting tables *)

Lemma length_values {I : Type} `{Countable I} (m : gmap I Z) (L : list I) :
  (∀ i, is_Some (m !! i) → i ∈ L) → (length (map_to_list m).*2 ≤ length L)%nat.
Proof.
  intros HL. rewrite length_fmap, <- (length_fmap fst). apply submseteq_length, NoDup_submseteq.
  - apply NoDup_fst_map_to_list.
  - intros i ([j x] & -> & Hin%elem_of_map_to_list)%list_elem_of_fmap. apply HL. by eexists.
Qed.

Lemma length_tables (D : Z → Prop) (M : list Z) (L : list (Z * Z)) t :
  tables_for D t → (∀ va, D va → PX 2 va ∈ M ∧ (PX 2 va, PX 1 va) ∈ L) →
  (length (pt_pages t) ≤ 1 + length M + length L)%nat.
Proof.
  intros [Hm Hl] HD. unfold pt_pages. cbn [length]. rewrite length_app.
  assert (length (map_to_list (pt_mids t)).*2 ≤ length M)%nat.
  { apply length_values. intros i (va & ? & ->)%Hm. by apply HD. }
  assert (length (map_to_list (pt_leafs t)).*2 ≤ length L)%nat; [|lia].
  apply length_values. intros i (va & ? & ->)%Hl. by apply HD.
Qed.

(** The addresses that the kernel maps; [VIRTIO0] is the page after [UART0]. *)
Definition kernel_va (va : Z) : Prop :=
  UART0 ≤ va < UART0 + 2 * PGSIZE ∨ PLIC ≤ va < PLIC + 0x400000 ∨ KERNBASE ≤ va < PHYSTOP ∨
  TRAMPOLINE - 128 * PGSIZE ≤ va < MAXVA.

Definition kernel_leafs : list (Z * Z) :=
  [(0, 128); (0, 96); (0, 97); (255, 511)] ++ (pair 2 <$> seqZ 0 64).

Lemma kernel_va_tables va :
  kernel_va va → PX 2 va ∈ [0; 2; 255] ∧ (PX 2 va, PX 1 va) ∈ kernel_leafs.
Proof.
  intros Hva. rewrite !PX_eq by lia.
  change (2 ^ PXSHIFT 2) with 1073741824. change (2 ^ PXSHIFT 1) with 2097152.
  unfold kernel_leafs. rewrite elem_of_app, list_elem_of_fmap. setoid_rewrite elem_of_seqZ.
  unfold kernel_va, UART0, PLIC, PHYSTOP, KERNBASE, TRAMPOLINE, PGSIZE in Hva.
  rewrite MAXVA_eq in Hva.
  destruct Hva as [Hva|[Hva|[Hva|Hva]]].
  - assert (va / 1073741824 mod 512 = 0) as -> by zdiv. split; [apply list_elem_of_here|left].
    assert (va / 2097152 mod 512 = 128) as -> by zdiv. apply list_elem_of_here.
  - assert (va / 1073741824 mod 512 = 0) as -> by zdiv. split; [apply list_elem_of_here|left].
    assert (va / 2097152 mod 512 = 96 ∨ va / 2097152 mod 512 = 97) as [->| ->] by zdiv; set_solver.
  - assert (va / 1073741824 mod 512 = 2) as -> by zdiv. split; [set_solver|right].
    exists (va / 2097152 mod 512). split; [done|zdiv].
  - assert (va / 1073741824 mod 512 = 255) as -> by zdiv. split; [set_solver|left].
    assert (va / 2097152 mod 512 = 511) as -> by zdiv. set_solver.
Qed.

(** What is mapped when [i] kernel stacks are. *)
Definition below_stacks (i : nat) (va : Z) : Prop :=
  va < PHYSTOP ∨ TRAMPOLINE - Z.of_nat i * 2 * PGSIZE ≤ va.

(** Ranges of the layout. *)
Ltac layout :=
  unfold vpage, page_aligned, kernel_va, below_stacks, PHYSTOP, TRAMPOLINE in *; rewrite ?MAXVA_eq in *;
  unfold KERNBASE, PGSIZE, PLIC, UART0, VIRTIO0 in *; try done; try lia; try zdiv.

Section kvm.
Context {Im : Image} {HIm : ImageOk}.

(** The kernel's table while it is being filled: entries in [P] only, and [n] pages that are
    free or tables. *)
Record kmap (P : Z → Prop) (n : nat) (s : kstate) (t : ptable) (l : list Z) : Prop := {
  kmap_heap : heap s t l;
  kmap_tables : tables_for kernel_va t;
  kmap_only : ∀ va, vpage va → ¬ P va → pte_of (k_mem s) t va = 0;
  kmap_pages : length (l ++ pt_pages t) = n;
}.

Lemma kmap_free P n s t l : kmap P n s t l → (n - 72 ≤ length l)%nat.
Proof.
  intros [_ Ht _ Hn]. rewrite length_app in Hn.
  pose proof (length_tables _ _ _ _ Ht kernel_va_tables) as Hlen.
  change (length kernel_leafs) with 68%nat in Hlen. cbn [length] in Hlen. lia.
Qed.

Lemma kmap_weaken (P Q : Z → Prop) n s t l :
  kmap P n s t l → (∀ va, P va → Q va) → kmap Q n s t l.
Proof. intros [] HPQ. split; try done. eauto. Qed.

(** A mapping outside [P]. *)
Lemma returns_kvmmap k va pa perm P n s t l :
  kmap P n s t l → (72 < n)%nat → vpage va → 1 ≤ k → va + k * PGSIZE ≤ MAXVA →
  is_perm perm → 0 ≤ pa → pa + k * PGSIZE < 2 ^ 56 →
  (∀ x, va ≤ x < va + k * PGSIZE → kernel_va x ∧ ¬ P x) →
  ∃ s' t' l', returns (kvmmap (pt_root t) va pa (k * PGSIZE) perm) s tt s' ∧ mem_only s s' ∧
    pt_root t' = pt_root t ∧ kmap (λ x, P x ∨ va ≤ x < va + k * PGSIZE) n s' t' l'.
Proof.
  intros HK Hn Hva Hk Hmax Hperm Hpa0 Hpa HD. pose proof HK as [Hh Ht Hp Hlen].
  destruct (returns_mappages k va pa perm s t l) as (r & k' & s' & t' & l' & Hret & Hg & Hp' & HD' & Hr);
    [done..| |].
  { intros j Hj. rewrite Hp; [done|by apply vpage_add; [|lia|plia]|]. apply HD. plia. }
  assert (kmap (λ x, P x ∨ va ≤ x < va + k * PGSIZE) n s' t' l') as HK'.
  { split; [apply Hg| | |by rewrite (grown_pages _ _ _ _ _ _ Hg)].
    - apply HD'; [|done]. intros j Hj. apply HD. plia.
    - intros x Hx Hnot. rewrite Hp' by done. unfold mapped.
      rewrite decide_False, Hp; [done|done|tauto|].
      intros Hin. apply Hnot. right. destruct Hr as [(_ & -> & _)|(_ & ? & _)]; plia. }
  exists s', t', l'. split_and!; [|apply Hg|apply Hg|done].
  destruct Hr as [(-> & _)|(_ & _ & -> & _)].
  - unfold kvmmap. by eapply returns_bind.
  - apply kmap_free in HK'. simpl in HK'. lia.
Qed.

(** ** The mappings *)

Lemma vpage_KSTACK i : (i < NPROC)%nat → vpage (KSTACK i).
Proof.
  intros Hi. unfold KSTACK, TRAMPOLINE, NPROC in *. split.
  - unfold page_aligned, PGSIZE. rewrite MAXVA_eq. zdiv.
  - rewrite MAXVA_eq. plia.
Qed.

Lemma returns_mapstacks k i n s t l :
  (i + k = NPROC)%nat → kmap (below_stacks i) (n + k) s t l → (72 < n)%nat →
  ∃ s' t' l', returns (for_each (seq i k) (λ i,
      pa ← kalloc;
      if pa =? 0 then panic "kalloc" else
      kvmmap (pt_root t) (KSTACK i) pa PGSIZE (Z.lor PTE_R PTE_W))) s tt s' ∧
    mem_only s s' ∧ kmap (λ _, True) n s' t' l'.
Proof.
  revert i s t l. induction k as [|k IH]; intros i s t l Hik HK Hn.
  { exists s, t, l. split_and!; [apply returns_ret|apply mem_only_refl|].
    rewrite Nat.add_0_r in HK. by eapply kmap_weaken. }
  destruct l as [|pa l]; [apply kmap_free in HK; simpl in HK; lia|].
  pose proof HK as [Hh Ht Hp Hlen].
  destruct (heap_kalloc pa s t l Hh) as (s1 & Hka & Hm1 & Hh1 & Hpa & _ & _ & Hp1).
  pose proof (page_ok_range _ Hpa) as Hpr. unfold PHYSTOP, KERNBASE in Hpr.
  pose proof (vpage_KSTACK i ltac:(lia)) as Hv.
  destruct (returns_kvmmap 1 (KSTACK i) pa (Z.lor PTE_R PTE_W) (below_stacks i) (n + k) s1 t l)
    as (s2 & t2 & l2 & Hret & Hm2 & Hroot & HK2); try done; try lia.
  - split; [done|done|intros va Hva HnP; rewrite Hp1; auto|simpl in Hlen; lia].
  - unfold KSTACK, TRAMPOLINE. plia.
  - plia.
  - intros x Hx. unfold KSTACK, below_stacks, kernel_va, TRAMPOLINE, NPROC, PHYSTOP, KERNBASE in *.
    rewrite MAXVA_eq in *. plia.
  - destruct (IH (S i) s2 t2 l2) as (s' & t' & l' & Hret' & Hm' & HK'); [lia| |done|].
    { eapply kmap_weaken; [done|]. intros x [Hx|Hx];
        unfold below_stacks, KSTACK in *; plia. }
    exists s', t', l'. split_and!; [|by eauto using mem_only_trans|done].
    cbn [seq for_each]. rewrite Hroot in Hret'. eapply returns_bind; [|exact Hret'].
    eapply returns_bind; [done|]. replace (pa =? 0) with false by lia.
    by rewrite Z.mul_1_l in Hret.
Qed.

(** The rest of [kvmmake] builds the table and leaves at least [n - 72] pages. *)
Definition makes (n : nat) (s : kstate) (m : K Z) : Prop :=
  ∃ pt s' l', returns m s pt s' ∧ mem_only s s' ∧ free_pages s' l' ∧ (n - 72 ≤ length l')%nat.

Lemma makes_step k va pa sz perm (P Q : Z → Prop) c n s t l (m : K Z) :
  kmap P (n + c) s t l → sz = k * PGSIZE → (72 < n)%nat → vpage va → 1 ≤ k →
  va + k * PGSIZE ≤ MAXVA → is_perm perm → 0 ≤ pa → pa + k * PGSIZE < 2 ^ 56 →
  (∀ x, va ≤ x < va + k * PGSIZE → kernel_va x ∧ ¬ P x) →
  (∀ x, P x ∨ va ≤ x < va + k * PGSIZE → Q x) →
  (∀ s' t' l', pt_root t' = pt_root t → kmap Q (n + c) s' t' l' → makes n s' m) →
  makes n s (kvmmap (pt_root t) va pa sz perm ;; m).
Proof.
  intros HK -> Hn Hva Hk Hmax Hperm Hpa0 Hpa HD HQ Hm.
  destruct (returns_kvmmap k va pa perm P (n + c) s t l)
    as (s1 & t1 & l1 & Hret & Hm1 & Hroot & HK1); try done; [lia|].
  destruct (Hm s1 t1 l1 Hroot (kmap_weaken _ _ _ _ _ _ HK1 HQ)) as (pt & s' & l' & Hret' & Hm' & Hrest).
  exists pt, s', l'. split_and!; [by eapply returns_bind|by eapply mem_only_trans|apply Hrest..].
Qed.

Context {HF : ImageFits}.

Lemma etext_pages :
  ∃ k1 k2, image_etext = KERNBASE + k1 * PGSIZE ∧ PHYSTOP = KERNBASE + k1 * PGSIZE + k2 * PGSIZE ∧
    1 ≤ k1 ∧ 1 ≤ k2.
Proof.
  pose proof etext_aligned as Ha. pose proof etext_range. pose proof image_end_range.
  exists ((image_etext - KERNBASE) / PGSIZE), ((PHYSTOP - image_etext) / PGSIZE).
  unfold page_aligned, PHYSTOP, KERNBASE, PGSIZE in *. zdiv.
Qed.

(** The mappings after the devices: the image, memory, the trampoline and the stacks. *)
Lemma makes_memory n s t l :
  kmap (λ x, PLIC ≤ x < UART0 + 2 * PGSIZE) (n + NPROC) s t l → (72 < n)%nat →
  makes n s (
    kvmmap (pt_root t) KERNBASE KERNBASE (image_etext - KERNBASE) (Z.lor PTE_R PTE_X) ;;
    kvmmap (pt_root t) image_etext image_etext (PHYSTOP - image_etext) (Z.lor PTE_R PTE_W) ;;
    kvmmap (pt_root t) TRAMPOLINE image_trampoline PGSIZE (Z.lor PTE_R PTE_X) ;;
    proc_mapstacks (pt_root t) ;;
    mret (pt_root t)).
Proof.
  intros HK Hn. destruct etext_pages as (k1 & k2 & He & Hp & Hk1 & Hk2).
  pose proof trampoline_range as Htr. rewrite He, Hp in *.
  eapply (makes_step k1 _ _ _ _ _ (λ x, PLIC ≤ x < KERNBASE + k1 * PGSIZE)); [exact HK|..]; layout.
  intros s1 t1 l1 <- HK1. clear HK.
  eapply (makes_step k2 _ _ _ _ _ (λ x, x < KERNBASE + k1 * PGSIZE + k2 * PGSIZE)); [exact HK1|..]; layout.
  intros s2 t2 l2 <- HK2. clear HK1.
  eapply (makes_step 1 _ _ _ _ _ (below_stacks 0)); [exact HK2|..]; layout.
  intros s3 t3 l3 <- HK3. clear HK2.
  destruct (returns_mapstacks NPROC 0 n s3 t3 l3) as (s' & t' & l' & Hret & Hm & HK); try done.
  exists (pt_root t3), s', l'. split_and!; [|done|apply HK|by eapply kmap_free].
  eapply returns_bind; [exact Hret|apply returns_ret].
Qed.

Lemma makes_kvmmake n s l :
  ready s → unlocked LkKmem s → free_pages s l → (length l = n + NPROC)%nat → (72 < n)%nat →
  makes n s kvmmake.
Proof.
  intros Hr Hu Hf Hlen Hn. destruct l as [|pa l]; [simpl in Hlen; lia|].
  destruct (fresh_table pa l s) as (s1 & s2 & Hka & Hz & Hpa & Hm & Hh & _); [done..|].
  assert (makes n s2 (
    kvmmap pa UART0 UART0 PGSIZE (Z.lor PTE_R PTE_W) ;;
    kvmmap pa VIRTIO0 VIRTIO0 PGSIZE (Z.lor PTE_R PTE_W) ;;
    kvmmap pa PLIC PLIC 0x400000 (Z.lor PTE_R PTE_W) ;;
    kvmmap pa KERNBASE KERNBASE (image_etext - KERNBASE) (Z.lor PTE_R PTE_X) ;;
    kvmmap pa image_etext image_etext (PHYSTOP - image_etext) (Z.lor PTE_R PTE_W) ;;
    kvmmap pa TRAMPOLINE image_trampoline PGSIZE (Z.lor PTE_R PTE_X) ;;
    proc_mapstacks pa ;;
    mret pa)) as (pt & s' & l' & Hret & Hm' & Hf' & Hl').
  { assert (∃ t, pt_root t = pa ∧ kmap (λ _, False) (n + NPROC) s2 t l) as (t & <- & HK).
    { exists (empty_table pa). split; [done|]. split; [done| |intros; apply pte_of_empty|].
      - split; intros i [x Hx]; cbn in Hx; by rewrite lookup_empty in Hx.
      - rewrite <- Hlen, length_app. unfold pt_pages. cbn. rewrite !map_to_list_empty. cbn. lia. }
    eapply (makes_step 1 _ _ _ _ _ (λ x, UART0 ≤ x < UART0 + PGSIZE)); [exact HK|..]; layout.
    intros s3 t3 l3 <- HK3.
    eapply (makes_step 1 _ _ _ _ _ (λ x, UART0 ≤ x < UART0 + 2 * PGSIZE)); [exact HK3|..]; layout.
    intros s4 t4 l4 <- HK4.
    eapply (makes_step 1024 _ _ _ _ _ (λ x, PLIC ≤ x < UART0 + 2 * PGSIZE)); [exact HK4|..]; layout.
    intros s5 t5 l5 <- HK5. by apply (makes_memory n s5 t5 l5). }
  exists pt, s', l'. split_and!; [|by eapply mem_only_trans|done..]. unfold kvmmake.
  eapply returns_bind; [done|]. replace (pa =? 0) with false by lia. by eapply returns_bind.
Qed.

End kvm.
