(* ===== verification/Sleeplock.v ===== *)
(** * Sleep-locks ([kernel/sleeplock.c])

    Locks that a process holds across context switches.  [k_sleeplocks] has the
    locked ones with [lk->pid]; [lk->lk] is the spinlock [LkSleep l]. *)

From S2P Require Import Prelude Data State Spinlock Mlfq.

Local Open Scope Z_scope.

Definition initsleeplock (l : sleeplock_id) : K unit :=
  initlock (LkSleep l) ;;
  modify (λ s, set_k_sleeplocks (delete l (k_sleeplocks s)) s).

(** [while (lk->locked) sleep(lk, &lk->lk);] *)
Fixpoint wait_unlocked (fuel : nat) (l : sleeplock_id) : K unit :=
  match fuel with
  | O => no_fuel
  | S fuel' =>
      lk ← gets k_sleeplocks;
      match lk !! l with
      | Some _ => sleep (ChSleep l) (LkSleep l) ;; wait_unlocked fuel' l
      | None => mret tt
      end
  end.

Definition acquiresleep (l : sleeplock_id) : K unit :=
  acquire (LkSleep l) ;;
  sleep_loop (λ fuel, wait_unlocked fuel l) ;;
  i ← this_proc;
  p ← get_proc i;
  modify (λ s, set_k_sleeplocks (<[l := p_pid p]> (k_sleeplocks s)) s) ;;
  release (LkSleep l).

Definition releasesleep (l : sleeplock_id) : K unit :=
  acquire (LkSleep l) ;;
  modify (λ s, set_k_sleeplocks (delete l (k_sleeplocks s)) s) ;;
  wakeup (Some (ChSleep l)) ;;
  release (LkSleep l).

Definition holdingsleep (l : sleeplock_id) : K bool :=
  acquire (LkSleep l) ;;
  lk ← gets k_sleeplocks;
  r ← (match lk !! l with
       | Some pid => i ← this_proc; p ← get_proc i; mret (pid =? p_pid p)
       | None => mret false
       end);
  release (LkSleep l) ;;
  mret r.
