(* ===== verification/Bio.v ===== *)
(** * The buffer cache ([kernel/bio.c])

    The doubly linked list of [bcache.head] is the list [k_lru] of buffer indices
    from [head.next] on. *)

From S2P Require Import Prelude Data State Spinlock Mlfq Sleeplock.

Local Open Scope Z_scope.

(** ** Buffers *)

(** [bcache.buf[n]], read and updated. *)
Definition get_buf (n : nat) : K buf := λ e s,
  match k_bufs s !! n with Some b => Ok b e s | None => Fault end.

Definition upd_buf (n : nat) (f : buf → buf) : K unit := λ e s,
  match k_bufs s !! n with
  | Some b => Ok tt e (set_k_bufs (<[n := f b]> (k_bufs s)) s)
  | None => Fault
  end.

Definition binit : K unit :=
  initlock LkBcache ;;
  modify (set_k_lru []) ;;
  for_each (seq 0 NBUF) (λ n,
    initsleeplock (SlBuf n) ;;
    modify (λ s, set_k_lru (n :: k_lru s) s)).

(** A search along the list for the first buffer that passes the test. *)
Fixpoint find_buf (l : list nat) (test : buf → bool) : K (option nat) :=
  match l with
  | [] => mret None
  | n :: l' =>
      b ← get_buf n;
      if test b then mret (Some n) else find_buf l' test
  end.

Definition bget (dev blockno : Z) : K nat :=
  acquire LkBcache ;;
  lru ← gets k_lru;
  cached ← find_buf lru (λ b, (b_dev b =? dev) && (b_blockno b =? blockno));
  match cached with
  | Some n =>
      upd_buf n (λ b, set_b_refcnt (u32 (b_refcnt b + 1)) b) ;;
      release LkBcache ;;
      acquiresleep (SlBuf n) ;;
      mret n
  | None =>
      unused ← find_buf (reverse lru) (λ b, b_refcnt b =? 0);
      match unused with
      | Some n =>
          upd_buf n (set_b_dev dev) ;;
          upd_buf n (set_b_blockno blockno) ;;
          upd_buf n (set_b_valid false) ;;
          upd_buf n (set_b_refcnt 1) ;;
          release LkBcache ;;
          acquiresleep (SlBuf n) ;;
          mret n
      | None => panic "bget: no buffers"
      end
  end.

(** ** The disk driver

    The interface that the kernel has with the driver ([virtio_disk_rw] and
    [virtio_disk_intr], in [Virtio.v]): [disk_rw n write] transfers the block of
    buffer [n] to or from the disk and returns when the transfer is complete;
    [disk_intr] serves the disk's interrupt. *)
Class Disk := {
  disk_rw : nat → bool → K unit;
  disk_intr : K unit;
}.

Section bio.
Context `{Disk}.

Definition bread (dev blockno : Z) : K nat :=
  n ← bget dev blockno;
  b ← get_buf n;
  when (negb (b_valid b))
    (disk_rw n false ;;
     upd_buf n (set_b_valid true)) ;;
  mret n.

Definition bwrite (n : nat) : K unit :=
  h ← holdingsleep (SlBuf n);
  if negb h then panic "bwrite" else
  disk_rw n true.

(** Unlinking the buffer and linking it in again after [head]. *)
Definition move_to_head (n : nat) (lru : list nat) : list nat :=
  n :: filter (λ m, m ≠ n) lru.

Definition brelse (n : nat) : K unit :=
  h ← holdingsleep (SlBuf n);
  if negb h then panic "brelse" else
  releasesleep (SlBuf n) ;;
  acquire LkBcache ;;
  upd_buf n (λ b, set_b_refcnt (u32 (b_refcnt b - 1)) b) ;;
  b ← get_buf n;
  when (b_refcnt b =? 0) (modify (λ s, set_k_lru (move_to_head n (k_lru s)) s)) ;;
  release LkBcache.

Definition bpin (n : nat) : K unit :=
  acquire LkBcache ;;
  upd_buf n (λ b, set_b_refcnt (u32 (b_refcnt b + 1)) b) ;;
  release LkBcache.

Definition bunpin (n : nat) : K unit :=
  acquire LkBcache ;;
  upd_buf n (λ b, set_b_refcnt (u32 (b_refcnt b - 1)) b) ;;
  release LkBcache.

End bio.
