(* ===== verification/Virtio.v ===== *)
(** * The disk driver ([kernel/virtio_disk.c], [kernel/virtio.h])

    Requests to the virtio disk through a queue of descriptors.  The queue, which
    lies in pages that the driver shares with the device, is kept in the typed form
    of [vdisk]; an address in a descriptor is the object that it points to. *)

From S2P Require Import Prelude Memory Riscv Data State Spinlock Csr Kalloc Vm Mlfq Bio.

Local Open Scope Z_scope.

(** ** Registers and flags ([kernel/virtio.h]) *)

Definition VIRTIO_MMIO_MAGIC_VALUE : Z := 0x000.
Definition VIRTIO_MMIO_VERSION : Z := 0x004.
Definition VIRTIO_MMIO_DEVICE_ID : Z := 0x008.
Definition VIRTIO_MMIO_VENDOR_ID : Z := 0x00c.
Definition VIRTIO_MMIO_DEVICE_FEATURES : Z := 0x010.
Definition VIRTIO_MMIO_DRIVER_FEATURES : Z := 0x020.
Definition VIRTIO_MMIO_QUEUE_SEL : Z := 0x030.
Definition VIRTIO_MMIO_QUEUE_NUM_MAX : Z := 0x034.
Definition VIRTIO_MMIO_QUEUE_NUM : Z := 0x038.
Definition VIRTIO_MMIO_QUEUE_READY : Z := 0x044.
Definition VIRTIO_MMIO_QUEUE_NOTIFY : Z := 0x050.
Definition VIRTIO_MMIO_INTERRUPT_STATUS : Z := 0x060.
Definition VIRTIO_MMIO_INTERRUPT_ACK : Z := 0x064.
Definition VIRTIO_MMIO_STATUS : Z := 0x070.
Definition VIRTIO_MMIO_QUEUE_DESC_LOW : Z := 0x080.
Definition VIRTIO_MMIO_QUEUE_DESC_HIGH : Z := 0x084.
Definition VIRTIO_MMIO_DRIVER_DESC_LOW : Z := 0x090.
Definition VIRTIO_MMIO_DRIVER_DESC_HIGH : Z := 0x094.
Definition VIRTIO_MMIO_DEVICE_DESC_LOW : Z := 0x0a0.
Definition VIRTIO_MMIO_DEVICE_DESC_HIGH : Z := 0x0a4.

Definition VIRTIO_CONFIG_S_ACKNOWLEDGE : Z := 1.
Definition VIRTIO_CONFIG_S_DRIVER : Z := 2.
Definition VIRTIO_CONFIG_S_DRIVER_OK : Z := 4.
Definition VIRTIO_CONFIG_S_FEATURES_OK : Z := 8.

Definition VIRTIO_BLK_F_RO : Z := 5.
Definition VIRTIO_BLK_F_SCSI : Z := 7.
Definition VIRTIO_BLK_F_CONFIG_WCE : Z := 11.
Definition VIRTIO_BLK_F_MQ : Z := 12.
Definition VIRTIO_F_ANY_LAYOUT : Z := 27.
Definition VIRTIO_RING_F_INDIRECT_DESC : Z := 28.
Definition VIRTIO_RING_F_EVENT_IDX : Z := 29.

Definition VRING_DESC_F_NEXT : Z := 1.
Definition VRING_DESC_F_WRITE : Z := 2.
Definition VIRTIO_BLK_T_IN : Z := 0.
Definition VIRTIO_BLK_T_OUT : Z := 1.

Definition sizeof_virtio_blk_req : Z := 16.

(** [R(r)] *)
Definition R (r : Z) : Z := VIRTIO0 + r.

(** ** The driver's state *)

Definition upd_vd (f : vdisk → vdisk) : K unit := modify (λ s, set_k_vdisk (f (k_vdisk s)) s).

(** Assignments to elements of the arrays; the index is in range where they are used. *)
Definition upd_desc (i : nat) (f : virtq_desc → virtq_desc) : K unit :=
  upd_vd (λ v, set_vd_desc (alter f i (vd_desc v)) v).
Definition upd_info (i : nat) (f : disk_info → disk_info) : K unit :=
  upd_vd (λ v, set_vd_info (alter f i (vd_info v)) v).
Definition set_free (i : nat) (b : bool) : K unit :=
  upd_vd (λ v, set_vd_free (<[i := b]> (vd_free v)) v).

(** ** Descriptors *)

(** The loop of [alloc_desc] over [disk.free]; [None] is the result -1. *)
Fixpoint first_free (l : list bool) : option nat :=
  match l with
  | [] => None
  | b :: l' => if b then Some 0%nat else S <$> first_free l'
  end.

Definition alloc_desc : K (option nat) :=
  v ← gets k_vdisk;
  match first_free (vd_free v) with
  | Some i => set_free i false ;; mret (Some i)
  | None => mret None
  end.

Definition free_desc (i : nat) : K unit :=
  if (NUM <=? i)%nat then panic "free_desc 1" else
  v ← gets k_vdisk;
  f ← deref (vd_free v !! i);
  if (f : bool) then panic "free_desc 2" else
  upd_desc i (λ _, mkDesc DmaNull 0 0 0) ;;
  set_free i true ;;
  wakeup (Some ChDiskFree).

(** The loop of [free_chain]: a chain has at most [NUM] descriptors. *)
Fixpoint free_chain_loop (fuel : nat) (i : nat) : K unit :=
  match fuel with
  | O => no_fuel
  | S fuel' =>
      v ← gets k_vdisk;
      d ← deref (vd_desc v !! i);
      let flag := d_flags d in
      let nxt := d_next d in
      free_desc i ;;
      if has_flag flag VRING_DESC_F_NEXT then free_chain_loop fuel' (Z.to_nat nxt) else mret tt
  end.

Definition free_chain (i : nat) : K unit := free_chain_loop (S NUM) i.

(** The loop of [alloc3_desc]: [idx] has the descriptors that it already has. *)
Fixpoint alloc3_loop (n : nat) (idx : list nat) : K (option (list nat)) :=
  match n with
  | O => mret (Some idx)
  | S n' =>
      d ← alloc_desc;
      match d with
      | Some i => alloc3_loop n' (idx ++ [i])
      | None => for_each idx free_desc ;; mret None
      end
  end.

Definition alloc3_desc : K (option (list nat)) := alloc3_loop 3 [].

(** "allocate the three descriptors" *)
Fixpoint alloc3_wait (fuel : nat) : K (nat * nat * nat) :=
  match fuel with
  | O => no_fuel
  | S fuel' =>
      r ← alloc3_desc;
      match r with
      | Some [i0; i1; i2] => mret (i0, i1, i2)
      | Some _ => fault
      | None => sleep ChDiskFree LkVdisk ;; alloc3_wait fuel'
      end
  end.

(** ** Requests *)

(** "format the three descriptors" *)
Definition format_request (i0 i1 i2 : nat) (n : nat) (write : bool) (sector : Z) : K unit :=
  upd_vd (λ v, set_vd_ops
    (<[i0 := mkReq (if write then VIRTIO_BLK_T_OUT else VIRTIO_BLK_T_IN) 0 sector]> (vd_ops v)) v) ;;
  upd_desc i0 (λ _, mkDesc (DmaReq i0) sizeof_virtio_blk_req VRING_DESC_F_NEXT (Z.of_nat i1)) ;;
  upd_desc i1 (λ _, mkDesc (DmaData n) BSIZE
    (Z.lor (if write then 0 else VRING_DESC_F_WRITE) VRING_DESC_F_NEXT) (Z.of_nat i2)) ;;
  upd_info i0 (λ x, mkInfo (inf_b x) 0xff) ;;
  upd_desc i2 (λ _, mkDesc (DmaStatus i0) 1 VRING_DESC_F_WRITE 0).

(** Handing the chain to the device. *)
Definition submit_request (i0 : nat) : K unit :=
  upd_vd (λ v, set_vd_avail_ring
    (<[Z.to_nat (vd_avail_idx v mod Z.of_nat NUM) := Z.of_nat i0]> (vd_avail_ring v)) v) ;;
  upd_vd (λ v, set_vd_avail_idx (u16 (vd_avail_idx v + 1)) v) ;;
  mmio_write (R VIRTIO_MMIO_QUEUE_NOTIFY) 0.

(** [while(b->disk == 1) sleep(b, &disk.vdisk_lock);] *)
Fixpoint wait_request (fuel : nat) (n : nat) : K unit :=
  match fuel with
  | O => no_fuel
  | S fuel' =>
      b ← get_buf n;
      if b_disk b then sleep (ChBuf n) LkVdisk ;; wait_request fuel' n else mret tt
  end.

Definition virtio_disk_rw (n : nat) (write : bool) : K unit :=
  b ← get_buf n;
  let sector := u32 (b_blockno b * (BSIZE / 512)) in
  acquire LkVdisk ;;
  idx ← sleep_loop alloc3_wait;
  let '(i0, i1, i2) := idx in
  format_request i0 i1 i2 n write sector ;;
  upd_buf n (set_b_disk true) ;;
  upd_info i0 (λ x, mkInfo (Some n) (inf_status x)) ;;
  submit_request i0 ;;
  sleep_loop (λ fuel, wait_request fuel n) ;;
  upd_info i0 (λ x, mkInfo None (inf_status x)) ;;
  free_chain i0 ;;
  release LkVdisk.

(** ** The interrupt *)

(** The loop over the used ring: at most the [2^16 - 1] entries that the 16-bit
    indices can be apart. *)
Fixpoint intr_loop (fuel : nat) : K unit :=
  v ← gets k_vdisk;
  if vd_used_idx v =? vd_dev_idx v then mret tt else
  match fuel with
  | O => no_fuel
  | S fuel' =>
      id ← index (vd_used_ring v) (vd_used_idx v mod Z.of_nat NUM);
      inf ← index (vd_info v) id;
      if negb (inf_status inf =? 0) then panic "virtio_disk_intr status" else
      n ← deref (inf_b inf);
      upd_buf n (set_b_disk false) ;;
      wakeup (Some (ChBuf n)) ;;
      upd_vd (λ v, set_vd_used_idx (u16 (vd_used_idx v + 1)) v) ;;
      intr_loop fuel'
  end.

Section virtio.
Context `{Device}.

Definition virtio_disk_intr : K unit :=
  acquire LkVdisk ;;
  status ← mmio_read (R VIRTIO_MMIO_INTERRUPT_STATUS);
  mmio_write (R VIRTIO_MMIO_INTERRUPT_ACK) (Z.land status 3) ;;
  intr_loop (Z.to_nat (2 ^ 16)) ;;
  release LkVdisk.

(** The driver as the disk of the buffer cache. *)
#[local] Instance virtio_disk : Disk := {
  disk_rw := virtio_disk_rw;
  disk_intr := virtio_disk_intr;
}.

(** ** Initialisation *)

(** [features &= ~(1 << bit)] *)
Definition without (features bit : Z) : Z := Z.ldiff features (Z.shiftl 1 bit).

Definition driver_features (features : Z) : Z :=
  foldl without features
    [VIRTIO_BLK_F_RO; VIRTIO_BLK_F_SCSI; VIRTIO_BLK_F_CONFIG_WCE; VIRTIO_BLK_F_MQ;
     VIRTIO_F_ANY_LAYOUT; VIRTIO_RING_F_EVENT_IDX; VIRTIO_RING_F_INDIRECT_DESC].

Context `{Image}.

Definition virtio_disk_init : K unit :=
  initlock LkVdisk ;;
  magic ← mmio_read (R VIRTIO_MMIO_MAGIC_VALUE);
  version ← mmio_read (R VIRTIO_MMIO_VERSION);
  device ← mmio_read (R VIRTIO_MMIO_DEVICE_ID);
  vendor ← mmio_read (R VIRTIO_MMIO_VENDOR_ID);
  if negb ((magic =? 0x74726976) && (version =? 2) && (device =? 2) && (vendor =? 0x554d4551))
  then panic "could not find virtio disk" else
  mmio_write (R VIRTIO_MMIO_STATUS) 0 ;;
  let status := VIRTIO_CONFIG_S_ACKNOWLEDGE in
  mmio_write (R VIRTIO_MMIO_STATUS) status ;;
  let status := Z.lor status VIRTIO_CONFIG_S_DRIVER in
  mmio_write (R VIRTIO_MMIO_STATUS) status ;;
  features ← mmio_read (R VIRTIO_MMIO_DEVICE_FEATURES);
  mmio_write (R VIRTIO_MMIO_DRIVER_FEATURES) (driver_features features) ;;
  let status := Z.lor status VIRTIO_CONFIG_S_FEATURES_OK in
  mmio_write (R VIRTIO_MMIO_STATUS) status ;;
  status ← mmio_read (R VIRTIO_MMIO_STATUS);
  if negb (has_flag status VIRTIO_CONFIG_S_FEATURES_OK)
  then panic "virtio disk FEATURES_OK unset" else
  mmio_write (R VIRTIO_MMIO_QUEUE_SEL) 0 ;;
  ready ← mmio_read (R VIRTIO_MMIO_QUEUE_READY);
  if negb (ready =? 0) then panic "virtio disk should not be ready" else
  max ← mmio_read (R VIRTIO_MMIO_QUEUE_NUM_MAX);
  if max =? 0 then panic "virtio disk has no queue 0" else
  if max <? Z.of_nat NUM then panic "virtio disk max queue too short" else
  desc ← kalloc;
  avail ← kalloc;
  used ← kalloc;
  upd_vd (set_vd_pages [desc; avail; used]) ;;
  if (desc =? 0) || (avail =? 0) || (used =? 0) then panic "virtio disk kalloc" else
  zero_page desc ;;
  zero_page avail ;;
  zero_page used ;;
  upd_vd (λ v, set_vd_desc (replicate NUM (mkDesc DmaNull 0 0 0)) v) ;;
  upd_vd (λ v, set_vd_avail_idx 0 (set_vd_avail_ring (replicate NUM 0) v)) ;;
  upd_vd (λ v, set_vd_dev_idx 0 (set_vd_used_ring (replicate NUM 0) v)) ;;
  mmio_write (R VIRTIO_MMIO_QUEUE_NUM) (Z.of_nat NUM) ;;
  mmio_write (R VIRTIO_MMIO_QUEUE_DESC_LOW) (u32 desc) ;;
  mmio_write (R VIRTIO_MMIO_QUEUE_DESC_HIGH) (Z.shiftr desc 32) ;;
  mmio_write (R VIRTIO_MMIO_DRIVER_DESC_LOW) (u32 avail) ;;
  mmio_write (R VIRTIO_MMIO_DRIVER_DESC_HIGH) (Z.shiftr avail 32) ;;
  mmio_write (R VIRTIO_MMIO_DEVICE_DESC_LOW) (u32 used) ;;
  mmio_write (R VIRTIO_MMIO_DEVICE_DESC_HIGH) (Z.shiftr used 32) ;;
  mmio_write (R VIRTIO_MMIO_QUEUE_READY) 1 ;;
  upd_vd (set_vd_free (replicate NUM true)) ;;
  mmio_write (R VIRTIO_MMIO_STATUS) (Z.lor status VIRTIO_CONFIG_S_DRIVER_OK).

End virtio.
