(* ===== verification/Log.v ===== *)
(** * The log ([kernel/log.c])

    Write-ahead logging of the blocks that file-system calls change. *)

From S2P Require Import Prelude Bytes Data State Spinlock Mlfq Sleeplock Bio.

Local Open Scope Z_scope.

Definition upd_log (f : log → log) : K unit := modify (λ s, set_k_log (f (k_log s)) s).

(** The log header of a block: [n] and the first [n] block numbers. *)
Definition header_blocks (data : list Z) (n : nat) : list Z :=
  map (λ i, i32 (get32 data (4 + 4 * Z.of_nat i))) (seq 0 n).

(** [for (tail = 0; tail < log.lh.n; tail++)]; an index past [log.lh.block] is out
    of bounds in the body. *)
Fixpoint log_loop (tails : list Z) (body : Z → K unit) : K unit :=
  match tails with
  | [] => fault
  | tail :: tails' =>
      lg ← gets k_log;
      if tail <? lg_n lg then body tail ;; log_loop tails' body
      else mret tt
  end.

Definition tails : list Z := seqZ 0 (LOGSIZE + 1).

Section log.
Context `{Disk}.

Definition install_trans (recovering : bool) : K unit :=
  log_loop tails (λ tail,
    lg ← gets k_log;
    lbuf ← bread (u32 (lg_dev lg)) (u32 (lg_start lg + tail + 1));
    lg ← gets k_log;
    blk ← index (lg_block lg) tail;
    dbuf ← bread (u32 (lg_dev lg)) (u32 blk);
    b ← get_buf lbuf;
    upd_buf dbuf (set_b_data (b_data b)) ;;
    bwrite dbuf ;;
    when (negb recovering) (bunpin dbuf) ;;
    brelse lbuf ;;
    brelse dbuf).

Definition read_head : K unit :=
  lg ← gets k_log;
  n ← bread (u32 (lg_dev lg)) (u32 (lg_start lg));
  b ← get_buf n;
  let lh_n := i32 (get32 (b_data b) 0) in
  if LOGSIZE <? lh_n then fault else
  upd_log (set_lg_n lh_n) ;;
  upd_log (λ lg, set_lg_block
    (header_blocks (b_data b) (Z.to_nat lh_n) ++ drop (Z.to_nat lh_n) (lg_block lg)) lg) ;;
  brelse n.

(** The bytes of a log header. *)
Definition header_bytes (lg : log) : list Z :=
  le 4 (lg_n lg) ++ concat (map (le 4) (take (Z.to_nat (lg_n lg)) (lg_block lg))).

Definition write_head : K unit :=
  lg ← gets k_log;
  n ← bread (u32 (lg_dev lg)) (u32 (lg_start lg));
  lg ← gets k_log;
  if Z.of_nat (length (lg_block lg)) <? lg_n lg then fault else
  upd_buf n (λ b, set_b_data (splice (b_data b) 0 (header_bytes lg)) b) ;;
  bwrite n ;;
  brelse n.

Definition recover_from_log : K unit :=
  read_head ;;
  install_trans true ;;
  upd_log (set_lg_n 0) ;;
  write_head.

Definition initlog (dev : Z) : K unit :=
  initlock LkLog ;;
  sb ← gets k_sb;
  upd_log (set_lg_start (i32 (sb_logstart sb))) ;;
  upd_log (set_lg_size (i32 (sb_nlog sb))) ;;
  upd_log (set_lg_dev dev) ;;
  recover_from_log.

Fixpoint begin_op_loop (fuel : nat) : K unit :=
  match fuel with
  | O => no_fuel
  | S fuel' =>
      lg ← gets k_log;
      if lg_committing lg then sleep ChLog LkLog ;; begin_op_loop fuel'
      else if LOGSIZE <? lg_n lg + (lg_outstanding lg + 1) * MAXOPBLOCKS
      then sleep ChLog LkLog ;; begin_op_loop fuel'
      else
        upd_log (λ lg, set_lg_outstanding (lg_outstanding lg + 1) lg) ;;
        release LkLog
  end.

Definition begin_op : K unit :=
  acquire LkLog ;;
  sleep_loop begin_op_loop.

Definition write_log : K unit :=
  log_loop tails (λ tail,
    lg ← gets k_log;
    to ← bread (u32 (lg_dev lg)) (u32 (lg_start lg + tail + 1));
    lg ← gets k_log;
    blk ← index (lg_block lg) tail;
    from ← bread (u32 (lg_dev lg)) (u32 blk);
    b ← get_buf from;
    upd_buf to (set_b_data (b_data b)) ;;
    bwrite to ;;
    brelse from ;;
    brelse to).

Definition commit : K unit :=
  lg ← gets k_log;
  when (0 <? lg_n lg)
    (write_log ;;
     write_head ;;
     install_trans false ;;
     upd_log (set_lg_n 0) ;;
     write_head).

Definition end_op : K unit :=
  acquire LkLog ;;
  upd_log (λ lg, set_lg_outstanding (lg_outstanding lg - 1) lg) ;;
  lg ← gets k_log;
  if lg_committing lg then panic "log.committing" else
  if lg_outstanding lg =? 0 then
    upd_log (set_lg_committing true) ;;
    release LkLog ;;
    commit ;;
    acquire LkLog ;;
    upd_log (set_lg_committing false) ;;
    wakeup (Some ChLog) ;;
    release LkLog
  else
    wakeup (Some ChLog) ;;
    release LkLog.

(** The index of the block in the log, or [log.lh.n]. *)
Fixpoint log_absorb (l : list Z) (blockno : Z) : nat :=
  match l with
  | [] => 0
  | b :: l' => if u32 b =? blockno then 0 else S (log_absorb l' blockno)
  end.

Definition log_write (n : nat) : K unit :=
  acquire LkLog ;;
  lg ← gets k_log;
  if (LOGSIZE <=? lg_n lg) || (lg_size lg - 1 <=? lg_n lg)
  then panic "too big a transaction" else
  if lg_outstanding lg <? 1 then panic "log_write outside of trans" else
  b ← get_buf n;
  let i := log_absorb (take (Z.to_nat (lg_n lg)) (lg_block lg)) (b_blockno b) in
  _ ← index (lg_block lg) (Z.of_nat i);
  upd_log (set_lg_block (<[i := i32 (b_blockno b)]> (lg_block lg))) ;;
  when (Z.of_nat i =? lg_n lg)
    (bpin n ;;
     upd_log (λ lg, set_lg_n (lg_n lg + 1) lg)) ;;
  release LkLog.

End log.
