(* ===== verification/Fs.v ===== *)
(** * The file system ([kernel/fs.c])

    Blocks, inodes, directories and path names on the logged disk. *)

From S2P Require Import Prelude Bytes Memory Riscv Data State Spinlock Kalloc Vm Mlfq Uart Proc Sleeplock Bio Log.

Local Open Scope Z_scope.

(** ** On-disk format ([kernel/fs.h]) *)

Definition sizeof_dinode : Z := 64.
Definition IPB : Z := BSIZE / sizeof_dinode.
Definition IBLOCK (i : Z) (sb : superblock) : Z := u32 (i / IPB + sb_inodestart sb).
Definition BPB : Z := BSIZE * 8.
Definition BBLOCK (b : Z) (sb : superblock) : Z := u32 (b / BPB + sb_bmapstart sb).
Definition sizeof_dirent : Z := 16.

(** The bit of block [bi] in a block of the free map. *)
Definition bitmap_byte (data : list Z) (bi : Z) : Z := default 0 (data !! Z.to_nat (bi / 8)).
Definition bit_mask (bi : Z) : Z := Z.shiftl 1 (bi mod 8).
Definition bit_used (data : list Z) (bi : Z) : bool :=
  negb (Z.land (bitmap_byte data bi) (bit_mask bi) =? 0).
Definition set_bit (data : list Z) (bi : Z) : list Z :=
  <[Z.to_nat (bi / 8) := Z.lor (bitmap_byte data bi) (bit_mask bi)]> data.
Definition clear_bit (data : list Z) (bi : Z) : list Z :=
  <[Z.to_nat (bi / 8) := Z.land (bitmap_byte data bi) (Z.lnot (bit_mask bi))]> data.

(** The first free bit of a block of the map, of the [n] bits from [bi] on that are
    below [limit]. *)
Fixpoint scan_bits (n : nat) (data : list Z) (bi limit : Z) : option Z :=
  match n with
  | O => None
  | S n' =>
      if bi <? limit then
        if bit_used data bi then scan_bits n' data (bi + 1) limit else Some bi
      else None
  end.

(** A [struct dinode] at offset [off] of a block: its fields and their assignment. *)
Definition dinode_addrs : Z := 12.
Definition read_dinode (data : list Z) (off : Z) (ip : inode) : inode :=
  mkInode (i_dev ip) (i_inum ip) (i_ref ip) (i_valid ip)
    (i16 (get16 data off)) (i16 (get16 data (off + 2))) (i16 (get16 data (off + 4)))
    (i16 (get16 data (off + 6))) (get32 data (off + 8))
    (map (λ i, get32 data (off + dinode_addrs + 4 * i)) (seqZ 0 (NDIRECT + 1))).

Definition dinode_bytes (ip : inode) : list Z :=
  le 2 (i_type ip) ++ le 2 (i_major ip) ++ le 2 (i_minor ip) ++ le 2 (i_nlink ip) ++
  le 4 (i_size ip) ++ concat (map (le 4) (i_addrs ip)).

(** [(struct dinode* )bp->data + inum%IPB] *)
Definition dinode_off (inum : Z) : Z := inum mod IPB * sizeof_dinode.

(** ** The inode table *)

Definition get_inode (n : nat) : K inode := λ e s,
  match k_inodes s !! n with Some ip => Ok ip e s | None => Fault end.

Definition upd_inode (n : nat) (f : inode → inode) : K unit := λ e s,
  match k_inodes s !! n with
  | Some ip => Ok tt e (set_k_inodes (<[n := f ip]> (k_inodes s)) s)
  | None => Fault
  end.

Lemma returns_get_inode n ip s : k_inodes s !! n = Some ip → returns (get_inode n) s ip s.
Proof. intros H e. unfold get_inode. by rewrite H. Qed.
Lemma returns_upd_inode n f ip s :
  k_inodes s !! n = Some ip →
  returns (upd_inode n f) s tt (set_k_inodes (<[n := f ip]> (k_inodes s)) s).
Proof. intros H e. unfold upd_inode. by rewrite H. Qed.

Definition inode_slots : list nat := seq 0 NINODE.

Definition iinit : K unit :=
  initlock LkItable ;;
  for_each inode_slots (λ n, initsleeplock (SlInode n)).

(** The scan of [iget]: an entry for the inode, or the first empty one. *)
Fixpoint iget_scan (l : list nat) (dev inum : Z) (empty : option nat)
  : K (nat + option nat) :=
  match l with
  | [] => mret (inr empty)
  | n :: l' =>
      ip ← get_inode n;
      if (0 <? i_ref ip) && (i_dev ip =? dev) && (i_inum ip =? inum) then mret (inl n)
      else
        let empty := match empty with
                     | None => if i_ref ip =? 0 then Some n else None
                     | Some _ => empty
                     end in
        iget_scan l' dev inum empty
  end.

Definition iget (dev inum : Z) : K nat :=
  acquire LkItable ;;
  r ← iget_scan inode_slots dev inum None;
  match r with
  | inl n =>
      upd_inode n (λ ip, set_i_ref (i32 (i_ref ip + 1)) ip) ;;
      release LkItable ;;
      mret n
  | inr None => panic "iget: no inodes"
  | inr (Some n) =>
      upd_inode n (set_i_dev dev) ;;
      upd_inode n (set_i_inum inum) ;;
      upd_inode n (set_i_ref 1) ;;
      upd_inode n (set_i_valid false) ;;
      release LkItable ;;
      mret n
  end.

Definition idup (n : nat) : K nat :=
  acquire LkItable ;;
  upd_inode n (λ ip, set_i_ref (i32 (i_ref ip + 1)) ip) ;;
  release LkItable ;;
  mret n.

Section fs.
Context `{Image} `{Disk}.

(** ** Blocks *)

Definition superblock_of (data : list Z) : superblock :=
  mkSuperblock (get32 data 0) (get32 data 4) (get32 data 8) (get32 data 12)
    (get32 data 16) (get32 data 20) (get32 data 24) (get32 data 28).

Definition readsb (dev : Z) : K unit :=
  bp ← bread (u32 dev) 1;
  b ← get_buf bp;
  modify (set_k_sb (superblock_of (b_data b))) ;;
  brelse bp.

Definition fsinit (dev : Z) : K unit :=
  readsb dev ;;
  sb ← gets k_sb;
  if negb (sb_magic sb =? FSMAGIC) then panic "invalid file system" else
  initlog dev.

Definition bzero (dev bno : Z) : K unit :=
  bp ← bread dev bno;
  upd_buf bp (set_b_data (replicate (Z.to_nat BSIZE) 0)) ;;
  log_write bp ;;
  brelse bp.

Fixpoint balloc_loop (fuel : nat) (dev b : Z) : K Z :=
  sb ← gets k_sb;
  if b <? sb_size sb then
    match fuel with
    | O => no_fuel
    | S fuel' =>
        bp ← bread dev (BBLOCK b sb);
        d ← get_buf bp;
        match scan_bits (Z.to_nat BPB) (b_data d) 0 (sb_size sb - b) with
        | Some bi =>
            upd_buf bp (λ d, set_b_data (set_bit (b_data d) bi) d) ;;
            log_write bp ;;
            brelse bp ;;
            bzero dev (b + bi) ;;
            mret (b + bi)
        | None =>
            brelse bp ;;
            balloc_loop fuel' dev (b + BPB)
        end
    end
  else
    printf ("balloc: out of blocks" +:+ newline) [] ;;
    mret 0.

Definition balloc (dev : Z) : K Z :=
  sb ← gets k_sb;
  balloc_loop (Z.to_nat (sb_size sb / BPB + 1)) dev 0.

Definition bfree (dev b : Z) : K unit :=
  sb ← gets k_sb;
  bp ← bread dev (BBLOCK b sb);
  let bi := b mod BPB in
  d ← get_buf bp;
  if negb (bit_used (b_data d) bi) then panic "freeing free block" else
  upd_buf bp (λ d, set_b_data (clear_bit (b_data d) bi) d) ;;
  log_write bp ;;
  brelse bp.

(** ** Inodes *)

Fixpoint ialloc_loop (fuel : nat) (dev type inum : Z) : K (option nat) :=
  sb ← gets k_sb;
  if inum <? sb_ninodes sb then
    match fuel with
    | O => no_fuel
    | S fuel' =>
        bp ← bread dev (IBLOCK inum sb);
        d ← get_buf bp;
        let off := dinode_off inum in
        if i16 (get16 (b_data d) off) =? 0 then
          upd_buf bp (λ d, set_b_data
            (splice (b_data d) off (le 2 type ++ replicate (Z.to_nat sizeof_dinode - 2) 0)) d) ;;
          log_write bp ;;
          brelse bp ;;
          n ← iget dev inum;
          mret (Some n)
        else
          brelse bp ;;
          ialloc_loop fuel' dev type (inum + 1)
    end
  else
    printf ("ialloc: no inodes" +:+ newline) [] ;;
    mret None.

Definition ialloc (dev type : Z) : K (option nat) :=
  sb ← gets k_sb;
  ialloc_loop (Z.to_nat (sb_ninodes sb)) dev type 1.

Definition iupdate (n : nat) : K unit :=
  ip ← get_inode n;
  sb ← gets k_sb;
  bp ← bread (i_dev ip) (IBLOCK (i_inum ip) sb);
  ip ← get_inode n;
  upd_buf bp (λ d, set_b_data
    (splice (b_data d) (dinode_off (i_inum ip)) (dinode_bytes ip)) d) ;;
  log_write bp ;;
  brelse bp.

Definition ilock (ip : option nat) : K unit :=
  match ip with
  | None => panic "ilock"
  | Some n =>
      ip ← get_inode n;
      if i_ref ip <? 1 then panic "ilock" else
      acquiresleep (SlInode n) ;;
      ip ← get_inode n;
      when (negb (i_valid ip))
        (sb ← gets k_sb;
         bp ← bread (i_dev ip) (IBLOCK (i_inum ip) sb);
         d ← get_buf bp;
         upd_inode n (read_dinode (b_data d) (dinode_off (i_inum ip))) ;;
         brelse bp ;;
         upd_inode n (set_i_valid true) ;;
         ip ← get_inode n;
         if i_type ip =? 0 then panic "ilock: no type" else mret tt)
  end.

Definition iunlock (ip : option nat) : K unit :=
  match ip with
  | None => panic "iunlock"
  | Some n =>
      h ← holdingsleep (SlInode n);
      if negb h then panic "iunlock" else
      ip ← get_inode n;
      if i_ref ip <? 1 then panic "iunlock" else
      releasesleep (SlInode n)
  end.

(** *** Contents *)

(** [ip->addrs[bn]] for a direct block, allocated if it is 0. *)
Definition bmap_slot (n : nat) (i : Z) : K Z :=
  ip ← get_inode n;
  addr ← index (i_addrs ip) i;
  if negb (addr =? 0) then mret addr else
  addr ← balloc (i_dev ip);
  if addr =? 0 then mret 0 else
  upd_inode n (λ ip, set_i_addrs (<[Z.to_nat i := addr]> (i_addrs ip)) ip) ;;
  mret addr.

Definition bmap (n : nat) (bn : Z) : K Z :=
  if bn <? NDIRECT then bmap_slot n bn else
  let bn := bn - NDIRECT in
  if bn <? NINDIRECT then
    addr ← bmap_slot n NDIRECT;
    if addr =? 0 then mret 0 else
    ip ← get_inode n;
    bp ← bread (i_dev ip) addr;
    d ← get_buf bp;
    let addr := get32 (b_data d) (4 * bn) in
    if negb (addr =? 0) then brelse bp ;; mret addr else
    addr ← balloc (i_dev ip);
    when (negb (addr =? 0))
      (upd_buf bp (λ d, set_b_data (put32 (b_data d) (4 * bn) addr) d) ;;
       log_write bp) ;;
    brelse bp ;;
    mret addr
  else panic "bmap: out of range".

Definition itrunc (n : nat) : K unit :=
  for_each (seqZ 0 NDIRECT) (λ i,
    ip ← get_inode n;
    addr ← index (i_addrs ip) i;
    when (negb (addr =? 0))
      (bfree (i_dev ip) addr ;;
       upd_inode n (λ ip, set_i_addrs (<[Z.to_nat i := 0]> (i_addrs ip)) ip))) ;;
  ip ← get_inode n;
  addr ← index (i_addrs ip) NDIRECT;
  when (negb (addr =? 0))
    (bp ← bread (i_dev ip) addr;
     for_each (seqZ 0 NINDIRECT) (λ j,
       d ← get_buf bp;
       let a := get32 (b_data d) (4 * j) in
       when (negb (a =? 0)) (bfree (i_dev ip) a)) ;;
     brelse bp ;;
     bfree (i_dev ip) addr ;;
     upd_inode n (λ ip, set_i_addrs (<[Z.to_nat NDIRECT := 0]> (i_addrs ip)) ip)) ;;
  upd_inode n (set_i_size 0) ;;
  iupdate n.

Definition iput (n : nat) : K unit :=
  acquire LkItable ;;
  ip ← get_inode n;
  when ((i_ref ip =? 1) && i_valid ip && (i_nlink ip =? 0))
    (acquiresleep (SlInode n) ;;
     release LkItable ;;
     itrunc n ;;
     upd_inode n (set_i_type 0) ;;
     iupdate n ;;
     upd_inode n (set_i_valid false) ;;
     releasesleep (SlInode n) ;;
     acquire LkItable) ;;
  upd_inode n (λ ip, set_i_ref (i32 (i_ref ip - 1)) ip) ;;
  release LkItable.

Definition iunlockput (n : nat) : K unit :=
  iunlock (Some n) ;;
  iput n.

(** The bytes of the [struct stat] that [stati] fills in, with its padding. *)
Definition stati (n : nat) : K (list Z) :=
  ip ← get_inode n;
  padding ← uninit 4;
  mret (le 4 (i_dev ip) ++ le 4 (i_inum ip) ++ le 2 (i_type ip) ++ le 2 (i_nlink ip) ++
        padding ++ le 8 (i_size ip)).

(** [dst += m], [src += m] *)
Definition place_add (p : place) (m : Z) : place :=
  match p with
  | AtUser va => AtUser (u64 (va + m))
  | AtPhys pa => AtPhys (u64 (pa + m))
  | AtKernelObject => AtKernelObject
  end.
Definition source_add (p : source) (m : Z) : source :=
  match p with
  | FromUser va => FromUser (u64 (va + m))
  | FromPhys pa => FromPhys (u64 (pa + m))
  | FromObject l => FromObject (drop (Z.to_nat m) l)
  end.

(** The loop of [readi]: its result, and the bytes copied to the destination. *)
Fixpoint readi_loop (fuel : nat) (n : nat) (dst : place) (off cnt tot : Z) (l : list Z)
  : K (Z * list Z) :=
  if tot <? cnt then
    match fuel with
    | O => no_fuel
    | S fuel' =>
        addr ← bmap n (off / BSIZE);
        if addr =? 0 then mret (i32 tot, l) else
        ip ← get_inode n;
        bp ← bread (i_dev ip) addr;
        let m := Z.min (cnt - tot) (BSIZE - off mod BSIZE) in
        d ← get_buf bp;
        let x := slice (b_data d) (off mod BSIZE) (Z.to_nat m) in
        r ← either_copyout dst x;
        if r =? -1 then brelse bp ;; mret (-1, l) else
        brelse bp ;;
        readi_loop fuel' n (place_add dst m) (u32 (off + m)) cnt (tot + m) (l ++ x)
    end
  else mret (i32 tot, l).

Definition readi (n : nat) (dst : place) (off cnt : Z) : K (Z * list Z) :=
  ip ← get_inode n;
  if (i_size ip <? off) || (u32 (off + cnt) <? off) then mret (0, []) else
  let cnt := if i_size ip <? u32 (off + cnt) then u32 (i_size ip - off) else cnt in
  readi_loop (Z.to_nat (cnt / BSIZE + 2)) n dst off cnt 0 [].

(** The loop of [writei]: the final values of [tot] and [off]. *)
Fixpoint writei_loop (fuel : nat) (n : nat) (src : source) (off cnt tot : Z) : K (Z * Z) :=
  if tot <? cnt then
    match fuel with
    | O => no_fuel
    | S fuel' =>
        addr ← bmap n (off / BSIZE);
        if addr =? 0 then mret (tot, off) else
        ip ← get_inode n;
        bp ← bread (i_dev ip) addr;
        let m := Z.min (cnt - tot) (BSIZE - off mod BSIZE) in
        r ← either_copyin src m;
        upd_buf bp (λ d, set_b_data (splice (b_data d) (off mod BSIZE) r.2) d) ;;
        if r.1 =? -1 then brelse bp ;; mret (tot, off) else
        log_write bp ;;
        brelse bp ;;
        writei_loop fuel' n (source_add src m) (u32 (off + m)) cnt (tot + m)
    end
  else mret (tot, off).

Definition writei (n : nat) (src : source) (off cnt : Z) : K Z :=
  ip ← get_inode n;
  if (i_size ip <? off) || (u32 (off + cnt) <? off) then mret (-1) else
  if MAXFILE * BSIZE <? u32 (off + cnt) then mret (-1) else
  r ← writei_loop (Z.to_nat (cnt / BSIZE + 2)) n src off cnt 0;
  ip ← get_inode n;
  when (i_size ip <? r.2) (upd_inode n (set_i_size r.2)) ;;
  iupdate n ;;
  mret (i32 r.1).

(** ** Directories *)

Definition namecmp (s t : list Z) : K Z := deref (strncmp s t DIRSIZ).

(** The inode found and the offset of its entry. *)
Fixpoint dirlookup_loop (fuel : nat) (dp : nat) (name : list Z) (off : Z)
  : K (option (nat * Z)) :=
  d ← get_inode dp;
  if off <? i_size d then
    match fuel with
    | O => no_fuel
    | S fuel' =>
        r ← readi dp AtKernelObject off sizeof_dirent;
        if negb (r.1 =? sizeof_dirent) then panic "dirlookup read" else
        let inum := get16 r.2 0 in
        if inum =? 0 then dirlookup_loop fuel' dp name (u32 (off + sizeof_dirent)) else
        c ← namecmp name (drop 2 r.2);
        if c =? 0 then
          n ← iget (i_dev d) inum;
          mret (Some (n, off))
        else dirlookup_loop fuel' dp name (u32 (off + sizeof_dirent))
    end
  else mret None.

Definition dirlookup (dp : nat) (name : list Z) : K (option (nat * Z)) :=
  d ← get_inode dp;
  if negb (i_type d =? T_DIR) then panic "dirlookup not DIR" else
  dirlookup_loop (Z.to_nat (i_size d / sizeof_dirent + 1)) dp name 0.

(** The offset of the first empty entry, or of the end. *)
Fixpoint find_empty (fuel : nat) (dp : nat) (off : Z) : K Z :=
  d ← get_inode dp;
  if off <? i_size d then
    match fuel with
    | O => no_fuel
    | S fuel' =>
        r ← readi dp AtKernelObject off sizeof_dirent;
        if negb (r.1 =? sizeof_dirent) then panic "dirlink read" else
        if get16 r.2 0 =? 0 then mret off
        else find_empty fuel' dp (off + sizeof_dirent)
    end
  else mret off.

Definition dirlink (dp : nat) (name : list Z) (inum : Z) : K Z :=
  r ← dirlookup dp name;
  match r with
  | Some (n, _) =>
      iput n ;;
      mret (-1)
  | None =>
      d ← get_inode dp;
      off ← find_empty (Z.to_nat (i_size d / sizeof_dirent + 1)) dp 0;
      de_name ← deref (strncpy (replicate DIRSIZ 0) name DIRSIZ);
      w ← writei dp (FromObject (le 2 inum ++ de_name)) (u32 off) sizeof_dirent;
      mret (if w =? sizeof_dirent then 0 else -1)
  end.

(** ** Paths *)

(** [while( *path == '/') path++;] *)
Fixpoint skip_slashes (path : list Z) : list Z :=
  match path with
  | c :: path' => if c =? chr "/" then skip_slashes path' else path
  | [] => []
  end.

(** The characters up to the next slash or NUL, and the rest. *)
Fixpoint split_elem (path : list Z) : list Z * list Z :=
  match path with
  | c :: path' =>
      if (c =? chr "/") || (c =? 0) then ([], path)
      else let r := split_elem path' in (c :: r.1, r.2)
  | [] => ([], [])
  end.

(** [path] is the rest of a NUL-terminated string; [name] the array of [DIRSIZ]
    characters. *)
Definition skipelem (path name : list Z) : option (list Z * list Z) :=
  let path := skip_slashes path in
  match path with
  | [] => None
  | c :: _ =>
      if c =? 0 then None else
      let (s, path) := split_elem path in
      let len := length s in
      let name := if (DIRSIZ <=? len)%nat then take DIRSIZ s ++ drop DIRSIZ name
                  else s ++ 0 :: drop (S len) name in
      Some (skip_slashes path, name)
  end.

(** The loop of [namex]: the inode, and the contents of [name]. *)
Fixpoint namex_loop (fuel : nat) (ip : nat) (path : list Z) (nameiparent : bool)
    (name : list Z) : K (option nat * list Z) :=
  match skipelem path name with
  | None =>
      if nameiparent then iput ip ;; mret (None, name)
      else mret (Some ip, name)
  | Some (path, name) =>
      match fuel with
      | O => no_fuel
      | S fuel' =>
          ilock (Some ip) ;;
          d ← get_inode ip;
          if negb (i_type d =? T_DIR) then iunlockput ip ;; mret (None, name) else
          if nameiparent && (default 0 (head path) =? 0) then
            iunlock (Some ip) ;;
            mret (Some ip, name)
          else
          r ← dirlookup ip name;
          match r with
          | None => iunlockput ip ;; mret (None, name)
          | Some (next, _) =>
              iunlockput ip ;;
              namex_loop fuel' next path nameiparent name
          end
      end
  end.

Definition namex (path : list Z) (nameiparent : bool) (name : list Z)
  : K (option nat * list Z) :=
  ip ← (if default 0 (head path) =? chr "/" then iget ROOTDEV ROOTINO
        else i ← this_proc; p ← get_proc i; cwd ← deref (p_cwd p); idup cwd);
  namex_loop (length path) ip path nameiparent name.

Definition namei (path : list Z) : K (option nat) :=
  name ← uninit DIRSIZ;
  r ← namex path false name;
  mret r.1.

Definition nameiparent (path name : list Z) : K (option nat * list Z) :=
  namex path true name.

End fs.
