(* ===== verification/Console.v ===== *)
(** * The console ([kernel/console.c], [kernel/uart.c])

    Line-buffered input with editing, and the functions behind [read] and [write]
    of the console device. *)

From S2P Require Import Prelude Bytes Memory Riscv Data State Spinlock Csr Kalloc Vm Mlfq Uart Proc.

Local Open Scope Z_scope.

(** [C(x)], Control-x *)
Definition Ctrl (x : string) : Z := chr x - chr "@".
Definition NL : Z := 10.

Definition upd_cons (f : cons → cons) : K unit := modify (λ s, set_k_cons (f (k_cons s)) s).

(** ** Input from the device *)

(** [while(cons.e != cons.w && cons.buf[(cons.e-1) % INPUT_BUF_SIZE] != '\n')] *)
Fixpoint kill_line (fuel : nat) : K unit :=
  cn ← gets k_cons;
  if cn_e cn =? cn_w cn then mret tt else
  c ← index (cn_buf cn) (u32 (cn_e cn - 1) mod INPUT_BUF_SIZE);
  if c =? NL then mret tt else
  match fuel with
  | O => no_fuel
  | S fuel' =>
      upd_cons (λ cn, set_cn_e (u32 (cn_e cn - 1)) cn) ;;
      consputc BACKSPACE ;;
      kill_line fuel'
  end.

Definition consoleintr (c : Z) : K unit :=
  acquire LkCons ;;
  cn ← gets k_cons;
  (if c =? Ctrl "P" then procdump
   else if c =? Ctrl "U" then kill_line (Z.to_nat (u32 (cn_e cn - cn_w cn)))
   else if (c =? Ctrl "H") || (c =? 0x7f) then
     when (negb (cn_e cn =? cn_w cn))
       (upd_cons (λ cn, set_cn_e (u32 (cn_e cn - 1)) cn) ;;
        consputc BACKSPACE)
   else
     when (negb (c =? 0) && (u32 (cn_e cn - cn_r cn) <? INPUT_BUF_SIZE))
       (let c := if c =? 13 then NL else c in
        consputc c ;;
        let i := cn_e cn mod INPUT_BUF_SIZE in
        _ ← index (cn_buf cn) i;
        upd_cons (λ cn, set_cn_buf (<[Z.to_nat i := u8 c]> (cn_buf cn)) cn) ;;
        upd_cons (λ cn, set_cn_e (u32 (cn_e cn + 1)) cn) ;;
        cn ← gets k_cons;
        when ((c =? NL) || (c =? Ctrl "D") || (u32 (cn_e cn - cn_r cn) =? INPUT_BUF_SIZE))
          (upd_cons (λ cn, set_cn_w (cn_e cn) cn) ;;
           wakeup (Some ChCons)))) ;;
  release LkCons.

(** The loop of [uartintr]; the device has [length (u_rx u)] bytes. *)
Fixpoint uartintr_loop (fuel : nat) : K unit :=
  c ← uartgetc;
  if c =? -1 then mret tt else
  match fuel with
  | O => no_fuel
  | S fuel' => consoleintr c ;; uartintr_loop fuel'
  end.

Definition uartintr : K unit :=
  u ← gets k_uart;
  uartintr_loop (length (u_rx u)) ;;
  acquire LkUart ;;
  uartstart ;;
  release LkUart.

Section console.
Context `{Image}.

(** ** [read] and [write] *)

(** The loop of [consolewrite] over [n] more bytes, [i] having been written. *)
Fixpoint consolewrite_loop (n : nat) (src : source) (i : Z) : K Z :=
  match n with
  | O => mret i
  | S n' =>
      r ← either_copyin (match src with
                         | FromUser va => FromUser (u64 (va + i))
                         | FromPhys pa => FromPhys (u64 (pa + i))
                         | FromObject l => FromObject (drop (Z.to_nat i) l)
                         end) 1;
      if r.1 =? -1 then mret i else
      c ← index r.2 0;
      uartputc c ;;
      consolewrite_loop n' src (i + 1)
  end.

Definition consolewrite (src : source) (n : Z) : K Z := consolewrite_loop (Z.to_nat n) src 0.

(** [while(cons.r == cons.w)]: was the process killed? *)
Fixpoint wait_input (fuel : nat) : K bool :=
  cn ← gets k_cons;
  if negb (cn_r cn =? cn_w cn) then mret false else
  i ← this_proc;
  k ← killed i;
  if negb (k =? 0) then mret true else
  match fuel with
  | O => no_fuel
  | S fuel' => sleep ChCons LkCons ;; wait_input fuel'
  end.

(** [while(n > 0)]: the final [n], or [None] if the process was killed. *)
Fixpoint consoleread_loop (n : nat) (dst : place) (target : Z) : K (option Z) :=
  match n with
  | O => mret (Some 0)
  | S n' =>
      k ← sleep_loop wait_input;
      if (k : bool) then mret None else
      cn ← gets k_cons;
      c ← index (cn_buf cn) (cn_r cn mod INPUT_BUF_SIZE);
      upd_cons (λ cn, set_cn_r (u32 (cn_r cn + 1)) cn) ;;
      if c =? Ctrl "D" then
        when (Z.of_nat n <? target) (upd_cons (λ cn, set_cn_r (u32 (cn_r cn - 1)) cn)) ;;
        mret (Some (Z.of_nat n))
      else
      r ← either_copyout dst [c];
      if r =? -1 then mret (Some (Z.of_nat n)) else
      if c =? NL then mret (Some (Z.of_nat n')) else
      consoleread_loop n' (match dst with
                           | AtUser va => AtUser (u64 (va + 1))
                           | AtPhys pa => AtPhys (u64 (pa + 1))
                           | AtKernelObject => AtKernelObject
                           end) target
  end.

Definition consoleread (dst : place) (n : Z) : K Z :=
  let target := u32 n in
  acquire LkCons ;;
  r ← consoleread_loop (Z.to_nat n) dst target;
  match r with
  | None => release LkCons ;; mret (-1)
  | Some rest =>
      release LkCons ;;
      mret (i32 (target - if n <=? 0 then n else rest))
  end.

Definition CONSOLE : nat := 1.

(** ** The configuration of the UART ([kernel/uart.c]) *)

Definition IER : Z := 1.
Definition FCR : Z := 2.
Definition LCR : Z := 3.
Definition IER_RX_ENABLE : Z := Z.shiftl 1 0.
Definition IER_TX_ENABLE : Z := Z.shiftl 1 1.
Definition FCR_FIFO_ENABLE : Z := Z.shiftl 1 0.
Definition FCR_FIFO_CLEAR : Z := Z.shiftl 3 1.
Definition LCR_EIGHT_BITS : Z := Z.shiftl 3 0.
Definition LCR_BAUD_LATCH : Z := Z.shiftl 1 7.

Definition WriteReg (reg v : Z) : K unit := mmio_write (UART0 + reg) v.

Definition uartinit : K unit :=
  WriteReg IER 0 ;;
  WriteReg LCR LCR_BAUD_LATCH ;;
  WriteReg 0 3 ;;
  WriteReg 1 0 ;;
  WriteReg LCR LCR_EIGHT_BITS ;;
  WriteReg FCR (Z.lor FCR_FIFO_ENABLE FCR_FIFO_CLEAR) ;;
  WriteReg IER (Z.lor IER_TX_ENABLE IER_RX_ENABLE) ;;
  initlock LkUart.

Definition consoleinit : K unit :=
  initlock LkCons ;;
  uartinit ;;
  modify (λ s, set_k_devsw (<[CONSOLE := true]> (k_devsw s)) s).

End console.
