(* ===== verification/File.v ===== *)
(** * Open files and pipes ([kernel/file.c], [kernel/pipe.c]) *)

From S2P Require Import Prelude Bytes Memory Riscv Data State Spinlock Kalloc Vm Mlfq Uart Proc Sleeplock Bio Log Fs Console.

Local Open Scope Z_scope.

(** ** The file table *)

Definition get_file (n : nat) : K file := λ e s,
  match k_files s !! n with Some f => Ok f e s | None => Fault end.

Definition upd_file (n : nat) (g : file → file) : K unit := λ e s,
  match k_files s !! n with
  | Some f => Ok tt e (set_k_files (<[n := g f]> (k_files s)) s)
  | None => Fault
  end.

Definition fileinit : K unit := initlock LkFtable.

Definition file_slots : list nat := seq 0 NFILE.

Fixpoint filealloc_loop (l : list nat) : K (option nat) :=
  match l with
  | [] => mret None
  | n :: l' =>
      f ← get_file n;
      if f_ref f =? 0 then upd_file n (set_f_ref 1) ;; mret (Some n)
      else filealloc_loop l'
  end.

Definition filealloc : K (option nat) :=
  acquire LkFtable ;;
  r ← filealloc_loop file_slots;
  release LkFtable ;;
  mret r.

Definition filedup (n : nat) : K nat :=
  acquire LkFtable ;;
  f ← get_file n;
  if f_ref f <? 1 then panic "filedup" else
  upd_file n (λ f, set_f_ref (i32 (f_ref f + 1)) f) ;;
  release LkFtable ;;
  mret n.

(** ** Pipes *)

Definition get_pipe (pi : Z) : K pipe := λ e s,
  match k_pipes s !! pi with Some p => Ok p e s | None => Fault end.

Definition upd_pipe (pi : Z) (g : pipe → pipe) : K unit := λ e s,
  match k_pipes s !! pi with
  | Some p => Ok tt e (set_k_pipes (<[pi := g p]> (k_pipes s)) s)
  | None => Fault
  end.

Section file.
Context `{Image} `{Disk}.

(** The page of a pipe goes back to the allocator. *)
Definition free_pipe (pi : Z) : K unit :=
  modify (λ s, set_k_pipes (delete pi (k_pipes s)) s) ;;
  kfree pi.

Definition pipeclose (pi : Z) (writable : bool) : K unit :=
  acquire (LkPipe pi) ;;
  (if writable then
     upd_pipe pi (set_pi_writeopen false) ;;
     wakeup (Some (ChPipeRead pi))
   else
     upd_pipe pi (set_pi_readopen false) ;;
     wakeup (Some (ChPipeWrite pi))) ;;
  p ← get_pipe pi;
  if negb (pi_readopen p) && negb (pi_writeopen p) then
    release (LkPipe pi) ;;
    free_pipe pi
  else release (LkPipe pi).

Definition fileclose (n : nat) : K unit :=
  acquire LkFtable ;;
  f ← get_file n;
  if f_ref f <? 1 then panic "fileclose" else
  upd_file n (λ f, set_f_ref (i32 (f_ref f - 1)) f) ;;
  ff ← get_file n;
  if 0 <? f_ref ff then release LkFtable else
  upd_file n (set_f_ref 0) ;;
  upd_file n (set_f_type FD_NONE) ;;
  release LkFtable ;;
  match f_type ff with
  | FD_PIPE => pipeclose (f_pipe ff) (f_writable ff)
  | FD_INODE | FD_DEVICE =>
      begin_op ;;
      ip ← deref (f_ip ff);
      iput ip ;;
      end_op
  | FD_NONE => mret tt
  end.

(** The fields that [pipealloc] sets in the two files. *)
Definition pipe_file (pi : Z) (writable : bool) (f : file) : file :=
  set_f_pipe pi (set_f_writable writable (set_f_readable (negb writable) (set_f_type FD_PIPE f))).

(** "bad": the files that were allocated are closed. *)
Definition pipealloc_bad (f0 f1 : option nat) : K (option (nat * nat)) :=
  match f0 with Some f => fileclose f | None => mret tt end ;;
  match f1 with Some f => fileclose f | None => mret tt end ;;
  mret None.

Definition pipealloc : K (option (nat * nat)) :=
  f0 ← filealloc;
  match f0 with
  | None => pipealloc_bad None None
  | Some rf =>
      f1 ← filealloc;
      match f1 with
      | None => pipealloc_bad (Some rf) None
      | Some wf =>
          pi ← kalloc;
          if pi =? 0 then pipealloc_bad (Some rf) (Some wf) else
          data ← gets (λ s, read_bytes (k_mem s) pi (Z.to_nat PIPESIZE));
          modify (λ s, set_k_pipes (<[pi := mkPipe data 0 0 true true]> (k_pipes s)) s) ;;
          initlock (LkPipe pi) ;;
          upd_file rf (pipe_file pi false) ;;
          upd_file wf (pipe_file pi true) ;;
          mret (Some (rf, wf))
      end
  end.

(** The loop of [pipewrite]: [inl] of a result with the lock released, or [inr i]
    at its end. *)
Fixpoint pipewrite_loop (fuel : nat) (pr : nat) (pi addr n i : Z) : K (Z + Z) :=
  if i <? n then
    match fuel with
    | O => no_fuel
    | S fuel' =>
        p ← get_pipe pi;
        k ← (if pi_readopen p then killed pr else mret 1);
        if negb (k =? 0) then
          release (LkPipe pi) ;;
          mret (inl (-1))
        else
        if pi_nwrite p =? u32 (pi_nread p + PIPESIZE) then
          wakeup (Some (ChPipeRead pi)) ;;
          sleep (ChPipeWrite pi) (LkPipe pi) ;;
          pipewrite_loop fuel' pr pi addr n i
        else
          q ← get_proc pr;
          r ← copyin (p_pagetable q) (u64 (addr + i)) 1;
          if r.1 =? -1 then mret (inr i) else
          ch ← index r.2 0;
          let j := pi_nwrite p mod PIPESIZE in
          _ ← index (pi_data p) j;
          upd_pipe pi (λ p, set_pi_data (<[Z.to_nat j := ch]> (pi_data p)) p) ;;
          upd_pipe pi (λ p, set_pi_nwrite (u32 (pi_nwrite p + 1)) p) ;;
          pipewrite_loop fuel' pr pi addr n (i + 1)
    end
  else mret (inr i).

Definition pipewrite (pi addr n : Z) : K Z :=
  pr ← this_proc;
  acquire (LkPipe pi) ;;
  r ← sleep_loop (λ fuel, pipewrite_loop (Z.to_nat n + fuel) pr pi addr n 0);
  match r with
  | inl v => mret v
  | inr i =>
      wakeup (Some (ChPipeRead pi)) ;;
      release (LkPipe pi) ;;
      mret i
  end.

(** [while(pi->nread == pi->nwrite && pi->writeopen)]: was the process killed? *)
Fixpoint pipe_wait (fuel : nat) (pr : nat) (pi : Z) : K bool :=
  match fuel with
  | O => no_fuel
  | S fuel' =>
      p ← get_pipe pi;
      if (pi_nread p =? pi_nwrite p) && pi_writeopen p then
        k ← killed pr;
        if negb (k =? 0) then mret true else
        sleep (ChPipeRead pi) (LkPipe pi) ;;
        pipe_wait fuel' pr pi
      else mret false
  end.

(** The copying loop of [piperead], with [n] more bytes wanted. *)
Fixpoint piperead_loop (n : nat) (pr : nat) (pi addr i : Z) : K Z :=
  match n with
  | O => mret i
  | S n' =>
      p ← get_pipe pi;
      if pi_nread p =? pi_nwrite p then mret i else
      ch ← index (pi_data p) (pi_nread p mod PIPESIZE);
      upd_pipe pi (λ p, set_pi_nread (u32 (pi_nread p + 1)) p) ;;
      q ← get_proc pr;
      r ← copyout (p_pagetable q) (u64 (addr + i)) [ch];
      if r =? -1 then mret i else
      piperead_loop n' pr pi addr (i + 1)
  end.

Definition piperead (pi addr n : Z) : K Z :=
  pr ← this_proc;
  acquire (LkPipe pi) ;;
  k ← sleep_loop (λ fuel, pipe_wait fuel pr pi);
  if (k : bool) then
    release (LkPipe pi) ;;
    mret (-1)
  else
  i ← piperead_loop (Z.to_nat n) pr pi addr 0;
  wakeup (Some (ChPipeWrite pi)) ;;
  release (LkPipe pi) ;;
  mret i.

(** ** Operations on open files *)

Definition filestat (n : nat) (addr : Z) : K Z :=
  i ← this_proc;
  f ← get_file n;
  match f_type f with
  | FD_INODE | FD_DEVICE =>
      ilock (f_ip f) ;;
      ip ← deref (f_ip f);
      st ← stati ip;
      iunlock (f_ip f) ;;
      p ← get_proc i;
      r ← copyout (p_pagetable p) addr st;
      mret (if r <? 0 then -1 else 0)
  | _ => mret (-1)
  end.

(** [devsw[major]] has functions. *)
Definition has_dev (major : Z) : K bool :=
  if (major <? 0) || (NDEV <=? major) then mret false else
  d ← gets k_devsw;
  index d major.

Definition fileread (n : nat) (addr cnt : Z) : K Z :=
  f ← get_file n;
  if negb (f_readable f) then mret (-1) else
  match f_type f with
  | FD_PIPE => piperead (f_pipe f) addr cnt
  | FD_DEVICE =>
      d ← has_dev (f_major f);
      if negb d then mret (-1) else consoleread (AtUser addr) cnt
  | FD_INODE =>
      ilock (f_ip f) ;;
      ip ← deref (f_ip f);
      f ← get_file n;
      r ← readi ip (AtUser addr) (f_off f) (u32 cnt);
      when (0 <? r.1) (upd_file n (λ f, set_f_off (u32 (f_off f + r.1)) f)) ;;
      iunlock (f_ip f) ;;
      mret r.1
  | FD_NONE => panic "fileread"
  end.

(** [((MAXOPBLOCKS-1-1-2) / 2) * BSIZE] *)
Definition filewrite_max : Z := (MAXOPBLOCKS - 1 - 1 - 2) / 2 * BSIZE.

(** The loop of [filewrite] on an inode: the final [i]. *)
Fixpoint filewrite_loop (fuel : nat) (n : nat) (addr cnt i : Z) : K Z :=
  if i <? cnt then
    match fuel with
    | O => no_fuel
    | S fuel' =>
        let n1 := Z.min (cnt - i) filewrite_max in
        begin_op ;;
        f ← get_file n;
        ilock (f_ip f) ;;
        ip ← deref (f_ip f);
        f ← get_file n;
        r ← writei ip (FromUser (u64 (addr + i))) (f_off f) (u32 n1);
        when (0 <? r) (upd_file n (λ f, set_f_off (u32 (f_off f + r)) f)) ;;
        iunlock (f_ip f) ;;
        end_op ;;
        if negb (r =? n1) then mret i
        else filewrite_loop fuel' n addr cnt (i + r)
    end
  else mret i.

Definition filewrite (n : nat) (addr cnt : Z) : K Z :=
  f ← get_file n;
  if negb (f_writable f) then mret (-1) else
  match f_type f with
  | FD_PIPE => pipewrite (f_pipe f) addr cnt
  | FD_DEVICE =>
      d ← has_dev (f_major f);
      if negb d then mret (-1) else consolewrite (FromUser addr) cnt
  | FD_INODE =>
      i ← filewrite_loop (Z.to_nat (cnt / filewrite_max + 1)) n addr cnt 0;
      mret (if i =? cnt then cnt else -1)
  | FD_NONE => panic "filewrite"
  end.

End file.
