(* ===== verification/PipeProps.v ===== *)
(** * Pipes: properties

    A pipe is a bounded first-in first-out queue.  Its two counters are [uint]s that
    are never reset; since [PIPESIZE] divides 2^32, the queue survives their overflow. *)

From S2P Require Import Prelude Bytes Memory Riscv Data State Spinlock Table Mlfq MlfqFacts Kalloc KallocProps Vm VmFacts VmCopy VmProps Proc Bio File.

Local Open Scope Z_scope.

(** ** The queue *)

Definition fill (p : pipe) : Z := u32 (pi_nwrite p - pi_nread p).

(** The byte at a position of the stream. *)
Definition stream_byte (p : pipe) (x : Z) : Z := default 0 (pi_data p !! Z.to_nat (x mod PIPESIZE)).

(** The bytes that were written and not yet read. *)
Definition queue (p : pipe) : list Z := (λ k, stream_byte p (pi_nread p + k)) <$> seqZ 0 (fill p).

Record pipe_ok (p : pipe) : Prop := {
  po_nread : is_u32 (pi_nread p);
  po_nwrite : is_u32 (pi_nwrite p);
  po_fill : fill p ≤ PIPESIZE;
  po_data : length (pi_data p) = Z.to_nat PIPESIZE;
}.

Lemma length_queue p : Z.of_nat (length (queue p)) = fill p.
Proof.
  unfold queue. rewrite length_fmap, length_seqZ. pose proof (u32_range (pi_nwrite p - pi_nread p)) as H.
  unfold is_u32, fill in *. lia.
Qed.

Lemma u32_pipe x : u32 x mod PIPESIZE = x mod PIPESIZE.
Proof. unfold u32, PIPESIZE. zdiv. Qed.


Lemma fill_empty p : pipe_ok p → (pi_nread p =? pi_nwrite p) = (fill p =? 0).
Proof.
  intros [Hr Hw _ _]. unfold fill, u32, is_u32 in *. apply eq_true_iff_eq. rewrite !Z.eqb_eq. zdiv.
Qed.


(** [pi->nread++] *)
Definition popped (p : pipe) : pipe := set_pi_nread (u32 (pi_nread p + 1)) p.


Lemma fill_popped p : 0 < fill p → fill (popped p) = fill p - 1.
Proof. unfold fill, popped, u32. cbn. zdiv. Qed.





Lemma queue_popped p :
  pipe_ok p → 0 < fill p → pipe_ok (popped p) ∧ queue p = stream_byte p (pi_nread p) :: queue (popped p).
Proof.
  intros Hp Hf. pose proof (fill_popped p Hf) as E. pose proof Hp as [Hr Hw Hm Hd]. split.
  { constructor; [apply u32_range|done|lia|done]. }
  unfold queue. rewrite E. replace (fill p) with (1 + (fill p - 1)) at 1 by lia.
  rewrite seqZ_app, fmap_app by lia. change (seqZ 0 1) with [0]. cbn [fmap list_fmap app]. f_equal; [f_equal; lia|].
  apply list_eq. intros i. rewrite !list_lookup_fmap. unfold seqZ. rewrite !list_lookup_fmap.
  destruct (seq 0 _ !! i) as [k|]; [|done]. cbn. f_equal. unfold stream_byte. cbn.
  f_equal. f_equal. f_equal. rewrite <-(Z.add_mod_idemp_l (u32 _)), u32_pipe, Z.add_mod_idemp_l by done.
  f_equal. lia.
Qed.

Section pipes.
Context {Im : Image} {HIm : ImageOk}.

(** ** Single bytes of user memory *)



Context (pi addr n : Z) (pr : nat) (t : ptable).

Notation lk := (LkPipe pi).

(** The state with another pipe in the place of this one. *)
Definition with_pipe (p : pipe) (s : kstate) : kstate := set_k_pipes (<[pi := p]> (k_pipes s)) s.

Lemma returns_get_pipe p s : k_pipes s !! pi = Some p → returns (get_pipe pi) (locked lk s) p (locked lk s).
Proof. intros Hp e. unfold get_pipe. cbn. by rewrite Hp. Qed.

Lemma returns_upd_pipe f p s :
  k_pipes s !! pi = Some p → returns (upd_pipe pi f) (locked lk s) tt (locked lk (with_pipe (f p) s)).
Proof. intros Hp e. unfold upd_pipe. cbn. by rewrite Hp. Qed.


(** The pipe is [p], and [t] is the page table of the process. *)
Record serves (s : kstate) (p : pipe) : Prop := {
  sv_quiet : quiet s;
  sv_proc : ∃ q, k_procs s !! pr = Some q ∧ p_pagetable q = pt_root t;
  sv_pipe : k_pipes s !! pi = Some p;
  sv_ok : pipe_ok p;
}.

(** The process was not killed. *)
Definition alive (s : kstate) : Prop := ∀ q, k_procs s !! pr = Some q → p_killed q = 0.

Lemma serves_with p' s p : serves s p → pipe_ok p' → serves (with_pipe p' s) p'.
Proof. intros [Hq Hp Hpi Hok] Hok'. constructor; [done|done|cbn; by rewrite lookup_insert_eq|done]. Qed.

(** ** pipewrite *)





(** ** piperead *)

(** The memory that a state is left with. *)
Definition with_mem (m : mem) (fl : Z) (s : kstate) : kstate := set_k_freelist fl (set_k_mem m s).

Lemma heap_locked s l : heap s t l → heap (locked lk s) t l.
Proof.
  intros (Hr & Hu & Hrest). split; [by apply ready_locked|]. split; [by apply unlocked_locked|exact Hrest].
Qed.

(** [copyout] of one byte, where the mapping is [f]. *)
Lemma copyout_byte va c s l f :
  heap s t l → (∀ w, pte_of (k_mem s) t w = f w) → user_safe f t l → user_inj f → 0 ≤ va →
  ∃ r m fl, returns (copyout (pt_root t) va [c]) (locked lk s) r (locked lk (with_mem m fl s)) ∧
    heap (with_mem m fl s) t l ∧ (∀ w, pte_of m t w = f w) ∧
    (∀ a, phys user_wpage f va ≠ Some a → byte_at m a = byte_at (k_mem s) a) ∧
    match phys user_wpage f va with Some a => r = 0 ∧ byte_at m a = u8 c | None => r = -1 end.
Proof.
  intros Hh Hf Hsafe Hinj Hva.
  destruct (returns_copyout va [c] t l (locked lk s)) as (r & s' & Hret & Hm & Hh' & Hp & Hsame & Hr).
  { by apply heap_locked. }
  { intros w Hw. cbn [k_mem locked set_k_locks on_cpu set_k_cpus]. rewrite Hf. by apply Hsafe. }
  { intros w w' a. cbn [k_mem locked set_k_locks on_cpu set_k_cpus]. unfold phys. rewrite !Hf. apply Hinj. }
  { done. }
  cbn [length] in Hsame, Hr. exists r, (k_mem s'), (k_freelist s'). split; [by eapply returns_to|]. split_and!.
  - destruct Hh as (Hr0 & Hu0 & _), Hh' as (_ & _ & Hrest). done.
  - intros w. rewrite Hp. apply Hf.
  - intros a Ha. apply Hsame. intros i Hi. replace (va + i) with va by lia. by rewrite (phys_ext _ f).
  - destruct Hr as [[-> Hr]|[-> (i & Hi & Hno)]].
    + destruct (Hr 0%nat c eq_refl) as (a & Ha & Hb). rewrite Z.add_0_r, (phys_ext _ f) in Ha by done. by rewrite Ha.
    + replace (va + i) with va in Hno by lia. rewrite (phys_ext _ f) in Hno by done. by rewrite Hno.
Qed.

(** Of the bytes [q] and [want] places at [va], [r] bytes were delivered, and [q'] is left.  A byte
    that cannot be delivered is lost. *)
Record took (f : Z → Z) (q : list Z) (va : Z) (want r : nat) (m m' : mem) (q' : list Z) : Prop := {
  tk_count : (r ≤ want `min` length q)%nat;
  tk_seen k c : take r q !! k = Some c →
    ∃ a, phys user_wpage f (va + Z.of_nat k) = Some a ∧ byte_at m' a = u8 c;
  tk_frame a : (∀ k, 0 ≤ k < Z.of_nat want → phys user_wpage f (va + k) ≠ Some a) → byte_at m' a = byte_at m a;
  tk_rest : r = (want `min` length q)%nat ∧ q' = drop r q ∨
    (r < want `min` length q)%nat ∧ q' = drop (S r) q ∧ phys user_wpage f (va + Z.of_nat r) = None;
}.

Lemma took_none f q va want m : want = 0%nat ∨ q = [] → took f q va want 0 m m q.
Proof.
  intros He. constructor; [lia|done|done|]. left. split; [|done]. destruct He as [->| ->]; cbn; lia.
Qed.

Lemma took_lost f c q va want m m' :
  phys user_wpage f va = None → (∀ a, byte_at m' a = byte_at m a) → took f (c :: q) va (S want) 0 m m' q.
Proof.
  intros Hno Hm. constructor; [cbn; lia|done|auto|]. right. cbn [drop length]. rewrite Z.add_0_r. split_and!; [lia|done|done].
Qed.

Lemma took_cons f c q va want r m m1 m2 q' a :
  user_inj f → 0 ≤ va → phys user_wpage f va = Some a → byte_at m1 a = u8 c →
  (∀ b, a ≠ b → byte_at m1 b = byte_at m b) →
  took f q (va + 1) want r m1 m2 q' → took f (c :: q) va (S want) (S r) m m2 q'.
Proof.
  intros Hinj Hva Ha Hc Hm [Hcount Hseen Hframe Hrest]. constructor.
  - cbn [length]. lia.
  - intros [|k] c' Hk; cbn [take] in Hk.
    + injection Hk as <-. exists a. rewrite Z.add_0_r. split; [done|]. rewrite Hframe; [done|].
      intros k Hk Hk'. pose proof (Hinj va (va + 1 + k) a Hva ltac:(lia) Ha Hk'). lia.
    + destruct (Hseen k c' Hk) as (b & Hb & Ec). exists b. split; [|done]. rewrite <-Hb. f_equal. lia.
  - intros b Hb. rewrite Hframe.
    + apply Hm. intros <-. apply (Hb 0); [lia|]. by rewrite Z.add_0_r.
    + intros k Hk. replace (va + 1 + k) with (va + (k + 1)) by lia. apply Hb. lia.
  - cbn [length drop]. destruct Hrest as [[Er Eq]|(Hr & Eq & Hno)]; [left|right]; split; try done; [lia|lia|].
    split; [done|]. rewrite <-Hno. f_equal. lia.
Qed.

(** A turn of the loop that finds a byte, up to the result [r] of [copyout]. *)
Lemma piperead_turn want s p i r s1 res s2 :
  serves s p → 0 < fill p → 0 ≤ addr + i < 2 ^ 64 →
  returns (copyout (pt_root t) (addr + i) [stream_byte p (pi_nread p)]) (locked lk (with_pipe (popped p) s)) r s1 →
  returns (if r =? -1 then mret i else piperead_loop want pr pi addr (i + 1)) s1 res s2 →
  returns (piperead_loop (S want) pr pi addr i) (locked lk s) res s2.
Proof.
  intros [Hq (q & Hpr & Hpt) Hpi Hok] Hf Hi Hcopy Hrest. cbn [piperead_loop].
  eapply returns_bind; [by apply returns_get_pipe|]. rewrite fill_empty, (proj2 (Z.eqb_neq _ _)) by (done || lia).
  pose proof (Z.mod_pos_bound (pi_nread p) PIPESIZE ltac:(done)) as Hj.
  destruct (lookup_lt_is_Some_2 (pi_data p) (Z.to_nat (pi_nread p mod PIPESIZE))) as [c Hc].
  { rewrite (po_data _ Hok). lia. }
  unfold stream_byte in Hcopy. rewrite Hc in Hcopy.
  eapply returns_bind; [apply returns_index; [lia|exact Hc]|].
  eapply returns_bind; [by apply returns_upd_pipe|].
  eapply returns_bind; [apply returns_get_proc; exact Hpr|]. rewrite Hpt, u64_small by done.
  eapply returns_bind; [exact Hcopy|exact Hrest].
Qed.

Lemma piperead_loop_ok l f :
  user_safe f t l → user_inj f → 0 ≤ addr → ∀ want s p i,
  serves s p → heap s t l → (∀ w, pte_of (k_mem s) t w = f w) → 0 ≤ i → addr + i + Z.of_nat want ≤ 2 ^ 64 →
  ∃ r p' m fl, returns (piperead_loop want pr pi addr i) (locked lk s) (i + Z.of_nat r)
      (locked lk (with_pipe p' (with_mem m fl s))) ∧
    heap (with_mem m fl s) t l ∧ pipe_ok p' ∧ took f (queue p) (addr + i) want r (k_mem s) m (queue p') ∧
    pi_readopen p' = pi_readopen p ∧ pi_writeopen p' = pi_writeopen p.
Proof.
  intros Hsafe Hinj Ha. induction want as [|want IH]; intros s p i Hs Hh Hf Hi Hn.
  all: pose proof (length_queue p) as Hl; pose proof (sv_ok _ _ Hs) as Hok.
  all: assert (with_pipe p (with_mem (k_mem s) (k_freelist s) s) = s) as Hid
    by (unfold with_pipe; cbn; rewrite insert_id by apply Hs; by destruct s).
  { exists 0%nat, p, (k_mem s), (k_freelist s). rewrite Z.add_0_r, Hid.
    split_and!; [apply returns_ret|done|done|apply took_none; by left|done|done]. }
  destruct (decide (fill p = 0)) as [E|E].
  { exists 0%nat, p, (k_mem s), (k_freelist s). rewrite Z.add_0_r, Hid.
    split_and!; [|done|done|apply took_none; right; apply length_zero_iff_nil; lia|done|done].
    cbn [piperead_loop]. eapply returns_bind; [apply returns_get_pipe, Hs|].
    rewrite fill_empty, (proj2 (Z.eqb_eq _ _)) by done. apply returns_ret. }
  destruct (queue_popped p Hok ltac:(lia)) as [Hok1 Hq1]. rewrite Hq1.
  pose proof (serves_with (popped p) s p Hs Hok1) as Hs1.
  destruct (copyout_byte (addr + i) (stream_byte p (pi_nread p)) (with_pipe (popped p) s) l f)
    as (r & m & fl & Hret & Hh1 & Hf1 & Hsame & Hr); [done..|lia|].
  destruct (phys user_wpage f (addr + i)) as [a|] eqn:Hphys.
  - destruct Hr as [-> Hb].
    destruct (IH (with_mem m fl (with_pipe (popped p) s)) (popped p) (i + 1))
      as (r & p' & m' & fl' & Hret' & Hh' & Hok' & Ht & Hro & Hwo); [by destruct Hs1|done|done|lia|lia|].
    exists (S r), p', m', fl'. split_and!; [|done|done| |done|done].
    + replace (i + Z.of_nat (S r)) with (i + 1 + Z.of_nat r) by lia.
      eapply piperead_turn; [done|lia|lia|exact Hret|]. cbn [Z.eqb].
      eapply returns_to; [exact Hret'|]. unfold with_pipe. cbn. by rewrite insert_insert_eq.
    + eapply took_cons; [done|lia|done|exact Hb| |].
      * intros b Hne. apply Hsame. congruence.
      * by rewrite <-Z.add_assoc.
  - exists 0%nat, (popped p), m, fl. rewrite Z.add_0_r. split_and!; [|done|done| |done|done].
    + eapply piperead_turn; [done|lia|lia|exact Hret|]. rewrite Hr. apply returns_ret.
    + apply took_lost; [done|]. intros a. by apply Hsame.
Qed.

(** ** The two operations *)

(** The state after [wakeup(ch)]. *)
Definition woken (ch : chan) (s : kstate) : kstate :=
  set_k_procs (imap (awakened (curproc s) (Some ch)) (k_procs s)) s.

(** The end of both: the other side is woken up, and the lock released. *)
Lemma pipe_end {A} ch (a : A) s :
  quiet s → unlocked lk s →
  returns (wakeup (Some ch) ;; release lk ;; mret a) (locked lk s) a (woken ch s).
Proof.
  intros Hq Hu. eapply returns_bind; [apply returns_wakeup; by apply quiet_locked|]. rewrite curproc_locked.
  eapply returns_bind; [apply (returns_release_from lk _ (woken ch s)); [done|apply Hq|done]|]. apply returns_ret.
Qed.


(** C29: [piperead] of a pipe that is not empty, or whose writers are gone, takes bytes from the
    front of the queue, as many as are wanted and there, stores them in the memory of the
    user, wakes up the writers and returns their number.  If the user cannot
    write one of the places, it stops there, and the byte for this place is lost. *)
Theorem piperead_takes s p l want :
  let f := pte_of (k_mem s) t in
  serves s p → curproc s = Some pr → unlocked lk s → heap s t l → user_safe f t l → user_inj f →
  0 < fill p ∨ pi_writeopen p = false → 0 ≤ addr → addr + Z.of_nat want ≤ 2 ^ 64 →
  ∃ r p' m fl, returns (piperead pi addr (Z.of_nat want)) s (Z.of_nat r)
      (woken (ChPipeWrite pi) (with_pipe p' (with_mem m fl s))) ∧
    heap (with_mem m fl s) t l ∧ pipe_ok p' ∧ took f (queue p) addr want r (k_mem s) m (queue p') ∧
    pi_readopen p' = pi_readopen p ∧ pi_writeopen p' = pi_writeopen p.
Proof.
  intros f Hs Hc Hu Hh Hsafe Hinj Hne Ha Hn. pose proof (sv_quiet _ _ Hs) as Hq. pose proof (proj1 Hq) as Hr.
  destruct (piperead_loop_ok l f Hsafe Hinj Ha want s p 0 Hs Hh) as (r & p' & m & fl & Hret & Hh' & Hok & Ht & Hopen);
    [done|lia|lia|]. rewrite Z.add_0_r in Ht.
  exists r, p', m, fl. split; [|done]. unfold piperead. eapply returns_bind; [by apply returns_this_proc|].
  eapply returns_bind; [by apply returns_acquire|]. eapply returns_bind; [apply (returns_sleep_loop _ _ false)|].
  - intros x. cbn [pipe_wait]. eapply returns_bind; [apply returns_get_pipe, Hs|]. rewrite fill_empty by apply Hs.
    replace ((fill p =? 0) && pi_writeopen p) with false; [apply returns_ret|].
    destruct Hne as [Hne| ->]; [by rewrite (proj2 (Z.eqb_neq _ _)) by lia|by rewrite andb_false_r].
  - cbv iota. rewrite Nat2Z.id. eapply returns_bind; [exact Hret|]. by apply pipe_end.
Qed.
End pipes.

(** ** Examples: a process with one page *)

#[local] Existing Instance example_image.
#[local] Existing Instance example_image_ok.

(** The process 0, with the page table at [root], runs and finds the pipe [p] at 0x80200000. *)
Definition pipe_user (root : Z) (p : pipe) (s : kstate) : kstate :=
  set_k_procs (set_p_pagetable root zero_proc :: replicate 63 zero_proc)
    (set_k_locks ∅ (set_k_pipes {[0x80200000 := p]} (on_cpu (λ _, mkCpu (Some 0%nat) 0 false false) s))).

Lemma pipe_user_ok t l p s :
  heap s t l → pipe_ok p → let s1 := pipe_user (pt_root t) p s in
  serves 0x80200000 0 t s1 p ∧ curproc s1 = Some 0%nat ∧ alive 0 s1 ∧
  unlocked (LkPipe 0x80200000) s1 ∧ heap s1 t l.
Proof.
  intros ((c & Hc & _) & _ & Hf & Hrep & Hnd) Hok s1.
  assert (k_cpus s1 !! k_hart s1 = Some (mkCpu (Some 0%nat) 0 false false)) as Hcpu by (apply (on_cpu_lookup _ s c Hc)).
  assert (ready s1) as Hr by (by eexists).
  split_and!; [|by unfold curproc; rewrite Hcpu|by intros q [= <-]|done|].
  - constructor; [|by eexists|apply lookup_singleton_eq|done]. split_and!; [done|done|done].
  - split_and!; done.
Qed.

(** A pipe whose counters are about to overflow, with the byte 7 in it. *)
Definition old_pipe : pipe := mkPipe (replicate 511 0 ++ [7]) (2 ^ 32 - 1) 0 true true.

Lemma old_pipe_ok : pipe_ok old_pipe.
Proof. by constructor. Qed.


Lemma piperead_takes_witness : ∃ s s' r,
  returns (piperead 0x80200000 10 5) s r s' ∧ r = 1.
Proof.
  destruct example_user as (s & t & l & Hh & Hsafe & Hinj & Hphys).
  destruct (pipe_user_ok t l old_pipe s Hh old_pipe_ok) as (Hs & Hc & Hk & Hu & Hh1).
  destruct (piperead_takes 0x80200000 10 0 t (pipe_user (pt_root t) old_pipe s) old_pipe l 5)
    as (r & p' & m & fl & Hret & _ & _ & Ht & _); [done..|by left|done|done|].
  eexists _, _, _. split; [exact Hret|]. destruct (Hphys 10) as [a Ha]; [done|].
  destruct (tk_rest _ _ _ _ _ _ _ _ Ht) as [[-> _]|(Hlt & _ & Hno)]; [done|].
  change (length (queue old_pipe)) with 1%nat in Hlt. assert (r = 0%nat) as -> by lia.
  rewrite Z.add_0_r in Hno. exfalso. assert (Some a = None) as [=]. rewrite <-Ha, <-Hno. done.
Defined.
