(* ===== verification/Exec.v ===== *)
(** * Program loading ([kernel/exec.c]) *)

From S2P Require Import Prelude Bytes Memory Riscv Data State Spinlock Kalloc Vm Mlfq Uart Proc Sleeplock Bio Log Fs.

Local Open Scope Z_scope.

(** ** The ELF format ([kernel/elf.h]) *)

Definition ELF_MAGIC : Z := 0x464C457F.
Definition ELF_PROG_LOAD : Z := 1.
Definition sizeof_elfhdr : Z := 64.
Definition sizeof_proghdr : Z := 56.

Definition elf_magic (l : list Z) : Z := get32 l 0.
Definition elf_entry (l : list Z) : Z := get64 l 24.
Definition elf_phoff (l : list Z) : Z := get64 l 32.
Definition elf_phnum (l : list Z) : Z := get16 l 56.

Definition ph_type (l : list Z) : Z := get32 l 0.
Definition ph_flags (l : list Z) : Z := get32 l 4.
Definition ph_off (l : list Z) : Z := get64 l 8.
Definition ph_vaddr (l : list Z) : Z := get64 l 16.
Definition ph_filesz (l : list Z) : Z := get64 l 32.
Definition ph_memsz (l : list Z) : Z := get64 l 40.

Definition flags2perm (flags : Z) : Z :=
  let perm := if has_flag flags 1 then PTE_X else 0 in
  if has_flag flags 2 then Z.lor perm PTE_W else perm.

(** The part of a path after the last slash, in a NUL-terminated string. *)
Fixpoint last_elem (l last : list Z) : list Z :=
  match l with
  | [] => last
  | c :: l' =>
      if c =? 0 then last
      else if c =? chr "/" then last_elem l' l' else last_elem l' last
  end.

Section exec.
Context `{Image} `{Disk}.

Fixpoint loadseg_loop (fuel : nat) (pagetable va : Z) (ip : nat) (offset sz i : Z) : K Z :=
  if i <? sz then
    match fuel with
    | O => no_fuel
    | S fuel' =>
        pa ← walkaddr pagetable (u64 (va + i));
        if pa =? 0 then panic "loadseg: address should exist" else
        let n := if sz - i <? PGSIZE then sz - i else PGSIZE in
        r ← readi ip (AtPhys pa) (u32 (offset + i)) n;
        if negb (r.1 =? n) then mret (-1)
        else loadseg_loop fuel' pagetable va ip offset sz (u32 (i + PGSIZE))
    end
  else mret 0.

Definition loadseg (pagetable va : Z) (ip : nat) (offset sz : Z) : K Z :=
  loadseg_loop (Z.to_nat (sz / PGSIZE + 1)) pagetable va ip offset sz 0.

(** "bad": the new page table is freed and the inode released. *)
Definition exec_bad (pagetable sz : Z) (ip : option nat) : K Z :=
  when (negb (pagetable =? 0)) (proc_freepagetable pagetable sz) ;;
  match ip with
  | Some ip => iunlockput ip ;; end_op
  | None => mret tt
  end ;;
  mret (-1).

(** The loop over the program headers: [inr] of the size reached, or [inl] of the
    size where it failed. *)
Fixpoint load_segments (phnum : nat) (pagetable : Z) (ip : nat) (off sz : Z) : K (Z + Z) :=
  match phnum with
  | O => mret (inr sz)
  | S phnum' =>
      r ← readi ip AtKernelObject (u32 off) sizeof_proghdr;
      if negb (r.1 =? sizeof_proghdr) then mret (inl sz) else
      let ph := r.2 in
      if negb (ph_type ph =? ELF_PROG_LOAD)
      then load_segments phnum' pagetable ip (i32 (off + sizeof_proghdr)) sz else
      if ph_memsz ph <? ph_filesz ph then mret (inl sz) else
      if u64 (ph_vaddr ph + ph_memsz ph) <? ph_vaddr ph then mret (inl sz) else
      if negb (ph_vaddr ph mod PGSIZE =? 0) then mret (inl sz) else
      sz1 ← uvmalloc pagetable sz (u64 (ph_vaddr ph + ph_memsz ph)) (flags2perm (ph_flags ph));
      if sz1 =? 0 then mret (inl sz) else
      l ← loadseg pagetable (ph_vaddr ph) ip (u32 (ph_off ph)) (u32 (ph_filesz ph));
      if l <? 0 then mret (inl sz1) else
      load_segments phnum' pagetable ip (i32 (off + sizeof_proghdr)) sz1
  end.

(** The loop that pushes the argument strings: [argc], [sp] and [ustack]. *)
Fixpoint push_args (fuel : nat) (pagetable stackbase : Z) (argv : list Z)
    (argc sp : Z) (ustack : list Z) : K (option (Z * Z * list Z)) :=
  arg ← index argv argc;
  if arg =? 0 then mret (Some (argc, sp, ustack)) else
  match fuel with
  | O => no_fuel
  | S fuel' =>
      if Z.of_nat MAXARG <=? argc then mret None else
      str ← gets (λ s, read_bytes (k_mem s) arg (Z.to_nat PGSIZE));
      len ← deref (strlen str);
      let sp := u64 (sp - (Z.of_nat len + 1)) in
      let sp := sp - sp mod 16 in
      if sp <? stackbase then mret None else
      r ← copyout pagetable sp (take (S len) str);
      if r <? 0 then mret None else
      push_args fuel' pagetable stackbase argv (argc + 1) sp (ustack ++ [sp])
  end.

(** The user stack: a guard page, the strings and the array of pointers to them.
    [None] if it does not fit. *)
Definition build_stack (pagetable sz : Z) (argv : list Z) : K (option (Z * Z)) :=
  uvmclear pagetable (u64 (sz - 2 * PGSIZE)) ;;
  let stackbase := u64 (sz - PGSIZE) in
  r ← push_args (length argv) pagetable stackbase argv 0 sz [];
  match r with
  | None => mret None
  | Some (argc, sp, ustack) =>
      let sp := u64 (sp - (argc + 1) * 8) in
      let sp := sp - sp mod 16 in
      if sp <? stackbase then mret None else
      r ← copyout pagetable sp (concat (map (le 8) (ustack ++ [0])));
      mret (if r <? 0 then None else Some (argc, sp))
  end.

(** [path] is a NUL-terminated string; [argv] an array of pointers to pages that
    hold the arguments. *)
Definition exec (path argv : list Z) : K Z :=
  i ← this_proc;
  begin_op ;;
  o ← namei path;
  match o with
  | None => end_op ;; mret (-1)
  | Some ip =>
      ilock (Some ip) ;;
      r ← readi ip AtKernelObject 0 sizeof_elfhdr;
      if negb (r.1 =? sizeof_elfhdr) then exec_bad 0 0 (Some ip) else
      let elf := r.2 in
      if negb (elf_magic elf =? ELF_MAGIC) then exec_bad 0 0 (Some ip) else
      pagetable ← proc_pagetable i;
      if pagetable =? 0 then exec_bad 0 0 (Some ip) else
      r ← load_segments (Z.to_nat (elf_phnum elf)) pagetable ip (i32 (elf_phoff elf)) 0;
      match r with
      | inl sz => exec_bad pagetable sz (Some ip)
      | inr sz =>
          iunlockput ip ;;
          end_op ;;
          i ← this_proc;
          p ← get_proc i;
          let oldsz := p_sz p in
          let sz := PGROUNDUP sz in
          sz1 ← uvmalloc pagetable sz (u64 (sz + 2 * PGSIZE)) PTE_W;
          if sz1 =? 0 then exec_bad pagetable sz None else
          r ← build_stack pagetable sz1 argv;
          match r with
          | None => exec_bad pagetable sz1 None
          | Some (argc, sp) =>
              set_tf i tf_a1 sp ;;
              name ← deref (safestrcpy (p_name p) (last_elem path path) 16);
              upd_proc i (set_p_name name) ;;
              let oldpagetable := p_pagetable p in
              upd_proc i (set_p_pagetable pagetable) ;;
              upd_proc i (set_p_sz sz1) ;;
              set_tf i tf_epc (elf_entry elf) ;;
              set_tf i tf_sp sp ;;
              proc_freepagetable oldpagetable oldsz ;;
              mret argc
          end
      end
  end.

End exec.
