(* ===== verification/Process.v ===== *)
(** * Processes and files ([kernel/proc.c])

    The functions of the process table that use the file system. *)

From S2P Require Import Prelude Bytes Memory Riscv Data State Spinlock Kalloc Vm Mlfq Uart Proc Sleeplock Bio Log Fs Console File.

Local Open Scope Z_scope.

Definition initcode : list Z :=
  [0x17; 0x05; 0x00; 0x00; 0x13; 0x05; 0x45; 0x02;
   0x97; 0x05; 0x00; 0x00; 0x93; 0x85; 0x35; 0x02;
   0x93; 0x08; 0x70; 0x00; 0x73; 0x00; 0x00; 0x00;
   0x93; 0x08; 0x20; 0x00; 0x73; 0x00; 0x00; 0x00;
   0xef; 0xf0; 0x9f; 0xff; 0x2f; 0x69; 0x6e; 0x69;
   0x74; 0x00; 0x00; 0x24; 0x00; 0x00; 0x00; 0x00;
   0x00; 0x00; 0x00; 0x00].

Definition file_descriptors : list nat := seq 0 NOFILE.

Section process.
Context `{Image} `{Disk}.

Definition userinit : K unit :=
  o ← allocproc;
  modify (set_k_initproc o) ;;
  i ← deref o;
  p ← get_proc i;
  uvmfirst (p_pagetable p) initcode ;;
  upd_proc i (set_p_sz PGSIZE) ;;
  set_tf i tf_epc 0 ;;
  set_tf i tf_sp PGSIZE ;;
  p ← get_proc i;
  name ← deref (safestrcpy (p_name p) (bytes "initcode" ++ [0]) 16);
  upd_proc i (set_p_name name) ;;
  cwd ← namei (bytes "/" ++ [0]);
  upd_proc i (set_p_cwd cwd) ;;
  upd_proc i (set_p_state RUNNABLE) ;;
  release (LkProc i).

(** [np->ofile[fd] = filedup(p->ofile[fd])] *)
Definition dup_fd (i np fd : nat) : K unit :=
  p ← get_proc i;
  o ← deref (p_ofile p !! fd);
  match o with
  | None => mret tt
  | Some f =>
      f ← filedup f;
      upd_proc np (λ q, set_p_ofile (<[fd := Some f]> (p_ofile q)) q)
  end.

Definition fork : K Z :=
  i ← this_proc;
  o ← allocproc;
  match o with
  | None => mret (-1)
  | Some np =>
      p ← get_proc i;
      q ← get_proc np;
      r ← uvmcopy (p_pagetable p) (p_pagetable q) (p_sz p);
      if r <? 0 then
        freeproc np ;;
        release (LkProc np) ;;
        mret (-1)
      else
      p ← get_proc i;
      upd_proc np (set_p_sz (p_sz p)) ;;
      if p_trapframe p =? 0 then fault else
      q ← get_proc np;
      move (p_trapframe q) (p_trapframe p) (Z.to_nat sizeof_trapframe) ;;
      set_tf np tf_a0 0 ;;
      for_each file_descriptors (dup_fd i np) ;;
      p ← get_proc i;
      cwd ← deref (p_cwd p);
      cwd ← idup cwd;
      upd_proc np (set_p_cwd (Some cwd)) ;;
      q ← get_proc np;
      name ← deref (safestrcpy (p_name q) (p_name p) 16);
      upd_proc np (set_p_name name) ;;
      q ← get_proc np;
      let pid := p_pid q in
      release (LkProc np) ;;
      acquire LkWait ;;
      upd_proc np (set_p_parent (Some i)) ;;
      release LkWait ;;
      acquire (LkProc np) ;;
      upd_proc np (set_p_state RUNNABLE) ;;
      release (LkProc np) ;;
      mret pid
  end.

Definition close_fd (i fd : nat) : K unit :=
  p ← get_proc i;
  o ← deref (p_ofile p !! fd);
  match o with
  | None => mret tt
  | Some f =>
      fileclose f ;;
      upd_proc i (λ p, set_p_ofile (<[fd := None]> (p_ofile p)) p)
  end.

Definition exit (status : Z) : K unit :=
  i ← this_proc;
  initproc ← gets k_initproc;
  if bool_decide (initproc = Some i) then panic "init exiting" else
  for_each file_descriptors (close_fd i) ;;
  begin_op ;;
  p ← get_proc i;
  cwd ← deref (p_cwd p);
  iput cwd ;;
  end_op ;;
  upd_proc i (set_p_cwd None) ;;
  acquire LkWait ;;
  reparent i ;;
  p ← get_proc i;
  wakeup_proc (p_parent p) ;;
  acquire (LkProc i) ;;
  upd_proc i (set_p_xstate status) ;;
  upd_proc i (set_p_state ZOMBIE) ;;
  release LkWait ;;
  sched ;;
  panic "zombie exit".

End process.
