(* ===== verification/Syscall.v ===== *)
(** * System calls ([kernel/syscall.c], [kernel/sysproc.c], [kernel/sysfile.c])

    Fetching of arguments, the handlers, and the dispatch on the number in a7. *)

From S2P Require Import Prelude Bytes Memory Riscv Data State Spinlock Kalloc Vm Mlfq Uart Proc Sleeplock Bio Log Fs Console File Exec Process.

Local Open Scope Z_scope.

Section syscalls.
Context `{Image} `{Disk}.

(** ** Arguments *)

(** The result and the value stored at [ip]. *)
Definition fetchaddr (addr : Z) : K (Z * Z) :=
  i ← this_proc;
  p ← get_proc i;
  if (p_sz p <=? addr) || (p_sz p <? u64 (addr + 8)) then mret (-1, 0) else
  r ← copyin (p_pagetable p) addr 8;
  if negb (r.1 =? 0) then mret (-1, of_le r.2) else mret (0, of_le r.2).

(** The result and the bytes stored in [buf]. *)
Definition fetchstr (addr max : Z) : K (Z * list Z) :=
  i ← this_proc;
  p ← get_proc i;
  r ← copyinstr (p_pagetable p) addr max;
  if r.1 <? 0 then mret (-1, r.2) else
  n ← deref (strlen r.2);
  mret (Z.of_nat n, r.2).

Definition argraw (n : Z) : K Z :=
  i ← this_proc;
  if (0 <=? n) && (n <=? 5) then get_tf i (tf_a0 + 8 * n) else panic "argraw".

Definition argint (n : Z) : K Z := v ← argraw n; mret (i32 v).
Definition argaddr (n : Z) : K Z := argraw n.
Definition argstr (n max : Z) : K (Z * list Z) :=
  addr ← argaddr n;
  fetchstr addr max.

(** ** Processes ([kernel/sysproc.c]) *)

Definition sys_exit : K Z :=
  n ← argint 0;
  exit n ;;
  mret 0.

Definition sys_getpid : K Z :=
  i ← this_proc;
  p ← get_proc i;
  mret (p_pid p).

Definition sys_fork : K Z := fork.

Definition sys_wait : K Z := p ← argaddr 0; wait p.

Definition sys_sbrk : K Z :=
  n ← argint 0;
  i ← this_proc;
  p ← get_proc i;
  let addr := p_sz p in
  r ← growproc n;
  mret (if r <? 0 then -1 else addr).

(** [while(ticks - ticks0 < n)] *)
Fixpoint sys_sleep_loop (fuel : nat) (ticks0 n : Z) : K Z :=
  match fuel with
  | O => no_fuel
  | S fuel' =>
      t ← gets k_ticks;
      if u32 (t - ticks0) <? n then
        i ← this_proc;
        k ← killed i;
        if negb (k =? 0) then
          release LkTicks ;;
          mret (-1)
        else
          sleep ChTicks LkTicks ;;
          sys_sleep_loop fuel' ticks0 n
      else
        release LkTicks ;;
        mret 0
  end.

Definition sys_sleep : K Z :=
  n ← argint 0;
  let n := if n <? 0 then 0 else n in
  acquire LkTicks ;;
  ticks0 ← gets k_ticks;
  sleep_loop (λ fuel, sys_sleep_loop fuel ticks0 n).

Definition sys_kill : K Z := pid ← argint 0; kill pid.

Definition sys_uptime : K Z :=
  acquire LkTicks ;;
  xticks ← gets k_ticks;
  release LkTicks ;;
  mret xticks.

Definition sys_getpstat : K Z := addr ← argaddr 0; getpstat addr.
Definition sys_getpinfo : K Z := addr ← argaddr 0; getprocinfo addr.

Definition sys_setpriority : K Z :=
  pid ← argint 0;
  priority ← argint 1;
  setprocpriority pid priority.

(** ** Files ([kernel/sysfile.c]) *)

(** The descriptor and the file, if the argument names an open file. *)
Definition argfd (n : Z) : K (option (nat * nat)) :=
  fd ← argint n;
  if (fd <? 0) || (Z.of_nat NOFILE <=? fd) then mret None else
  i ← this_proc;
  p ← get_proc i;
  o ← index (p_ofile p) fd;
  mret (match o with Some f => Some (Z.to_nat fd, f) | None => None end).

Fixpoint fdalloc_loop (fds : list nat) (i f : nat) : K Z :=
  match fds with
  | [] => mret (-1)
  | fd :: fds' =>
      p ← get_proc i;
      o ← deref (p_ofile p !! fd);
      match o with
      | None =>
          upd_proc i (λ p, set_p_ofile (<[fd := Some f]> (p_ofile p)) p) ;;
          mret (Z.of_nat fd)
      | Some _ => fdalloc_loop fds' i f
      end
  end.

Definition fdalloc (f : nat) : K Z :=
  i ← this_proc;
  fdalloc_loop file_descriptors i f.

Definition sys_dup : K Z :=
  o ← argfd 0;
  match o with
  | None => mret (-1)
  | Some (_, f) =>
      fd ← fdalloc f;
      if fd <? 0 then mret (-1) else
      filedup f ;;
      mret fd
  end.

Definition sys_read : K Z :=
  p ← argaddr 1;
  n ← argint 2;
  o ← argfd 0;
  match o with
  | None => mret (-1)
  | Some (_, f) => fileread f p n
  end.

Definition sys_write : K Z :=
  p ← argaddr 1;
  n ← argint 2;
  o ← argfd 0;
  match o with
  | None => mret (-1)
  | Some (_, f) => filewrite f p n
  end.

(** [myproc()->ofile[fd] = 0] *)
Definition clear_fd (i fd : nat) : K unit :=
  upd_proc i (λ p, set_p_ofile (<[fd := None]> (p_ofile p)) p).

Definition sys_close : K Z :=
  o ← argfd 0;
  match o with
  | None => mret (-1)
  | Some (fd, f) =>
      i ← this_proc;
      clear_fd i fd ;;
      fileclose f ;;
      mret 0
  end.

Definition sys_fstat : K Z :=
  st ← argaddr 1;
  o ← argfd 0;
  match o with
  | None => mret (-1)
  | Some (_, f) => filestat f st
  end.

Definition maxpath : Z := Z.of_nat MAXPATH.

(** [ip->nlink += d], written to the disk. *)
Definition add_nlink (n : nat) (d : Z) : K unit :=
  upd_inode n (λ ip, set_i_nlink (i16 (i_nlink ip + d)) ip) ;;
  iupdate n.

(** "bad" of [sys_link] *)
Definition link_bad (ip : nat) : K Z :=
  ilock (Some ip) ;;
  add_nlink ip (-1) ;;
  iunlockput ip ;;
  end_op ;;
  mret (-1).

Definition sys_link : K Z :=
  name ← uninit DIRSIZ;
  old ← argstr 0 maxpath;
  if old.1 <? 0 then mret (-1) else
  new ← argstr 1 maxpath;
  if new.1 <? 0 then mret (-1) else
  begin_op ;;
  o ← namei old.2;
  match o with
  | None => end_op ;; mret (-1)
  | Some ip =>
      ilock (Some ip) ;;
      d ← get_inode ip;
      if i_type d =? T_DIR then iunlockput ip ;; end_op ;; mret (-1) else
      add_nlink ip 1 ;;
      iunlock (Some ip) ;;
      r ← nameiparent new.2 name;
      match r with
      | (None, _) => link_bad ip
      | (Some dp, name) =>
          ilock (Some dp) ;;
          dd ← get_inode dp;
          d ← get_inode ip;
          l ← (if negb (i_dev dd =? i_dev d) then mret (-1) else dirlink dp name (i_inum d));
          if l <? 0 then iunlockput dp ;; link_bad ip else
          iunlockput dp ;;
          iput ip ;;
          end_op ;;
          mret 0
      end
  end.

Fixpoint isdirempty_loop (fuel : nat) (dp : nat) (off : Z) : K bool :=
  d ← get_inode dp;
  if off <? i_size d then
    match fuel with
    | O => no_fuel
    | S fuel' =>
        r ← readi dp AtKernelObject off sizeof_dirent;
        if negb (r.1 =? sizeof_dirent) then panic "isdirempty: readi" else
        if negb (get16 r.2 0 =? 0) then mret false
        else isdirempty_loop fuel' dp (off + sizeof_dirent)
    end
  else mret true.

Definition isdirempty (dp : nat) : K bool :=
  d ← get_inode dp;
  isdirempty_loop (Z.to_nat (i_size d / sizeof_dirent + 1)) dp (2 * sizeof_dirent).

(** "bad" of [sys_unlink] *)
Definition unlink_bad (dp : nat) : K Z :=
  iunlockput dp ;;
  end_op ;;
  mret (-1).

Definition dot : list Z := bytes "." ++ [0].
Definition dotdot : list Z := bytes ".." ++ [0].

Definition sys_unlink : K Z :=
  name ← uninit DIRSIZ;
  path ← argstr 0 maxpath;
  if path.1 <? 0 then mret (-1) else
  begin_op ;;
  r ← nameiparent path.2 name;
  match r with
  | (None, _) => end_op ;; mret (-1)
  | (Some dp, name) =>
      ilock (Some dp) ;;
      c ← namecmp name dot;
      if c =? 0 then unlink_bad dp else
      c ← namecmp name dotdot;
      if c =? 0 then unlink_bad dp else
      r ← dirlookup dp name;
      match r with
      | None => unlink_bad dp
      | Some (ip, off) =>
          ilock (Some ip) ;;
          d ← get_inode ip;
          if i_nlink d <? 1 then panic "unlink: nlink < 1" else
          e ← (if i_type d =? T_DIR then isdirempty ip else mret true);
          if negb e then iunlockput ip ;; unlink_bad dp else
          w ← writei dp (FromObject (replicate (Z.to_nat sizeof_dirent) 0)) off sizeof_dirent;
          if negb (w =? sizeof_dirent) then panic "unlink: writei" else
          d ← get_inode ip;
          when (i_type d =? T_DIR) (add_nlink dp (-1)) ;;
          iunlockput dp ;;
          add_nlink ip (-1) ;;
          iunlockput ip ;;
          end_op ;;
          mret 0
      end
  end.

(** "fail" of [create] *)
Definition create_fail (ip dp : nat) : K (option nat) :=
  upd_inode ip (set_i_nlink 0) ;;
  iupdate ip ;;
  iunlockput ip ;;
  iunlockput dp ;;
  mret None.

(** The entries of a new directory. *)
Definition link_dots (ip dp : nat) : K Z :=
  d ← get_inode ip;
  r ← dirlink ip dot (i_inum d);
  if r <? 0 then mret (-1) else
  dd ← get_inode dp;
  r ← dirlink ip dotdot (i_inum dd);
  mret (if r <? 0 then -1 else 0).

Definition create (path : list Z) (type major minor : Z) : K (option nat) :=
  name ← uninit DIRSIZ;
  r ← nameiparent path name;
  match r with
  | (None, _) => mret None
  | (Some dp, name) =>
      ilock (Some dp) ;;
      r ← dirlookup dp name;
      match r with
      | Some (ip, _) =>
          iunlockput dp ;;
          ilock (Some ip) ;;
          d ← get_inode ip;
          if (type =? T_FILE) && ((i_type d =? T_FILE) || (i_type d =? T_DEVICE))
          then mret (Some ip)
          else iunlockput ip ;; mret None
      | None =>
          dd ← get_inode dp;
          o ← ialloc (i_dev dd) type;
          match o with
          | None => iunlockput dp ;; mret None
          | Some ip =>
              ilock (Some ip) ;;
              upd_inode ip (set_i_major major) ;;
              upd_inode ip (set_i_minor minor) ;;
              upd_inode ip (set_i_nlink 1) ;;
              iupdate ip ;;
              r ← (if type =? T_DIR then link_dots ip dp else mret 0);
              if r <? 0 then create_fail ip dp else
              d ← get_inode ip;
              r ← dirlink dp name (i_inum d);
              if r <? 0 then create_fail ip dp else
              when (type =? T_DIR) (add_nlink dp 1) ;;
              iunlockput dp ;;
              mret (Some ip)
          end
      end
  end.

(** The inode to open, locked. *)
Definition open_inode (path : list Z) (omode : Z) : K (option nat) :=
  if has_flag omode O_CREATE then create path T_FILE 0 0 else
  o ← namei path;
  match o with
  | None => mret None
  | Some ip =>
      ilock (Some ip) ;;
      d ← get_inode ip;
      if (i_type d =? T_DIR) && negb (omode =? 0) then iunlockput ip ;; mret None
      else mret (Some ip)
  end.

(** The fields that [sys_open] sets in the file. *)
Definition open_file (ip : nat) (d : inode) (omode : Z) (f : file) : file :=
  let f := if i_type d =? T_DEVICE then set_f_major (i_major d) (set_f_type FD_DEVICE f)
           else set_f_off 0 (set_f_type FD_INODE f) in
  set_f_writable (has_flag omode O_WRONLY || has_flag omode O_RDWR)
    (set_f_readable (negb (has_flag omode O_WRONLY)) (set_f_ip (Some ip) f)).

Definition sys_open : K Z :=
  omode ← argint 1;
  path ← argstr 0 maxpath;
  if path.1 <? 0 then mret (-1) else
  begin_op ;;
  o ← open_inode path.2 omode;
  match o with
  | None => end_op ;; mret (-1)
  | Some ip =>
      d ← get_inode ip;
      if (i_type d =? T_DEVICE) && ((i_major d <? 0) || (NDEV <=? i_major d))
      then iunlockput ip ;; end_op ;; mret (-1) else
      o ← filealloc;
      match o with
      | None => iunlockput ip ;; end_op ;; mret (-1)
      | Some f =>
          fd ← fdalloc f;
          if fd <? 0 then fileclose f ;; iunlockput ip ;; end_op ;; mret (-1) else
          upd_file f (open_file ip d omode) ;;
          when (has_flag omode O_TRUNC && (i_type d =? T_FILE)) (itrunc ip) ;;
          iunlock (Some ip) ;;
          end_op ;;
          mret fd
      end
  end.

Definition sys_mkdir : K Z :=
  begin_op ;;
  path ← argstr 0 maxpath;
  if path.1 <? 0 then end_op ;; mret (-1) else
  o ← create path.2 T_DIR 0 0;
  match o with
  | None => end_op ;; mret (-1)
  | Some ip => iunlockput ip ;; end_op ;; mret 0
  end.

Definition sys_mknod : K Z :=
  begin_op ;;
  major ← argint 1;
  minor ← argint 2;
  path ← argstr 0 maxpath;
  if path.1 <? 0 then end_op ;; mret (-1) else
  o ← create path.2 T_DEVICE (i16 major) (i16 minor);
  match o with
  | None => end_op ;; mret (-1)
  | Some ip => iunlockput ip ;; end_op ;; mret 0
  end.

Definition sys_chdir : K Z :=
  i ← this_proc;
  begin_op ;;
  path ← argstr 0 maxpath;
  if path.1 <? 0 then end_op ;; mret (-1) else
  o ← namei path.2;
  match o with
  | None => end_op ;; mret (-1)
  | Some ip =>
      ilock (Some ip) ;;
      d ← get_inode ip;
      if negb (i_type d =? T_DIR) then iunlockput ip ;; end_op ;; mret (-1) else
      iunlock (Some ip) ;;
      p ← get_proc i;
      cwd ← deref (p_cwd p);
      iput cwd ;;
      end_op ;;
      upd_proc i (set_p_cwd (Some ip)) ;;
      mret 0
  end.

(** The loop of [sys_exec]: the array [argv], and whether it is complete. *)
Fixpoint fetch_args (fuel : nat) (uargv : Z) (i : nat) (argv : list Z) : K (bool * list Z) :=
  match fuel with
  | O => mret (false, argv)
  | S fuel' =>
      r ← fetchaddr (u64 (uargv + 8 * Z.of_nat i));
      if r.1 <? 0 then mret (false, argv) else
      if r.2 =? 0 then mret (true, argv) else
      page ← kalloc;
      let argv := <[i := page]> argv in
      if page =? 0 then mret (false, argv) else
      s ← fetchstr r.2 PGSIZE;
      put_bytes page s.2 ;;
      if s.1 <? 0 then mret (false, argv) else
      fetch_args fuel' uargv (S i) argv
  end.

(** [for(i = 0; i < NELEM(argv) && argv[i] != 0; i++) kfree(argv[i]);] *)
Fixpoint free_args (argv : list Z) : K unit :=
  match argv with
  | [] => mret tt
  | page :: argv' => if page =? 0 then mret tt else kfree page ;; free_args argv'
  end.

Definition sys_exec : K Z :=
  uargv ← argaddr 1;
  path ← argstr 0 maxpath;
  if path.1 <? 0 then mret (-1) else
  r ← fetch_args MAXARG uargv 0 (replicate MAXARG 0);
  if (r.1 : bool) then
    ret ← exec path.2 r.2;
    free_args r.2 ;;
    mret ret
  else
    free_args r.2 ;;
    mret (-1).

Definition sys_pipe : K Z :=
  i ← this_proc;
  fdarray ← argaddr 0;
  o ← pipealloc;
  match o with
  | None => mret (-1)
  | Some (rf, wf) =>
      fd0 ← fdalloc rf;
      if fd0 <? 0 then fileclose rf ;; fileclose wf ;; mret (-1) else
      fd1 ← fdalloc wf;
      if fd1 <? 0 then
        clear_fd i (Z.to_nat fd0) ;;
        fileclose rf ;;
        fileclose wf ;;
        mret (-1)
      else
      p ← get_proc i;
      r ← copyout (p_pagetable p) fdarray (le 4 fd0);
      r ← (if r <? 0 then mret r else copyout (p_pagetable p) (u64 (fdarray + 4)) (le 4 fd1));
      if r <? 0 then
        clear_fd i (Z.to_nat fd0) ;;
        clear_fd i (Z.to_nat fd1) ;;
        fileclose rf ;;
        fileclose wf ;;
        mret (-1)
      else mret 0
  end.

(** ** Dispatch ([kernel/syscall.c], [kernel/syscall.h]) *)

Definition syscalls (num : Z) : option (K Z) :=
  match num with
  | 1 => Some sys_fork
  | 2 => Some sys_exit
  | 3 => Some sys_wait
  | 4 => Some sys_pipe
  | 5 => Some sys_read
  | 6 => Some sys_kill
  | 7 => Some sys_exec
  | 8 => Some sys_fstat
  | 9 => Some sys_chdir
  | 10 => Some sys_dup
  | 11 => Some sys_getpid
  | 12 => Some sys_sbrk
  | 13 => Some sys_sleep
  | 14 => Some sys_uptime
  | 15 => Some sys_open
  | 16 => Some sys_write
  | 17 => Some sys_mknod
  | 18 => Some sys_unlink
  | 19 => Some sys_link
  | 20 => Some sys_mkdir
  | 21 => Some sys_close
  | 22 => Some sys_getpinfo
  | 23 => Some sys_setpriority
  | 24 => Some sys_getpstat
  | _ => None
  end.

Definition syscall : K unit :=
  i ← this_proc;
  a7 ← get_tf i tf_a7;
  let num := i32 a7 in
  match syscalls num with
  | Some handler =>
      r ← handler;
      set_tf i tf_a0 (u64 r)
  | None =>
      p ← get_proc i;
      printf ("%d %s: unknown sys call %d" +:+ newline)
        [AInt (p_pid p); AStr (Some (p_name p)); AInt num] ;;
      set_tf i tf_a0 (u64 (-1))
  end.

End syscalls.
