(* ===== verification/Trap.v ===== *)
(** * Traps and start-up ([kernel/trap.c], [kernel/plic.c], [kernel/main.c], [kernel/start.c])

    Interrupts, exceptions and system calls, the order in which the first hart
    initialises the kernel, and the registers that each hart sets in machine mode.  [k_irqs] has the interrupts that the PLIC will hand
    out. *)

From S2P Require Import Prelude Bytes Memory Riscv Data State Spinlock Csr Kalloc Vm Mlfq Uart Proc Sleeplock Bio Virtio Log Fs Console File Exec Process Syscall.

Local Open Scope Z_scope.

(** ** Interrupts *)

Definition plicinit : K unit :=
  mmio_write (PLIC + UART0_IRQ * 4) 1 ;;
  mmio_write (PLIC + VIRTIO0_IRQ * 4) 1.

Definition plicinithart : K unit :=
  hart ← cpuid;
  mmio_write (PLIC_SENABLE (Z.of_nat hart))
    (Z.lor (Z.shiftl 1 UART0_IRQ) (Z.shiftl 1 VIRTIO0_IRQ)) ;;
  mmio_write (PLIC_SPRIORITY (Z.of_nat hart)) 0.

(** A read of [PLIC_SCLAIM] takes the next interrupt that the PLIC has. *)
Definition plic_claim : K Z :=
  l ← gets k_irqs;
  match l with
  | [] => mret 0
  | irq :: l' => modify (set_k_irqs l') ;; mret irq
  end.

Definition plic_complete (irq : Z) : K unit :=
  hart ← cpuid;
  mmio_write (PLIC_SCLAIM (Z.of_nat hart)) irq.

Section trap.
Context `{Image} `{Disk} `{Device}.

Definition trapinit : K unit := initlock LkTicks.

Definition trapinithart : K unit := w_stvec image_kernelvec.

Definition devintr : K Z :=
  scause ← r_scause;
  if has_flag scause 0x8000000000000000 && (Z.land scause 0xff =? 9) then
    irq ← plic_claim;
    (if irq =? UART0_IRQ then uartintr
     else if irq =? VIRTIO0_IRQ then disk_intr
     else when (negb (irq =? 0))
       (printf ("unexpected interrupt irq=%d" +:+ newline) [AInt irq])) ;;
    when (negb (irq =? 0)) (plic_complete irq) ;;
    mret 1
  else if scause =? 0x8000000000000001 then
    h ← cpuid;
    when (h =? 0)%nat clockintr ;;
    sip ← r_sip;
    w_sip (Z.ldiff sip 2) ;;
    mret 2
  else mret 0.

(** The result is the argument of [userret], to which the function jumps. *)
Definition usertrapret : K Z :=
  i ← this_proc;
  intr_off ;;
  w_stvec (TRAMPOLINE + (image_uservec - image_trampoline)) ;;
  satp ← r_satp;
  set_tf i tf_kernel_satp satp ;;
  p ← get_proc i;
  set_tf i tf_kernel_sp (p_kstack p + PGSIZE) ;;
  set_tf i tf_kernel_trap image_usertrap ;;
  tp ← r_tp;
  set_tf i tf_kernel_hartid tp ;;
  x ← r_sstatus;
  w_sstatus (Z.lor (Z.ldiff x SSTATUS_SPP) SSTATUS_SPIE) ;;
  epc ← get_tf i tf_epc;
  w_sepc epc ;;
  p ← get_proc i;
  mret (MAKE_SATP (p_pagetable p)).

(** "give up the CPU if this is a timer interrupt" *)
Definition end_tick (which_dev : Z) : K unit :=
  when (which_dev =? 2) (mlfq_check_timer ;; yield).

Definition unexpected_trap (i : nat) : K unit :=
  scause ← r_scause;
  p ← get_proc i;
  printf ("usertrap(): unexpected scause %p pid=%d" +:+ newline)
    [APtr scause; AInt (p_pid p)] ;;
  sepc ← r_sepc;
  stval ← r_stval;
  printf ("            sepc=%p stval=%p" +:+ newline) [APtr sepc; APtr stval] ;;
  setkilled i.

Definition usertrap : K Z :=
  x ← r_sstatus;
  if has_flag x SSTATUS_SPP then panic "usertrap: not from user mode" else
  w_stvec image_kernelvec ;;
  i ← this_proc;
  sepc ← r_sepc;
  set_tf i tf_epc sepc ;;
  scause ← r_scause;
  which_dev ← (if scause =? 8 then
                 k ← killed i;
                 when (negb (k =? 0)) (exit (-1)) ;;
                 epc ← get_tf i tf_epc;
                 set_tf i tf_epc (u64 (epc + 4)) ;;
                 intr_on ;;
                 syscall ;;
                 mret 0
               else
                 w ← devintr;
                 when (w =? 0) (unexpected_trap i) ;;
                 mret w);
  k ← killed i;
  when (negb (k =? 0)) (exit (-1)) ;;
  end_tick which_dev ;;
  usertrapret.

Definition kerneltrap : K unit :=
  sepc ← r_sepc;
  sstatus ← r_sstatus;
  scause ← r_scause;
  if negb (has_flag sstatus SSTATUS_SPP)
  then panic "kerneltrap: not from supervisor mode" else
  ie ← intr_get;
  if (ie : bool) then panic "kerneltrap: interrupts enabled" else
  which_dev ← devintr;
  if which_dev =? 0 then
    printf ("scause %p" +:+ newline) [APtr scause] ;;
    sepc' ← r_sepc;
    stval ← r_stval;
    printf ("sepc=%p stval=%p" +:+ newline) [APtr sepc'; APtr stval] ;;
    panic "kerneltrap"
  else
  when (which_dev =? 2)
    (me ← myproc;
     match me with
     | None => mret tt
     | Some i =>
         p ← get_proc i;
         when (bool_decide (p_state p = RUNNING)) (mlfq_check_timer ;; yield)
     end) ;;
  w_sepc sepc ;;
  w_sstatus sstatus.

(** ** Start-up *)

(** A new process starts here, with the lock that the scheduler took. *)
Definition forkret : K Z :=
  i ← this_proc;
  release (LkProc i) ;;
  first ← gets k_first;
  when first
    (fsinit ROOTDEV ;;
     modify (set_k_first false)) ;;
  usertrapret.

(** [main] on hart 0 up to the call of [scheduler]. *)
Definition main_first : K unit :=
  consoleinit ;;
  printfinit ;;
  printf newline [] ;;
  printf ("xv6 kernel is booting" +:+ newline) [] ;;
  printf newline [] ;;
  kinit ;;
  kvminit ;;
  kvminithart ;;
  procinit ;;
  trapinit ;;
  trapinithart ;;
  plicinit ;;
  plicinithart ;;
  binit ;;
  iinit ;;
  fileinit ;;
  virtio_disk_init ;;
  userinit ;;
  modify (set_k_started true).

(** [main] on the other harts, after [started] has been set. *)
Definition main_other : K unit :=
  h ← cpuid;
  printf ("hart %d starting" +:+ newline) [AInt (Z.of_nat h)] ;;
  kvminithart ;;
  trapinithart ;;
  plicinithart.

End trap.

(** ** Start-up in machine mode ([kernel/start.c])

    What each hart does before it enters [main] in supervisor mode. *)

(** Addresses that the linker assigns to what [start] refers to. *)
Class StartImage := {
  image_main : Z;           (* the function main *)
  image_timervec : Z;       (* timervec, in kernelvec.S *)
  image_timer_scratch : Z;  (* the array timer_scratch *)
}.

Section start.
Context `{Device} `{StartImage}.

(** [timer_scratch[id]] is 5 words of 8 bytes. *)
Definition timerinit : K unit :=
  id ← r_mhartid;
  let interval := 1000000 in
  now ← mmio_read CLINT_MTIME;
  mmio_write (CLINT_MTIMECMP id) (u64 (now + interval)) ;;
  scratch ← gets k_timer_scratch;
  _ ← index scratch id;
  modify (λ s, set_k_timer_scratch
    (alter (λ l, <[4%nat := interval]> (<[3%nat := CLINT_MTIMECMP id]> l))
       (Z.to_nat id) (k_timer_scratch s)) s) ;;
  w_mscratch (image_timer_scratch + id * (5 * 8)) ;;
  w_mtvec image_timervec ;;
  x ← r_mstatus;
  w_mstatus (Z.lor x MSTATUS_MIE) ;;
  x ← r_mie;
  w_mie (Z.lor x MIE_MTIE).

(** [start] up to its [mret]. *)
Definition start : K unit :=
  x ← r_mstatus;
  w_mstatus (Z.lor (Z.ldiff x MSTATUS_MPP_MASK) MSTATUS_MPP_S) ;;
  w_mepc image_main ;;
  w_satp 0 ;;
  w_medeleg 0xffff ;;
  w_mideleg 0xffff ;;
  x ← r_sie;
  w_sie (Z.lor (Z.lor (Z.lor x SIE_SEIE) SIE_STIE) SIE_SSIE) ;;
  w_pmpaddr0 0x3fffffffffffff ;;
  w_pmpcfg0 0xf ;;
  timerinit ;;
  id ← r_mhartid;
  w_tp id.

End start.
