(* ===== verification/TrapFacts.v ===== *)
(** * A timer interrupt through [usertrap]

    The rounds of [MlfqSys] use [timer_trap] for what a timer interrupt does to the
    scheduler's data; here [usertrap] of [trap.c] is shown to do the same. *)

From S2P Require Import Prelude Memory Data Riscv State Spinlock Csr Vm Table Mlfq MlfqFacts MlfqSys Proc Bio Trap.

Local Open Scope Z_scope.

Lemma returns_get_csr s c : k_csrs s !! k_hart s = Some c → returns get_csr s c s.
Proof. intros H e. unfold get_csr. by rewrite H. Qed.

Lemma returns_read_csr f s c : k_csrs s !! k_hart s = Some c → returns (read_csr f) s (f c) s.
Proof. intros H. eapply returns_bind; [by apply returns_get_csr|apply returns_ret]. Qed.

Lemma returns_upd_csr f s c :
  k_csrs s !! k_hart s = Some c →
  returns (upd_csr f) s tt (set_k_csrs (alter f (k_hart s) (k_csrs s)) s).
Proof. intros H e. unfold upd_csr. by rewrite H. Qed.

Lemma csr_alter f (cs : list csr) (h : nat) c : cs !! h = Some c → alter f h cs !! h = Some (f c).
Proof. intros H. by rewrite list_lookup_alter_eq, H. Qed.

(** The bit that tells the previous mode does not depend on the interrupt flag. *)
Lemma returns_sstatus_spp s c :
  k_csrs s !! k_hart s = Some c → ready s →
  ∃ x, returns r_sstatus s x s ∧ has_flag x SSTATUS_SPP = has_flag (csr_sstatus c) SSTATUS_SPP.
Proof.
  intros Hc (cp & Hcp & _). eexists. split.
  - unfold r_sstatus, intr_get. eapply returns_bind; [by apply returns_get_csr|].
    eapply returns_bind; [eapply returns_bind; [by apply returns_mycpu|apply returns_ret]|].
    apply returns_ret.
  - unfold has_flag. do 2 f_equal. destruct (c_sie cp).
    + rewrite Z.land_lor_distr_l. change (Z.land SSTATUS_SIE SSTATUS_SPP) with 0. apply Z.lor_0_r.
    + rewrite Z.ldiff_land, <- Z.land_assoc. done.
Qed.

Section trap.
Context `{Image} `{Disk}.

(** A timer interrupt in user mode, of a process that has not been killed: up to the control
    registers and the trap frame, [usertrap] does what [timer_trap] does, and it gives up the
    CPU. *)
Lemma usertrap_timer i p c s :
  running i p s → unlocked LkTicks s → unlocked LkMlfq s → no_tick_sleeper (k_procs s) →
  p_killed p = 0 → p_trapframe p ≠ 0 →
  k_csrs s !! k_hart s = Some c → csr_scause c = 0x8000000000000001 →
  has_flag (csr_sstatus c) SSTATUS_SPP = false →
  ∃ cs m s', usertrap [] s = Away s' ∧ timer_trap [] (set_k_csrs cs (set_k_mem m s)) = Away s'.
Proof.
  intros Hrun Ht Hm Hns Hk Htf Hc Hsc Hspp. pose proof Hrun as (Hq & Hp & Hcp & Hcpu).
  destruct (returns_sstatus_spp s c Hc (proj1 Hq)) as (x & Hx & Hf).
  set (cs := alter (set_csr_stvec image_kernelvec) (k_hart s) (k_csrs s)).
  set (m := store64 (k_mem s) (p_trapframe p + tf_epc) (csr_sepc c)).
  set (s1 := set_k_csrs cs (set_k_mem m s)).
  set (s2 := set_k_ticks (clock (k_hart s) (k_ticks s)) s1).
  set (cs' := alter (set_csr_sip (Z.ldiff (csr_sip c) 2)) (k_hart s) cs).
  set (s3 := set_k_csrs cs' s2).
  assert (cs !! k_hart s = Some (set_csr_stvec image_kernelvec c)) as Hc1 by (by apply csr_alter).
  assert (running i p (set_k_csrs cs' (set_k_mem m s))) as Hrun3 by done.
  exists cs', m. eexists. split; [|by apply (timer_trap_away i p)].
  unfold usertrap. eapply away_run_bind; [exact Hx|]. rewrite Hf, Hspp.
  eapply away_run_bind; [by apply (returns_upd_csr _ s c)|].
  eapply away_run_bind; [apply (returns_this_proc i); [exact (proj1 Hq)|exact Hcp]|].
  eapply away_run_bind; [by apply (returns_read_csr _ (set_k_csrs cs s) (set_csr_stvec image_kernelvec c))|].
  eapply (away_run_bind _ _ _ tt s1).
  { eapply returns_bind; [by apply returns_get_proc|].
    replace (p_trapframe p =? 0) with false by lia. apply returns_modify. }
  eapply away_run_bind; [by apply (returns_read_csr _ s1 (set_csr_stvec image_kernelvec c))|].
  cbn [csr_scause set_csr_stvec]. rewrite Hsc. cbn [Z.eqb Pos.eqb].
  eapply (away_run_bind _ _ _ 2 s3).
  { eapply (returns_bind _ _ _ 2 s3); [|eapply returns_bind; apply returns_ret]. unfold devintr.
    eapply returns_bind; [by apply (returns_read_csr _ s1 (set_csr_stvec image_kernelvec c))|].
    cbn [csr_scause set_csr_stvec]. rewrite Hsc.
    assert ((has_flag 0x8000000000000001 0x8000000000000000 &&
      (Z.land 0x8000000000000001 0xff =? 9)) = false) as -> by done.
    rewrite Z.eqb_refl. eapply returns_bind; [apply returns_gets|].
    eapply returns_bind; [by apply (returns_tick i s1)|].
    eapply returns_bind; [by apply (returns_read_csr _ s2 (set_csr_stvec image_kernelvec c))|].
    eapply returns_bind; [by apply (returns_upd_csr _ s2 (set_csr_stvec image_kernelvec c))|].
    apply returns_ret. }
  eapply away_run_bind; [by apply (returns_killed i p s3)|]. rewrite Hk. cbn [Z.eqb negb when].
  eapply away_run_bind; [apply returns_ret|].
  eapply run_bind_away. by apply (charged_away i p s3).
Qed.
End trap.
