(* ===== verification/BootFacts.v ===== *)
(** * Start-up runs to its end

    The functions that [main] of [main.c] calls on hart 0, each with what it leaves of the
    state: no panic, no lock left held, and enough free pages for the next ones. *)

From S2P Require Import Prelude Bytes Memory Riscv Data State Spinlock Csr Kalloc Vm VmFacts VmOps VmFree Mlfq MlfqFacts Uart Proc BootVm Sleeplock Bio Virtio Log Fs Console File Process Trap.

Local Open Scope Z_scope.

(** [m] returns from [s], in a state that satisfies [Q]. *)
Definition completes {A} (m : K A) (s : kstate) (Q : A → kstate → Prop) : Prop :=
  ∃ a s', returns m s a s' ∧ Q a s'.

Lemma completes_bind {A B} (m : K A) (f : A → K B) s Q R :
  completes m s Q → (∀ a s', Q a s' → completes (f a) s' R) → completes (m ≫= f) s R.
Proof.
  intros (a & s1 & Hm & HQ) Hf. destruct (Hf a s1 HQ) as (b & s2 & Hr & HR).
  exists b, s2. split; [by eapply returns_bind|done].
Qed.

Lemma completes_returns {A} (m : K A) s a s' (Q : A → kstate → Prop) :
  returns m s a s' → Q a s' → completes m s Q.
Proof. by exists a, s'. Qed.

Section boot.
Context {Im : Image} {HIm : ImageOk}.

(** An entry of the process table that is not in use yet. *)
Definition unused (p : proc) : Prop := p_state p = UNUSED ∧ length (p_name p) = 16%nat.

(** The state of the machine while hart 0 starts: [d] tells whether the disk's queue is in
    use, and [l] are the free pages. *)
Record starting (d : bool) (l : list Z) (s : kstate) : Prop := {
  st_ready : ready s;
  st_locks : k_locks s = ∅;
  st_panicked : k_panicked s = false;
  st_csr : is_Some (k_csrs s !! k_hart s);
  st_free : free_pages s l;
  st_procs : length (k_procs s) = NPROC ∧
    Forall unused (k_procs s);
  st_nextpid : k_nextpid s = 1;
  st_inodes : length (k_inodes s) = NINODE ∧ Forall (λ ip, i_ref ip = 0) (k_inodes s);
  st_queue : d = false → Forall (λ w : Z * Z, w.1 ≠ R VIRTIO_MMIO_QUEUE_READY) (k_mmio s);
}.

Lemma st_unlocked d l s lk : starting d l s → unlocked lk s.
Proof. intros Hs. unfold unlocked. by rewrite (st_locks _ _ _ Hs). Qed.

(** An assignment to a part of the state that [starting] does not look at. *)
Lemma completes_modify d l f s :
  starting d l (f s) → completes (modify f) s (λ _, starting d l).
Proof. by exists tt, (f s). Qed.

Lemma completes_initlock d l lk s : starting d l s → completes (initlock lk) s (λ _, starting d l).
Proof.
  intros []. apply completes_modify. constructor; try done. cbn. by rewrite st_locks0, delete_empty.
Qed.

Lemma completes_initsleeplock d l k s :
  starting d l s → completes (initsleeplock k) s (λ _, starting d l).
Proof.
  intros Hs. unfold initsleeplock. eapply completes_bind; [by apply completes_initlock|].
  intros [] s1 []. by apply completes_modify.
Qed.

Lemma completes_mmio_write d l a v s :
  starting d l s → (d = false → a ≠ R VIRTIO_MMIO_QUEUE_READY) →
  completes (mmio_write a v) s (λ _, starting d l).
Proof. intros [] Ha. apply completes_modify. constructor; try done. intros E. constructor; auto. Qed.

Lemma completes_upd_csr d l f s : starting d l s → completes (upd_csr f) s (λ _, starting d l).
Proof.
  intros []. destruct st_csr0 as [c Hc]. eapply completes_returns.
  { intros e. unfold upd_csr. by rewrite Hc. }
  constructor; try done. cbn. rewrite list_lookup_alter_eq, Hc. by eexists.
Qed.

Lemma completes_for_each {X} (P : kstate → Prop) (l : list X) (body : X → K unit) s :
  (∀ x s, x ∈ l → P s → completes (body x) s (λ _, P)) → P s →
  completes (for_each l body) s (λ _, P).
Proof.
  revert s. induction l as [|x l IH]; intros s Hb Hs; [by exists tt, s|]. cbn [for_each].
  eapply completes_bind; [apply Hb; [apply list_elem_of_here|done]|]. intros [] s1 H1.
  apply IH; [|done]. intros y s2 Hy. apply Hb. by right.
Qed.

(** [bstep H] runs a statement that is specified by [H]. *)
Ltac bstep H :=
  match goal with Hs : starting _ _ ?s |- _ =>
    eapply completes_bind; [eapply H; [exact Hs|..]|]; [..|clear Hs; intros [] ? Hs] end.

(** ** Console output *)

Lemma returns_uartputc_sync c s :
  ready s → k_panicked s = false → ∃ u, returns (uartputc_sync c) s tt (set_k_uart u s).
Proof.
  intros Hr Hp. pose proof Hr as (c0 & Hc & _). eexists. unfold uartputc_sync.
  eapply returns_bind; [by eapply returns_push_off|].
  eapply returns_bind; [apply returns_gets|].
  change (k_panicked (on_cpu cpu_enter s)) with (k_panicked s). rewrite Hp.
  eapply returns_bind; [apply returns_modify|]. eapply returns_bind; [apply returns_modify|].
  apply (returns_pop_off (set_k_uart _ s)). exact Hr.
Qed.

(** A format without conversions. *)
Definition plain (fmt : list Z) : bool :=
  forallb (λ c, negb (c =? chr "%") && negb (c =? BACKSPACE)) fmt.

Lemma returns_printf_loop fmt s :
  plain fmt = true → ready s → k_panicked s = false →
  ∃ u, returns (printf_loop fmt []) s tt (set_k_uart u s).
Proof.
  revert s. induction fmt as [|c fmt IH]; intros s Hf Hr Hp.
  { exists (k_uart s). destruct s; apply returns_ret. }
  cbn [plain forallb] in Hf. apply andb_prop in Hf as [Hc Hf]. apply andb_prop in Hc as [H1 H2].
  cbn [printf_loop]. destruct (c =? 0).
  { exists (k_uart s). destruct s; apply returns_ret. }
  rewrite H1. destruct (returns_uartputc_sync c s Hr Hp) as [u Hu].
  destruct (IH (set_k_uart u s) Hf Hr Hp) as [u' Hu']. exists u'.
  eapply returns_bind; [|exact Hu']. unfold consputc. apply negb_true_iff in H2. by rewrite H2.
Qed.

Lemma completes_printf d l fmt s :
  plain (bytes fmt) = true → starting d l s → completes (printf fmt []) s (λ _, starting d l).
Proof.
  intros Hf Hs. pose proof (st_ready _ _ _ Hs) as Hr. pose proof (st_panicked _ _ _ Hs) as Hp.
  pose proof (st_unlocked _ _ _ LkPr Hs) as Hu. unfold printf. destruct (k_pr_locking s) eqn:E.
  - destruct (returns_printf_loop (bytes fmt) (locked LkPr s) Hf) as [u Hret];
      [by apply ready_locked|done|].
    exists tt, (set_k_uart u s). split; [|by destruct Hs].
    eapply returns_bind; [apply returns_gets|]. rewrite E. cbn [when].
    eapply returns_bind; [by apply returns_acquire|]. eapply returns_bind; [exact Hret|].
    by apply (returns_release LkPr (set_k_uart u s)).
  - destruct (returns_printf_loop (bytes fmt) s Hf Hr Hp) as [u Hret].
    exists tt, (set_k_uart u s). split; [|by destruct Hs].
    eapply returns_bind; [apply returns_gets|]. rewrite E. cbn [when].
    eapply returns_bind; [apply returns_ret|]. eapply returns_bind; [exact Hret|apply returns_ret].
Qed.

Lemma completes_consoleinit d l s : starting d l s → completes consoleinit s (λ _, starting d l).
Proof.
  intros Hs. unfold consoleinit, uartinit, WriteReg.
  bstep completes_initlock.
  eapply (completes_bind _ _ _ (λ _, starting d l)); [|intros [] s1 []; by apply completes_modify].
  do 7 (bstep completes_mmio_write; [done|]). by apply completes_initlock.
Qed.

Lemma completes_printfinit d l s : starting d l s → completes printfinit s (λ _, starting d l).
Proof.
  intros Hs. unfold printfinit. bstep completes_initlock. destruct Hs. by apply completes_modify.
Qed.

(** ** Memory *)

Lemma mem_only_starting d l l' s s' :
  starting d l s → mem_only s s' → free_pages s' l' → starting d l' s'.
Proof. unfold mem_only. intros [] Hm Hf. rewrite Hm in *. by constructor. Qed.

Context {HF : ImageFits}.

Lemma completes_kinit d s :
  starting d [] s → completes kinit s (λ _ s', ∃ l, starting d l s' ∧ (160 ≤ length l)%nat).
Proof.
  intros Hs. destruct (kinit_frees s) as (l & s' & Hret & Hm & Hf & Hl);
    [apply Hs|by eapply st_unlocked|apply Hs|].
  exists tt, s'. split; [done|]. exists l. split; [by eapply mem_only_starting|].
  pose proof image_end_range as He. pose proof image_room as Hroom. unfold PHYSTOP, KERNBASE in *.
  assert (0 ≤ image_end < 2 ^ 64 - PGSIZE) as Hb by plia.
  pose proof (PGROUNDUP_aligned image_end Hb) as Ha. pose proof (PGROUNDUP_range image_end Hb) as Hr.
  assert (((λ i, PGROUNDUP image_end + i * PGSIZE) <$> seqZ 0 160) ⊆+ l) as Hsub%submseteq_length.
  { apply NoDup_submseteq; [apply NoDup_fmap_2; [intros x y; plia|apply NoDup_seqZ]|].
    intros pa (i & -> & Hi%elem_of_seqZ)%list_elem_of_fmap. apply Hl.
    unfold page_ok, page_aligned, PHYSTOP, KERNBASE in *. split; [|plia]. unfold PGSIZE in *. zdiv. }
  by rewrite length_fmap, length_seqZ in Hsub.
Qed.

Lemma completes_kvminit d l s :
  starting d l s → (160 ≤ length l)%nat →
  completes kvminit s (λ _ s', ∃ l', starting d l' s' ∧ (24 ≤ length l')%nat).
Proof.
  intros Hs Hl. destruct (makes_kvmmake (length l - NPROC) s l) as (pt & s1 & l' & Hret & Hm & Hf & Hl');
    [apply Hs|by eapply st_unlocked|apply Hs|unfold NPROC; lia..|].
  exists tt, (set_k_kernel_pagetable pt s1). split.
  - eapply returns_bind; [done|apply returns_modify].
  - exists l'. split; [|unfold NPROC in *; lia].
    pose proof (mem_only_starting _ _ _ _ _ Hs Hm Hf) as []. by constructor.
Qed.

Lemma completes_kalloc d pa l s :
  starting d (pa :: l) s →
  completes kalloc s (λ a s', a = pa ∧ starting d l s' ∧ page_ok pa ∧ pa ∉ l).
Proof.
  intros Hs. destruct (kalloc_pops pa l s) as (s' & Hret & Hm & Hf & Hok & Hni & _);
    [apply Hs|by eapply st_unlocked|apply Hs|].
  exists pa, s'. split_and!; [done..|by eapply mem_only_starting|done|done].
Qed.

Lemma page_ok_ne pa : page_ok pa → pa =? 0 = false.
Proof. intros ?%page_ok_range. unfold KERNBASE in *. lia. Qed.

(** A write to a page that is not free. *)
Lemma free_pages_write pa m s l :
  page_ok pa → pa ∉ l → same_outside [pa] (k_mem s) m → free_pages s l →
  free_pages (set_k_mem m s) l.
Proof.
  intros Hok Hni Hm [Hc Hnd]. split; [|done]. eapply (free_chain_frame [pa]); [| |done..].
  - by apply list.Forall_singleton.
  - by apply not_in_singleton.
Qed.

Lemma completes_zero_page d l pa s :
  starting d l s → page_ok pa → pa ∉ l → completes (zero_page pa) s (λ _, starting d l).
Proof.
  intros [] Hok Hni. apply completes_modify. constructor; try done.
  apply (free_pages_write pa); try done. apply same_outside_memset.
Qed.

Lemma completes_kvminithart d l s : starting d l s → completes kvminithart s (λ _, starting d l).
Proof.
  intros Hs. unfold kvminithart, w_satp.
  apply (completes_bind _ _ _ (λ _ s', s' = s)); [by eexists _, _|].
  intros pt s' ->. by apply completes_upd_csr.
Qed.

(** ** Tables and devices *)

Lemma completes_upd_proc d l i f s :
  starting d l s → (i < NPROC)%nat → (∀ p, unused p → unused (f p)) →
  completes (upd_proc i f) s (λ _, starting d l).
Proof.
  intros [? ? ? ? ? [Hlen Hall] ? ? ?] Hi Hf.
  destruct (lookup_lt_is_Some_2 (k_procs s) i) as [p Hp]; [lia|].
  eapply completes_returns; [by apply returns_upd_proc|]. constructor; try done.
  cbn. rewrite length_insert. split; [done|]. apply Forall_insert; [done|].
  apply Hf. by eapply Forall_lookup_1.
Qed.

Lemma completes_procinit d l s : starting d l s → completes procinit s (λ _, starting d l).
Proof.
  intros Hs. unfold procinit. do 3 bstep completes_initlock.
  apply completes_for_each; [|done]. clear. intros i s Hi%elem_of_seq Hs.
  bstep completes_initlock. bstep completes_upd_proc; [lia|by intros p []|].
  by apply completes_upd_proc; [|lia|].
Qed.

Lemma completes_plicinit l s : starting false l s → completes plicinit s (λ _, starting false l).
Proof.
  intros Hs. unfold plicinit. bstep completes_mmio_write; [done|]. by apply completes_mmio_write.
Qed.

Lemma completes_plicinithart l s :
  starting false l s → completes plicinithart s (λ _, starting false l).
Proof.
  intros Hs. unfold plicinithart.
  eapply completes_bind; [by eapply (completes_returns _ _ _ _ (λ a s', s' = s)); [apply returns_gets|]|].
  intros h s1 ->. bstep completes_mmio_write;
    [intros _; unfold PLIC_SENABLE, R, PLIC, VIRTIO0, VIRTIO_MMIO_QUEUE_READY; lia|].
  apply completes_mmio_write; [done|].
  intros _. unfold PLIC_SPRIORITY, R, PLIC, VIRTIO0, VIRTIO_MMIO_QUEUE_READY. lia.
Qed.

Lemma completes_binit d l s : starting d l s → completes binit s (λ _, starting d l).
Proof.
  intros Hs. unfold binit. bstep completes_initlock.
  eapply (completes_bind _ _ _ (λ _, starting d l)); [destruct Hs; by apply completes_modify|].
  clear. intros [] s Hs. apply completes_for_each; [|done]. clear. intros n s _ Hs.
  bstep completes_initsleeplock. destruct Hs. by apply completes_modify.
Qed.

Lemma completes_iinit d l s : starting d l s → completes iinit s (λ _, starting d l).
Proof.
  intros Hs. unfold iinit. bstep completes_initlock. apply completes_for_each; [|done].
  intros n s1 _. apply completes_initsleeplock.
Qed.

(** ** The disk *)

(** The registers of the device that QEMU provides at [VIRTIO0]: it identifies itself, keeps
    FEATURES_OK set when the driver has just set it, has the queue not ready before the driver
    has written to QUEUE_READY, and has room for eight descriptors. *)
Class DiskPresent `{Device} : Prop := {
  disk_identity s : mmio_reg (R VIRTIO_MMIO_MAGIC_VALUE) s = 0x74726976 ∧
    mmio_reg (R VIRTIO_MMIO_VERSION) s = 2 ∧ mmio_reg (R VIRTIO_MMIO_DEVICE_ID) s = 2 ∧
    mmio_reg (R VIRTIO_MMIO_VENDOR_ID) s = 0x554d4551;
  disk_features s v l : k_mmio s = (R VIRTIO_MMIO_STATUS, v) :: l →
    has_flag v VIRTIO_CONFIG_S_FEATURES_OK = true →
    has_flag (mmio_reg (R VIRTIO_MMIO_STATUS) s) VIRTIO_CONFIG_S_FEATURES_OK = true;
  disk_queue_ready s : Forall (λ w : Z * Z, w.1 ≠ R VIRTIO_MMIO_QUEUE_READY) (k_mmio s) →
    mmio_reg (R VIRTIO_MMIO_QUEUE_READY) s = 0;
  disk_queue_max s : Z.of_nat NUM ≤ mmio_reg (R VIRTIO_MMIO_QUEUE_NUM_MAX) s;
}.

Context {Dev : Device} {HD : DiskPresent}.

Lemma completes_upd_vd d l f s : starting d l s → completes (upd_vd f) s (λ _, starting d l).
Proof. intros []. by apply completes_modify. Qed.

(** [rstep] reads a register. *)
Ltac rstep :=
  match goal with |- completes (mmio_read ?a ≫= _) ?s _ =>
    apply (completes_bind _ _ _ (λ v s', v = mmio_reg a s ∧ s' = s)); [by eexists _, _|];
    intros ? ? [-> ->] end.

(** The rings and the last handshake, after the pages have been allocated. *)
Lemma completes_rings l desc avail used status s :
  starting false l s → Forall (λ pa, page_ok pa ∧ pa ∉ l) [desc; avail; used] →
  completes (
    zero_page desc ;;
    zero_page avail ;;
    zero_page used ;;
    upd_vd (λ v, set_vd_desc (replicate NUM (mkDesc DmaNull 0 0 0)) v) ;;
    upd_vd (λ v, set_vd_avail_idx 0 (set_vd_avail_ring (replicate NUM 0) v)) ;;
    upd_vd (λ v, set_vd_dev_idx 0 (set_vd_used_ring (replicate NUM 0) v)) ;;
    mmio_write (R VIRTIO_MMIO_QUEUE_NUM) (Z.of_nat NUM) ;;
    mmio_write (R VIRTIO_MMIO_QUEUE_DESC_LOW) (u32 desc) ;;
    mmio_write (R VIRTIO_MMIO_QUEUE_DESC_HIGH) (Z.shiftr desc 32) ;;
    mmio_write (R VIRTIO_MMIO_DRIVER_DESC_LOW) (u32 avail) ;;
    mmio_write (R VIRTIO_MMIO_DRIVER_DESC_HIGH) (Z.shiftr avail 32) ;;
    mmio_write (R VIRTIO_MMIO_DEVICE_DESC_LOW) (u32 used) ;;
    mmio_write (R VIRTIO_MMIO_DEVICE_DESC_HIGH) (Z.shiftr used 32) ;;
    mmio_write (R VIRTIO_MMIO_QUEUE_READY) 1 ;;
    upd_vd (set_vd_free (replicate NUM true)) ;;
    mmio_write (R VIRTIO_MMIO_STATUS) (Z.lor status VIRTIO_CONFIG_S_DRIVER_OK)) s
    (λ _, starting true l).
Proof.
  intros Hs Hp. rewrite !list.Forall_cons in Hp. destruct Hp as ([] & [] & [] & _).
  do 3 (bstep completes_zero_page; [done|done|]). do 3 bstep completes_upd_vd.
  do 7 (bstep completes_mmio_write; [done|]).
  assert (∀ s, starting false l s → starting true l s) as Ht.
  { clear. intros s []. by constructor. }
  apply Ht in Hs. bstep completes_mmio_write; [done|]. bstep completes_upd_vd.
  by apply completes_mmio_write.
Qed.

Lemma completes_virtio_disk_init desc avail used l s :
  starting false (desc :: avail :: used :: l) s →
  completes virtio_disk_init s (λ _, starting true l).
Proof.
  intros Hs. unfold virtio_disk_init. bstep completes_initlock. do 4 rstep.
  match goal with Hs : starting _ _ ?s |- _ => destruct (disk_identity s) as (-> & -> & -> & ->) end.
  cbn [negb andb Z.eqb Pos.eqb]. do 3 (bstep completes_mmio_write; [done|]). rstep.
  bstep completes_mmio_write; [done|].
  apply (completes_bind _ _ _ (λ _ s', starting false (desc :: avail :: used :: l) s' ∧
    has_flag (mmio_reg (R VIRTIO_MMIO_STATUS) s') VIRTIO_CONFIG_S_FEATURES_OK = true)).
  { eexists tt, _. split; [apply returns_modify|]. split; [|by eapply disk_features].
    destruct Hs. constructor; try done. intros E. constructor; auto. }
  clear Hs. intros [] s1 [Hs Hfl]. rstep. rewrite Hfl. cbn [negb].
  bstep completes_mmio_write; [done|]. rstep.
  rewrite disk_queue_ready by (by apply Hs). cbn [negb Z.eqb]. rstep.
  match goal with Hs : starting _ _ ?s |- _ => pose proof (disk_queue_max s) as Hmax end.
  unfold NUM in Hmax. rewrite (proj2 (Z.eqb_neq _ 0)), (proj2 (Z.ltb_ge _ _)) by (unfold NUM; lia).
  do 3 (eapply completes_bind; [by apply completes_kalloc|]; clear Hs; intros ? ? (-> & Hs & ? & ?)).
  bstep completes_upd_vd. rewrite !page_ok_ne by done. cbn [orb].
  apply completes_rings; [done|]. rewrite !list.Forall_cons.
  rewrite !not_elem_of_cons in *. split_and!; try done; tauto.
Qed.

(** ** The first process *)

Section first.
Context (ps : list proc) (ins : list inode).
Context (Hps : length ps = NPROC).

(** The first entry is locked and holds [p]; [o] is [initproc]. *)
Definition held (p : proc) (o : option nat) (s : kstate) : Prop :=
  ∃ y, s = locked (LkProc 0) y ∧ ready y ∧ k_locks y = ∅ ∧ k_procs y = <[0%nat := p]> ps ∧
    k_inodes y = ins ∧ k_initproc y = o.

Lemma held_ready p o s : held p o s → ready s.
Proof. intros (y & -> & Hr & _). by apply ready_locked. Qed.

Lemma held_unlocked p o s lk : held p o s → lk ≠ LkProc 0 → unlocked lk s.
Proof.
  intros (y & -> & _ & Hl & _) Hne. apply unlocked_locked; [done|]. unfold unlocked. by rewrite Hl.
Qed.

Lemma held_proc p o s : held p o s → k_procs s !! 0%nat = Some p.
Proof.
  intros (y & -> & _ & _ & Hp & _). change (k_procs (locked (LkProc 0) y)) with (k_procs y).
  rewrite Hp. apply list_lookup_insert_eq. rewrite Hps. unfold NPROC. lia.
Qed.

Lemma held_mem p o s s' : held p o s → mem_only s s' → held p o s'.
Proof.
  intros (y & -> & Hy) Hm. exists (set_k_freelist (k_freelist s') (set_k_mem (k_mem s') y)).
  by split.
Qed.

Lemma returns_held_upd f p o s :
  held p o s → ∃ s', returns (upd_proc 0 f) s tt s' ∧ held (f p) o s' ∧ k_mem s' = k_mem s ∧
    k_freelist s' = k_freelist s.
Proof.
  intros Hs. pose proof (held_proc _ _ _ Hs) as Hp. destruct Hs as (y & -> & Hr & Hl & Hps' & Hy).
  eexists. split; [by apply returns_upd_proc|]. split; [|done].
  exists (set_k_procs (<[0%nat := f p]> (k_procs y)) y). split_and!; try done; [|apply Hy..].
  cbn. by rewrite Hps', list_insert_insert_eq.
Qed.

Lemma heap_data s s' t l :
  heap s t l → ready s' → unlocked LkKmem s' → k_mem s' = k_mem s → k_freelist s' = k_freelist s →
  heap s' t l.
Proof.
  intros (_ & _ & Hf & Hrep & Hnd) Hr Hu Hm Hl. unfold heap, free_pages in *. by rewrite Hm, Hl.
Qed.

Lemma free_data s s' l :
  free_pages s l → k_mem s' = k_mem s → k_freelist s' = k_freelist s → free_pages s' l.
Proof. intros Hf Hm Hl. unfold free_pages in *. by rewrite Hm, Hl. Qed.

(** With enough free pages a mapping of one page succeeds. *)
Lemma returns_mappage a pa perm s t l :
  heap s t l → vpage a → a + PGSIZE ≤ MAXVA → is_perm perm → 0 ≤ pa → pa + PGSIZE < 2 ^ 56 →
  has_flag (pte_of (k_mem s) t a) PTE_V = false → (2 ≤ length l)%nat →
  ∃ s' t' l', returns (mappages (pt_root t) a PGSIZE pa perm) s 0 s' ∧ grown s t l s' t' l' ∧
    (∀ va, vpage va → va ≠ a → pte_of (k_mem s') t' va = pte_of (k_mem s) t va) ∧
    (length l - 2 ≤ length l')%nat.
Proof.
  intros Hh Ha Hmax Hperm Hpa0 Hpa Hv Hl.
  destruct (returns_mappages 1 a pa perm s t l) as (r & k & s' & t' & l' & Hret & Hg & Hp & _ & Hr);
    try done; try plia.
  { intros k Hk. by replace (a + k * PGSIZE) with a by plia. }
  pose proof (Permutation_length (grown_pages _ _ _ _ _ _ Hg)) as Hlen. rewrite !length_app in Hlen.
  destruct Hr as [(-> & -> & Hn)|(_ & ? & -> & Hn)]; [|cbn [length] in Hlen; lia].
  exists s', t', l'. rewrite Z.mul_1_l in Hret. split_and!; [done|done| |lia].
  intros va Hva Hne. rewrite Hp by done. unfold mapped. rewrite decide_False; [done|].
  destruct Ha as [Ha _], Hva as [Hva _]. unfold page_aligned, PGSIZE in *. zdiv.
Qed.

Lemma returns_proc_pagetable p o s l :
  held p o s → free_pages s l → page_ok (p_trapframe p) → (6 ≤ length l)%nat →
  ∃ s' t l', returns (proc_pagetable 0) s (pt_root t) s' ∧ mem_only s s' ∧ heap s' t l' ∧
    pt_root t ≠ 0 ∧ pte_of (k_mem s') t 0 = 0 ∧ (1 ≤ length l')%nat.
Proof.
  intros Hs Hf Htf Hl. destruct l as [|pa l]; [simpl in Hl; lia|]. cbn [length] in Hl.
  destruct (returns_uvmcreate pa l s) as (s1 & Hret1 & Hpa & Hm1 & Hh1 & _);
    [by eapply held_ready|by eapply held_unlocked|done|].
  assert (vpage TRAMPOLINE ∧ vpage TRAPFRAME) as [Hv1 Hv2] by (by split).
  destruct (returns_mappage TRAMPOLINE image_trampoline (Z.lor PTE_R PTE_X) s1 (empty_table pa) l)
    as (s2 & t2 & l2 & Hret2 & Hg2 & Hp2 & Hl2); try done; try lia.
  { apply trampoline_range. }
  { pose proof trampoline_range. unfold PHYSTOP, KERNBASE, PGSIZE in *. lia. }
  pose proof (page_ok_range _ Htf) as Hr. unfold PHYSTOP, KERNBASE in Hr.
  pose proof (grown_heap _ _ _ _ _ _ Hg2) as Hh2.
  destruct (returns_mappage TRAPFRAME (p_trapframe p) (Z.lor PTE_R PTE_W) s2 t2 l2)
    as (s3 & t3 & l3 & Hret3 & Hg3 & Hp3 & Hl3); try done; try plia.
  { by rewrite Hp2, pte_of_empty. }
  rewrite (grown_root _ _ _ _ _ _ Hg2) in Hret3.
  assert (pt_root t3 = pa) as Hroot.
  { by rewrite (grown_root _ _ _ _ _ _ Hg3), (grown_root _ _ _ _ _ _ Hg2). }
  assert (mem_only s s2) as Hm2 by (eapply mem_only_trans; [done|apply Hg2]).
  exists s3, t3, l3. rewrite Hroot. split_and!; [| |apply Hg3|done| |lia].
  - unfold proc_pagetable. eapply returns_bind; [done|]. replace (pa =? 0) with false by lia.
    eapply returns_bind; [exact Hret2|]. cbn [Z.ltb Z.compare].
    eapply returns_bind; [by eapply returns_get_proc, held_proc, held_mem|].
    eapply returns_bind; [exact Hret3|]. apply returns_ret.
  - eapply mem_only_trans; [done|apply Hg3].
  - assert (vpage 0) by done. by rewrite Hp3, Hp2, pte_of_empty.
Qed.

End first.

Lemma returns_find_unused d l s :
  starting d l s → returns (find_unused proc_slots) s (Some 0%nat) (locked (LkProc 0) s).
Proof.
  intros Hs. assert (proc_slots = 0%nat :: seq 1 63) as -> by done. cbn [find_unused].
  destruct (st_procs _ _ _ Hs) as [Hlen Hall].
  destruct (lookup_lt_is_Some_2 (k_procs s) 0) as [p Hp]; [rewrite Hlen; unfold NPROC; lia|].
  eapply returns_bind; [apply returns_acquire; [apply Hs|by eapply st_unlocked]|].
  eapply returns_bind; [by apply returns_get_proc|].
  destruct (Forall_lookup_1 _ _ _ _ Hall Hp) as [Hun _].
  rewrite bool_decide_eq_true_2 by done. apply returns_ret.
Qed.

(** What [allocproc] has made of the first entry. *)
Record allocated (pt : Z) (p : proc) : Prop := {
  alloc_pagetable : p_pagetable p = pt;
  alloc_trapframe : p_trapframe p ≠ 0;
  alloc_pid : p_pid p = 1;
  alloc_priority : p_priority p = 0;
  alloc_name : length (p_name p) = 16%nat;
}.

Lemma returns_allocproc l s :
  starting true l s → (7 ≤ length l)%nat →
  ∃ s' p t l', returns allocproc s (Some 0%nat) s' ∧
    held (k_procs s) (k_inodes s) p (k_initproc s) s' ∧ allocated (pt_root t) p ∧
    heap s' t l' ∧ pte_of (k_mem s') t 0 = 0 ∧ (1 ≤ length l')%nat.
Proof.
  intros Hs Hl. pose proof (returns_find_unused _ _ _ Hs) as Hfind.
  destruct (st_procs _ _ _ Hs) as [Hlen Hall].
  destruct (lookup_lt_is_Some_2 (k_procs s) 0) as [p Hp]; [rewrite Hlen; unfold NPROC; lia|].
  destruct (Forall_lookup_1 _ _ _ _ Hall Hp) as [_ Hname].
  set (s1 := locked (LkProc 0) (set_k_nextpid (i32 (k_nextpid s + 1)) s)).
  assert (held (k_procs s) (k_inodes s) p (k_initproc s) s1) as H1.
  { eexists. split; [reflexivity|]. split_and!; try done; try apply Hs.
    cbn. by rewrite list_insert_id. }
  assert (returns allocpid (locked (LkProc 0) s) 1 s1) as Hpid.
  { rewrite <- (st_nextpid _ _ _ Hs). apply (returns_allocpid (locked (LkProc 0) s)).
    - by apply ready_locked, Hs.
    - apply unlocked_locked; [done|]. by eapply st_unlocked. }
  destruct (returns_held_upd _ _ Hlen (set_p_pid 1) _ _ _ H1) as (s2 & Hret2 & H2 & Hm2 & Hf2).
  destruct (returns_held_upd _ _ Hlen (set_p_state USED) _ _ _ H2) as (s3 & Hret3 & H3 & Hm3 & Hf3).
  destruct l as [|tf l]; [simpl in Hl; lia|]. cbn [length] in Hl.
  destruct (kalloc_pops tf l s3) as (s4 & Hka & Hm4 & Hf4 & Htf & _);
    [by eapply held_ready|by eapply held_unlocked| |].
  { eapply free_data; [apply Hs|by rewrite Hm3, Hm2|by rewrite Hf3, Hf2]. }
  pose proof (held_mem _ _ _ _ _ _ H3 Hm4) as H4.
  destruct (returns_held_upd _ _ Hlen (set_p_trapframe tf) _ _ _ H4) as (s5 & Hret5 & H5 & Hm5 & Hf5).
  destruct (returns_proc_pagetable _ _ Hlen _ _ _ l H5) as (s6 & t & l' & Hpt & Hm6 & Hh6 & Ht & Hp0 & Hl');
    [by eapply free_data|done|lia|].
  pose proof (held_mem _ _ _ _ _ _ H5 Hm6) as H6.
  destruct (returns_held_upd _ _ Hlen (set_p_pagetable (pt_root t)) _ _ _ H6) as (s7 & Hret7 & H7 & Hm7 & Hf7).
  destruct (returns_held_upd _ _ Hlen (λ p, set_p_context
        (mkContext image_forkret (p_kstack p + PGSIZE) (replicate 12 0)) p) _ _ _ H7) as (s8 & Hret8 & H8 & Hm8 & Hf8).
  destruct (returns_held_upd _ _ Hlen init_mlfq _ _ _ H8) as (s9 & Hret9 & H9 & Hm9 & Hf9).
  eexists s9, _, t, l'. split_and!; [|exact H9| | | |done].
  - unfold allocproc. eapply returns_bind; [done|]. cbn beta iota.
    do 3 (eapply returns_bind; [done|]). eapply returns_bind; [done|]. eapply returns_bind; [done|].
    rewrite page_ok_ne by done. do 2 (eapply returns_bind; [done|]).
    replace (pt_root t =? 0) with false by lia. do 2 (eapply returns_bind; [done|]). apply returns_ret.
  - constructor; try done. pose proof (page_ok_range _ Htf). unfold KERNBASE in *. cbn. lia.
  - eapply heap_data; [done|by eapply held_ready|by eapply held_unlocked| |]; congruence.
  - congruence.
Qed.

Lemma returns_uvmfirst s t l :
  heap s t l → pte_of (k_mem s) t 0 = 0 → (1 ≤ length l)%nat →
  ∃ s', returns (uvmfirst (pt_root t) initcode) s tt s' ∧ mem_only s s'.
Proof.
  intros Hh H0 Hl. destruct l as [|pa l]; [simpl in Hl; lia|].
  destruct (heap_kalloc pa s t l Hh) as (s1 & Hka & Hm1 & Hh1 & Hpa & Hni & _ & Hp1).
  destruct (heap_write [pa] (memset (k_mem s1) pa 0 (Z.to_nat PGSIZE)) s1 t l) as [Hh2 Hp2];
    [done|by apply list.Forall_singleton|by intros p ->%list_elem_of_singleton|apply same_outside_memset|].
  pose proof (page_ok_range _ Hpa) as Hr. unfold PHYSTOP, KERNBASE in Hr.
  destruct (returns_mappages 1 0 pa (Z.lor (Z.lor (Z.lor PTE_W PTE_R) PTE_X) PTE_U) _ t l Hh2)
    as (r & k & s3 & t3 & l3 & Hret & Hg & _); try done; try plia.
  { intros k Hk. replace (0 + k * PGSIZE) with 0 by plia. cbn [k_mem set_k_mem].
    by rewrite Hp2, Hp1, H0. }
  eexists. split.
  - unfold uvmfirst. change (PGSIZE <=? Z.of_nat (length initcode)) with false. cbn iota.
    eapply returns_bind; [done|]. rewrite page_ok_ne by done.
    eapply returns_bind; [apply returns_zero_page|].
    eapply returns_bind; [rewrite Z.mul_1_l in Hret; exact Hret|]. apply returns_put_bytes.
  - apply mem_only_set_mem. eapply mem_only_trans; [|apply Hg]. by apply mem_only_set_mem.
Qed.

(** ** The root directory *)

Lemma returns_iget_scan slots dev inum o s :
  (∀ i, i ∈ slots → ∃ ip, k_inodes s !! i = Some ip ∧ i_ref ip = 0) →
  returns (iget_scan slots dev inum o) s (inr (match o with Some _ => o | None => head slots end)) s.
Proof.
  revert o. induction slots as [|i slots IH]; intros o Hs; [by destruct o|].
  destruct (Hs i) as (ip & Hip & Href); [apply list_elem_of_here|].
  eapply returns_bind; [by apply returns_get_inode|]. rewrite Href. cbn [Z.ltb Z.compare andb Z.eqb].
  destruct o as [n|]; apply (IH (Some _)); intros j Hj; apply Hs; by right.
Qed.

Lemma returns_upd_first f ip l s :
  (0 < length l)%nat →
  returns (upd_inode 0 f) (set_k_inodes (<[0%nat := ip]> l) s) tt
    (set_k_inodes (<[0%nat := f ip]> l) s).
Proof.
  intros Hl. eapply returns_to; [by apply returns_upd_inode, list_lookup_insert_eq|].
  cbn [k_inodes set_k_inodes]. by rewrite list_insert_insert_eq.
Qed.

Lemma k_inodes_locked lk s : k_inodes (locked lk s) = k_inodes s.
Proof. done. Qed.

Lemma returns_iget_first dev inum s :
  ready s → unlocked LkItable s → length (k_inodes s) = NINODE →
  Forall (λ ip, i_ref ip = 0) (k_inodes s) →
  ∃ ip, returns (iget dev inum) s 0%nat (set_k_inodes (<[0%nat := ip]> (k_inodes s)) s).
Proof.
  intros Hr Hu Hlen Hall.
  assert (∀ i, (i < NINODE)%nat → ∃ ip, k_inodes s !! i = Some ip ∧ i_ref ip = 0) as Hz.
  { intros i Hi. destruct (lookup_lt_is_Some_2 (k_inodes s) i) as [ip Hip]; [lia|].
    exists ip. split; [done|]. by eapply (Forall_lookup_1 (λ ip, i_ref ip = 0)). }
  assert (0 < NINODE)%nat as H0 by (unfold NINODE; lia). destruct (Hz 0%nat H0) as (ip & Hip & Href).
  exists (set_i_valid false (set_i_ref 1 (set_i_inum inum (set_i_dev dev ip)))).
  unfold iget. eapply returns_bind; [by apply returns_acquire|].
  eapply returns_bind; [apply returns_iget_scan; intros i Hi%elem_of_seq; apply Hz; lia|].
  cbn beta iota. eapply returns_bind; [apply returns_upd_inode; exact Hip|].
  rewrite (k_inodes_locked LkItable s).
  do 3 (eapply returns_bind; [apply returns_upd_first; by rewrite Hlen|]).
  eapply returns_bind; [|apply returns_ret].
  rewrite <- locked_set_inodes. by apply returns_release.
Qed.

Context {Dsk : Disk}.

Lemma returns_namei_root ps ins p o s :
  held ps ins p o s → length ins = NINODE → Forall (λ ip, i_ref ip = 0) ins →
  ∃ ip s', returns (namei (bytes "/" ++ [0])) s (Some 0%nat) s' ∧ held ps (<[0%nat := ip]> ins) p o s'.
Proof.
  intros Hs Hlen Hall. pose proof (held_ready _ _ _ _ _ Hs) as Hr.
  pose proof (held_unlocked _ _ _ _ _ LkItable Hs ltac:(done)) as Hu.
  destruct Hs as (y & -> & Hry & Hl & Hp & Hi & Ho).
  destruct (returns_iget_first ROOTDEV ROOTINO (locked (LkProc 0) y)) as [ip Hget]; try done.
  { by rewrite k_inodes_locked, Hi. } { by rewrite k_inodes_locked, Hi. }
  exists ip. eexists. split.
  - unfold namei, namex. eapply returns_bind; [apply returns_gets|].
    eapply (returns_bind _ _ _ (Some 0%nat, _)); [|apply returns_ret].
    eapply returns_bind; [exact Hget|]. apply returns_ret.
  - exists (set_k_inodes (<[0%nat := ip]> (k_inodes y)) y). split_and!; try done. cbn. by rewrite Hi.
Qed.

Lemma returns_set_tf ps ins p o s off v :
  length ps = NPROC → held ps ins p o s → p_trapframe p ≠ 0 →
  ∃ s', returns (set_tf 0 off v) s tt s' ∧ held ps ins p o s'.
Proof.
  intros Hlen Hs Htf. eexists. split.
  - eapply returns_bind; [by eapply returns_get_proc, held_proc|].
    replace (p_trapframe p =? 0) with false by lia. apply returns_modify.
  - eapply held_mem; [done|]. apply mem_only_set_mem, mem_only_refl.
Qed.

(** What [userinit] leaves: the first process is ready to run, and no lock is held. *)
Lemma returns_userinit l s :
  starting true l s → (7 ≤ length l)%nat →
  ∃ s' p ip, returns userinit s tt s' ∧ ready s' ∧ k_locks s' = ∅ ∧ k_initproc s' = Some 0%nat ∧
    k_procs s' = <[0%nat := p]> (k_procs s) ∧ k_inodes s' = <[0%nat := ip]> (k_inodes s) ∧
    p_state p = RUNNABLE ∧ p_pid p = 1 ∧ p_priority p = 0 ∧ p_cwd p = Some 0%nat.
Proof.
  intros Hs Hl. pose proof (proj1 (st_procs _ _ _ Hs)) as Hlen.
  pose proof (st_inodes _ _ _ Hs) as [Hilen Hiall].
  destruct (returns_allocproc l s Hs Hl) as (s1 & p & t & l1 & Hal & H1 & Hp & Hh1 & Hz & Hl1).
  set (s2 := set_k_initproc (Some 0%nat) s1).
  assert (held (k_procs s) (k_inodes s) p (Some 0%nat) s2) as H2.
  { destruct H1 as (y & -> & ? & ? & ? & ? & _). by exists (set_k_initproc (Some 0%nat) y). }
  destruct (returns_uvmfirst s2 t l1) as (s3 & Huv & Hm3); [exact Hh1|exact Hz|done|].
  pose proof (held_mem _ _ _ _ _ _ H2 Hm3) as H3.
  destruct (returns_held_upd _ _ Hlen (set_p_sz PGSIZE) _ _ _ H3) as (s4 & Hr4 & H4 & _).
  destruct (returns_set_tf _ _ _ _ _ tf_epc 0 Hlen H4) as (s5 & Hr5 & H5); [apply Hp|].
  destruct (returns_set_tf _ _ _ _ _ tf_sp PGSIZE Hlen H5) as (s6 & Hr6 & H6); [apply Hp|].
  destruct (safestrcpy_loop_spec (p_name p) (bytes "initcode" ++ [0]) 15) as (name & Hname & _);
    [rewrite (alloc_name _ _ Hp); lia|right; apply elem_of_app; right; apply list_elem_of_here|].
  destruct (returns_held_upd _ _ Hlen (set_p_name name) _ _ _ H6) as (s7 & Hr7 & H7 & _).
  destruct (returns_namei_root _ _ _ _ _ H7 Hilen Hiall) as (ip & s8 & Hr8 & H8).
  destruct (returns_held_upd _ _ Hlen (set_p_cwd (Some 0%nat)) _ _ _ H8) as (s9 & Hr9 & H9 & _).
  destruct (returns_held_upd _ _ Hlen (set_p_state RUNNABLE) _ _ _ H9) as (s10 & Hr10 & H10 & _).
  pose proof H10 as (y & -> & Hry & Hly & Hpy & Hiy & Hoy).
  exists y. eexists _, ip. split_and!; [|exact Hry|exact Hly|exact Hoy|exact Hpy|exact Hiy|try apply Hp..].
  - unfold userinit. eapply returns_bind; [exact Hal|]. eapply returns_bind; [apply returns_modify|].
    eapply returns_bind; [apply returns_ret|].
    eapply returns_bind; [by eapply returns_get_proc, held_proc|].
    rewrite (alloc_pagetable _ _ Hp). eapply returns_bind; [exact Huv|].
    do 3 (eapply returns_bind; [eassumption|]).
    eapply returns_bind; [by eapply returns_get_proc, held_proc|].
    eapply returns_bind.
    { unfold safestrcpy. cbn [p_name set_p_sz Z.leb Z.compare]. change (Z.to_nat (16 - 1)) with 15%nat.
      rewrite Hname. apply returns_ret. }
    do 4 (eapply returns_bind; [eassumption|]). apply returns_release; [done|].
    unfold unlocked. by rewrite Hly.
  - done.
  - done.
Qed.

(** ** [main] *)

(** The state in which hart 0 enters the scheduler. *)
Record started (s : kstate) : Prop := {
  started_flag : k_started s = true;
  started_ready : ready s;
  started_locks : k_locks s = ∅;
  started_initproc : k_initproc s = Some 0%nat;
  started_first : ∃ p, k_procs s !! 0%nat = Some p ∧ p_state p = RUNNABLE ∧ p_pid p = 1 ∧
    p_priority p = 0 ∧ p_cwd p = Some 0%nat;
  started_others : ∀ i p, k_procs s !! S i = Some p → p_state p = UNUSED;
}.

Lemma userinit_started l s :
  starting true l s → (7 ≤ length l)%nat →
  completes (userinit ;; modify (set_k_started true)) s (λ _, started).
Proof.
  intros Hs Hl. destruct (returns_userinit l s Hs Hl)
    as (s' & p & ip & Hret & Hr & Hk & Hi & Hp & _ & Hst & Hpid & Hprio & Hcwd).
  destruct (st_procs _ _ _ Hs) as [Hlen Hall].
  exists tt, (set_k_started true s'). split; [eapply returns_bind; [done|apply returns_modify]|].
  constructor; try done; cbn; rewrite Hp.
  - exists p. split_and!; try done. apply list_lookup_insert_eq. rewrite Hlen. unfold NPROC. lia.
  - intros i q Hq. rewrite list_lookup_insert_ne in Hq by done.
    by apply (Forall_lookup_1 _ _ _ _ Hall) in Hq as [? _].
Qed.

Lemma completes_main_first s : starting false [] s → completes main_first s (λ _, started).
Proof.
  intros Hs. unfold main_first. bstep completes_consoleinit. bstep completes_printfinit.
  do 3 (eapply completes_bind; [by apply (completes_printf false [])|]; clear Hs; cbn beta; intros [] ? Hs).
  eapply completes_bind; [by apply (completes_kinit false)|]. clear Hs. intros [] ? (l & Hs & Hl).
  eapply completes_bind; [by apply (completes_kvminit false l)|]. clear Hs Hl l. intros [] ? (l & Hs & Hl).
  unfold trapinit, trapinithart, w_stvec, fileinit.
  bstep completes_kvminithart. bstep completes_procinit. bstep completes_initlock.
  bstep completes_upd_csr. bstep completes_plicinit. bstep completes_plicinithart.
  bstep completes_binit. bstep completes_iinit. bstep completes_initlock.
  destruct l as [|desc [|avail [|used l]]]; [simpl in Hl; lia..|].
  bstep completes_virtio_disk_init. eapply userinit_started; [done|simpl in Hl; lia].
Qed.

End boot.
