(* ===== verification/Calm.v ===== *)
(** * Code that runs in a process

    The states in which a process runs kernel code while no other hart is inside a
    critical section, the changes of state that do not matter to the process, and
    the rules for sleep-locks in such states. *)

From S2P Require Import Prelude Data State Spinlock Table Mlfq MlfqFacts Sleeplock.

Local Open Scope Z_scope.

(** The disk has no request to serve: every descriptor is free, and the driver has
    seen all that the device has completed. *)
Record vd_idle (v : vdisk) : Prop := {
  vi_desc : length (vd_desc v) = NUM;
  vi_avail : length (vd_avail_ring v) = NUM;
  vi_used : length (vd_used_ring v) = NUM;
  vi_free : vd_free v = replicate NUM true;
  vi_info : length (vd_info v) = NUM;
  vi_ops : length (vd_ops v) = NUM;
  vi_seen : vd_used_idx v = vd_dev_idx v;
  vi_done : vd_avail_idx v = vd_dev_idx v;
  vi_idx : 0 ≤ vd_dev_idx v < 2 ^ 16;
}.

(** The process that runs has this pid, no spinlock is held, and the disk is idle. *)
Definition calm (pid : Z) (s : kstate) : Prop :=
  k_locks s = ∅ ∧ vd_idle (k_vdisk s) ∧ ∃ i p, running i p s ∧ p_pid p = pid.

(** Two entries for the same process, in different scheduling states. *)
Definition same_process (p q : proc) : Prop :=
  p_pid p = p_pid q ∧ p_parent p = p_parent q ∧ p_kstack p = p_kstack q ∧
  p_sz p = p_sz q ∧ p_pagetable p = p_pagetable q ∧ p_trapframe p = p_trapframe q ∧
  p_ofile p = p_ofile q ∧ p_cwd p = p_cwd q ∧ p_name p = p_name q.

#[export] Instance same_process_equiv : Equivalence same_process.
Proof.
  split; unfold same_process; repeat intro; intuition congruence.
Qed.

(** [s'] is [s] but for the scheduling of processes and the disk layer: the buffer
    cache, the sleep-locks, the log and the disk. *)
Record disk_step (s s' : kstate) : Prop := {
  ds_procs : Forall2 same_process (k_procs s) (k_procs s');
  ds_initproc : k_initproc s' = k_initproc s;
  ds_mem : k_mem s' = k_mem s;
  ds_freelist : k_freelist s' = k_freelist s;
  ds_sb : k_sb s' = k_sb s;
  ds_inodes : k_inodes s' = k_inodes s;
  ds_files : k_files s' = k_files s;
  ds_pipes : k_pipes s' = k_pipes s;
  ds_devsw : k_devsw s' = k_devsw s;
  ds_panicked : k_panicked s' = k_panicked s;
  ds_ilocks : ∀ n, k_sleeplocks s' !! SlInode n = k_sleeplocks s !! SlInode n;
}.

#[export] Instance disk_step_preorder : PreOrder disk_step.
Proof.
  split; [intros s; by constructor|].
  intros s1 s2 s3 [] []. constructor; try congruence. by etransitivity.
Qed.

Lemma disk_step_set_bufs v s s' : disk_step s s' → disk_step s (set_k_bufs v s').
Proof. by intros []. Qed.
Lemma disk_step_set_lru v s s' : disk_step s s' → disk_step s (set_k_lru v s').
Proof. by intros []. Qed.
Lemma disk_step_set_log v s s' : disk_step s s' → disk_step s (set_k_log v s').
Proof. by intros []. Qed.

Lemma disk_step_put i p q s s' :
  disk_step s s' → k_procs s' !! i = Some p → same_process p q → disk_step s (put_proc i q s').
Proof.
  intros [] Hp Hpq. constructor; try done. simpl.
  rewrite <- (list_insert_id (k_procs s') i p) in ds_procs0 by done.
  apply Forall2_same_length_lookup in ds_procs0 as [Hlen Hall]. rewrite length_insert in Hlen.
  apply Forall2_same_length_lookup. split; [by rewrite length_insert|]. intros j x y Hx Hy.
  destruct (decide (i = j)) as [->|Hne].
  - rewrite list_lookup_insert_eq in Hy by (by eapply lookup_lt_Some). simplify_eq.
    transitivity p; [|done]. eapply Hall; [done|]. apply list_lookup_insert_eq.
    by eapply lookup_lt_Some.
  - eapply Hall; [done|]. rewrite list_lookup_insert_ne in * by done. done.
Qed.

Lemma calm_set_sleeplocks pid m s : calm pid s → calm pid (set_k_sleeplocks m s).
Proof. done. Qed.
Lemma calm_set_bufs pid v s : calm pid s → calm pid (set_k_bufs v s).
Proof. done. Qed.
Lemma calm_set_lru pid v s : calm pid s → calm pid (set_k_lru v s).
Proof. done. Qed.
Lemma calm_set_log pid v s : calm pid s → calm pid (set_k_log v s).
Proof. done. Qed.

Lemma calm_unlocked pid lk s : calm pid s → unlocked lk s.
Proof. intros [Hl _]. unfold unlocked. rewrite Hl. apply lookup_empty. Qed.
Lemma calm_quiet pid s : calm pid s → quiet s.
Proof. intros (_ & _ & i & p & (Hq & _) & _). done. Qed.
Lemma calm_ready pid s : calm pid s → ready s.
Proof. intros H. by apply quiet_ready, (calm_quiet pid). Qed.

#[export] Hint Extern 2 (unlocked _ _) =>
  match goal with H : calm _ ?s |- unlocked _ ?s => exact (calm_unlocked _ _ _ H) end : kernel.
#[export] Hint Extern 2 (ready _) =>
  match goal with H : calm _ ?s |- ready ?s => exact (calm_ready _ _ H) end : kernel.
#[export] Hint Resolve returns_this_proc : kernel.

(** Wake-ups keep the identity of every process and do not touch the current one. *)
Lemma woken_same cur ch ps : Forall2 same_process ps (imap (awakened cur ch) ps).
Proof.
  apply Forall2_same_length_lookup. split; [by rewrite length_imap|].
  intros i p q Hp Hq. rewrite list_lookup_imap, Hp in Hq. simplify_eq/=.
  unfold awakened. by destruct (_ && _).
Qed.

Lemma woken_running i p ch s :
  running i p s → running i p (set_k_procs (imap (awakened (curproc s) ch) (k_procs s)) s).
Proof.
  intros (Hq & Hp & Hc & Hn). split_and!; [|..|done].
  - apply quiet_set_procs; [done|]. apply length_imap.
  - simpl. rewrite list_lookup_imap, Hp. simpl. unfold awakened. rewrite Hc.
    rewrite bool_decide_eq_false_2; [done|]. intros Hne. by apply Hne.
  - done.
Qed.

Lemma calm_woken pid ch s :
  calm pid s → calm pid (set_k_procs (imap (awakened (curproc s) ch) (k_procs s)) s).
Proof.
  intros (Hl & Hv & i & p & Hr & Hp). split; [done|]. split; [done|]. exists i, p. split; [by apply woken_running|done].
Qed.

(** ** Sleep-locks *)

Lemma running_locked i p lk s :
  running i p s → curproc (locked lk s) = Some i ∧ k_procs (locked lk s) !! i = Some p ∧
  ready (locked lk s).
Proof.
  intros (Hq & Hp & Hc & _). rewrite curproc_locked. split_and!; [done..|].
  apply ready_locked. by apply quiet_ready.
Qed.

Lemma returns_acquiresleep pid l s :
  calm pid s → k_sleeplocks s !! l = None →
  returns (acquiresleep l) s tt (set_k_sleeplocks (<[l := pid]> (k_sleeplocks s)) s).
Proof.
  intros Hcalm Hl. pose proof Hcalm as (_ & _ & i & p & Hrun & Hpid). unfold acquiresleep.
  destruct (running_locked i p (LkSleep l) s Hrun) as (Hc & Hp & Hr).
  kstep. eapply returns_bind.
  { apply returns_sleep_loop. intros n. cbn [wait_unlocked].
    eapply returns_bind; [apply returns_gets|].
    change (k_sleeplocks (locked (LkSleep l) s)) with (k_sleeplocks s). rewrite Hl. kret. }
  kstep. kstep. kstep. rewrite Hpid.
  apply returns_release_from; [done|by apply (calm_ready pid)|by apply (calm_unlocked pid)].
Qed.

Lemma returns_holdingsleep pid l s :
  calm pid s → k_sleeplocks s !! l = Some pid → returns (holdingsleep l) s true s.
Proof.
  intros Hcalm Hl. pose proof Hcalm as (_ & _ & i & p & Hrun & Hpid). unfold holdingsleep.
  destruct (running_locked i p (LkSleep l) s Hrun) as (Hc & Hp & Hr).
  kstep. kstep. change (k_sleeplocks (locked (LkSleep l) s)) with (k_sleeplocks s). rewrite Hl.
  eapply returns_bind.
  { eapply returns_bind; [kret|]. eapply returns_bind; [kret|]. apply returns_ret. }
  rewrite Hpid, Z.eqb_refl. eapply returns_bind; kret.
Qed.

(** A lock released may wake a process that waits for it. *)
Lemma wp_releasesleep {En : Env} pid l s :
  calm pid s →
  wp (releasesleep l) s (λ _ s', calm pid s' ∧ ∃ ps, Forall2 same_process (k_procs s) ps ∧
    s' = set_k_procs ps (set_k_sleeplocks (delete l (k_sleeplocks s)) s)).
Proof.
  intros Hcalm. set (s1 := set_k_sleeplocks (delete l (k_sleeplocks s)) s).
  assert (calm pid s1) as H1 by done.
  set (ps := imap (awakened (curproc s1) (Some (ChSleep l))) (k_procs s1)).
  eapply (wp_returns _ _ tt (set_k_procs ps s1)).
  - unfold releasesleep. kstep. kstep. eapply returns_bind.
    { apply (returns_wakeup (Some (ChSleep l)) (locked (LkSleep l) s1)).
      apply quiet_locked; [done|]. by apply (calm_quiet pid). }
    rewrite curproc_locked.
    apply returns_release_from;
      [done|apply (calm_ready pid)|apply (calm_unlocked pid)]; by apply calm_woken.
  - split; [by apply calm_woken|]. exists ps. split; [apply woken_same|done].
Qed.
