(* ===== verification/BioFacts.v ===== *)
(** * The buffer cache refines a map of blocks

    The cache of [Bio.v] as its clients see it: every block of the disk has a
    contents (its [view]); a block may be held (locked) by the running process and
    pinned; the disk may lag behind the view for blocks that are held or pinned,
    and only for those.  Each operation of the cache is specified on this view. *)

From S2P Require Import Prelude Data State Spinlock Table Mlfq MlfqFacts Sleeplock Bio Calm.

Local Open Scope Z_scope.

(** ** The disk *)

(** The contents of a block: what was written to it last. *)
Fixpoint disk_read (d : list (Z * list Z)) (bn : Z) : list Z :=
  match d with
  | [] => replicate (Z.to_nat BSIZE) 0
  | (n, data) :: d' => if n =? bn then data else disk_read d' bn
  end.

Lemma disk_read_eq d bn data : disk_read ((bn, data) :: d) bn = data.
Proof. simpl. by rewrite Z.eqb_refl. Qed.
Lemma disk_read_ne d n bn data : n ≠ bn → disk_read ((n, data) :: d) bn = disk_read d bn.
Proof. intros. simpl. by rewrite (proj2 (Z.eqb_neq n bn)). Qed.

(** A completed transfer between buffer [n] and the disk. *)
Definition transfer (n : nat) (b : buf) (write : bool) (s s' : kstate) : Prop :=
  disk_step s s' ∧ k_sleeplocks s' = k_sleeplocks s ∧ k_lru s' = k_lru s ∧
  k_log s' = k_log s ∧
  if write then k_bufs s' = k_bufs s ∧ k_disk s' = (b_blockno b, b_data b) :: k_disk s
  else k_bufs s' = <[n := set_b_data (disk_read (k_disk s) (b_blockno b)) b]> (k_bufs s) ∧
       k_disk s' = k_disk s.

(** The blocks that the driver can address: the number of a sector is a [uint]. *)
Definition block_ok (bn : Z) : Prop := 0 ≤ bn < 2 ^ 31.

(** What the driver promises: a call by a process, on a buffer that the device does
    not own, completes the transfer and returns. *)
Class DiskOk `{Env, Disk} : Prop := {
  disk_rw_ok pid n b write s :
    calm pid s → k_bufs s !! n = Some b → b_disk b = false → block_ok (b_blockno b) →
    wp (disk_rw n write) s (λ _ s', calm pid s' ∧ transfer n b write s s');
}.

(** ** The view of the cache *)

Section cache.
Context {En : Env} {Dk : Disk} {HDk : DiskOk} (dev pid : Z).

Implicit Types (view : Z → list Z) (pinned held : gset Z).

Definition refs pinned held (bn : Z) : Z :=
  (if decide (bn ∈ pinned) then 1 else 0) + (if decide (bn ∈ held) then 1 else 0).

Definition buf_ok view pinned held (locks : gmap sleeplock_id Z) (n : nat) (b : buf) : Prop :=
  b_disk b = false ∧
  if decide (b_dev b = dev) then
    b_refcnt b = refs pinned held (b_blockno b) ∧
    locks !! SlBuf n = (if decide (b_blockno b ∈ held) then Some pid else None) ∧
    (b_valid b = true → b_data b = view (b_blockno b)) ∧
    (b_blockno b ∈ pinned ∪ held → b_valid b = true)
  else b_refcnt b = 0 ∧ locks !! SlBuf n = None.

(** Buffer [n] is the one of block [bn]. *)
Definition buf_at (s : kstate) (n : nat) (bn : Z) : Prop :=
  ∃ b, k_bufs s !! n = Some b ∧ b_dev b = dev ∧ b_blockno b = bn.

Record cache_inv view pinned held (s : kstate) : Prop := {
  ci_length : length (k_bufs s) = NBUF;
  ci_lru : k_lru s ≡ₚ seq 0 NBUF;
  ci_buf n b : k_bufs s !! n = Some b → buf_ok view pinned held (k_sleeplocks s) n b;
  ci_unique n m bn : buf_at s n bn → buf_at s m bn → n = m;
  ci_clean bn : bn ∉ pinned → bn ∉ held → view bn = disk_read (k_disk s) bn;
  ci_cached bn : bn ∈ pinned ∪ held → ∃ n, buf_at s n bn;
  ci_size bn : length (view bn) = Z.to_nat BSIZE;
  ci_range bn : bn ∈ pinned ∪ held → block_ok bn;
}.

(** An empty cache shows what is on the disk. *)
Lemma cold_cache s :
  dev ≠ 0 → k_bufs s = replicate NBUF zero_buf → k_lru s ≡ₚ seq 0 NBUF →
  (∀ n, k_sleeplocks s !! SlBuf n = None) →
  (∀ bn, length (disk_read (k_disk s) bn) = Z.to_nat BSIZE) →
  cache_inv (disk_read (k_disk s)) ∅ ∅ s.
Proof.
  intros Hdev Hb Hlru Hlk Hsize. constructor; try done.
  - by rewrite Hb, length_replicate.
  - intros n b Hn. rewrite Hb in Hn. apply lookup_replicate in Hn as [-> _].
    split; [done|]. rewrite decide_False; [done|]. simpl. congruence.
  - intros n m bn (b & Hn & Hd & _). rewrite Hb in Hn.
    apply lookup_replicate in Hn as [-> _]. simpl in Hd. congruence.
Qed.

Lemma cache_inv_set_log view pinned held lg s :
  cache_inv view pinned held s → cache_inv view pinned held (set_k_log lg s).
Proof. by intros []. Qed.

(** What the operations of the cache leave alone. *)
Definition bio_step (s s' : kstate) : Prop := disk_step s s' ∧ k_log s' = k_log s.

#[local] Instance bio_step_preorder : PreOrder bio_step.
Proof.
  split; [by intros s|]. intros s1 s2 s3 [H1 E1] [H2 E2]. split; [by etransitivity|congruence].
Qed.

(** ** Access to buffers *)

Lemma returns_get_buf n b s : k_bufs s !! n = Some b → returns (get_buf n) s b s.
Proof. intros H e. unfold get_buf. by rewrite H. Qed.

Lemma returns_upd_buf n f b s :
  k_bufs s !! n = Some b →
  returns (upd_buf n f) s tt (set_k_bufs (<[n := f b]> (k_bufs s)) s).
Proof. intros H e. unfold upd_buf. by rewrite H. Qed.

#[local] Hint Resolve returns_get_buf returns_upd_buf : kernel.

Lemma find_buf_spec l test s :
  (∀ n, n ∈ l → (n < length (k_bufs s))%nat) →
  ∃ o, returns (find_buf l test) s o s ∧
    match o with
    | Some n => n ∈ l ∧ ∃ b, k_bufs s !! n = Some b ∧ test b = true
    | None => ∀ n b, n ∈ l → k_bufs s !! n = Some b → test b = false
    end.
Proof.
  induction l as [|n l IH]; intros Hl.
  - exists None. split; [kret|]. intros n b Hn. by apply elem_of_nil in Hn.
  - destruct (lookup_lt_is_Some_2 (k_bufs s) n) as [b Hb]; [apply Hl; left|].
    cbn [find_buf]. destruct (test b) eqn:E.
    + exists (Some n). split; [|split; [left|eauto]]. kstep. rewrite E. kret.
    + destruct IH as (o & Ho & Hspec); [intros m Hm; apply Hl; by right|].
      exists o. split; [kstep; by rewrite E|]. destruct o as [m|].
      * destruct Hspec as [Hm ?]. split; [by right|done].
      * intros m c Hm Hc. apply elem_of_cons in Hm as [->|Hm]; [congruence|eauto].
Qed.

Lemma lru_bound view pinned held s n :
  cache_inv view pinned held s → n ∈ k_lru s → (n < length (k_bufs s))%nat.
Proof.
  intros HI Hn. rewrite (ci_lru _ _ _ _ HI) in Hn. rewrite (ci_length _ _ _ _ HI).
  apply elem_of_seq in Hn. lia.
Qed.

Lemma lru_all view pinned held s n b :
  cache_inv view pinned held s → k_bufs s !! n = Some b → n ∈ k_lru s.
Proof.
  intros HI Hb. rewrite (ci_lru _ _ _ _ HI). apply elem_of_seq.
  apply lookup_lt_Some in Hb. rewrite (ci_length _ _ _ _ HI) in Hb. lia.
Qed.

(** With fewer blocks in use than buffers, some buffer is unused. *)
Lemma unused_exists view pinned held s :
  cache_inv view pinned held s → (size (pinned ∪ held) < NBUF)%nat →
  ¬ (∀ n b, n ∈ k_lru s → k_bufs s !! n = Some b → (b_refcnt b =? 0) = false).
Proof.
  intros HI Hsz Hall.
  assert (∀ n b, k_bufs s !! n = Some b → b_dev b = dev ∧ b_blockno b ∈ pinned ∪ held) as Hin.
  { intros n b Hb. pose proof (Hall n b (lru_all _ _ _ _ _ _ HI Hb) Hb) as Hz.
    apply Z.eqb_neq in Hz. destruct (ci_buf _ _ _ _ HI n b Hb) as [_ Hok].
    case_decide as Hd; [|naive_solver]. split; [done|].
    destruct Hok as (Hr & _). unfold refs in Hr. rewrite elem_of_union.
    repeat case_decide; try (by auto); lia. }
  assert (NoDup (b_blockno <$> k_bufs s)) as Hnd.
  { apply NoDup_alt. intros n m bn Hn Hm. rewrite list_lookup_fmap_Some in Hn, Hm.
    destruct Hn as (b & -> & Hb), Hm as (c & E & Hc).
    apply (ci_unique _ _ _ _ HI n m (b_blockno b)).
    - exists b. by destruct (Hin n b Hb).
    - exists c. by destruct (Hin m c Hc). }
  assert (list_to_set (b_blockno <$> k_bufs s) ⊆ pinned ∪ held) as Hsub.
  { intros bn Hbn. apply elem_of_list_to_set, list_elem_of_fmap in Hbn as (b & -> & Hb).
    apply list_elem_of_lookup in Hb as (n & Hb). naive_solver. }
  apply subseteq_size in Hsub. rewrite size_list_to_set in Hsub by done.
  rewrite length_fmap, (ci_length _ _ _ _ HI) in Hsub. lia.
Qed.

(** ** Changing one buffer *)

(** Buffer [n] becomes the one of [bn], with the given contents and references;
    the rest of the cache is unchanged. *)
Lemma cache_inv_put view pinned held view' pinned' held' s s' n b bn :
  cache_inv view pinned held s →
  (buf_at s n bn ∨ ∀ m, ¬ buf_at s m bn) →
  b_dev b = dev → b_blockno b = bn → block_ok bn →
  (∀ c, k_bufs s !! n = Some c → b_dev c = dev → b_blockno c ≠ bn →
     b_blockno c ∉ pinned ∪ held) →
  (n < NBUF)%nat →
  k_bufs s' = <[n := b]> (k_bufs s) → k_lru s' ≡ₚ k_lru s →
  (∀ m, m ≠ n → k_sleeplocks s' !! SlBuf m = k_sleeplocks s !! SlBuf m) →
  (∀ bn', bn' ≠ bn → view' bn' = view bn' ∧ (bn' ∈ pinned' ↔ bn' ∈ pinned) ∧
     (bn' ∈ held' ↔ bn' ∈ held) ∧ disk_read (k_disk s') bn' = disk_read (k_disk s) bn') →
  (bn ∉ pinned' → bn ∉ held' → view' bn = disk_read (k_disk s') bn) →
  length (view' bn) = Z.to_nat BSIZE →
  buf_ok view' pinned' held' (k_sleeplocks s') n b →
  cache_inv view' pinned' held' s'.
Proof.
  intros HI Hat Hd Hbn Hrange Hold Hn Hbufs Hlru Hlocks Hsame Hclean Hsize Hok.
  assert (∀ m c, m ≠ n → k_bufs s !! m = Some c → b_dev c = dev → b_blockno c ≠ bn) as Hother.
  { intros m c Hm Hc Hdc E. destruct Hat as [Hat|Hnone].
    - apply Hm. eapply (ci_unique _ _ _ _ HI); [|done]. by exists c.
    - apply (Hnone m). by exists c. }
  assert (∀ m bn', buf_at s' m bn' → (m = n ∧ bn' = bn) ∨ (m ≠ n ∧ buf_at s m bn')) as Hinv.
  { intros m bn' (c & Hc & Hdc & E). rewrite Hbufs in Hc.
    destruct (decide (m = n)) as [->|Hm].
    - rewrite list_lookup_insert_eq in Hc by (rewrite (ci_length _ _ _ _ HI); lia).
      left. split; congruence.
    - rewrite list_lookup_insert_ne in Hc by done. right. split; [done|]. by exists c. }
  constructor.
  - rewrite Hbufs, length_insert. apply (ci_length _ _ _ _ HI).
  - rewrite Hlru. apply (ci_lru _ _ _ _ HI).
  - intros m c Hc. rewrite Hbufs in Hc. destruct (decide (m = n)) as [->|Hm].
    + rewrite list_lookup_insert_eq in Hc by (rewrite (ci_length _ _ _ _ HI); lia). congruence.
    + rewrite list_lookup_insert_ne in Hc by done.
      pose proof (ci_buf _ _ _ _ HI m c Hc) as [Hdisk Hc']. split; [done|].
      rewrite (Hlocks m Hm). case_decide as Hdc; [|done].
      destruct (Hsame _ (Hother m c Hm Hc Hdc)) as (Hv & Hp & Hh & _).
      destruct Hc' as (Hr & Hl & Hval & Hpv). split_and!.
      * rewrite Hr. unfold refs. by rewrite (decide_ext _ _ _ _ Hp), (decide_ext _ _ _ _ Hh).
      * rewrite Hl. by rewrite (decide_ext _ _ _ _ Hh).
      * intros. rewrite Hv. auto.
      * rewrite elem_of_union, Hp, Hh, <- elem_of_union. done.
  - intros m1 m2 bn' H1 H2. apply Hinv in H1, H2.
    destruct H1 as [[-> ->]|[Hm1 H1]], H2 as [[-> E]|[Hm2 H2]]; try done.
    + exfalso. destruct H2 as (c & Hc & Hdc & E). by eapply (Hother m2 c).
    + exfalso. subst. destruct H1 as (c & Hc & Hdc & E). by eapply (Hother m1 c).
    + by eapply (ci_unique _ _ _ _ HI).
  - intros bn' Hp Hh. destruct (decide (bn' = bn)) as [->|Hne]; [auto|].
    destruct (Hsame bn' Hne) as (Hv & Hp' & Hh' & Hdr). rewrite Hv, Hdr.
    apply (ci_clean _ _ _ _ HI); [by rewrite <- Hp'|by rewrite <- Hh'].
  - intros bn' Hin. destruct (decide (bn' = bn)) as [->|Hne].
    + exists n, b. rewrite Hbufs. split_and!; [|done..].
      apply list_lookup_insert_eq. by rewrite (ci_length _ _ _ _ HI).
    + destruct (Hsame bn' Hne) as (_ & Hp' & Hh' & _).
      rewrite elem_of_union, Hp', Hh', <- elem_of_union in Hin.
      destruct (ci_cached _ _ _ _ HI bn' Hin) as (m & c & Hc & Hdc & E).
      exists m, c. split_and!; [|done..]. rewrite Hbufs, list_lookup_insert_ne; [done|].
      intros ->. apply (Hold c Hc Hdc); congruence.
  - intros bn'. destruct (decide (bn' = bn)) as [->|Hne]; [done|].
    destruct (Hsame bn' Hne) as (-> & _). apply (ci_size _ _ _ _ HI).
  - intros bn' Hin. destruct (decide (bn' = bn)) as [->|Hne]; [done|].
    destruct (Hsame bn' Hne) as (_ & Hp' & Hh' & _).
    rewrite elem_of_union, Hp', Hh', <- elem_of_union in Hin. by apply (ci_range _ _ _ _ HI).
Qed.

(** ** [bread] *)

(** The buffer [b] that [bget] places in slot [n]: the one that had the block, or an
    unused one. *)
Record got view pinned held (bn : Z) (s : kstate) (n : nat) (b : buf) : Prop := {
  got_bound : (n < NBUF)%nat;
  got_at : buf_at s n bn ∨ ∀ m, ¬ buf_at s m bn;
  got_dev : b_dev b = dev;
  got_blockno : b_blockno b = bn;
  got_disk : b_disk b = false;
  got_refcnt : b_refcnt b = refs pinned ({[bn]} ∪ held) bn;
  got_data : b_valid b = true → b_data b = view bn;
  got_valid : bn ∈ pinned → b_valid b = true;
  got_old c : k_bufs s !! n = Some c → b_dev c = dev → b_blockno c ≠ bn →
    b_blockno c ∉ pinned ∪ held;
}.

Lemma refs_held pinned held bn :
  bn ∉ held → refs pinned ({[bn]} ∪ held) bn = refs pinned held bn + 1.
Proof.
  intros H. unfold refs. rewrite (decide_True (P := bn ∈ {[bn]} ∪ held)) by set_solver.
  rewrite (decide_False (P := bn ∈ held)) by done. lia.
Qed.

Lemma refs_range pinned held bn : 0 ≤ refs pinned held bn ≤ 2.
Proof. unfold refs. repeat case_decide; lia. Qed.

Lemma refs_unused pinned held bn : refs pinned held bn = 0 → bn ∉ pinned ∪ held.
Proof. unfold refs. intros. rewrite elem_of_union. repeat case_decide; naive_solver lia. Qed.

(** The block is cached. *)
Lemma got_hit view pinned held bn s n b :
  cache_inv view pinned held s → bn ∉ held →
  k_bufs s !! n = Some b → b_dev b = dev → b_blockno b = bn →
  got view pinned held bn s n (set_b_refcnt (u32 (b_refcnt b + 1)) b) ∧
  k_sleeplocks s !! SlBuf n = None.
Proof.
  intros HI Hh Hb Hd Hbn. destruct (ci_buf _ _ _ _ HI n b Hb) as [Hdisk Hok].
  rewrite decide_True in Hok by done. destruct Hok as (Hr & Hl & Hv & Hp). subst bn.
  split; [|by rewrite decide_False in Hl].
  constructor; try done.
  - rewrite <- (ci_length _ _ _ _ HI). by eapply lookup_lt_Some.
  - left. by exists b.
  - simpl. rewrite refs_held, Hr by done. apply u32_small.
    pose proof (refs_range pinned held (b_blockno b)). unfold is_u32. lia.
  - intros. apply Hp. set_solver.
  - intros c Hc _ Hne. naive_solver.
Qed.

(** The block is not cached and buffer [n] is unused. *)
Lemma got_miss view pinned held bn s n b :
  cache_inv view pinned held s → bn ∉ held → (∀ m, ¬ buf_at s m bn) →
  k_bufs s !! n = Some b → b_refcnt b = 0 →
  got view pinned held bn s n
    (set_b_refcnt 1 (set_b_valid false (set_b_blockno bn (set_b_dev dev b)))) ∧
  k_sleeplocks s !! SlBuf n = None.
Proof.
  intros HI Hh Hnone Hb Hr. destruct (ci_buf _ _ _ _ HI n b Hb) as [Hdisk Hok].
  assert (bn ∉ pinned) as Hp.
  { intros Hp. destruct (ci_cached _ _ _ _ HI bn) as (m & Hm); [set_solver|]. by apply (Hnone m). }
  split.
  - constructor; try done.
    + rewrite <- (ci_length _ _ _ _ HI). by eapply lookup_lt_Some.
    + by right.
    + simpl. rewrite refs_held by done. unfold refs. by rewrite !decide_False.
    + intros c Hc Hd _. simplify_eq. rewrite decide_True in Hok by done.
      destruct Hok as (Hr' & _). apply refs_unused. congruence.
  - case_decide; [|naive_solver]. destruct Hok as (Hr' & Hl & _). rewrite Hl.
    rewrite decide_False; [done|].
    assert (b_blockno b ∉ pinned ∪ held) by (apply refs_unused; congruence). set_solver.
Qed.

(** The state when [bget] returns. *)
Definition after_bget (n : nat) (b : buf) (s : kstate) : kstate :=
  set_k_sleeplocks (<[SlBuf n := pid]> (k_sleeplocks s))
    (set_k_bufs (<[n := b]> (k_bufs s)) s).

(** The end of [bget] on both paths: the cache is unlocked, the buffer is locked. *)
Lemma returns_bget_end n b s s1 :
  calm pid s → k_sleeplocks s !! SlBuf n = None →
  s1 = locked LkBcache (set_k_bufs (<[n := b]> (k_bufs s)) s) →
  returns (release LkBcache ;; acquiresleep (SlBuf n) ;; mret n) s1 n (after_bget n b s).
Proof.
  intros Hcalm Hl ->. eapply returns_bind.
  { apply returns_release; [by apply (calm_ready pid)|by apply (calm_unlocked pid)]. }
  eapply returns_bind; [by apply (returns_acquiresleep pid)|]. apply returns_ret.
Qed.

Definition is_block (bn : Z) (b : buf) : bool := (b_dev b =? dev) && (b_blockno b =? bn).

Lemma is_block_true bn b : is_block bn b = true ↔ b_dev b = dev ∧ b_blockno b = bn.
Proof. unfold is_block. by rewrite andb_true_iff, !Z.eqb_eq. Qed.

Lemma returns_bget_hit bn s n b :
  calm pid s → k_sleeplocks s !! SlBuf n = None → k_bufs s !! n = Some b →
  returns (find_buf (k_lru s) (is_block bn)) (locked LkBcache s) (Some n) (locked LkBcache s) →
  returns (bget dev bn) s n (after_bget n (set_b_refcnt (u32 (b_refcnt b + 1)) b) s).
Proof.
  intros Hcalm Hl Hb Ho. unfold bget. kstep. kstep.
  eapply returns_bind; [exact Ho|]. cbn beta iota.
  eapply returns_bind; [by apply returns_upd_buf|].
  by apply returns_bget_end.
Qed.

Lemma returns_bget_miss bn s n b :
  calm pid s → k_sleeplocks s !! SlBuf n = None → k_bufs s !! n = Some b →
  returns (find_buf (k_lru s) (is_block bn)) (locked LkBcache s) None (locked LkBcache s) →
  returns (find_buf (reverse (k_lru s)) (λ b, b_refcnt b =? 0)) (locked LkBcache s)
    (Some n) (locked LkBcache s) →
  returns (bget dev bn) s n (after_bget n
    (set_b_refcnt 1 (set_b_valid false (set_b_blockno bn (set_b_dev dev b)))) s).
Proof.
  intros Hcalm Hl Hb Ho Ho'. unfold bget. kstep. kstep.
  eapply returns_bind; [exact Ho|]. cbn beta iota.
  eapply returns_bind; [exact Ho'|]. cbn beta iota.
  assert (n < length (k_bufs s))%nat as Hlt by (by eapply lookup_lt_Some).
  eapply returns_bind; [by apply returns_upd_buf|].
  do 3 (eapply returns_bind;
    [apply returns_upd_buf, list_lookup_insert_eq; simpl; by rewrite ?length_insert|]).
  apply returns_bget_end; [done..|]. cbn [k_bufs set_k_bufs locked set_k_locks on_cpu set_k_cpus].
  by rewrite !list_insert_insert_eq.
Qed.

Lemma returns_bget view pinned held bn s :
  calm pid s → cache_inv view pinned held s → bn ∉ held →
  (bn ∈ pinned ∨ (size (pinned ∪ held) < NBUF)%nat) →
  ∃ n b, got view pinned held bn s n b ∧ returns (bget dev bn) s n (after_bget n b s).
Proof.
  intros Hcalm HI Hh Hroom.
  destruct (find_buf_spec (k_lru s) (is_block bn) (locked LkBcache s)) as (o & Ho & Hspec).
  { intros n. apply (lru_bound _ _ _ _ n HI). }
  change (k_bufs (locked _ s)) with (k_bufs s) in Hspec. destruct o as [n|].
  { destruct Hspec as (Hn & b & Hb & [Hd Hbn]%is_block_true).
    destruct (got_hit view pinned held bn s n b) as [Hgot Hl]; [done..|].
    eexists n, _. split; [exact Hgot|]. by apply returns_bget_hit. }
  assert (∀ m, ¬ buf_at s m bn) as Hnone.
  { intros m (b & Hb & Hd & Hbn). specialize (Hspec m b (lru_all _ _ _ _ _ _ HI Hb) Hb).
    by rewrite (proj2 (is_block_true bn b)) in Hspec. }
  destruct (find_buf_spec (reverse (k_lru s)) (λ b, b_refcnt b =? 0) (locked LkBcache s))
    as (o & Ho' & Hspec').
  { intros n. rewrite elem_of_reverse. apply (lru_bound _ _ _ _ n HI). }
  change (k_bufs (locked _ s)) with (k_bufs s) in Hspec'. destruct o as [n|].
  - destruct Hspec' as (Hn & b & Hb & Ht). apply Z.eqb_eq in Ht.
    destruct (got_miss view pinned held bn s n b) as [Hgot Hl]; [done..|].
    eexists n, _. split; [exact Hgot|]. by apply returns_bget_miss.
  - exfalso. destruct Hroom as [Hp|Hsz].
    + destruct (ci_cached _ _ _ _ HI bn) as (m & Hm); [set_solver|]. by apply (Hnone m).
    + eapply unused_exists; [done|done|]. intros n b Hn. apply Hspec'.
      by apply elem_of_reverse.
Qed.

(** The cache after the block has been read. *)
Lemma bread_done view pinned held bn s n b s' :
  cache_inv view pinned held s → bn ∉ held → block_ok bn → got view pinned held bn s n b →
  k_sleeplocks s' = <[SlBuf n := pid]> (k_sleeplocks s) → k_lru s' = k_lru s →
  k_disk s' = k_disk s →
  k_bufs s' = <[n := set_b_valid true (set_b_data (view bn) b)]> (k_bufs s) →
  cache_inv view pinned ({[bn]} ∪ held) s' ∧ buf_at s' n bn ∧
  ∀ m bn', bn' ∈ held → buf_at s m bn' → buf_at s' m bn'.
Proof.
  intros HI Hh Hrange Hgot Hsl Hlru Hdisk Hbufs. destruct Hgot.
  assert (n < length (k_bufs s))%nat as Hn by (by rewrite (ci_length _ _ _ _ HI)).
  split_and!.
  - apply (cache_inv_put view pinned held view pinned ({[bn]} ∪ held) s s' n
      (set_b_valid true (set_b_data (view bn) b)) bn); try done.
    + by rewrite Hlru.
    + intros m Hm. rewrite Hsl, lookup_insert_ne; [done|]. congruence.
    + intros bn' Hne. rewrite Hdisk. set_solver.
    + set_solver.
    + apply (ci_size _ _ _ _ HI).
    + split; [done|]. rewrite decide_True by done. split_and!; simpl; try done.
      * by rewrite got_blockno0.
      * rewrite Hsl, lookup_insert_eq, decide_True by set_solver. done.
      * by rewrite got_blockno0.
  - exists (set_b_valid true (set_b_data (view bn) b)). rewrite Hbufs.
    split_and!; [by apply list_lookup_insert_eq|done..].
  - intros m bn' Hin (c & Hc & Hdc & Hcb). exists c. split_and!; [|done..].
    rewrite Hbufs, list_lookup_insert_ne; [done|]. intros ->. subst bn'.
    destruct (decide (b_blockno c = bn)) as [E|E]; [congruence|].
    apply (got_old0 c Hc Hdc E). set_solver.
Qed.

(** [bread] gives the process the block, locked, with its contents in the buffer. *)
Lemma wp_bread view pinned held bn s :
  calm pid s → cache_inv view pinned held s → bn ∉ held → block_ok bn →
  (bn ∈ pinned ∨ (size (pinned ∪ held) < NBUF)%nat) →
  wp (bread dev bn) s (λ n s', calm pid s' ∧ bio_step s s' ∧ k_disk s' = k_disk s ∧
    cache_inv view pinned ({[bn]} ∪ held) s' ∧ buf_at s' n bn ∧
    ∀ m bn', bn' ∈ held → buf_at s m bn' → buf_at s' m bn').
Proof.
  intros Hcalm HI Hh Hrange Hroom.
  destruct (returns_bget view pinned held bn s) as (n & b & Hgot & Hget); [done..|].
  assert (n < length (k_bufs s))%nat as Hn by (rewrite (ci_length _ _ _ _ HI); by destruct Hgot).
  set (s1 := after_bget n b s) in *.
  assert (k_bufs s1 !! n = Some b) as Hb1 by (by apply list_lookup_insert_eq).
  assert (disk_step s s1) as Hds1.
  { constructor; try done. intros m. simpl. by rewrite lookup_insert_ne. }
  unfold bread. apply wp_bind. eapply wp_returns; [exact Hget|]. cbn beta.
  apply wp_bind. eapply wp_returns; [by apply returns_get_buf|]. cbn beta.
  unfold when. destruct (b_valid b) eqn:Hv; cbn [negb].
  - apply wp_bind, wp_ret, wp_ret. split; [done|split; [by split|split; [done|]]].
    apply (bread_done view pinned held bn s n b); try done. simpl. do 2 f_equal.
    rewrite <- (got_data _ _ _ _ _ _ _ Hgot Hv). destruct b; simpl in *; by rewrite Hv.
  - assert (bn ∉ pinned) as Hp.
    { intros Hp. rewrite (got_valid _ _ _ _ _ _ _ Hgot Hp) in Hv. done. }
    apply wp_bind, wp_bind. eapply wp_mono.
    { apply (disk_rw_ok pid n b false s1); [done|done|by destruct Hgot|].
      by rewrite (got_blockno _ _ _ _ _ _ _ Hgot). }
    intros _ s2 (Hc2 & Hds2 & Hsl2 & Hlru2 & Hlog2 & Hbufs2 & Hdisk2).
    eapply wp_returns.
    { apply returns_upd_buf. rewrite Hbufs2. apply list_lookup_insert_eq. simpl.
      by rewrite length_insert. }
    apply wp_ret. split; [done|split; [|split; [done|]]].
    + split; [|done]. apply disk_step_set_bufs. by etransitivity.
    + apply (bread_done view pinned held bn s n b); try done. simpl.
      rewrite Hbufs2. simpl. rewrite !list_insert_insert_eq. do 3 f_equal.
      rewrite (got_blockno _ _ _ _ _ _ _ Hgot). symmetry. by apply (ci_clean _ _ _ _ HI).
Qed.

(** ** Using a held block *)

(** What the cache knows of a buffer that the process holds. *)
Lemma held_buf view pinned held s n bn :
  cache_inv view pinned held s → bn ∈ held → buf_at s n bn →
  ∃ b, k_bufs s !! n = Some b ∧ b_dev b = dev ∧ b_blockno b = bn ∧ b_disk b = false ∧
    b_valid b = true ∧ b_data b = view bn ∧ b_refcnt b = refs pinned held bn ∧
    k_sleeplocks s !! SlBuf n = Some pid ∧ (n < NBUF)%nat.
Proof.
  intros HI Hh (b & Hb & Hd & Hbn). exists b.
  destruct (ci_buf _ _ _ _ HI n b Hb) as [Hdisk Hok]. rewrite decide_True in Hok by done.
  destruct Hok as (Hr & Hl & Hv & Hp). subst bn. rewrite decide_True in Hl by done.
  assert (b_valid b = true) by (apply Hp; set_solver).
  split_and!; auto. rewrite <- (ci_length _ _ _ _ HI). by eapply lookup_lt_Some.
Qed.

Lemma buf_at_of s n b : k_bufs s !! n = Some b → b_dev b = dev → buf_at s n (b_blockno b).
Proof. intros. by exists b. Qed.

(** The buffer of a held block is changed in place: the references and the contents. *)
Lemma cache_inv_upd view pinned held view' pinned' s s' n b bn :
  cache_inv view pinned held s → bn ∈ held → buf_at s n bn →
  b_dev b = dev → b_blockno b = bn → b_disk b = false → b_valid b = true →
  b_data b = view' bn → b_refcnt b = refs pinned' held bn →
  k_bufs s' = <[n := b]> (k_bufs s) → k_lru s' = k_lru s →
  k_sleeplocks s' = k_sleeplocks s →
  (∀ bn', bn' ≠ bn → view' bn' = view bn' ∧ (bn' ∈ pinned' ↔ bn' ∈ pinned) ∧
     disk_read (k_disk s') bn' = disk_read (k_disk s) bn') →
  length (view' bn) = Z.to_nat BSIZE →
  cache_inv view' pinned' held s'.
Proof.
  intros HI Hh Hat Hd Hbn Hdisk Hv Hdata Hr Hbufs Hlru Hsl Hsame Hlen.
  destruct (held_buf _ _ _ _ _ _ HI Hh Hat) as (c & Hc & _ & Hcb & _ & _ & _ & _ & Hl & Hn).
  apply (cache_inv_put view pinned held view' pinned' held s s' n b bn); try done.
  - by left.
  - apply (ci_range _ _ _ _ HI). set_solver.
  - intros c' Hc' _ Hne. naive_solver.
  - by rewrite Hlru.
  - by rewrite Hsl.
  - intros bn' Hne. destruct (Hsame bn' Hne) as (? & ? & ?). split_and!; done.
  - split; [done|]. rewrite decide_True by done. rewrite Hbn, Hsl, Hl.
    by rewrite decide_True by done.
Qed.

(** The process writes to the buffer. *)
Lemma wp_write_buf view pinned held n bn data s :
  calm pid s → cache_inv view pinned held s → bn ∈ held → buf_at s n bn →
  length (data (view bn)) = Z.to_nat BSIZE →
  wp (upd_buf n (λ b, set_b_data (data (b_data b)) b)) s (λ _ s', calm pid s' ∧ bio_step s s' ∧
    k_disk s' = k_disk s ∧ cache_inv (<[bn := data (view bn)]> view) pinned held s' ∧
    ∀ m bn', buf_at s m bn' → buf_at s' m bn').
Proof.
  intros Hcalm HI Hh Hat Hlen.
  destruct (held_buf _ _ _ _ _ _ HI Hh Hat) as (b & Hb & Hd & Hbn & Hdisk & Hv & Hdata & Hr & _).
  eapply wp_returns; [by apply returns_upd_buf|].
  split_and!; [done|split; [by apply disk_step_set_bufs|done]|done| |].
  - eapply (cache_inv_upd view pinned held _ _ s _ n (set_b_data (data (b_data b)) b) bn);
      try done; simpl.
    + rewrite fn_lookup_insert. by rewrite Hdata.
    + intros bn' Hne. by rewrite fn_lookup_insert_ne.
    + by rewrite fn_lookup_insert.
  - intros m bn' (c & Hc & Hdc & Hcb). destruct (decide (m = n)) as [->|Hm].
    + exists (set_b_data (data (b_data b)) b). simplify_eq. split_and!; [|done..].
      apply list_lookup_insert_eq. by eapply lookup_lt_Some.
    + exists c. split_and!; [|done..]. simpl. by rewrite list_lookup_insert_ne.
Qed.

(** [bwrite] makes the disk agree with the view of the block. *)
Lemma wp_bwrite view pinned held n bn s :
  calm pid s → cache_inv view pinned held s → bn ∈ held → buf_at s n bn →
  wp (bwrite n) s (λ _ s', calm pid s' ∧ bio_step s s' ∧
    k_disk s' = (bn, view bn) :: k_disk s ∧ cache_inv view pinned held s' ∧
    ∀ m bn', buf_at s m bn' → buf_at s' m bn').
Proof.
  intros Hcalm HI Hh Hat.
  destruct (held_buf _ _ _ _ _ _ HI Hh Hat)
    as (b & Hb & Hd & Hbn & Hdisk & Hv & Hdata & Hr & Hl & Hn).
  unfold bwrite. apply wp_bind. eapply wp_returns; [by apply (returns_holdingsleep pid)|].
  cbn [negb]. eapply wp_mono.
  { apply (disk_rw_ok pid n b true); [done..|]. rewrite Hbn. apply (ci_range _ _ _ _ HI). set_solver. }
  intros _ s' (Hc' & Hds & Hsl & Hlru & Hlog & Hbufs & Hdk). rewrite Hbn, Hdata in Hdk.
  split_and!; [done|done|done| |].
  - apply (cache_inv_upd view pinned held view pinned s s' n b bn); try done.
    + rewrite Hbufs. by rewrite list_insert_id.
    + intros bn' Hne. rewrite Hdk, disk_read_ne by done. done.
    + apply (ci_size _ _ _ _ HI).
  - intros m bn' (c & Hc & ?). exists c. by rewrite Hbufs.
Qed.

(** ** Releasing and pinning *)

Lemma move_to_head_perm n l : NoDup l → n ∈ l → move_to_head n l ≡ₚ l.
Proof.
  intros Hnd Hn. unfold move_to_head. apply NoDup_Permutation; [|done|].
  - apply list.NoDup_cons. split; [|by apply list.NoDup_filter].
    rewrite list_elem_of_filter. naive_solver.
  - intros m. rewrite elem_of_cons, list_elem_of_filter.
    destruct (decide (m = n)); naive_solver.
Qed.

(** The state when [brelse] returns. *)
Definition after_brelse (n : nat) (b : buf) (ps : list proc) (s : kstate) : kstate :=
  let r := u32 (b_refcnt b - 1) in
  set_k_lru (if r =? 0 then move_to_head n (k_lru s) else k_lru s)
    (set_k_bufs (<[n := set_b_refcnt r b]> (k_bufs s))
      (set_k_procs ps (set_k_sleeplocks (delete (SlBuf n) (k_sleeplocks s)) s))).

Lemma wp_brelse_raw n b s :
  calm pid s → k_bufs s !! n = Some b → k_sleeplocks s !! SlBuf n = Some pid →
  wp (brelse n) s (λ _ s', calm pid s' ∧ ∃ ps, Forall2 same_process (k_procs s) ps ∧
    s' = after_brelse n b ps s).
Proof.
  intros Hcalm Hb Hl. unfold brelse.
  apply wp_bind. eapply wp_returns; [by apply (returns_holdingsleep pid)|]. cbn [negb].
  apply wp_bind. eapply wp_mono; [by apply (wp_releasesleep pid)|].
  intros _ s1 (Hc1 & ps & Hps & ->). set (s1 := set_k_procs ps _) in *.
  set (r := u32 (b_refcnt b - 1)).
  set (s2 := set_k_bufs (<[n := set_b_refcnt r b]> (k_bufs s)) s1).
  assert (returns (upd_buf n (λ b, set_b_refcnt (u32 (b_refcnt b - 1)) b)) (locked LkBcache s1)
    tt (locked LkBcache s2)) as Hu by (by eapply returns_to; [apply returns_upd_buf|]).
  assert (returns (get_buf n) (locked LkBcache s2) (set_b_refcnt r b) (locked LkBcache s2)) as Hg.
  { apply returns_get_buf. apply list_lookup_insert_eq. by eapply lookup_lt_Some. }
  eapply (wp_returns _ _ tt (after_brelse n b ps s)).
  - kstep. eapply returns_bind; [exact Hu|]. eapply returns_bind; [exact Hg|]. cbn beta.
    eapply (returns_bind _ _ _ tt (locked LkBcache (after_brelse n b ps s))).
    + unfold when, after_brelse. fold r. cbn [b_refcnt set_b_refcnt]. destruct (r =? 0); kret.
    + apply returns_release; [by apply (calm_ready pid)|by apply (calm_unlocked pid)].
  - split; [done|]. by exists ps.
Qed.

Lemma after_brelse_step n b ps s :
  Forall2 same_process (k_procs s) ps → bio_step s (after_brelse n b ps s).
Proof.
  intros Hps. split; [|done]. constructor; try done.
  intros m. simpl. by rewrite lookup_delete_ne.
Qed.

Lemma wp_brelse view pinned held n bn s :
  calm pid s → cache_inv view pinned held s → bn ∈ held → buf_at s n bn →
  (bn ∈ pinned ∨ view bn = disk_read (k_disk s) bn) →
  wp (brelse n) s (λ _ s', calm pid s' ∧ bio_step s s' ∧ k_disk s' = k_disk s ∧
    cache_inv view pinned (held ∖ {[bn]}) s' ∧ ∀ m bn', buf_at s m bn' → buf_at s' m bn').
Proof.
  intros Hcalm HI Hh Hat Hclean.
  destruct (held_buf _ _ _ _ _ _ HI Hh Hat)
    as (b & Hb & Hd & Hbn & Hdisk & Hv & Hdata & Hr & Hl & Hn).
  assert (u32 (b_refcnt b - 1) = refs pinned (held ∖ {[bn]}) bn) as Hr'.
  { rewrite Hr. unfold refs. rewrite (decide_True (P := bn ∈ held)) by done.
    rewrite (decide_False (P := bn ∈ held ∖ {[bn]})) by set_solver. case_decide; done. }
  eapply wp_mono; [by apply wp_brelse_raw|]. intros _ s' (Hc' & ps & Hps & ->).
  split_and!; [done|by apply after_brelse_step|done| |].
  - apply (cache_inv_put view pinned held view pinned _ s _ n
      (set_b_refcnt (u32 (b_refcnt b - 1)) b) bn); try done.
    + by left.
    + apply (ci_range _ _ _ _ HI). set_solver.
    + intros c Hc _ Hne. naive_solver.
    + simpl. destruct (u32 (b_refcnt b - 1) =? 0); [|done]. apply move_to_head_perm.
      * rewrite (ci_lru _ _ _ _ HI). apply NoDup_seq.
      * by eapply lru_all.
    + intros m Hm. simpl. rewrite lookup_delete_ne; [done|]. congruence.
    + intros bn' Hne. set_solver.
    + intros Hp _. destruct Hclean; done.
    + apply (ci_size _ _ _ _ HI).
    + split; [done|]. rewrite decide_True by done. simpl. rewrite Hbn.
      rewrite lookup_delete_eq, (decide_False (P := bn ∈ held ∖ {[bn]})) by set_solver. done.
  - intros m bn' (c & Hc & Hdc & Hcb). destruct (decide (m = n)) as [->|Hm].
    + eexists. split_and!; [apply list_lookup_insert_eq; by eapply lookup_lt_Some|naive_solver..].
    + exists c. split_and!; [|done..]. simpl. by rewrite list_lookup_insert_ne.
Qed.

(** [bpin] and [bunpin] of a held block. *)
Lemma returns_set_refcnt n b (d : Z) s :
  ready s → unlocked LkBcache s → k_bufs s !! n = Some b →
  returns (acquire LkBcache ;; upd_buf n (λ b, set_b_refcnt (u32 (b_refcnt b + d)) b) ;;
      release LkBcache) s tt
    (set_k_bufs (<[n := set_b_refcnt (u32 (b_refcnt b + d)) b]> (k_bufs s)) s).
Proof.
  intros Hr Hu Hb. kstep. eapply returns_bind; [by apply returns_upd_buf|].
  by apply returns_release_from.
Qed.

Lemma set_refcnt_inv view pinned held pinned' n b bn (d : Z) s :
  cache_inv view pinned held s → bn ∈ held → buf_at s n bn → k_bufs s !! n = Some b →
  u32 (refs pinned held bn + d) = refs pinned' held bn →
  (∀ bn', bn' ≠ bn → bn' ∈ pinned' ↔ bn' ∈ pinned) →
  let s' := set_k_bufs (<[n := set_b_refcnt (u32 (b_refcnt b + d)) b]> (k_bufs s)) s in
  cache_inv view pinned' held s' ∧ ∀ m bn', buf_at s m bn' → buf_at s' m bn'.
Proof.
  intros HI Hh Hat Hb Hr' Hsame s'.
  destruct (held_buf _ _ _ _ _ _ HI Hh Hat)
    as (b0 & Hb0 & Hd & Hbn & Hdisk & Hv & Hdata & Hr & Hl & Hn). simplify_eq. split.
  - apply (cache_inv_upd view pinned held view pinned' s s' n
      (set_b_refcnt (u32 (b_refcnt b + d)) b) (b_blockno b)); try done.
    + simpl. by rewrite Hr.
    + intros bn' Hne. split_and!; [done|by apply Hsame|done].
    + apply (ci_size _ _ _ _ HI).
  - intros m bn' (c & Hc & Hdc & Hcb). destruct (decide (m = n)) as [->|Hm].
    + eexists. split_and!; [apply list_lookup_insert_eq; by eapply lookup_lt_Some|naive_solver..].
    + exists c. split_and!; [|done..]. simpl. by rewrite list_lookup_insert_ne.
Qed.

Lemma wp_set_refcnt view pinned held pinned' n bn (d : Z) s :
  calm pid s → cache_inv view pinned held s → bn ∈ held → buf_at s n bn →
  u32 (refs pinned held bn + d) = refs pinned' held bn →
  (∀ bn', bn' ≠ bn → bn' ∈ pinned' ↔ bn' ∈ pinned) →
  wp (acquire LkBcache ;; upd_buf n (λ b, set_b_refcnt (u32 (b_refcnt b + d)) b) ;;
      release LkBcache) s
    (λ _ s', calm pid s' ∧ bio_step s s' ∧ k_disk s' = k_disk s ∧
      cache_inv view pinned' held s' ∧ ∀ m bn', buf_at s m bn' → buf_at s' m bn').
Proof.
  intros Hcalm HI Hh Hat Hr' Hsame. pose proof Hat as (b & Hb & _).
  eapply wp_returns;
    [by apply returns_set_refcnt; [apply (calm_ready pid)|apply (calm_unlocked pid)|]|].
  split_and!; [done|split; [by apply disk_step_set_bufs|done]|done|..];
    by apply (set_refcnt_inv view pinned held pinned' n b bn d s).
Qed.

Lemma pin_refs pinned held bn :
  bn ∈ held → bn ∉ pinned → u32 (refs pinned held bn + 1) = refs ({[bn]} ∪ pinned) held bn.
Proof.
  intros Hh Hp. unfold refs. rewrite (decide_False (P := bn ∈ pinned)) by done.
  by rewrite (decide_True (P := bn ∈ {[bn]} ∪ pinned)), (decide_True (P := bn ∈ held)) by set_solver.
Qed.

Lemma wp_bpin view pinned held n bn s :
  calm pid s → cache_inv view pinned held s → bn ∈ held → bn ∉ pinned → buf_at s n bn →
  wp (bpin n) s (λ _ s', calm pid s' ∧ bio_step s s' ∧ k_disk s' = k_disk s ∧
    cache_inv view ({[bn]} ∪ pinned) held s' ∧ ∀ m bn', buf_at s m bn' → buf_at s' m bn').
Proof.
  intros Hcalm HI Hh Hp Hat.
  apply (wp_set_refcnt view pinned held _ n bn 1); try done; [by apply pin_refs|set_solver].
Qed.

Lemma wp_bunpin view pinned held n bn s :
  calm pid s → cache_inv view pinned held s → bn ∈ held → bn ∈ pinned → buf_at s n bn →
  wp (bunpin n) s (λ _ s', calm pid s' ∧ bio_step s s' ∧ k_disk s' = k_disk s ∧
    cache_inv view (pinned ∖ {[bn]}) held s' ∧ ∀ m bn', buf_at s m bn' → buf_at s' m bn').
Proof.
  intros Hcalm HI Hh Hp Hat. apply (wp_set_refcnt view pinned held _ n bn (-1)); try done.
  - unfold refs. rewrite (decide_True (P := bn ∈ pinned)) by done.
    rewrite (decide_False (P := bn ∈ pinned ∖ {[bn]})), (decide_True (P := bn ∈ held)) by set_solver.
    done.
  - set_solver.
Qed.
End cache.
