(* ===== verification/VirtioFacts.v ===== *)
(** * The disk driver keeps its promise to the buffer cache

    [virtio_disk_rw] and [virtio_disk_intr] complete a transfer: the driver hands a
    chain of descriptors to the device and sleeps; the device serves the chain and
    interrupts; the handler wakes the process, which frees the descriptors. *)

From S2P Require Import Prelude Memory Riscv Data State Spinlock Csr Table Mlfq MlfqFacts MlfqSys Sleeplock Bio Virtio Calm BioFacts.

Local Open Scope Z_scope.

(** ** The device *)

(** The flags of the descriptor of the data. *)
Definition data_flags (write : bool) : Z :=
  Z.lor (if write then 0 else VRING_DESC_F_WRITE) VRING_DESC_F_NEXT.

(** The queue after the device has served the chain that starts at [head]: the
    status byte [st] is 0, and the chain is the next entry of the used ring. *)
Definition completed (head : Z) (st : nat) (v : vdisk) : vdisk :=
  set_vd_dev_idx (u16 (vd_dev_idx v + 1))
    (set_vd_used_ring (<[Z.to_nat (vd_dev_idx v mod Z.of_nat NUM) := head]> (vd_used_ring v))
      (set_vd_info (alter (λ x, mkInfo (inf_b x) 0) st (vd_info v)) v)).

(** What the device does with the next available chain, by the virtio specification
    (2.6 and 5.2): a header, the data of a buffer and a status byte make a request
    to read or write the sectors of a block. *)
Inductive served (s s' : kstate) : Prop :=
| served_request (head i1 i2 : Z) (r n st : nat) (req : virtio_blk_req) (b : buf) (write : bool) :
    vd_avail_idx (k_vdisk s) ≠ vd_dev_idx (k_vdisk s) →
    vd_avail_ring (k_vdisk s) !! Z.to_nat (vd_dev_idx (k_vdisk s) mod Z.of_nat NUM) = Some head →
    vd_desc (k_vdisk s) !! Z.to_nat head =
      Some (mkDesc (DmaReq r) sizeof_virtio_blk_req VRING_DESC_F_NEXT i1) →
    vd_desc (k_vdisk s) !! Z.to_nat i1 = Some (mkDesc (DmaData n) BSIZE (data_flags write) i2) →
    vd_desc (k_vdisk s) !! Z.to_nat i2 = Some (mkDesc (DmaStatus st) 1 VRING_DESC_F_WRITE 0) →
    vd_ops (k_vdisk s) !! r = Some req →
    req_type req = (if write then VIRTIO_BLK_T_OUT else VIRTIO_BLK_T_IN) →
    k_bufs s !! n = Some b →
    s' = set_k_vdisk (completed head st (k_vdisk s))
      (if write
       then set_k_disk ((req_sector req / (BSIZE / 512), b_data b) :: k_disk s) s
       else set_k_bufs (<[n := set_b_data (disk_read (k_disk s) (req_sector req / (BSIZE / 512))) b]>
              (k_bufs s)) s) →
    served s s'.

(** ** The rest of the system while the process sleeps *)

(** Other processes, and the timer, run; they may wake up or kill the process, but leave
    the disk layer as it is, and end with an idle hart. *)
Record elsewhere (s s' : kstate) : Prop := {
  ew_step : disk_step s s';
  ew_bufs : k_bufs s' = k_bufs s;
  ew_lru : k_lru s' = k_lru s;
  ew_log : k_log s' = k_log s;
  ew_sleeplocks : k_sleeplocks s' = k_sleeplocks s;
  ew_disk : k_disk s' = k_disk s;
  ew_vdisk : k_vdisk s' = k_vdisk s;
  ew_locks : k_locks s' = k_locks s;
  ew_cpu : ∃ c, k_cpus s' !! k_hart s' = Some c ∧ cpu_settled c ∧ c_noff c = 0 ∧ c_proc c = None;
}.

(** The code of [scheduler_iter] around its call of [swtch]. *)
Definition scheduler_back (h : nat) (i : nat) : K unit :=
  set_cpu_proc h None ;; release (LkProc i).
Definition scheduler_go (h : nat) (i : nat) : K unit :=
  acquire (LkProc i) ;;
  upd_proc i (set_p_state RUNNING) ;;
  upd_proc i (λ p, set_p_num_scheduled (i32 (p_num_scheduled p + 1)) p) ;;
  set_cpu_proc h (Some i).

(** ** Requests in flight *)

(** The free descriptors while a request is in flight. *)
Definition busy : list bool := replicate 3 false ++ replicate 5 true.

(** The queue with the request. *)
Definition requested (n : nat) (write : bool) (sector : Z) (v : vdisk) : vdisk :=
  mkVdisk
    (alter (λ _, mkDesc (DmaStatus 0) 1 VRING_DESC_F_WRITE 0) 2%nat
      (alter (λ _, mkDesc (DmaData n) BSIZE (data_flags write) 2) 1%nat
        (alter (λ _, mkDesc (DmaReq 0) sizeof_virtio_blk_req VRING_DESC_F_NEXT 1) 0%nat (vd_desc v))))
    (u16 (vd_avail_idx v + 1))
    (<[Z.to_nat (vd_avail_idx v mod Z.of_nat NUM) := 0]> (vd_avail_ring v))
    (vd_dev_idx v) (vd_used_ring v) busy (vd_used_idx v)
    (alter (λ x, mkInfo (Some n) (inf_status x)) 0%nat
      (alter (λ x, mkInfo (inf_b x) 0xff) 0%nat (vd_info v)))
    (<[0%nat := mkReq (if write then VIRTIO_BLK_T_OUT else VIRTIO_BLK_T_IN) 0 sector]> (vd_ops v))
    (vd_pages v).
(** The request for buffer [n] is all that the device has to do. *)
Definition in_flight (n : nat) (s : kstate) : Prop :=
  ∃ v b write sector, vd_idle v ∧ k_vdisk s = requested n write sector v ∧ k_bufs s !! n = Some b.

Section driver.
Context {Dv : Device}.

(** What happens while a process sleeps on the buffer of a request that is in flight: the
    scheduler lets go of it, the rest of the system runs, the device serves the request
    and its interrupt is handled, and once the process is runnable the scheduler switches
    to it.  An early turn is one in which the process is made runnable, by [kill],
    before the request is served. *)
Definition turn (early : bool) (w : kstate → kstate) : Prop :=
  ∀ i n p s, running i p s → p_state p = SLEEPING → p_chan p = Some (ChBuf n) →
  k_locks s = ∅ → in_flight n s →
  ∃ s1 s2 s3 p3,
    returns (scheduler_back (k_hart s) i) (locked (LkProc i) s) tt s1 ∧ elsewhere s1 s2 ∧
    (early = true ∧ s3 = s2 ∨
     ∃ s' s'', served s2 s' ∧ returns virtio_disk_intr s' tt s'' ∧ elsewhere s'' s3) ∧
    k_procs s3 !! i = Some p3 ∧ p_state p3 = RUNNABLE ∧
    returns (scheduler_go (k_hart s3) i) s3 tt (w (locked (LkProc i) s)).

(** Turns may be early, but not all of them from some point on. *)
#[local] Instance disk_env : Env := λ w,
  (∀ t, turn true (w t)) ∧ ∀ t, ∃ t', (t ≤ t')%nat ∧ turn false (w t').

(** ** Descriptors *)

Lemma returns_upd_vd f s : returns (upd_vd f) s tt (set_k_vdisk (f (k_vdisk s)) s).
Proof. done. Qed.

Lemma returns_alloc_desc i s :
  first_free (vd_free (k_vdisk s)) = Some i →
  returns alloc_desc s (Some i)
    (set_k_vdisk (set_vd_free (<[i := false]> (vd_free (k_vdisk s))) (k_vdisk s)) s).
Proof. intros H. unfold alloc_desc. kstep. rewrite H. eapply returns_bind; done. Qed.

Lemma returns_alloc3 s :
  vd_free (k_vdisk s) = replicate NUM true →
  returns (sleep_loop alloc3_wait) s (0, 1, 2)%nat
    (set_k_vdisk (set_vd_free busy (k_vdisk s)) s).
Proof.
  intros H. apply returns_sleep_loop. intros fuel. cbn [alloc3_wait].
  eapply (returns_bind _ _ _ (Some [0; 1; 2]%nat)); [|apply returns_ret]. unfold alloc3_desc. cbn [alloc3_loop].
  eapply returns_bind; [apply (returns_alloc_desc 0); by rewrite H|].
  eapply returns_bind; [apply (returns_alloc_desc 1); simpl; by rewrite H|].
  eapply returns_bind; [apply (returns_alloc_desc 2); simpl; by rewrite H|].
  eapply returns_to; [apply returns_ret|]. simpl. by rewrite H.
Qed.


(** ** The interrupt *)

Lemma u16_succ z : 0 ≤ z < 2 ^ 16 → 0 ≤ u16 (z + 1) < 2 ^ 16 ∧ u16 (z + 1) ≠ z.
Proof. unfold u16. intros H. zdiv. Qed.

Lemma ring_slot z : 0 ≤ z → (Z.to_nat (z mod Z.of_nat NUM) < NUM)%nat.
Proof. intros H. unfold NUM. zdiv. Qed.

(** The handler finds one completed request, that of buffer [n]. *)
Lemma returns_intr n b id s :
  let v := k_vdisk s in
  quiet s → unlocked LkVdisk s → 0 ≤ vd_used_idx v < 2 ^ 16 →
  vd_dev_idx v = u16 (vd_used_idx v + 1) →
  vd_used_ring v !! Z.to_nat (vd_used_idx v mod Z.of_nat NUM) = Some (Z.of_nat id) →
  vd_info v !! id = Some (mkInfo (Some n) 0) → k_bufs s !! n = Some b →
  ∃ m, returns virtio_disk_intr s tt
    (set_k_vdisk (set_vd_used_idx (u16 (vd_used_idx v + 1)) v)
      (set_k_procs (imap (awakened (curproc s) (Some (ChBuf n))) (k_procs s))
        (set_k_bufs (<[n := set_b_disk false b]> (k_bufs s)) (set_k_mmio m s)))).
Proof.
  intros v Hq Hu Hidx Hdev Hring Hinfo Hb. eexists.
  pose proof (u16_succ _ Hidx) as [_ Hne]. unfold virtio_disk_intr.
  assert (ready s) by (by destruct Hq).
  kstep. eapply returns_bind; [apply returns_gets|]. eapply returns_bind; [apply returns_modify|].
  eapply returns_bind.
  { replace (Z.to_nat (2 ^ 16)) with (S (S (Z.to_nat (2 ^ 16 - 2)))) by lia. cbn [intr_loop].
    kstep. cbn [k_vdisk set_k_mmio locked set_k_locks on_cpu set_k_cpus]. fold v.
    rewrite (proj2 (Z.eqb_neq _ _)) by (rewrite Hdev; congruence).
    eapply returns_bind; [apply returns_index; [|exact Hring]; apply Z.mod_pos_bound; done|].
    eapply returns_bind; [apply returns_index; [lia|by rewrite Nat2Z.id]|]. cbn [inf_status inf_b].
    rewrite Z.eqb_refl. cbn [negb]. eapply returns_bind; [by apply returns_deref|].
    eapply returns_bind; [by apply returns_upd_buf|].
    eapply returns_bind.
    { apply returns_wakeup, (quiet_locked LkVdisk (set_k_bufs _ (set_k_mmio _ s))); [done|].
      by destruct Hq as (? & ? & ?). }
    eapply returns_bind; [apply returns_upd_vd|]. kstep.
    cbn [k_vdisk set_k_vdisk set_k_procs set_k_bufs set_k_mmio locked set_k_locks on_cpu set_k_cpus].
    fold v. cbn [vd_used_idx vd_dev_idx set_vd_used_idx]. rewrite Hdev, Z.eqb_refl. apply returns_ret. }
  apply returns_release_from; [|by destruct Hq|done].
  change (curproc (set_k_bufs _ _)) with (curproc (locked LkVdisk s)).
  rewrite curproc_locked. autorewrite with locked. reflexivity.
Qed.

(** ** The wait for the request *)

Lemma requested_desc n write sector v :
  vd_idle v → let d := vd_desc (requested n write sector v) in
  d !! 0%nat = Some (mkDesc (DmaReq 0) sizeof_virtio_blk_req VRING_DESC_F_NEXT 1) ∧
  d !! 1%nat = Some (mkDesc (DmaData n) BSIZE (data_flags write) 2) ∧
  d !! 2%nat = Some (mkDesc (DmaStatus 0) 1 VRING_DESC_F_WRITE 0).
Proof.
  intros [Hd _ _ _ _ _ _ _ _]. simpl. destruct (vd_desc v) as [|d0 [|d1 [|d2 l]]]; done.
Qed.

(** The queue once the request is served and the handler has seen it. *)
Definition answered (v : vdisk) : vdisk :=
  set_vd_used_idx (u16 (vd_used_idx v + 1)) (completed 0 0 v).

(** The effect of the request on the buffers and the disk. *)
Definition transferred (n : nat) (b : buf) (write : bool) (sector : Z) (s s' : kstate) : Prop :=
  let bn := sector / (BSIZE / 512) in
  if write then k_bufs s' = <[n := set_b_disk false b]> (k_bufs s) ∧
                k_disk s' = (bn, b_data b) :: k_disk s
  else k_bufs s' = <[n := set_b_disk false (set_b_data (disk_read (k_disk s) bn) b)]> (k_bufs s) ∧
       k_disk s' = k_disk s.

Lemma served_inv n b write sector v s s' :
  vd_idle v → k_vdisk s = requested n write sector v → k_bufs s !! n = Some b →
  served s s' →
  s' = set_k_vdisk (completed 0 0 (k_vdisk s))
    (if write then set_k_disk ((sector / (BSIZE / 512), b_data b) :: k_disk s) s
     else set_k_bufs (<[n := set_b_data (disk_read (k_disk s) (sector / (BSIZE / 512))) b]>
            (k_bufs s)) s).
Proof.
  intros Hv Ev Hb Hs. destruct (requested_desc n write sector v Hv) as (H0 & H1 & H2).
  destruct Hs as [head i1 i2 r n' st req b' write' _ Hring Hd0 Hd1 Hd2 Hop Hty Hb' ->].
  rewrite Ev in Hring, Hd0, Hd1, Hd2, Hop.
  cbn [requested vd_avail_ring vd_dev_idx vd_ops] in Hring, Hop.
  rewrite (vi_done v Hv), list_lookup_insert_eq in Hring
    by (rewrite (vi_avail v Hv); apply ring_slot; by destruct (vi_idx v Hv)).
  simplify_eq. change (Z.to_nat 0) with 0%nat in Hd0. rewrite H0 in Hd0. simplify_eq.
  change (Z.to_nat 1) with 1%nat in Hd1. rewrite H1 in Hd1. simplify_eq.
  change (Z.to_nat 2) with 2%nat in Hd2. rewrite H2 in Hd2. simplify_eq.
  rewrite list_lookup_insert_eq in Hop by (rewrite (vi_ops v Hv); unfold NUM; lia). simplify_eq.
  cbn [req_sector req_type] in *.
  assert (write' = write) as -> by (by destruct write, write'). by destruct write.
Qed.

Lemma returns_scheduler_go i p s :
  quiet s → k_procs s !! i = Some p →
  returns (scheduler_go (k_hart s) i) s tt
    (locked (LkProc i) (on_cpu (set_c_proc (Some i)) (put_proc i (dispatched p) s))).
Proof.
  intros Hq Hp. unfold scheduler_go. kstep. kstep. kstep.
  apply (set_cpu_proc_locked (LkProc i) (Some i) (put_proc i (dispatched p) s)). kret.
Qed.

Lemma elsewhere_quiet s s' : quiet s → elsewhere s s' → k_locks s = ∅ → quiet s'.
Proof.
  intros (_ & _ & Hlen) [] Hl. split_and!.
  - destruct ew_cpu0 as (c & Hc & Hset & _). by exists c.
  - intros j. unfold unlocked. by rewrite ew_locks0, Hl.
  - erewrite <- Forall2_length by apply (ds_procs _ _ ew_step0). done.
Qed.

(** The handler runs once the request is served: the state that it leaves. *)
Lemma served_intr_returns n b write sector v s s3 :
  vd_idle v → k_vdisk s = requested n write sector v → k_bufs s !! n = Some b →
  quiet s → k_locks s = ∅ → served s s3 →
  ∃ s4, returns virtio_disk_intr s3 tt s4 ∧ k_hart s4 = k_hart s ∧ k_cpus s4 = k_cpus s ∧
    k_locks s4 = ∅ ∧ k_procs s4 = imap (awakened (curproc s) (Some (ChBuf n))) (k_procs s) ∧
    disk_step s s4 ∧ k_lru s4 = k_lru s ∧ k_log s4 = k_log s ∧
    k_sleeplocks s4 = k_sleeplocks s ∧ k_vdisk s4 = answered (k_vdisk s) ∧
    transferred n b write sector s s4.
Proof.
  intros Hv Ev Hb Hq Hl S3.
  pose proof (served_inv n b write sector v s s3 Hv Ev Hb S3) as E3. clear S3.
  assert (n < length (k_bufs s))%nat as Hn by (by eapply lookup_lt_Some).
  set (b3 := if write then b else set_b_data (disk_read (k_disk s) (sector / (BSIZE / 512))) b).
  assert (k_bufs s3 = <[n := b3]> (k_bufs s)) as Hbs3.
  { rewrite E3. unfold b3. destruct write; simpl; [by rewrite list_insert_id|done]. }
  assert (k_vdisk s3 = completed 0 0 (k_vdisk s)) as Hv3 by (rewrite E3; by destruct write).
  assert (curproc s3 = curproc s) as Hc3 by (rewrite E3; by destruct write).
  assert (k_procs s3 = k_procs s) as Hps by (rewrite E3; by destruct write).
  destruct (returns_intr n b3 0 s3) as (m & Hi).
  { rewrite E3. by destruct write. }
  { unfold unlocked. rewrite E3. destruct write; simpl; by rewrite Hl. }
  { rewrite Hv3, Ev. cbn. rewrite (vi_seen v Hv). by destruct Hv. }
  { rewrite Hv3, Ev. cbn. by rewrite (vi_seen v Hv). }
  { rewrite Hv3, Ev. cbn. rewrite (vi_seen v Hv), list_lookup_insert_eq; [done|].
    rewrite (vi_used v Hv). apply ring_slot. by destruct (vi_idx v Hv). }
  { rewrite Hv3, Ev. cbn. pose proof (vi_info v Hv). by destruct (vd_info v). }
  { rewrite Hbs3. by apply list_lookup_insert_eq. }
  eexists. split; [exact Hi|]. rewrite Hc3. split_and!; try (rewrite E3; by destruct write).
  - constructor; try (rewrite E3; by destruct write). simpl. rewrite Hps. apply woken_same.
  - unfold transferred. simpl. rewrite Hbs3, list_insert_insert_eq, E3. by destruct write.
Qed.

(** The disk layer in [s'], after a turn that began in [s]. *)
Definition after_turn (early : bool) (n : nat) (b : buf) (write : bool) (sector : Z) (s s' : kstate) : Prop :=
  disk_step s s' ∧ k_lru s' = k_lru s ∧ k_log s' = k_log s ∧ k_sleeplocks s' = k_sleeplocks s ∧
  (early = true ∧ k_vdisk s' = k_vdisk s ∧ k_bufs s' = k_bufs s ∧ k_disk s' = k_disk s ∨
   k_vdisk s' = answered (k_vdisk s) ∧ transferred n b write sector s s').

Lemma transferred_from n b write sector s s1 s2 s3 :
  k_bufs s1 = k_bufs s → k_disk s1 = k_disk s → k_bufs s3 = k_bufs s2 → k_disk s3 = k_disk s2 →
  transferred n b write sector s1 s2 → transferred n b write sector s s3.
Proof. unfold transferred. intros -> -> -> ->. done. Qed.

(** The part of a turn in which the process does not run. *)
Lemma turn_elsewhere early n b write sector v s s2 s3 :
  quiet s → k_locks s = ∅ → vd_idle v → k_vdisk s = requested n write sector v → k_bufs s !! n = Some b →
  elsewhere s s2 →
  (early = true ∧ s3 = s2 ∨
   ∃ s' s'', served s2 s' ∧ returns virtio_disk_intr s' tt s'' ∧ elsewhere s'' s3) →
  quiet s3 ∧ k_locks s3 = ∅ ∧ after_turn early n b write sector s s3 ∧
  ∃ c, k_cpus s3 !! k_hart s3 = Some c ∧ cpu_settled c ∧ c_noff c = 0 ∧ c_proc c = None.
Proof.
  intros Hq Hl Hv Ev Hb E2 Hcase. pose proof (elsewhere_quiet _ s2 Hq E2 Hl) as Hq2.
  pose proof E2 as [D2 Eb2 Elru2 Elog2 Esl2 Ed2 Ev2 El2 Ec2].
  destruct Hcase as [[-> ->]|(s' & s'' & S3 & H4 & E5)].
  { split_and!; [done|congruence| |done]. split_and!; [done..|]. left. by split_and!. }
  destruct (served_intr_returns n b write sector v s2 s') as
    (s4 & H4' & Hh & Hcs & Hl4 & Hps & D4 & Elru4 & Elog4 & Esl4 & Ev4 & T4); try done; [congruence..|].
  destruct (returns_inj _ _ _ _ _ _ H4 H4') as [_ ->].
  assert (quiet s4) as Hq4.
  { destruct Hq2 as ((c & Hcpu & Hset) & Hu & Hlen). split_and!.
    - exists c. by rewrite Hcs, Hh.
    - intros j. unfold unlocked. by rewrite Hl4.
    - by rewrite Hps, length_imap. }
  pose proof (elsewhere_quiet _ s3 Hq4 E5 Hl4) as Hq3. destruct E5 as [D5 Eb5 Elru5 Elog5 Esl5 Ed5 Ev5 El5 Ec5].
  split_and!; [done|congruence| |done]. split_and!; [|congruence..|].
  - transitivity s2; [done|]. by transitivity s4.
  - right. split; [congruence|]. by eapply (transferred_from _ _ _ _ s s2 s4).
Qed.

Lemma disk_resume early i n p b write sector v s w :
  turn early w → running i p s → p_state p = SLEEPING → p_chan p = Some (ChBuf n) → k_locks s = ∅ →
  vd_idle v → k_vdisk s = requested n write sector v → k_bufs s !! n = Some b →
  ∃ s' q, resumes w i s s' ∧ quiet s' ∧ k_locks s' = ∅ ∧ curproc s' = Some i ∧
    k_procs s' !! i = Some q ∧ same_process p q ∧ after_turn early n b write sector s s'.
Proof.
  intros Hw Hrun Hst Hch Hl Hv Ev Hb. pose proof Hrun as (Hq & Hp & Hc & c & Hcpu & Hn).
  destruct (Hw i n p s Hrun Hst Hch Hl ltac:(by exists v, b, write, sector))
    as (s1 & s2 & s3 & p3 & H1 & E2 & Hcase & Hp3 & Hst3 & H6).
  destruct (returns_inj _ _ _ _ _ _ H1 (returns_scheduler_back i s ltac:(kret) ltac:(kret))) as [_ ->]. clear H1.
  destruct (turn_elsewhere early n b write sector v (on_cpu (set_c_proc None) s) s2 s3)
    as (Hq3 & Hl3 & (D & Elru & Elog & Esl & Hdisk) & c3 & Hc3 & Hset3 & Hn3 & _);
    try done; [by apply quiet_set_proc|].
  destruct (returns_inj _ _ _ _ _ _ H6 (returns_scheduler_go i _ s3 Hq3 Hp3)) as [_ H7].
  set (s' := on_cpu (set_c_proc (Some i)) (put_proc i (dispatched p3) s3)) in H7.
  assert (disk_step s s3) as D' by (by destruct D).
  assert (same_process p p3) as Hsame.
  { eapply (Forall2_lookup_lr _ _ _ _ _ _ (ds_procs _ _ D')); done. }
  assert (quiet s') as Hq' by (by apply quiet_set_proc, quiet_put_proc).
  pose proof (on_cpu_lookup (set_c_proc (Some i)) (put_proc i (dispatched p3) s3) _ Hc3) as Hc'.
  exists s', (dispatched p3). split_and!; try done.
  - split_and!; [done|kret|kret|]. by eexists.
  - unfold curproc. unfold s'. by rewrite Hc'.
  - simpl. apply list_lookup_insert_eq. by eapply lookup_lt_Some.
  - by destruct (disk_step_put i _ (dispatched p3) s s3 D' Hp3).
Qed.

(** A process that [sleep] puts to sleep and that is resumed in [s'] returns with the
    lock that it came with. *)
Lemma sleep_resumed i p q ch lk s s' w e c :
  running i p s → unlocked lk s → (∀ j, lk ≠ LkProc j) → k_cpus s !! k_hart s = Some c →
  resumes w i (put_proc i (asleep ch p) s) s' → quiet s' → unlocked lk s' →
  k_procs s' !! i = Some q →
  sleep ch lk (w :: e) (locked lk s) =
    Ok tt e (locked lk (put_proc i (set_p_chan None q) (resume_intr (c_sie c) s'))).
Proof.
  intros Hrun Hu Hlk Hc Hres (Hr' & Hu' & Hlen') Hul' Hq.
  pose proof Hres as (_ & _ & _ & Hcpu').
  erewrite sleep_switches by done.
  eapply run_bind_ok.
  { apply (sched_resumed i (asleep ch p) _ w e c s'); [by eapply running_put|done|done|done]. }
  assert (ready (resume_intr (c_sie c) s')) by (by apply resume_intr_ready).
  assert (unlocked (LkProc i) (resume_intr (c_sie c) s')) by apply Hu'.
  krun. krun. apply returns_acquire; [done|exact Hul'].
Qed.

Lemma running_resumed i q s ie :
  quiet s → curproc s = Some i → k_procs s !! i = Some q →
  (∃ c, k_cpus s !! k_hart s = Some c ∧ c_noff c = 0) → running i q (resume_intr ie s).
Proof.
  intros (Hr & Hu & Hlen) Hc Hq Hcpu. pose proof Hcpu as (c & Hcc & Hn).
  pose proof (on_cpu_lookup (λ c, set_c_sie ie (set_c_intena ie c)) _ _ Hcc) as Hcc'.
  split_and!; [split_and!; [by apply resume_intr_ready|done|done]|done| |].
  - unfold curproc in *. unfold resume_intr. rewrite Hcc'. by rewrite Hcc in Hc.
  - by eexists.
Qed.

(** One call of [sleep] in the loop. *)
Lemma sleep_turn early i p n b write sector v s w :
  turn early w → running i p s → k_locks s = ∅ → vd_idle v → k_vdisk s = requested n write sector v →
  k_bufs s !! n = Some b →
  ∃ s2 q, (∀ e, sleep (ChBuf n) LkVdisk (w :: e) (locked LkVdisk s) = Ok tt e (locked LkVdisk s2)) ∧
    running i q s2 ∧ p_pid q = p_pid p ∧ k_locks s2 = ∅ ∧ after_turn early n b write sector s s2.
Proof.
  intros Hw Hrun Hl Hv Ev Hb. pose proof Hrun as (Hq & Hp & Hc & c & Hcpu & Hn).
  assert (unlocked LkVdisk s) as Hu by (unfold unlocked; by rewrite Hl).
  destruct (disk_resume early i n (asleep (ChBuf n) p) b write sector v (put_proc i (asleep (ChBuf n) p) s) w)
    as (s' & q & Hres & Hq' & Hl' & Hc' & Hp' & Hsame & D & Hrest); [done|by eapply running_put|done..|].
  assert (unlocked LkVdisk s') as Hu' by (unfold unlocked; by rewrite Hl').
  set (s2 := put_proc i (set_p_chan None q) (resume_intr (c_sie c) s')).
  exists s2, (set_p_chan None q). split_and!.
  - intros e. by apply (sleep_resumed i p q (ChBuf n) LkVdisk s s' w e c).
  - eapply running_put, running_resumed; try done. by destruct Hres as (_ & _ & _ & ?).
  - symmetry. apply Hsame.
  - done.
  - split; [|exact Hrest]. assert (disk_step s s') as D'.
    { etransitivity; [|exact D]. by eapply disk_step_put; [reflexivity|exact Hp|]. }
    assert (disk_step s (put_proc i (set_p_chan None q) s')) as [] by (by eapply disk_step_put).
    by constructor.
Qed.

(** After an early turn, the request is still to be served. *)
Lemma after_early n b write sector s s2 s3 :
  disk_step s s2 → k_lru s2 = k_lru s → k_log s2 = k_log s → k_sleeplocks s2 = k_sleeplocks s →
  k_vdisk s2 = k_vdisk s → k_bufs s2 = k_bufs s → k_disk s2 = k_disk s →
  after_turn false n b write sector s2 s3 → after_turn false n b write sector s s3.
Proof.
  intros D Elru Elog Esl Ev Eb Ed (D' & Elru' & Elog' & Esl' & [[? _]|[Ev' T]]); [done|].
  split_and!; [by transitivity s2|congruence..|]. right. split; [congruence|].
  by eapply (transferred_from _ _ _ _ s s2 s3).
Qed.

(** The loop ends with the turn that serves the request. *)
Lemma wait_ends fuel n b write sector s s2 e w :
  k_bufs s !! n = Some b → b_disk b = true → transferred n b write sector s s2 →
  (∀ e, sleep (ChBuf n) LkVdisk (w :: e) (locked LkVdisk s) = Ok tt e (locked LkVdisk s2)) →
  wait_request (S (S fuel)) n (w :: e) (locked LkVdisk s) = Ok tt e (locked LkVdisk s2).
Proof.
  intros Hb Hdisk T Hsleep.
  assert (∃ b2, k_bufs s2 !! n = Some b2 ∧ b_disk b2 = false) as (b2 & Hb2 & Hdisk2).
  { assert (n < length (k_bufs s))%nat by (by eapply lookup_lt_Some).
    destruct write, T as [T _]; rewrite T; eexists; (split; [by apply list_lookup_insert_eq|done]). }
  cbn [wait_request]. eapply run_bind; [by apply returns_get_buf|]. rewrite Hdisk.
  eapply run_bind_ok; [apply Hsleep|]. eapply run_bind; [by apply returns_get_buf|]. by rewrite Hdisk2.
Qed.

(** The loop, when turn [k + d] is not early. *)
Lemma waits_out n b write sector v w i d :
  (∀ t, turn true (w t)) → b_disk b = true → vd_idle v → ∀ k p s, turn false (w (k + d)%nat) →
  running i p s → k_locks s = ∅ → k_vdisk s = requested n write sector v → k_bufs s !! n = Some b →
  ∃ m s2 q, (∀ e fuel, (m < fuel)%nat →
      wait_request fuel n (map w (seq k m) ++ e) (locked LkVdisk s) = Ok tt e (locked LkVdisk s2)) ∧
    running i q s2 ∧ p_pid q = p_pid p ∧ k_locks s2 = ∅ ∧ after_turn false n b write sector s s2.
Proof.
  intros Hw Hdisk Hv. induction d as [|d IH]; intros k p s Hd Hrun Hl Ev Hb.
  - rewrite Nat.add_0_r in Hd.
    destruct (sleep_turn false i p n b write sector v s (w k)) as (s2 & q & Hsl & Hrun2 & Hpid & Hl2 & Ht); [done..|].
    exists 1%nat, s2, q. split_and!; try done. intros e [|[|fuel]] Hf; [lia|lia|].
    destruct Ht as (_ & _ & _ & _ & [[? _]|[_ T]]); [done|]. by apply (wait_ends fuel n b write sector).
  - destruct (sleep_turn true i p n b write sector v s (w k))
      as (s1 & q1 & Hsl & Hrun1 & Hpid1 & Hl1 & D & Elru & Elog & Esl & Hcase); [apply Hw|done..|].
    destruct Hcase as [(_ & Ev1 & Eb1 & Ed1)|[Ev1 T]].
    + destruct (IH (S k) q1 s1) as (m & s2 & q & Hloop & Hrun2 & Hpid2 & Hl2 & Ht);
        [by rewrite <- Nat.add_succ_comm in Hd|done|done|congruence|congruence|].
      exists (S m), s2, q. split_and!; [|done|congruence|done|by eapply (after_early n b write sector s s1)].
      intros e [|fuel] Hf; [lia|]. cbn [seq map app wait_request].
      eapply run_bind; [by apply returns_get_buf|]. rewrite Hdisk.
      eapply run_bind_ok; [apply Hsl|]. apply Hloop. lia.
    + exists 1%nat, s1, q1. split_and!; try done; [|by split_and!; try done; right].
      intros e [|[|fuel]] Hf; [lia|lia|]. by apply (wait_ends fuel n b write sector).
Qed.

Lemma wp_wait n b write sector v i p s :
  running i p s → k_locks s = ∅ → vd_idle v → k_vdisk s = requested n write sector v →
  k_bufs s !! n = Some b → b_disk b = true →
  wp (sleep_loop (λ fuel, wait_request fuel n)) (locked LkVdisk s) (λ _ s',
    ∃ s2 q, s' = locked LkVdisk s2 ∧ running i q s2 ∧ p_pid q = p_pid p ∧ k_locks s2 = ∅ ∧
      after_turn false n b write sector s s2).
Proof.
  intros Hrun Hl Hv Ev Hb Hdisk w [Hw Hfair] k. destruct (Hfair k) as (t & Ht & Hturn).
  destruct (waits_out n b write sector v w i (t - k) Hw Hdisk Hv k p s) as (m & s2 & q & Hloop & Hrest); try done.
  { by replace (k + (t - k))%nat with t by lia. }
  exists m, tt, (locked LkVdisk s2). split; [|by exists s2, q].
  intros e. apply Hloop. rewrite length_app, length_map, length_seq. lia.
Qed.

(** ** Freeing the descriptors *)

Definition vd_freed (i : nat) (v : vdisk) : vdisk :=
  set_vd_free (<[i := true]> (vd_free v))
    (set_vd_desc (alter (λ _, mkDesc DmaNull 0 0 0) i (vd_desc v)) v).

Definition freed (i : nat) (s : kstate) : kstate :=
  set_k_procs (imap (awakened (curproc s) (Some ChDiskFree)) (k_procs s))
    (set_k_vdisk (vd_freed i (k_vdisk s)) s).

Lemma returns_free_desc i s :
  quiet s → (i < NUM)%nat → vd_free (k_vdisk s) !! i = Some false →
  returns (free_desc i) (locked LkVdisk s) tt (locked LkVdisk (freed i s)).
Proof.
  intros Hq Hi Hf. unfold free_desc. rewrite (proj2 (Nat.leb_gt _ _)) by done.
  kstep. eapply returns_bind; [by apply returns_deref|].
  eapply returns_bind; [apply returns_upd_vd|]. eapply returns_bind; [apply returns_upd_vd|].
  eapply returns_to.
  { apply (returns_wakeup (Some ChDiskFree) (locked LkVdisk (set_k_vdisk (vd_freed i (k_vdisk s)) s))).
    apply quiet_locked; [done|]. by destruct Hq as (? & ? & ?). }
  rewrite curproc_locked. unfold freed. by autorewrite with locked.
Qed.

Lemma freed_running i j p s : running i p s → running i p (freed j s).
Proof. intros H. apply (woken_running i p _ (set_k_vdisk (vd_freed j (k_vdisk s)) s)). exact H. Qed.

Lemma freed_step j s : disk_step s (freed j s).
Proof. constructor; try done. apply woken_same. Qed.

Lemma returns_free_chain i p v n write sector s :
  running i p s → vd_idle v →
  vd_desc (k_vdisk s) = vd_desc (requested n write sector v) → vd_free (k_vdisk s) = busy →
  returns (free_chain 0) (locked LkVdisk s) tt (locked LkVdisk (freed 2 (freed 1 (freed 0 s)))).
Proof.
  intros Hrun Hv Hd Hf. destruct (requested_desc n write sector v Hv) as (H0 & H1 & H2).
  rewrite <- Hd in H0, H1, H2. unfold free_chain. cbn [free_chain_loop].
  assert (∀ j, quiet (freed j s)) as Hq1 by (intros j; by destruct (freed_running i j p s Hrun)).
  assert (∀ j k, quiet (freed j (freed k s))) as Hq2.
  { intros j k. by destruct (freed_running i j p _ (freed_running i k p s Hrun)). }
  kstep. eapply returns_bind; [by apply returns_deref|].
  eapply returns_bind; [apply returns_free_desc; [by destruct Hrun|unfold NUM; lia|by rewrite Hf]|].
  cbn [d_flags d_next]. change (has_flag VRING_DESC_F_NEXT VRING_DESC_F_NEXT) with true. cbn iota.
  change (Z.to_nat 1) with 1%nat. cbn [free_chain_loop].
  kstep. eapply returns_bind; [apply returns_deref; simpl; by rewrite list_lookup_alter_ne|].
  eapply returns_bind; [apply returns_free_desc; [done|unfold NUM; lia|simpl; by rewrite Hf]|].
  cbn [d_flags d_next].
  replace (has_flag (data_flags write) VRING_DESC_F_NEXT) with true by (by destruct write).
  change (Z.to_nat 2) with 2%nat. cbn [free_chain_loop].
  kstep. eapply returns_bind; [apply returns_deref; simpl; by rewrite !list_lookup_alter_ne|].
  eapply returns_bind; [apply returns_free_desc; [done|unfold NUM; lia|simpl; by rewrite Hf]|].
  cbn [d_flags d_next]. change (has_flag VRING_DESC_F_WRITE VRING_DESC_F_NEXT) with false.
  apply returns_ret.
Qed.

(** The queue is idle again. *)
Lemma answered_idle v n write sector f :
  vd_idle v → vd_idle (vd_freed 2 (vd_freed 1 (vd_freed 0
    (set_vd_info (alter f 0%nat (vd_info (answered (requested n write sector v))))
      (answered (requested n write sector v)))))).
Proof.
  intros []. pose proof (u16_succ _ vi_idx) as [Hr _].
  constructor; simpl; rewrite ?length_alter, ?length_insert; try done; congruence.
Qed.

(** ** The driver *)

Lemma returns_upd_vd_in lk f v s :
  returns (upd_vd f) (locked lk (set_k_vdisk v s)) tt (locked lk (set_k_vdisk (f v) s)).
Proof. done. Qed.

Lemma returns_upd_buf_in lk n f b v s :
  k_bufs s !! n = Some b →
  returns (upd_buf n f) (locked lk (set_k_vdisk v s)) tt
    (locked lk (set_k_vdisk v (set_k_bufs (<[n := f b]> (k_bufs s)) s))).
Proof. intros Hb. eapply returns_to; [by apply returns_upd_buf|done]. Qed.

Lemma returns_format n b write sector s :
  vd_idle (k_vdisk s) → k_bufs s !! n = Some b →
  returns (format_request 0 1 2 n write sector ;; upd_buf n (set_b_disk true) ;;
           upd_info 0 (λ x, mkInfo (Some n) (inf_status x)) ;; submit_request 0)
    (locked LkVdisk (set_k_vdisk (set_vd_free busy (k_vdisk s)) s)) tt
    (locked LkVdisk (set_k_mmio ((R VIRTIO_MMIO_QUEUE_NOTIFY, 0) :: k_mmio s)
      (set_k_vdisk (requested n write sector (k_vdisk s))
        (set_k_bufs (<[n := set_b_disk true b]> (k_bufs s)) s)))).
Proof.
  intros Hv Hb. unfold format_request, submit_request, upd_desc, upd_info.
  eapply returns_bind; [do 4 (eapply returns_bind; [apply returns_upd_vd_in|]); apply returns_upd_vd_in|].
  eapply returns_bind; [by apply returns_upd_buf_in|].
  do 3 (eapply returns_bind; [apply returns_upd_vd_in|]).
  eapply returns_to; [apply returns_modify|]. reflexivity.
Qed.

Lemma sector_block bn : block_ok bn → u32 (bn * (BSIZE / 512)) / (BSIZE / 512) = bn.
Proof.
  unfold block_ok. intros H. change (BSIZE / 512) with 2.
  rewrite u32_small by (unfold is_u32; lia). apply Z.div_mul. lia.
Qed.

Lemma set_disk_id b : b_disk b = false → set_b_disk false (set_b_disk true b) = b.
Proof. destruct b; simpl. by intros ->. Qed.

(** Four statements known to return together. *)
Lemma wp_block (m1 m2 m3 m4 k : K unit) s s' Q :
  returns (m1 ;; m2 ;; m3 ;; m4) s tt s' → wp k s' Q → wp (m1 ;; m2 ;; m3 ;; m4 ;; k) s Q.
Proof.
  intros Hm Hk w Hw j. destruct (Hk w Hw j) as (t & a & s'' & Hrun & HQ).
  exists t, a, s''. split; [|done]. intros e. rewrite <- (Hrun e).
  specialize (Hm (map w (seq j t) ++ e)). unfold mbind, K_bind in *.
  destruct (m1 _ s); try done. destruct (m2 _ _); try done. destruct (m3 _ _); try done.
  by rewrite Hm.
Qed.

Lemma virtio_rw_ok pid n b write s :
  calm pid s → k_bufs s !! n = Some b → b_disk b = false → block_ok (b_blockno b) →
  wp (virtio_disk_rw n write) s (λ _ s', calm pid s' ∧ transfer n b write s s').
Proof.
  intros Hcalm Hb Hdisk Hbn. pose proof Hcalm as (Hl & Hv & i & p & Hrun & Hpid).
  assert (n < length (k_bufs s))%nat as Hn by (by eapply lookup_lt_Some).
  pose proof (calm_ready pid s Hcalm). pose proof (calm_unlocked pid LkVdisk s Hcalm).
  unfold virtio_disk_rw. apply wp_bind. eapply wp_returns; [by apply returns_get_buf|]. cbn beta.
  set (sector := u32 (b_blockno b * (BSIZE / 512))).
  wstep. apply wp_bind. eapply wp_returns; [apply returns_alloc3; by destruct Hv|]. cbn beta iota.
  eapply wp_block; [exact (returns_format n b write sector s Hv Hb)|].
  set (s1 := set_k_mmio _ (set_k_vdisk _ (set_k_bufs _ s))).
  apply wp_bind. eapply wp_mono.
  { apply (wp_wait n (set_b_disk true b) write sector (k_vdisk s) i p s1); try done.
    by apply list_lookup_insert_eq. }
  intros [] s' (s2 & q & -> & Hrun2 & Hpid2 & Hl2 & D2 & Hlru & Hlog & Hsl & [[? _]|[Hv2 T2]]); [done|].
  wstep. set (s3 := set_k_vdisk (set_vd_info (alter (λ x, mkInfo None (inf_status x)) 0%nat
    (vd_info (k_vdisk s2))) (k_vdisk s2)) s2).
  assert (running i q s3) as Hrun3 by exact Hrun2.
  apply wp_bind. eapply wp_returns.
  { apply (returns_free_chain i q (k_vdisk s) n write sector s3); [done|done|..]; simpl; by rewrite Hv2. }
  set (s4 := freed 2 (freed 1 (freed 0 s3))).
  assert (running i q s4) as Hrun4 by (do 3 apply freed_running; done).
  assert (k_locks s4 = ∅) as Hl4 by done.
  assert (calm pid s4) as Hc4.
  { split; [done|]. split; [|exists i, q; split; [done|congruence]].
    change (k_vdisk s4) with (vd_freed 2 (vd_freed 1 (vd_freed 0 (k_vdisk s3)))).
    unfold s3. cbn [k_vdisk set_k_vdisk]. rewrite Hv2. by apply answered_idle. }
  eapply wp_returns; [apply returns_release; [by apply (calm_ready pid)|by apply (calm_unlocked pid)]|].
  split; [done|]. split; [|split; [done|split; [done|split; [done|]]]].
  - transitivity s3; [|do 2 (etransitivity; [|apply freed_step]); apply freed_step].
    by destruct D2.
  - change (k_bufs s4) with (k_bufs s2). change (k_disk s4) with (k_disk s2).
    unfold transferred in T2. change (k_bufs s1) with (<[n := set_b_disk true b]> (k_bufs s)) in T2.
    change (k_disk s1) with (k_disk s) in T2. unfold sector in T2.
    rewrite list_insert_insert_eq, list_insert_insert_eq, sector_block in T2 by done.
    destruct write, T2 as [Tb Td]; split; [| exact Td| |exact Td].
    + rewrite Tb, set_disk_id by done. by apply list_insert_id.
    + rewrite Tb. do 2 f_equal. rewrite <- Hdisk at 1. by destruct b.
Qed.

(** The driver is the disk that the buffer cache relies on. *)
#[export] Instance virtio_disk_ok : DiskOk (H0 := virtio_disk).
Proof. constructor. apply virtio_rw_ok. Qed.
End driver.
