(* ===== verification/DiskProps.v ===== *)
(** * Correctness of the disk driver and the buffer cache

    A request to the disk is carried out and completes, and the buffer cache on top
    of the driver behaves as the map of blocks that it caches. *)

From S2P Require Import Prelude Riscv Data State Spinlock Csr Table Mlfq MlfqFacts MlfqSys Sleeplock Bio Virtio Calm BioFacts VirtioFacts.

Local Open Scope Z_scope.

#[local] Existing Instance virtio_disk.
#[local] Existing Instance disk_env.

(** ** A system in which the device answers *)

Section answering.
Context {Dv : Device}.

(** A device: it decodes the next available chain and does what it asks for. *)
Definition null_desc : virtq_desc := mkDesc DmaNull 0 0 0.

Definition serve (s : kstate) : kstate :=
  let v := k_vdisk s in
  let head := default 0 (vd_avail_ring v !! Z.to_nat (vd_dev_idx v mod Z.of_nat NUM)) in
  let d0 := default null_desc (vd_desc v !! Z.to_nat head) in
  let d1 := default null_desc (vd_desc v !! Z.to_nat (d_next d0)) in
  let d2 := default null_desc (vd_desc v !! Z.to_nat (d_next d1)) in
  match d_addr d0, d_addr d1, d_addr d2 with
  | DmaReq r, DmaData n, DmaStatus st =>
      match vd_ops v !! r, k_bufs s !! n with
      | Some req, Some b =>
          let bn := req_sector req / (BSIZE / 512) in
          set_k_vdisk (completed head st v)
            (if req_type req =? VIRTIO_BLK_T_OUT
             then set_k_disk ((bn, b_data b) :: k_disk s) s
             else set_k_bufs (<[n := set_b_data (disk_read (k_disk s) bn) b]> (k_bufs s)) s)
      | _, _ => s
      end
  | _, _, _ => s
  end.

Lemma serve_served n s : in_flight n s → served s (serve s).
Proof.
  intros (v & b & write & sector & Hv & Ev & Hb).
  destruct (requested_desc n write sector v Hv) as (H0 & H1 & H2).
  pose proof (vi_idx v Hv) as Hidx. pose proof (u16_succ _ Hidx) as [_ Hne].
  assert (vd_avail_ring (k_vdisk s) !! Z.to_nat (vd_dev_idx (k_vdisk s) mod Z.of_nat NUM) = Some 0)
    as Hring.
  { rewrite Ev. cbn. rewrite (vi_done v Hv), list_lookup_insert_eq; [done|].
    rewrite (vi_avail v Hv). apply ring_slot. lia. }
  assert (vd_ops (k_vdisk s) !! 0%nat =
    Some (mkReq (if write then VIRTIO_BLK_T_OUT else VIRTIO_BLK_T_IN) 0 sector)) as Hop.
  { rewrite Ev. cbn. apply list_lookup_insert_eq. rewrite (vi_ops v Hv). unfold NUM. lia. }
  rewrite <- Ev in H0, H1, H2.
  eapply (served_request _ _ 0 1 2 0 n 0 _ b write); try done.
  - rewrite Ev. cbn. by rewrite (vi_done v Hv).
  - unfold serve. rewrite Hring. cbn [default]. change (id 0) with 0.
    change (Z.to_nat 0) with 0%nat. rewrite H0. cbn [default id d_next d_addr].
    change (Z.to_nat 1) with 1%nat. rewrite H1. cbn [default id d_next d_addr].
    change (Z.to_nat 2) with 2%nat. rewrite H2. cbn [default id d_next d_addr].
    rewrite Hop, Hb. by destruct write.
Qed.

Definition run_or {A} (m : K A) (s : kstate) : kstate :=
  match m [] s with Ok _ _ s' => s' | _ => s end.

Lemma run_or_returns {A} (m : K A) s a s' : returns m s a s' → run_or m s = s'.
Proof. intros H. unfold run_or. by rewrite H. Qed.

(** A system in which nothing happens while the process waits but the request. *)
Definition answering (s : kstate) : kstate :=
  let i := default 0%nat (curproc s) in
  let s4 := run_or virtio_disk_intr (serve (run_or (scheduler_back (k_hart s) i) s)) in
  run_or (scheduler_go (k_hart s4) i) s4.

(** A system in which the process is killed while it waits. *)
Definition killing (s : kstate) : kstate :=
  let i := default 0%nat (curproc s) in
  let p := default zero_proc (k_procs s !! i) in
  let s2 := run_or (kill (p_pid p)) (run_or (scheduler_back (k_hart s) i) s) in
  if bool_decide (p_state <$> (k_procs s2 !! i) = Some RUNNABLE)
  then run_or (scheduler_go (k_hart s2) i) s2 else answering s.

Definition idle_cpu (s : kstate) : Prop :=
  ∃ c, k_cpus s !! k_hart s = Some c ∧ cpu_settled c ∧ c_noff c = 0 ∧ c_proc c = None.

Lemma elsewhere_refl s : idle_cpu s → elsewhere s s.
Proof. intros. by constructor. Qed.

(** The state after the scheduler has let go of a process. *)
Lemma let_go i p s :
  running i p s → let s1 := on_cpu (set_c_proc None) s in
  returns (scheduler_back (k_hart s) i) (locked (LkProc i) s) tt s1 ∧ quiet s1 ∧ idle_cpu s1.
Proof.
  intros (Hq & Hp & Hc & c & Hcpu & Hn) s1. split_and!.
  - exact (returns_scheduler_back i s ltac:(kret) ltac:(kret)).
  - by apply quiet_set_proc.
  - eexists. split; [by apply (on_cpu_lookup (set_c_proc None))|]. split_and!; [|done|done].
    destruct Hq as ((c' & Hc' & Hset) & _). by simplify_eq.
Qed.

Lemma answering_turn : turn false answering.
Proof.
  intros i n p s Hrun Hst Hch Hl Hfl. pose proof Hrun as (Hq & Hp & Hc & _).
  destruct (let_go i p s Hrun) as (H1 & Hq1 & Hidle1). set (s1 := on_cpu (set_c_proc None) s) in *.
  pose proof Hfl as (v & b & write & sector & Hv & Ev & Hb).
  pose proof (serve_served n s1 Hfl) as S3.
  destruct (served_intr_returns n b write sector v s1 (serve s1)) as (s4 & H4 & Hh4 & Hcs4 & Hl4 & Hps4 & D4 & _); try done.
  assert (quiet s4) as Hq4.
  { destruct Hq1 as ((c & ? & ?) & _ & Hlen). split_and!; [exists c; by rewrite Hh4, Hcs4| |by rewrite Hps4, length_imap].
    intros j. unfold unlocked. by rewrite Hl4. }
  assert (k_procs s4 !! i = Some (set_p_state RUNNABLE p)) as Hp4.
  { rewrite Hps4, list_lookup_imap. change (k_procs s1) with (k_procs s). rewrite Hp. destruct Hidle1 as (c & Hc1 & _ & _ & Hcp). unfold curproc. rewrite Hc1. cbn.
    rewrite Hcp. unfold awakened. by rewrite Hst, Hch, !bool_decide_eq_true_2. }
  pose proof (returns_scheduler_go i _ s4 Hq4 Hp4) as H6.
  exists s1, s1, s4, (set_p_state RUNNABLE p). split_and!; [exact H1|by apply elsewhere_refl| |done|done|].
  - right. exists (serve s1), s4. split_and!; [done|done|]. apply elsewhere_refl. unfold idle_cpu. by rewrite Hh4, Hcs4.
  - unfold answering. rewrite curproc_locked, Hc. cbn [default id].
    change (k_hart (locked (LkProc i) s)) with (k_hart s).
    by rewrite (run_or_returns _ _ _ _ H1), (run_or_returns _ _ _ _ H4), (run_or_returns _ _ _ _ H6).
Qed.

Lemma turn_early w : turn false w → turn true w.
Proof.
  intros Hw i n p s Hrun Hst Hch Hl Hfl.
  destruct (Hw i n p s Hrun Hst Hch Hl Hfl) as (s1 & s2 & s3 & p3 & H1 & E2 & [[? _]|Hcase] & Hrest); [done|].
  exists s1, s2, s3, p3. split; [done|]. split; [done|]. split; [by right|done].
Qed.

(** [kill] is a step of the rest of the system. *)
Lemma kill_elsewhere pid s :
  quiet s → idle_cpu s → ∃ r s', returns (kill pid) s r s' ∧ quiet s' ∧ elsewhere s s'.
Proof.
  intros Hq Hidle. pose proof (kill_spec pid s Hq) as Hk. destruct (list_find _ _) as [[j q]|] eqn:E.
  - apply list_find_Some in E as (Hj & _). eexists _, _. split; [exact Hk|]. split; [by apply quiet_put_proc|].
    constructor; try done. eapply disk_step_put; [done|done|]. unfold killed_proc. by case_bool_decide.
  - eexists _, _. split; [exact Hk|]. split; [done|by apply elsewhere_refl].
Qed.

Lemma killing_turn : turn true killing.
Proof.
  intros i n p s Hrun Hst Hch Hl Hfl. pose proof Hrun as (Hq & Hp & Hc & _).
  destruct (let_go i p s Hrun) as (H1 & Hq1 & Hidle1). set (s1 := on_cpu (set_c_proc None) s) in *.
  destruct (kill_elsewhere (p_pid p) s1 Hq1 Hidle1) as (r & s2 & H2 & Hq2 & E2).
  assert (killing (locked (LkProc i) s) = if bool_decide (p_state <$> (k_procs s2 !! i) = Some RUNNABLE)
    then run_or (scheduler_go (k_hart s2) i) s2 else answering (locked (LkProc i) s)) as Ek.
  { unfold killing. rewrite curproc_locked, Hc. cbn [default id].
    change (k_procs (locked (LkProc i) s)) with (k_procs s). rewrite Hp. cbn [default id].
    change (k_hart (locked (LkProc i) s)) with (k_hart s).
    by rewrite (run_or_returns _ _ _ _ H1), (run_or_returns _ _ _ _ H2). }
  case_bool_decide as Hr.
  - destruct (k_procs s2 !! i) as [p2|] eqn:Hp2; [|done]. injection Hr as Hr.
    pose proof (returns_scheduler_go i _ s2 Hq2 Hp2) as H6.
    exists s1, s2, s2, p2. split_and!; try done; [by left|]. by rewrite Ek, (run_or_returns _ _ _ _ H6).
  - destruct (turn_early _ answering_turn i n p s Hrun Hst Hch Hl Hfl) as (t1 & t2 & t3 & p3 & Hrest).
    exists t1, t2, t3, p3. by rewrite Ek.
Qed.

(** The process is killed in every other turn. *)
Lemma killed_and_answered : env_ok (λ t, if Nat.even t then killing else answering).
Proof.
  split; intros t.
  - destruct (Nat.even t); [apply killing_turn|apply turn_early, answering_turn].
  - destruct (Nat.even t) eqn:E; [exists (S t)|exists t]; (split; [lia|]).
    + rewrite Nat.even_succ, <- Nat.negb_even, E. apply answering_turn.
    + rewrite E. apply answering_turn.
Qed.
End answering.

(** ** The driver *)

(** C10: a disk request completes.  Called by a process on a buffer that the device does
    not own, while the disk is idle, [virtio_disk_rw] sleeps until the device has served its
    descriptors and [virtio_disk_intr] has run, and returns with the block transferred
    between the buffer and the disk, every descriptor free again, and the rest of the
    kernel's data as it was.  The process may be woken up too early, by [kill], any number
    of times: it sleeps again until the request is served.  Other processes run in the
    meantime, but do not use the disk; there are systems that do so, among them one in
    which the process is killed in every other turn. *)
Theorem disk_request_completes {Dv : Device} (pid : Z) (n : nat) (b : buf) (write : bool)
    (s : kstate) :
  calm pid s → k_bufs s !! n = Some b → b_disk b = false → block_ok (b_blockno b) →
  env_ok (λ t, if Nat.even t then killing else answering) ∧
  wp (virtio_disk_rw n write) s (λ _ s', calm pid s' ∧ transfer n b write s s').
Proof.
  intros Hc Hb Hd Hbn. split; [apply killed_and_answered|]. by apply virtio_rw_ok.
Qed.

(** ** The buffer cache *)

(** The use of the cache: a block is read, or changed and written through. *)
Inductive block_op := ReadBlock (bn : Z) | WriteBlock (bn : Z) (data : list Z).

Section cache.
Context {Dv : Device} (dev pid : Z).
Implicit Types (view : Z → list Z).

Definition run_op (op : block_op) : K (list Z) :=
  match op with
  | ReadBlock bn =>
      n ← bread dev bn;
      b ← get_buf n;
      brelse n ;;
      mret (b_data b)
  | WriteBlock bn data =>
      n ← bread dev bn;
      upd_buf n (set_b_data data) ;;
      bwrite n ;;
      brelse n ;;
      mret data
  end.

Fixpoint run_ops (ops : list block_op) : K (list (list Z)) :=
  match ops with
  | [] => mret []
  | op :: ops' => r ← run_op op; rs ← run_ops ops'; mret (r :: rs)
  end.

(** The same on a map of blocks. *)
Definition spec_op view (op : block_op) : list Z * (Z → list Z) :=
  match op with
  | ReadBlock bn => (view bn, view)
  | WriteBlock bn data => (data, <[bn := data]> view)
  end.

Fixpoint spec_ops view (ops : list block_op) : list (list Z) * (Z → list Z) :=
  match ops with
  | [] => ([], view)
  | op :: ops' =>
      let '(r, view') := spec_op view op in
      let '(rs, view'') := spec_ops view' ops' in (r :: rs, view'')
  end.

Definition op_ok (op : block_op) : Prop :=
  match op with
  | ReadBlock bn => block_ok bn
  | WriteBlock bn data => block_ok bn ∧ length data = Z.to_nat BSIZE
  end.

(** The state between operations: the cache shows [view], which is on the disk. *)
Definition shows view (s : kstate) : Prop := calm pid s ∧ cache_inv dev pid view ∅ ∅ s.

Lemma shows_disk view s bn : shows view s → disk_read (k_disk s) bn = view bn.
Proof. intros [_ HI]. symmetry. by apply (ci_clean _ _ _ _ _ _ HI). Qed.

Lemma wp_take view bn s (Q : nat → kstate → Prop) :
  shows view s → block_ok bn →
  (∀ n s', calm pid s' → cache_inv dev pid view ∅ {[bn]} s' → buf_at dev s' n bn →
     view bn = disk_read (k_disk s') bn → Q n s') →
  wp (bread dev bn) s Q.
Proof.
  intros Hs Hbn HQ. pose proof Hs as [Hc HI].
  eapply wp_mono; [apply (wp_bread dev pid view ∅ ∅ bn s Hc HI); [set_solver|done|]|].
  { right. rewrite union_empty_r_L, size_empty. unfold NBUF. lia. }
  intros n s' (Hc' & _ & Hd' & HI' & Hat' & _). rewrite union_empty_r_L in HI'.
  apply HQ; try done. by rewrite Hd', (shows_disk view s).
Qed.

Lemma wp_put view bn n s (Q : unit → kstate → Prop) :
  calm pid s → cache_inv dev pid view ∅ {[bn]} s → buf_at dev s n bn →
  view bn = disk_read (k_disk s) bn → (∀ s', shows view s' → Q tt s') →
  wp (brelse n) s Q.
Proof.
  intros Hc HI Hat Hcl HQ.
  eapply wp_mono; [apply (wp_brelse dev pid view ∅ {[bn]} n bn s); try done; [set_solver|by right]|].
  intros [] s' (Hc' & _ & _ & HI' & _). rewrite difference_diag_L in HI'. apply HQ. by split.
Qed.

Lemma run_op_ok view op s :
  shows view s → op_ok op →
  wp (run_op op) s (λ r s', r = (spec_op view op).1 ∧ shows (spec_op view op).2 s').
Proof.
  intros Hs Hop. destruct op as [bn|bn data]; cbn [run_op spec_op op_ok fst snd] in *.
  - apply wp_bind, (wp_take view bn s); [done|done|]. intros n s1 Hc1 HI1 Hat1 Hd1.
    destruct (held_buf dev pid _ _ _ s1 n bn HI1 ltac:(set_solver) Hat1)
      as (b & Hb & _ & _ & _ & _ & Hdata & _).
    apply wp_bind. eapply wp_returns; [by apply returns_get_buf|]. cbn beta.
    apply wp_bind, (wp_put view bn n s1); [done..|]. intros s2 Hs2. by apply wp_ret.
  - destruct Hop as [Hbn Hlen].
    apply wp_bind, (wp_take view bn s); [done|done|]. intros n s1 Hc1 HI1 Hat1 _.
    apply wp_bind. eapply wp_mono.
    { apply (wp_write_buf dev pid view ∅ {[bn]} n bn (λ _, data) s1); try done. set_solver. }
    intros [] s2 (Hc2 & _ & _ & HI2 & K2).
    apply wp_bind. eapply wp_mono.
    { apply (wp_bwrite dev pid _ ∅ {[bn]} n bn s2 Hc2 HI2); [set_solver|auto]. }
    intros [] s3 (Hc3 & _ & Hd3 & HI3 & K3).
    apply wp_bind, (wp_put (<[bn := data]> view) bn n s3); [done|done|auto| |].
    { by rewrite Hd3, disk_read_eq. }
    intros s4 Hs4. by apply wp_ret.
Qed.

(** C8: the buffer cache is transparent.  Whatever sequence of blocks a process reads
    and writes through the cache, and however often buffers have to be recycled, every
    read returns what was last written to the block, the calls return, and in the end
    the disk has the contents that the same operations give on a map of blocks. *)
Theorem cache_refines_map (view : Z → list Z) (ops : list block_op) (s : kstate) :
  shows view s → Forall op_ok ops →
  wp (run_ops ops) s (λ rs s',
    rs = (spec_ops view ops).1 ∧ shows (spec_ops view ops).2 s' ∧
    ∀ bn, disk_read (k_disk s') bn = (spec_ops view ops).2 bn).
Proof.
  intros Hs Hops. revert view s Hs.
  induction Hops as [|op ops Hop Hops IH]; intros view s Hs; cbn [run_ops spec_ops].
  - apply wp_ret. split_and!; [done|done|]. intros bn. by apply shows_disk.
  - apply wp_bind. eapply wp_mono; [by apply run_op_ok|]. intros r s1 [-> Hs1].
    destruct (spec_op view op) as [r view'] eqn:E. cbn [fst snd] in *.
    apply wp_bind. eapply wp_mono; [by apply IH|]. intros rs s2 (-> & Hs2 & Hd2).
    destruct (spec_ops view' ops) as [rs view''] eqn:E'. cbn [fst snd] in *. by apply wp_ret.
Qed.
End cache.

(** ** Examples *)

(** A process runs, the cache is empty, and the disk has seen the writes [d]. *)
Definition disk_example (d : list (Z * list Z)) : kstate :=
  set_k_disk d (set_k_lru (seq 0 NBUF)
    (set_k_vdisk (set_vd_free (replicate NUM true) zero_vdisk)
      (on_cpu (set_c_proc (Some 0%nat))
        (with_procs [(0%nat, set_p_pid 1 (set_p_state RUNNING zero_proc))] initial_kstate)))).

Lemma disk_example_calm d : calm 1 (disk_example d).
Proof.
  split; [done|]. split; [by constructor|].
  exists 0%nat, (set_p_pid 1 (set_p_state RUNNING zero_proc)). split; [|done].
  split_and!; [|done|done|by eexists].
  split_and!; [|done|done]. eexists. split; [done|]. split_and!; [done|done|done].
Qed.

Lemma disk_example_shows d :
  (∀ bn, length (disk_read d bn) = Z.to_nat BSIZE) → shows 1 1 (disk_read d) (disk_example d).
Proof.
  intros Hd. split; [apply disk_example_calm|]. by apply (cold_cache 1 1 (disk_example d)).
Qed.

#[local] Instance example_device : Device := λ _ _, 0.

Lemma disk_request_completes_witness :
  env_ok (λ t, if Nat.even t then killing else answering) ∧
  wp (virtio_disk_rw 0 false) (disk_example [(0, replicate (Z.to_nat BSIZE) 7)]) (λ _ s',
    ∃ b, k_bufs s' !! 0%nat = Some b ∧ b_data b = replicate (Z.to_nat BSIZE) 7).
Proof.
  destruct (disk_request_completes 1 0 zero_buf false
    (disk_example [(0, replicate (Z.to_nat BSIZE) 7)])) as [He Hw];
    [apply disk_example_calm|reflexivity|reflexivity|done|].
  split; [exact He|]. eapply wp_mono; [exact Hw|].
  intros _ s' (_ & _ & _ & _ & _ & Hb & _). eexists. rewrite Hb. split; reflexivity.
Defined.

Lemma cache_refines_map_witness :
  wp (run_ops 1 [WriteBlock 5 (replicate (Z.to_nat BSIZE) 9); ReadBlock 5])
    (disk_example []) (λ rs s', rs = replicate 2 (replicate (Z.to_nat BSIZE) 9)).
Proof.
  eapply wp_mono.
  - apply (cache_refines_map 1 1 (disk_read [])
      [WriteBlock 5 (replicate (Z.to_nat BSIZE) 9); ReadBlock 5] (disk_example [])).
    + apply disk_example_shows. intros bn. reflexivity.
    + assert (block_ok 5) by (unfold block_ok; lia).
      constructor; [split; [done|reflexivity]|]. constructor; [done|constructor].
  - intros rs s' (-> & _). reflexivity.
Defined.
