(* ===== verification/LogFacts.v ===== *)
(** * The log on the view of the buffer cache

    The writes that [commit] and [recover_from_log] make to the disk, in order. *)

From S2P Require Import Prelude Bytes Data State Spinlock Table Mlfq MlfqFacts Sleeplock Bio Log Calm BioFacts.

Local Open Scope Z_scope.

(** ** The layout of the log *)

(** The header is block [lg_start]; the [i]-th logged block follows at [log_slot lg i]. *)
Definition log_slot (lg : log) (i : nat) : Z := lg_start lg + Z.of_nat i + 1.

Definition in_log (lg : log) (bn : Z) : Prop :=
  lg_start lg ≤ bn < lg_start lg + LOGSIZE.

(** The blocks of the current transaction. *)
Definition logged (lg : log) : list Z := take (Z.to_nat (lg_n lg)) (lg_block lg).

Record log_ok (lg : log) : Prop := {
  lo_dev : 0 < lg_dev lg < 2 ^ 31;
  lo_start : 0 ≤ lg_start lg ∧ lg_start lg + LOGSIZE < 2 ^ 31;
  lo_block : length (lg_block lg) = Z.to_nat LOGSIZE;
  lo_n : 0 ≤ lg_n lg < LOGSIZE;
  lo_nodup : NoDup (logged lg);
  lo_home bn : bn ∈ logged lg → 0 ≤ bn < 2 ^ 31 ∧ ¬ in_log lg bn;
}.

Lemma logged_length lg : log_ok lg → length (logged lg) = Z.to_nat (lg_n lg).
Proof.
  intros []. unfold logged. rewrite length_take, lo_block0. unfold LOGSIZE, MAXOPBLOCKS in *. lia.
Qed.

Lemma logged_lookup lg i bn :
  log_ok lg → logged lg !! i = Some bn →
  lg_block lg !! i = Some bn ∧ (i < Z.to_nat (lg_n lg))%nat.
Proof.
  intros Hlg Hi. unfold logged in Hi. apply lookup_take_Some in Hi as [Hi Hlt]. done.
Qed.

Lemma log_slot_in lg i : (S i < Z.to_nat LOGSIZE)%nat → in_log lg (log_slot lg i).
Proof. unfold in_log, log_slot, LOGSIZE, MAXOPBLOCKS. lia. Qed.

(** ** Loops over the logged blocks *)

Lemma wp_log_loop_from {En : Env} (body : Z → K unit) (n : nat) (Inv : nat → kstate → Prop) :
  (n ≤ Z.to_nat LOGSIZE)%nat →
  (∀ k s, Inv k s → lg_n (k_log s) = Z.of_nat n) →
  (∀ k s, (k < n)%nat → Inv k s → wp (body (Z.of_nat k)) s (λ _ s', Inv (S k) s')) →
  ∀ j k s, (k + j = n)%nat → Inv k s →
  wp (log_loop (seqZ (Z.of_nat k) (LOGSIZE + 1 - Z.of_nat k)) body) s (λ _ s', Inv n s').
Proof.
  intros Hn Hlg Hbody. induction j as [|j IH]; intros k s Hk HI;
    rewrite seqZ_cons by (unfold LOGSIZE, MAXOPBLOCKS in *; lia); cbn [log_loop];
    wstep; rewrite (Hlg k s HI).
  - rewrite (proj2 (Z.ltb_ge _ _)) by lia. apply wp_ret.
    by replace n with k by lia.
  - rewrite (proj2 (Z.ltb_lt _ _)) by lia. apply wp_bind.
    eapply wp_mono; [apply Hbody; [lia|done]|]. intros [] s' HI'. cbn beta in HI' |- *.
    specialize (IH (S k) s' ltac:(lia) HI').
    replace (Z.succ (Z.of_nat k)) with (Z.of_nat (S k)) by lia.
    replace (Z.pred (LOGSIZE + 1 - Z.of_nat k)) with (LOGSIZE + 1 - Z.of_nat (S k)) by lia.
    done.
Qed.

Lemma wp_log_loop {En : Env} (body : Z → K unit) (n : nat) (Inv : nat → kstate → Prop) s :
  (n ≤ Z.to_nat LOGSIZE)%nat →
  (∀ k s, Inv k s → lg_n (k_log s) = Z.of_nat n) →
  (∀ k s, (k < n)%nat → Inv k s → wp (body (Z.of_nat k)) s (λ _ s', Inv (S k) s')) →
  Inv 0%nat s → wp (log_loop tails body) s (λ _ s', Inv n s').
Proof. intros Hn Hlg Hbody H0. by apply (wp_log_loop_from body n Inv Hn Hlg Hbody n 0). Qed.

(** ** The cache, the log and the disk together *)

Section log.
Context {En : Env} {Dk : Disk} {HDk : DiskOk} (pid : Z).
Implicit Types (view : Z → list Z) (pinned held : gset Z) (d : list (Z * list Z)).

Definition disk_at (s0 : kstate) (lg : log) view pinned held d (s : kstate) : Prop :=
  calm pid s ∧ cache_inv (lg_dev lg) pid view pinned held s ∧ k_log s = lg ∧ k_disk s = d ∧
  disk_step s0 s.

Lemma at_bread s0 lg view pinned held d bn s :
  disk_at s0 lg view pinned held d s → bn ∉ held → block_ok bn →
  (bn ∈ pinned ∨ (size (pinned ∪ held) < NBUF)%nat) →
  wp (bread (lg_dev lg) bn) s (λ n s',
    disk_at s0 lg view pinned ({[bn]} ∪ held) d s' ∧ buf_at (lg_dev lg) s' n bn ∧
    ∀ m bn', bn' ∈ held → buf_at (lg_dev lg) s m bn' → buf_at (lg_dev lg) s' m bn').
Proof.
  intros (Hc & HI & Hlg & Hd & Hs) Hh Hrange Hroom. eapply wp_mono; [by eapply wp_bread|].
  intros n s' (Hc' & [Hst Hl] & Hd' & HI' & Hat & Hk). split; [|done].
  split_and!; [done|done|congruence|congruence|by etransitivity].
Qed.

Lemma at_get_buf s0 lg view pinned held d n bn s :
  disk_at s0 lg view pinned held d s → bn ∈ held → buf_at (lg_dev lg) s n bn →
  ∃ b, returns (get_buf n) s b s ∧ b_data b = view bn.
Proof.
  intros (Hc & HI & _) Hh Hat.
  destruct (held_buf _ _ _ _ _ _ _ _ HI Hh Hat) as (b & Hb & _ & _ & _ & _ & Hdata & _).
  exists b. split; [by apply returns_get_buf|done].
Qed.

Lemma at_write_buf s0 lg view pinned held d n bn data s :
  disk_at s0 lg view pinned held d s → bn ∈ held → buf_at (lg_dev lg) s n bn →
  length (data (view bn)) = Z.to_nat BSIZE →
  wp (upd_buf n (λ b, set_b_data (data (b_data b)) b)) s (λ _ s',
    disk_at s0 lg (<[bn := data (view bn)]> view) pinned held d s' ∧
    ∀ m bn', buf_at (lg_dev lg) s m bn' → buf_at (lg_dev lg) s' m bn').
Proof.
  intros (Hc & HI & Hlg & Hd & Hs) Hh Hat Hlen. eapply wp_mono; [by eapply wp_write_buf|].
  intros _ s' (Hc' & [Hst Hl] & Hd' & HI' & Hk). split; [|done].
  split_and!; [done|done|congruence|congruence|by etransitivity].
Qed.

Lemma at_put_buf s0 lg view pinned held d n bn data s :
  disk_at s0 lg view pinned held d s → bn ∈ held → buf_at (lg_dev lg) s n bn →
  length data = Z.to_nat BSIZE →
  wp (upd_buf n (set_b_data data)) s (λ _ s',
    disk_at s0 lg (<[bn := data]> view) pinned held d s' ∧
    ∀ m bn', buf_at (lg_dev lg) s m bn' → buf_at (lg_dev lg) s' m bn').
Proof.
  intros Hs Hh Hat Hlen. exact (at_write_buf s0 lg view pinned held d n bn (λ _, data) s Hs Hh Hat Hlen).
Qed.

Lemma at_bwrite s0 lg view pinned held d n bn s :
  disk_at s0 lg view pinned held d s → bn ∈ held → buf_at (lg_dev lg) s n bn →
  wp (bwrite n) s (λ _ s',
    disk_at s0 lg view pinned held ((bn, view bn) :: d) s' ∧
    ∀ m bn', buf_at (lg_dev lg) s m bn' → buf_at (lg_dev lg) s' m bn').
Proof.
  intros (Hc & HI & Hlg & Hd & Hs) Hh Hat. eapply wp_mono; [by eapply wp_bwrite|].
  intros _ s' (Hc' & [Hst Hl] & Hd' & HI' & Hk). split; [|done].
  split_and!; [done|done|congruence|congruence|by etransitivity].
Qed.

Lemma at_brelse s0 lg view pinned held d n bn s :
  disk_at s0 lg view pinned held d s → bn ∈ held → buf_at (lg_dev lg) s n bn →
  (bn ∈ pinned ∨ view bn = disk_read d bn) →
  wp (brelse n) s (λ _ s',
    disk_at s0 lg view pinned (held ∖ {[bn]}) d s' ∧
    ∀ m bn', buf_at (lg_dev lg) s m bn' → buf_at (lg_dev lg) s' m bn').
Proof.
  intros (Hc & HI & Hlg & Hd & Hs) Hh Hat Hcl.
  eapply wp_mono; [eapply wp_brelse; try done; by rewrite Hd|].
  intros _ s' (Hc' & [Hst Hl] & Hd' & HI' & Hk). split; [|done].
  split_and!; [done|done|congruence|congruence|by etransitivity].
Qed.

Lemma at_bunpin s0 lg view pinned held d n bn s :
  disk_at s0 lg view pinned held d s → bn ∈ held → bn ∈ pinned →
  buf_at (lg_dev lg) s n bn →
  wp (bunpin n) s (λ _ s',
    disk_at s0 lg view (pinned ∖ {[bn]}) held d s' ∧
    ∀ m bn', buf_at (lg_dev lg) s m bn' → buf_at (lg_dev lg) s' m bn').
Proof.
  intros (Hc & HI & Hlg & Hd & Hs) Hh Hp Hat. eapply wp_mono; [by eapply wp_bunpin|].
  intros _ s' (Hc' & [Hst Hl] & Hd' & HI' & Hk). split; [|done].
  split_and!; [done|done|congruence|congruence|by etransitivity].
Qed.

Lemma at_upd_log s0 lg lg' f view pinned held d s :
  disk_at s0 lg view pinned held d s → f lg = lg' → lg_dev lg' = lg_dev lg →
  wp (upd_log f) s (λ _ s', disk_at s0 lg' view pinned held d s' ∧
    ∀ m bn', buf_at (lg_dev lg) s m bn' → buf_at (lg_dev lg) s' m bn').
Proof.
  intros (Hc & HI & Hlg & Hd & Hs) Hf Hdev. eapply wp_returns; [apply returns_modify|].
  split; [|done].
  split_and!; [done| |by rewrite Hlg|done|by apply disk_step_set_log].
  rewrite Hdev. destruct HI. by constructor.
Qed.

(** The log as the code reads it, with the conversions to [uint]. *)
Lemma log_dev_u32 lg : log_ok lg → u32 (lg_dev lg) = lg_dev lg.
Proof. intros []. apply u32_small. unfold is_u32. lia. Qed.
Lemma log_start_u32 lg : log_ok lg → u32 (lg_start lg) = lg_start lg.
Proof. intros []. apply u32_small. unfold is_u32, LOGSIZE, MAXOPBLOCKS in *. lia. Qed.
Lemma log_slot_u32 lg k :
  log_ok lg → (S k < Z.to_nat LOGSIZE)%nat →
  u32 (lg_start lg + Z.of_nat k + 1) = log_slot lg k.
Proof.
  intros [] Hk. apply u32_small. unfold is_u32, log_slot, LOGSIZE, MAXOPBLOCKS in *. lia.
Qed.
Lemma log_home_u32 lg bn : log_ok lg → bn ∈ logged lg → u32 bn = bn.
Proof.
  intros Hlg Hbn. destruct (lo_home lg Hlg bn Hbn) as [? _]. apply u32_small. unfold is_u32. lia.
Qed.

Lemma log_start_block lg : log_ok lg → block_ok (lg_start lg).
Proof. intros []. unfold block_ok, LOGSIZE, MAXOPBLOCKS in *. lia. Qed.
Lemma log_slot_block lg k : log_ok lg → (S k < Z.to_nat LOGSIZE)%nat → block_ok (log_slot lg k).
Proof. intros [] Hk. unfold block_ok, log_slot, LOGSIZE, MAXOPBLOCKS in *. lia. Qed.
Lemma log_home_block lg bn : log_ok lg → bn ∈ logged lg → block_ok bn.
Proof. intros Hlg Hbn. by destruct (lo_home lg Hlg bn Hbn). Qed.

Lemma at_log s0 lg view pinned held d s :
  disk_at s0 lg view pinned held d s → returns (gets k_log) s lg s.
Proof. intros (_ & _ & <- & _). apply returns_gets. Qed.

Lemma at_size s0 lg view pinned held d s bn :
  disk_at s0 lg view pinned held d s → length (view bn) = Z.to_nat BSIZE.
Proof. intros (_ & HI & _). apply (ci_size _ _ _ _ _ _ HI). Qed.

Lemma home_not_slot lg k bn :
  log_ok lg → (S k < Z.to_nat LOGSIZE)%nat → bn ∈ logged lg → log_slot lg k ≠ bn.
Proof.
  intros Hlg Hk Hbn <-. destruct (lo_home lg Hlg _ Hbn) as [_ H]. by apply H, log_slot_in.
Qed.

(** ** [write_log] *)

(** Logged block [k] is copied to its slot in the log. *)
Lemma write_log_step s0 lg k blk view pinned d s :
  log_ok lg → logged lg !! k = Some blk → blk ∈ pinned → log_slot lg k ∉ pinned →
  (size pinned < NBUF)%nat → disk_at s0 lg view pinned ∅ d s →
  wp (lg ← gets k_log;
      to ← bread (u32 (lg_dev lg)) (u32 (lg_start lg + Z.of_nat k + 1));
      lg ← gets k_log;
      blk ← index (lg_block lg) (Z.of_nat k);
      from ← bread (u32 (lg_dev lg)) (u32 blk);
      b ← get_buf from;
      upd_buf to (set_b_data (b_data b)) ;;
      bwrite to ;;
      brelse from ;;
      brelse to) s (λ _ s',
    disk_at s0 lg (<[log_slot lg k := view blk]> view) pinned ∅
      ((log_slot lg k, view blk) :: d) s').
Proof.
  intros Hlg Hk Hp Hslot Hsz Hs. set (slot := log_slot lg k) in *.
  pose proof (logged_lookup lg k blk Hlg Hk) as [Hblk Hlt].
  assert (S k < Z.to_nat LOGSIZE)%nat as Hk30 by (destruct Hlg; lia).
  assert (blk ∈ logged lg) as Hin by (by eapply list_elem_of_lookup_2).
  assert (slot ≠ blk) as Hne by (by apply home_not_slot).
  apply wp_bind. eapply wp_returns; [by eapply at_log|]. cbn beta.
  rewrite log_dev_u32, log_slot_u32 by done. fold slot.
  apply wp_bind. eapply wp_mono.
  { eapply at_bread; [done|set_solver|by apply log_slot_block|]. right. by rewrite union_empty_r_L. }
  intros to s1 (Hs1 & Hto1 & _). rewrite union_empty_r_L in Hs1.
  apply wp_bind. eapply wp_returns; [by eapply at_log|]. cbn beta.
  apply wp_bind. eapply wp_returns; [apply returns_index; [lia|by rewrite Nat2Z.id]|]. cbn beta.
  rewrite log_dev_u32, (log_home_u32 lg blk) by done.
  apply wp_bind. eapply wp_mono.
  { eapply at_bread; [done|set_solver|by eapply log_home_block|]. by left. }
  intros from s2 (Hs2 & Hfrom2 & Hk2).
  assert (buf_at (lg_dev lg) s2 to slot) as Hto2 by (apply Hk2; [set_solver|done]).
  destruct (at_get_buf _ _ _ _ _ _ from blk _ Hs2) as (b & Hb & Hdata); [set_solver|done|].
  apply wp_bind. eapply wp_returns; [done|]. cbn beta. rewrite Hdata.
  apply wp_bind. eapply wp_mono.
  { eapply at_put_buf; [done| |exact Hto2|by eapply at_size]. set_solver. }
  intros _ s3 (Hs3 & Hk3).
  apply wp_bind. eapply wp_mono;
    [eapply (at_bwrite _ _ _ _ _ _ to slot); [done|set_solver|by apply Hk3]|].
  intros _ s4 (Hs4 & Hk4). rewrite fn_lookup_insert in Hs4.
  apply wp_bind. eapply wp_mono.
  { eapply (at_brelse _ _ _ _ _ _ from blk); [done|set_solver|by apply Hk4, Hk3|by left]. }
  intros _ s5 (Hs5 & Hk5).
  eapply wp_mono.
  { eapply (at_brelse _ _ _ _ _ _ to slot); [done|set_solver|by apply Hk5, Hk4, Hk3|].
    right. by rewrite fn_lookup_insert, disk_read_eq. }
  intros _ s6 (Hs6 & _).
  replace ((({[blk]} ∪ {[slot]}) ∖ {[blk]}) ∖ {[slot]}) with (∅ : gset Z) in Hs6 by set_solver.
  done.
Qed.

(** The contents of the first [k] logged blocks are in the log. *)
Fixpoint log_view (lg : log) (l : list Z) (k : nat) view : Z → list Z :=
  match k with
  | O => view
  | S k' => <[log_slot lg k' := view (default 0 (l !! k'))]> (log_view lg l k' view)
  end.

(** The writes of [write_log], latest first. *)
Fixpoint log_writes (lg : log) (l : list Z) (k : nat) view : list (Z * list Z) :=
  match k with
  | O => []
  | S k' => (log_slot lg k', view (default 0 (l !! k'))) :: log_writes lg l k' view
  end.

Lemma log_view_home lg l k view bn :
  (k < Z.to_nat LOGSIZE)%nat → ¬ in_log lg bn → log_view lg l k view bn = view bn.
Proof.
  intros Hk Hbn. induction k as [|k IH]; simpl; [done|].
  rewrite fn_lookup_insert_ne; [apply IH; lia|]. intros <-. by apply Hbn, log_slot_in.
Qed.

Lemma log_view_start lg l k view : log_view lg l k view (lg_start lg) = view (lg_start lg).
Proof.
  induction k as [|k IH]; simpl; [done|].
  rewrite fn_lookup_insert_ne; [done|]. unfold log_slot. lia.
Qed.

Lemma log_view_slot lg l k view i bn :
  (i < k)%nat → l !! i = Some bn → log_view lg l k view (log_slot lg i) = view bn.
Proof.
  intros Hi Hbn. induction k as [|k IH]; [lia|]. simpl.
  destruct (decide (i = k)) as [->|Hne].
  - by rewrite fn_lookup_insert, Hbn.
  - rewrite fn_lookup_insert_ne; [apply IH; lia|]. unfold log_slot. lia.
Qed.

(** The transaction: its blocks are pinned, in number fewer than the buffers. *)
Definition in_trans (lg : log) (pinned : gset Z) : Prop :=
  (∀ bn, bn ∈ logged lg → bn ∈ pinned) ∧ (∀ bn, in_log lg bn → bn ∉ pinned) ∧
  (size pinned < NBUF)%nat.

Lemma at_write_log s0 lg view pinned d s :
  log_ok lg → in_trans lg pinned → disk_at s0 lg view pinned ∅ d s →
  let n := Z.to_nat (lg_n lg) in
  wp write_log s (λ _ s',
    disk_at s0 lg (log_view lg (logged lg) n view) pinned ∅
      (log_writes lg (logged lg) n view ++ d) s').
Proof.
  intros Hlg (Hpin & Hlog & Hsz) Hs n.
  assert (n < Z.to_nat LOGSIZE)%nat as Hn by (destruct Hlg; unfold n; lia).
  apply (wp_log_loop _ n (λ k s', disk_at s0 lg (log_view lg (logged lg) k view) pinned ∅
    (log_writes lg (logged lg) k view ++ d) s')); [lia| | |done].
  - intros k s' (_ & _ & -> & _). unfold n. destruct Hlg. lia.
  - intros k s' Hk Hs'.
    destruct (lookup_lt_is_Some_2 (logged lg) k) as [blk Hblk];
      [by rewrite logged_length|].
    assert (blk ∈ logged lg) as Hin by (by eapply list_elem_of_lookup_2).
    eapply wp_mono; [eapply (write_log_step s0 lg k blk); try done; auto|].
    { apply Hlog, log_slot_in. lia. }
    intros [] s'' Hs''. cbn [log_view log_writes app]. rewrite Hblk.
    rewrite log_view_home in Hs'' by (try lia; by apply (lo_home lg Hlg)). done.
Qed.

(** ** [write_head] *)

Definition new_header (lg : log) view : list Z :=
  splice (view (lg_start lg)) 0 (header_bytes lg).

Lemma concat_le_length l : length (concat (map (le 4) l)) = (4 * length l)%nat.
Proof.
  induction l as [|x l IH]; [done|]. cbn [map concat length].
  rewrite length_app, le_length, IH. lia.
Qed.

Lemma header_bytes_length lg :
  length (lg_block lg) = Z.to_nat LOGSIZE → 0 ≤ lg_n lg ≤ LOGSIZE →
  length (header_bytes lg) = (4 + 4 * Z.to_nat (lg_n lg))%nat.
Proof.
  intros Hl Hn. unfold header_bytes. rewrite length_app, le_length, concat_le_length, length_take.
  rewrite Hl. lia.
Qed.

Lemma new_header_length lg view :
  length (lg_block lg) = Z.to_nat LOGSIZE → 0 ≤ lg_n lg ≤ LOGSIZE →
  length (view (lg_start lg)) = Z.to_nat BSIZE → length (new_header lg view) = Z.to_nat BSIZE.
Proof.
  intros Hl Hn Hv. unfold new_header. rewrite splice_length; [done|].
  rewrite header_bytes_length, Hv by done. unfold LOGSIZE, MAXOPBLOCKS, BSIZE in *. lia.
Qed.

Lemma start_in_log lg : in_log lg (lg_start lg).
Proof. unfold in_log, LOGSIZE, MAXOPBLOCKS. lia. Qed.

Lemma at_write_head s0 lg view pinned d s :
  log_ok lg → lg_start lg ∉ pinned → (size pinned < NBUF)%nat →
  disk_at s0 lg view pinned ∅ d s →
  wp write_head s (λ _ s',
    disk_at s0 lg (<[lg_start lg := new_header lg view]> view) pinned ∅
      ((lg_start lg, new_header lg view) :: d) s').
Proof.
  intros Hlg Hst Hsz Hs. set (st := lg_start lg) in *.
  assert (length (new_header lg view) = Z.to_nat BSIZE) as Hlen.
  { destruct Hlg. apply new_header_length; [done|lia|by eapply at_size]. }
  unfold write_head. apply wp_bind. eapply wp_returns; [by eapply at_log|]. cbn beta.
  rewrite log_dev_u32, log_start_u32 by done. fold st.
  apply wp_bind. eapply wp_mono.
  { eapply at_bread; [done|set_solver|by apply log_start_block|]. right. by rewrite union_empty_r_L. }
  intros n s1 (Hs1 & Hn1 & _). rewrite union_empty_r_L in Hs1.
  apply wp_bind. eapply wp_returns; [by eapply at_log|]. cbn beta.
  rewrite (proj2 (Z.ltb_ge _ _)) by (destruct Hlg; lia).
  apply wp_bind. eapply wp_mono.
  { eapply (at_write_buf _ _ _ _ _ _ n st (λ x, splice x 0 (header_bytes lg)));
      [done|set_solver|done|done]. }
  intros _ s2 (Hs2 & Hk2). fold (new_header lg view) in Hs2.
  apply wp_bind. eapply wp_mono;
    [eapply (at_bwrite _ _ _ _ _ _ n st); [done|set_solver|by apply Hk2]|].
  intros _ s3 (Hs3 & Hk3). rewrite fn_lookup_insert in Hs3.
  eapply wp_mono.
  { eapply (at_brelse _ _ _ _ _ _ n st); [done|set_solver|by apply Hk3, Hk2|].
    right. by rewrite fn_lookup_insert, disk_read_eq. }
  intros _ s4 (Hs4 & _). by rewrite difference_diag_L in Hs4.
Qed.

(** ** [install_trans] *)

Lemma at_clean s0 lg view pinned held d s bn :
  disk_at s0 lg view pinned held d s → bn ∉ pinned → bn ∉ held → view bn = disk_read d bn.
Proof. intros (_ & HI & _ & <- & _). apply (ci_clean _ _ _ _ _ _ HI). Qed.

Lemma install_step s0 lg k blk view pinned d s (recovering : bool) :
  log_ok lg → logged lg !! k = Some blk → log_slot lg k ∉ pinned →
  (recovering = false → blk ∈ pinned) → (recovering = true → (size pinned + 1 < NBUF)%nat) →
  (size pinned < NBUF)%nat → disk_at s0 lg view pinned ∅ d s →
  wp (lg ← gets k_log;
      lbuf ← bread (u32 (lg_dev lg)) (u32 (lg_start lg + Z.of_nat k + 1));
      lg ← gets k_log;
      blk ← index (lg_block lg) (Z.of_nat k);
      dbuf ← bread (u32 (lg_dev lg)) (u32 blk);
      b ← get_buf lbuf;
      upd_buf dbuf (set_b_data (b_data b)) ;;
      bwrite dbuf ;;
      when (negb recovering) (bunpin dbuf) ;;
      brelse lbuf ;;
      brelse dbuf) s (λ _ s',
    disk_at s0 lg (<[blk := view (log_slot lg k)]> view)
      (if recovering then pinned else pinned ∖ {[blk]}) ∅
      ((blk, view (log_slot lg k)) :: d) s').
Proof.
  intros Hlg Hk Hslot Hp Hr Hsz Hs. set (slot := log_slot lg k) in *.
  pose proof (logged_lookup lg k blk Hlg Hk) as [Hblk Hlt].
  assert (S k < Z.to_nat LOGSIZE)%nat as Hk30 by (destruct Hlg; lia).
  assert (blk ∈ logged lg) as Hin by (by eapply list_elem_of_lookup_2).
  assert (slot ≠ blk) as Hne by (by apply home_not_slot).
  assert (view slot = disk_read d slot) as Hcl
    by (eapply at_clean; [exact Hs|done|set_solver]).
  apply wp_bind. eapply wp_returns; [by eapply at_log|]. cbn beta.
  rewrite log_dev_u32, log_slot_u32 by done. fold slot.
  apply wp_bind. eapply wp_mono.
  { eapply at_bread; [done|set_solver|by apply log_slot_block|]. right. by rewrite union_empty_r_L. }
  intros lbuf s1 (Hs1 & Hl1 & _). rewrite union_empty_r_L in Hs1.
  apply wp_bind. eapply wp_returns; [by eapply at_log|]. cbn beta.
  apply wp_bind. eapply wp_returns; [apply returns_index; [lia|by rewrite Nat2Z.id]|]. cbn beta.
  rewrite log_dev_u32, (log_home_u32 lg blk) by done.
  apply wp_bind. eapply wp_mono.
  { eapply at_bread; [done|set_solver|by eapply log_home_block|]. destruct recovering; [right|left; auto].
    pose proof (size_union_alt pinned {[slot]}). pose proof (Hr eq_refl).
    pose proof (subseteq_size ({[slot]} ∖ pinned) {[slot]} ltac:(set_solver)).
    rewrite size_singleton in *. lia. }
  intros dbuf s2 (Hs2 & Hd2 & Hk2).
  assert (buf_at (lg_dev lg) s2 lbuf slot) as Hl2 by (apply Hk2; [set_solver|done]).
  destruct (at_get_buf _ _ _ _ _ _ lbuf slot _ Hs2) as (b & Hb & Hdata); [set_solver|done|].
  apply wp_bind. eapply wp_returns; [done|]. cbn beta. rewrite Hdata.
  apply wp_bind. eapply wp_mono.
  { eapply at_put_buf; [done| |exact Hd2|by eapply at_size]. set_solver. }
  intros _ s3 (Hs3 & Hk3).
  apply wp_bind. eapply wp_mono;
    [eapply (at_bwrite _ _ _ _ _ _ dbuf blk); [done|set_solver|by apply Hk3]|].
  intros _ s4 (Hs4 & Hk4). rewrite fn_lookup_insert in Hs4.
  apply wp_bind. eapply (wp_mono _ _ (λ _ s5,
    disk_at s0 lg (<[blk := view slot]> view) (if recovering then pinned else pinned ∖ {[blk]})
      {[blk; slot]} ((blk, view slot) :: d) s5 ∧
    ∀ m bn', buf_at (lg_dev lg) s4 m bn' → buf_at (lg_dev lg) s5 m bn')).
  { unfold when. destruct recovering; cbn [negb]; [by apply wp_ret|].
    eapply (at_bunpin _ _ _ _ _ _ dbuf blk); [done|set_solver|auto|by apply Hk4, Hk3]. }
  intros _ s5 (Hs5 & Hk5).
  apply wp_bind. eapply wp_mono.
  { eapply (at_brelse _ _ _ _ _ _ lbuf slot); [done|set_solver|by apply Hk5, Hk4, Hk3|].
    right. by rewrite fn_lookup_insert_ne, disk_read_ne. }
  intros _ s6 (Hs6 & Hk6).
  eapply wp_mono.
  { eapply (at_brelse _ _ _ _ _ _ dbuf blk); [done|set_solver|by apply Hk6, Hk5, Hk4, Hk3|].
    right. by rewrite fn_lookup_insert, disk_read_eq. }
  intros _ s7 (Hs7 & _).
  by replace (({[blk; slot]} ∖ {[slot]}) ∖ {[blk]}) with (∅ : gset Z) in Hs7 by set_solver.
Qed.

(** The home blocks as [install_trans] leaves them after [k] steps, and its writes. *)
Fixpoint home_view (lg : log) (l : list Z) (k : nat) view : Z → list Z :=
  match k with
  | O => view
  | S k' => <[default 0 (l !! k') := view (log_slot lg k')]> (home_view lg l k' view)
  end.

Fixpoint home_writes (lg : log) (l : list Z) (k : nat) view : list (Z * list Z) :=
  match k with
  | O => []
  | S k' => (default 0 (l !! k'), view (log_slot lg k')) :: home_writes lg l k' view
  end.

Lemma home_view_other lg l k view bn :
  (k ≤ length l)%nat → bn ∉ take k l → home_view lg l k view bn = view bn.
Proof.
  intros Hk Hbn. induction k as [|k IH]; cbn [home_view]; [done|].
  destruct (lookup_lt_is_Some_2 l k) as [x Hx]; [lia|].
  rewrite (take_S_r _ _ x) in Hbn by done. rewrite Hx. cbn [default].
  rewrite fn_lookup_insert_ne by set_solver. apply IH; [lia|set_solver].
Qed.

Lemma home_view_block lg l k view i bn :
  NoDup l → (i < k)%nat → (k ≤ length l)%nat → l !! i = Some bn →
  home_view lg l k view bn = view (log_slot lg i).
Proof.
  intros Hnd Hi Hk Hbn. induction k as [|k IH]; [lia|]. cbn [home_view].
  destruct (lookup_lt_is_Some_2 l k) as [x Hx]; [lia|]. rewrite Hx. cbn [default].
  destruct (decide (i = k)) as [->|Hne].
  - simplify_eq. unfold id. by rewrite fn_lookup_insert.
  - unfold id. rewrite fn_lookup_insert_ne; [apply IH; lia|]. intros ->.
    apply Hne. by eapply NoDup_lookup.
Qed.

(** The pins that are left after [k] blocks have been installed. *)
Definition pins_left (recovering : bool) (l : list Z) (k : nat) pinned : gset Z :=
  if recovering then pinned else pinned ∖ list_to_set (take k l).

Lemma at_install_trans s0 lg view pinned d s (recovering : bool) :
  log_ok lg → (∀ bn, in_log lg bn → bn ∉ pinned) → (size pinned < NBUF)%nat →
  (recovering = false → ∀ bn, bn ∈ logged lg → bn ∈ pinned) →
  (recovering = true → pinned = ∅) →
  disk_at s0 lg view pinned ∅ d s →
  let n := Z.to_nat (lg_n lg) in
  wp (install_trans recovering) s (λ _ s',
    disk_at s0 lg (home_view lg (logged lg) n view)
      (pins_left recovering (logged lg) n pinned) ∅
      (home_writes lg (logged lg) n view ++ d) s').
Proof.
  intros Hlg Hlog Hsz Hpin Hrec Hs n.
  assert (n < Z.to_nat LOGSIZE)%nat as Hn by (destruct Hlg; unfold n; lia).
  assert (∀ k, pins_left recovering (logged lg) k pinned ⊆ pinned) as Hsub.
  { intros k. unfold pins_left. destruct recovering; set_solver. }
  apply (wp_log_loop _ n (λ k s', disk_at s0 lg (home_view lg (logged lg) k view)
    (pins_left recovering (logged lg) k pinned) ∅
    (home_writes lg (logged lg) k view ++ d) s')); [lia| | |].
  - intros k s' (_ & _ & -> & _). unfold n. destruct Hlg. lia.
  - intros k s' Hk Hs'.
    destruct (lookup_lt_is_Some_2 (logged lg) k) as [blk Hblk]; [by rewrite logged_length|].
    assert (blk ∈ logged lg) as Hin by (by eapply list_elem_of_lookup_2).
    assert (blk ∉ take k (logged lg)) as Hnew.
    { intros [j Hj]%list_elem_of_lookup. apply lookup_take_Some in Hj as [Hj Hlt].
      assert (j = k); [|lia]. eapply NoDup_lookup; [apply (lo_nodup lg Hlg)|done|done]. }
    pose proof (subseteq_size _ _ (Hsub k)) as Hle.
    eapply wp_mono.
    { eapply (install_step s0 lg k blk _ _ _ _ recovering); [done|done|..|exact Hs'].
      - intros Hx%Hsub. eapply Hlog; [|exact Hx]. apply log_slot_in. lia.
      - intros ->. unfold pins_left. rewrite elem_of_difference, elem_of_list_to_set. auto.
      - intros ->. rewrite (Hrec eq_refl). unfold pins_left. rewrite size_empty. unfold NBUF. lia.
      - lia. }
    intros [] s'' Hs''. cbn [home_view home_writes app]. rewrite Hblk. cbn [default].
    assert (home_view lg (logged lg) k view (log_slot lg k) = view (log_slot lg k)) as E.
    { apply home_view_other; [rewrite logged_length by done; lia|].
      intros Hx. apply list_elem_of_lookup in Hx as [j Hj].
      apply lookup_take_Some in Hj as [Hj _]. apply list_elem_of_lookup_2 in Hj. by apply (home_not_slot lg k _ Hlg) in Hj; [|lia]. }
    rewrite E in Hs''.
    replace (pins_left recovering (logged lg) (S k) pinned) with
      (if recovering then pins_left recovering (logged lg) k pinned
       else pins_left recovering (logged lg) k pinned ∖ {[blk]}); [done|].
    unfold pins_left. destruct recovering; [done|]. rewrite (take_S_r _ _ blk) by done.
    rewrite list_to_set_app_L. set_solver.
  - unfold pins_left. destruct recovering; [done|]. simpl. by rewrite difference_empty_L.
Qed.
End log.
