(* ===== verification/LogCrash.v ===== *)
(** * Crash safety of the log ([kernel/log.c])

    What a crash can leave on the disk while [commit] writes to it, what
    [initlog] makes of it at the next boot, and that file-system calls between
    [begin_op] and [end_op] are atomic. *)

From S2P Require Import Prelude Bytes Data State Spinlock Table Mlfq MlfqFacts Sleeplock Bio Log Calm BioFacts LogFacts.

Local Open Scope Z_scope.

(** ** The header on the disk *)

(** The header in the contents of a block, as [read_head] reads it. *)
Definition head_n (data : list Z) : Z := i32 (get32 data 0).
Definition head_blocks (data : list Z) : list Z := header_blocks data (Z.to_nat (head_n data)).

Lemma header_n lg view :
  log_ok lg → length (view (lg_start lg)) = Z.to_nat BSIZE →
  head_n (new_header lg view) = lg_n lg.
Proof.
  intros [] Hv. unfold head_n, get32, get_le, new_header.
  rewrite slice_splice_in by (rewrite ?header_bytes_length by (done || lia); lia).
  unfold header_bytes. rewrite slice_app_l by (rewrite le_length; lia).
  rewrite slice_full by (by rewrite le_length).
  unfold LOGSIZE, MAXOPBLOCKS in *. rewrite of_le_le by lia. apply i32_small. unfold is_i32. lia.
Qed.

Lemma header_logged lg view :
  log_ok lg → length (view (lg_start lg)) = Z.to_nat BSIZE →
  head_blocks (new_header lg view) = logged lg.
Proof.
  intros Hlg Hv. unfold head_blocks. rewrite header_n by done. unfold header_blocks.
  apply list_eq. intros i. rewrite list_lookup_fmap.
  destruct (logged lg !! i) as [b|] eqn:Hi.
  - pose proof (logged_lookup lg i b Hlg Hi) as [_ Hlt]. rewrite lookup_seq_lt by done. simpl.
    destruct (lo_home lg Hlg b) as [Hb _]; [by eapply list_elem_of_lookup_2|]. f_equal.
    destruct Hlg. unfold get32, get_le, new_header.
    rewrite slice_splice_in; [|lia|rewrite header_bytes_length by (done || lia); lia].
    unfold header_bytes.
    replace (4 + 4 * Z.of_nat i)
      with (Z.of_nat (length (le 4 (lg_n lg))) + Z.of_nat 4 * Z.of_nat i) by (rewrite le_length; lia).
    rewrite slice_app_r, (slice_array 4 _ i b) by (done || lia).
    rewrite of_le_le by lia. apply i32_small. unfold is_i32. lia.
  - apply lookup_ge_None in Hi. rewrite logged_length in Hi by done.
    rewrite lookup_seq_ge by done. done.
Qed.

(** A header that [read_head] can load: a list of distinct blocks outside of the log. *)
Record head_ok (st : Z) (h : list Z) : Prop := {
  ho_n : 0 ≤ head_n h < LOGSIZE;
  ho_nodup : NoDup (head_blocks h);
  ho_home bn : bn ∈ head_blocks h → 0 ≤ bn < 2 ^ 31 ∧ ¬ (st ≤ bn < st + LOGSIZE);
}.

(** The contents of the blocks that recovery from disk [d] leads to. *)
Definition recovered (st : Z) (d : list (Z * list Z)) (bn : Z) : list Z :=
  match list_find (.= bn) (head_blocks (disk_read d st)) with
  | Some (i, _) => disk_read d (st + Z.of_nat i + 1)
  | None => disk_read d bn
  end.

Lemma recovered_in st d i bn :
  NoDup (head_blocks (disk_read d st)) → head_blocks (disk_read d st) !! i = Some bn →
  recovered st d bn = disk_read d (st + Z.of_nat i + 1).
Proof.
  intros Hnd Hi. unfold recovered.
  destruct (list_find_elem_of (.= bn) (head_blocks (disk_read d st)) bn) as [[j x] Hj];
    [by eapply list_elem_of_lookup_2|done|].
  rewrite Hj. apply list_find_Some in Hj as (Hj & -> & _).
  by rewrite (NoDup_lookup _ _ _ _ Hnd Hi Hj).
Qed.

Lemma recovered_out st d bn :
  bn ∉ head_blocks (disk_read d st) → recovered st d bn = disk_read d bn.
Proof.
  intros Hbn. unfold recovered. destruct (list_find _ _) as [[j x]|] eqn:E; [|done].
  apply list_find_Some in E as (Hj & -> & _). by apply list_elem_of_lookup_2 in Hj.
Qed.

Lemma head_blocks_empty h : head_n h = 0 → head_blocks h = [].
Proof. intros E. unfold head_blocks. by rewrite E. Qed.

Lemma head_ok_empty st h : head_n h = 0 → head_ok st h.
Proof.
  intros E. split; rewrite ?(head_blocks_empty h E); [rewrite E; done|constructor|].
  intros bn Hbn. by apply elem_of_nil in Hbn.
Qed.

Lemma head_blocks_length h : length (head_blocks h) = Z.to_nat (head_n h).
Proof. unfold head_blocks, header_blocks. by rewrite length_map, length_seq. Qed.

(** ** Writes that do not matter to recovery *)

Lemma disk_read_app_out ws d bn :
  (∀ x, x ∈ ws → x.1 ≠ bn) → disk_read (ws ++ d) bn = disk_read d bn.
Proof.
  induction ws as [|[n x] ws IH]; intros H; [done|]. cbn [app].
  rewrite disk_read_ne by (apply (H (n, x)); left). apply IH. intros y Hy. apply H. by right.
Qed.

(** Writes to the blocks that the header names: recovery overwrites them. *)
Lemma recovered_installing st ws d bn :
  head_ok st (disk_read d st) → (∀ x, x ∈ ws → x.1 ∈ head_blocks (disk_read d st)) →
  recovered st (ws ++ d) bn = recovered st d bn.
Proof.
  intros Hok Hws.
  assert (∀ k, st ≤ k < st + LOGSIZE → disk_read (ws ++ d) k = disk_read d k) as Hin.
  { intros k Hk. apply disk_read_app_out. intros x Hx <-.
    by destruct (ho_home _ _ Hok x.1) as [_ ?]; [auto|]. }
  assert (disk_read (ws ++ d) st = disk_read d st) as Hst.
  { apply Hin. unfold LOGSIZE, MAXOPBLOCKS. lia. }
  destruct (decide (bn ∈ head_blocks (disk_read d st))) as [Hbn|Hbn].
  - apply list_elem_of_lookup in Hbn as [i Hi].
    rewrite (recovered_in st (ws ++ d) i), (recovered_in st d i);
      rewrite ?Hst; try (done || by destruct Hok).
    apply Hin. apply lookup_lt_Some in Hi. rewrite head_blocks_length in Hi. destruct Hok. lia.
  - rewrite !recovered_out by (by rewrite ?Hst). apply disk_read_app_out. intros x Hx <-. auto.
Qed.

(** Writes to the log past its header, while the header is empty. *)
Lemma recovered_logging st ws d bn :
  head_n (disk_read d st) = 0 → (∀ x, x ∈ ws → st < x.1 < st + LOGSIZE) →
  ¬ (st ≤ bn < st + LOGSIZE) → recovered st (ws ++ d) bn = disk_read d bn.
Proof.
  intros H0 Hws Hbn. assert (disk_read (ws ++ d) st = disk_read d st) as Hst.
  { apply disk_read_app_out. intros x Hx E. specialize (Hws x Hx). lia. }
  rewrite recovered_out.
  - apply disk_read_app_out. intros x Hx E. specialize (Hws x Hx). lia.
  - rewrite Hst, head_blocks_empty by done. apply not_elem_of_nil.
Qed.

(** A suffix of a list in two parts. *)
Lemma app_eq_parts {A} (a b l1 l2 : list A) :
  a ++ b = l1 ++ l2 → (∃ a2, a = l1 ++ a2 ∧ l2 = a2 ++ b) ∨ ∃ b1, l1 = a ++ b1 ∧ b = b1 ++ l2.
Proof.
  intros E. destruct (app_eq_inv _ _ _ _ E) as [(k & -> & ->)|(k & -> & ->)]; eauto.
Qed.

(** ** [commit] *)

Section crash.
Context {En : Env} {Dk : Disk} {HDk : DiskOk} (pid : Z).
Implicit Types (view : Z → list Z) (pinned held : gset Z) (d : list (Z * list Z)).

Notation disk_at := (disk_at pid).

(** The view after [write_log], [write_head] and [install_trans]. *)
Definition logged_view (lg : log) view : Z → list Z :=
  log_view lg (logged lg) (Z.to_nat (lg_n lg)) view.
Definition committed_view (lg : log) view : Z → list Z :=
  <[lg_start lg := new_header lg (logged_view lg view)]> (logged_view lg view).
Definition installed_view (lg : log) view : Z → list Z :=
  home_view lg (logged lg) (Z.to_nat (lg_n lg)) (committed_view lg view).

(** The writes of [commit], latest first: the blocks to the log, the header, the
    blocks to their homes, and the empty header. *)
Definition commit_writes (lg : log) view : list (Z * list Z) :=
  (lg_start lg, new_header (set_lg_n 0 lg) (installed_view lg view)) ::
  home_writes lg (logged lg) (Z.to_nat (lg_n lg)) (committed_view lg view) ++
  (lg_start lg, new_header lg (logged_view lg view)) ::
  log_writes lg (logged lg) (Z.to_nat (lg_n lg)) view.

Lemma log_ok_empty lg : log_ok lg → log_ok (set_lg_n 0 lg).
Proof.
  intros []. constructor; simpl; try done.
  - constructor.
  - intros bn Hbn. by apply elem_of_nil in Hbn.
Qed.

Lemma at_commit s0 lg view pinned d s :
  log_ok lg → 0 < lg_n lg → in_trans lg pinned → disk_at s0 lg view pinned ∅ d s →
  wp commit s (λ _ s',
    disk_at s0 (set_lg_n 0 lg)
      (<[lg_start lg := new_header (set_lg_n 0 lg) (installed_view lg view)]> (installed_view lg view))
      (pins_left false (logged lg) (Z.to_nat (lg_n lg)) pinned) ∅ (commit_writes lg view ++ d) s').
Proof.
  intros Hlg Hn Htr Hs. pose proof Htr as (Hpin & Hlog & Hsz).
  assert (lg_start lg ∉ pinned) as Hst by (apply Hlog, start_in_log).
  unfold commit. apply wp_bind. eapply wp_returns; [by eapply at_log|]. cbn beta.
  rewrite (proj2 (Z.ltb_lt _ _)) by done. cbn [when].
  apply wp_bind. eapply wp_mono; [by apply (at_write_log pid s0 lg view pinned d)|].
  intros [] s1 H1. cbn beta in H1. fold (logged_view lg view) in H1.
  apply wp_bind. eapply wp_mono; [by eapply (at_write_head pid s0 lg)|].
  intros [] s2 H2. cbn beta in H2. fold (committed_view lg view) in H2.
  apply wp_bind. eapply wp_mono;
    [eapply (at_install_trans pid s0 lg _ pinned _ s2 false Hlg Hlog Hsz); [done|done|exact H2]|].
  intros [] s3 H3. cbn beta zeta in H3. fold (installed_view lg view) in H3.
  apply wp_bind. eapply wp_mono; [by eapply (at_upd_log pid s0 lg (set_lg_n 0 lg))|].
  intros [] s4 [H4 _].
  eapply wp_mono.
  { eapply (at_write_head pid s0 (set_lg_n 0 lg)); [by apply log_ok_empty| | |exact H4].
    - unfold pins_left. cbn [lg_start set_lg_n]. set_solver.
    - eapply Nat.le_lt_trans; [|exact Hsz]. apply subseteq_size. unfold pins_left. set_solver. }
  intros [] s5 H5. cbn beta in H5. unfold commit_writes. cbn [lg_start set_lg_n] in H5.
  rewrite <- app_comm_cons, <- (assoc (++)), <- app_comm_cons. done.
Qed.

(** The writes, one by one. *)
Lemma home_writes_in lg l k view x :
  (k ≤ length l)%nat → x ∈ home_writes lg l k view → x.1 ∈ l.
Proof.
  intros Hk. induction k as [|k IH]; cbn [home_writes].
  - intros Hx. by apply elem_of_nil in Hx.
  - rewrite elem_of_cons. intros [->|Hx]; [|apply IH; [lia|done]].
    destruct (lookup_lt_is_Some_2 l k) as [y Hy]; [lia|]. rewrite Hy. simpl.
    by eapply list_elem_of_lookup_2.
Qed.

Lemma log_writes_in lg l k view x :
  (k < Z.to_nat LOGSIZE)%nat → x ∈ log_writes lg l k view →
  lg_start lg < x.1 < lg_start lg + LOGSIZE.
Proof.
  intros Hk. induction k as [|k IH]; cbn [log_writes].
  - intros Hx. by apply elem_of_nil in Hx.
  - rewrite elem_of_cons. intros [->|Hx]; [|apply IH; [lia|done]].
    simpl. unfold log_slot, LOGSIZE, MAXOPBLOCKS in *. lia.
Qed.

Lemma log_writes_slot lg l k view i bn d :
  (i < k)%nat → l !! i = Some bn →
  disk_read (log_writes lg l k view ++ d) (log_slot lg i) = view bn.
Proof.
  intros Hi Hbn. induction k as [|k IH]; [lia|]. cbn [log_writes app].
  destruct (decide (i = k)) as [->|Hne].
  - rewrite disk_read_eq. by rewrite Hbn.
  - rewrite disk_read_ne; [apply IH; lia|]. unfold log_slot. lia.
Qed.

Lemma home_writes_read lg l k view d bn :
  bn ∈ take k l ∨ view bn = disk_read d bn → (k ≤ length l)%nat →
  disk_read (home_writes lg l k view ++ d) bn = home_view lg l k view bn.
Proof.
  intros H Hk. induction k as [|k IH]; cbn [home_writes home_view app].
  - destruct H as [H|H]; [by apply elem_of_nil in H|done].
  - destruct (lookup_lt_is_Some_2 l k) as [x Hx]; [lia|]. rewrite Hx. cbn [default].
    rewrite (take_S_r _ _ x), elem_of_app, list_elem_of_singleton in H by done. unfold id.
    destruct (decide (x = bn)) as [->|Hne]; [by rewrite disk_read_eq, fn_lookup_insert|].
    rewrite disk_read_ne, fn_lookup_insert_ne by done. apply IH; [naive_solver|lia].
Qed.

(** ** The disk at a crash *)

Section commit_crash.
Context (lg : log) (view : Z → list Z) (d : list (Z * list Z)).
Context (Hlg : log_ok lg) (Hsize : ∀ bn, length (view bn) = Z.to_nat BSIZE).
Context (Hempty : head_n (disk_read d (lg_start lg)) = 0).
Context (Hclean : ∀ bn, bn ∉ logged lg → ¬ in_log lg bn → view bn = disk_read d bn).

Notation n := (Z.to_nat (lg_n lg)).
(** The disk once the header is written. *)
Notation d2 := ((lg_start lg, new_header lg (logged_view lg view)) ::
  log_writes lg (logged lg) n view ++ d).

Lemma crash_n : (n < Z.to_nat LOGSIZE)%nat ∧ n = length (logged lg).
Proof. rewrite logged_length by done. destruct Hlg. lia. Qed.

Lemma logged_view_start_size : length (logged_view lg view (lg_start lg)) = Z.to_nat BSIZE.
Proof. unfold logged_view. by rewrite log_view_start. Qed.

Lemma committed_blocks : head_blocks (disk_read d2 (lg_start lg)) = logged lg.
Proof.
  rewrite disk_read_eq. apply header_logged; [done|apply logged_view_start_size].
Qed.

Lemma committed_head_ok : head_ok (lg_start lg) (disk_read d2 (lg_start lg)).
Proof.
  pose proof committed_blocks as E. split; rewrite ?E; [|by destruct Hlg..].
  rewrite disk_read_eq, header_n by (done || apply logged_view_start_size).
  by destruct Hlg.
Qed.

Lemma crash_committed bn : ¬ in_log lg bn → recovered (lg_start lg) d2 bn = view bn.
Proof.
  intros Hbn. destruct (decide (bn ∈ logged lg)) as [Hin|Hout].
  - pose proof Hin as [i Hi]%list_elem_of_lookup.
    rewrite (recovered_in _ _ i); [|rewrite committed_blocks; by destruct Hlg|by rewrite committed_blocks].
    fold (log_slot lg i). rewrite disk_read_ne by (unfold log_slot; lia).
    apply log_writes_slot; [|done]. apply lookup_lt_Some in Hi. by destruct crash_n as [_ ->].
  - rewrite recovered_out by (by rewrite committed_blocks). rewrite Hclean by done.
    rewrite disk_read_ne by (intros <-; by apply Hbn, start_in_log).
    apply disk_read_app_out. intros x Hx <-. apply Hbn.
    apply (log_writes_in lg _ _ _ _ (proj1 crash_n)) in Hx. unfold in_log. lia.
Qed.

Lemma crash_installing ws bn :
  (∀ x, x ∈ ws → x.1 ∈ logged lg) → ¬ in_log lg bn →
  recovered (lg_start lg) (ws ++ d2) bn = view bn.
Proof.
  intros Hws Hbn. rewrite recovered_installing; [by apply crash_committed|apply committed_head_ok|].
  intros x Hx. rewrite committed_blocks. auto.
Qed.

Lemma committed_view_home bn : ¬ in_log lg bn → committed_view lg view bn = view bn.
Proof.
  intros Hbn. pose proof crash_n as [Hn _]. unfold committed_view.
  rewrite fn_lookup_insert_ne by (intros <-; by apply Hbn, start_in_log). by apply log_view_home.
Qed.

(** The view once the blocks are home is the view of the transaction. *)
Lemma installed_view_home bn : ¬ in_log lg bn → installed_view lg view bn = view bn.
Proof.
  intros Hbn. unfold installed_view.  pose proof crash_n as [Hn Hln].
  destruct (decide (bn ∈ logged lg)) as [Hin|Hout].
  - pose proof Hin as [i Hi]%list_elem_of_lookup.
    pose proof (lookup_lt_Some _ _ _ Hi) as Hlt.
    rewrite (home_view_block _ _ _ _ i bn); [|by destruct Hlg|lia|lia|done].
    unfold committed_view. rewrite fn_lookup_insert_ne by (unfold log_slot; lia).
    unfold logged_view. apply log_view_slot; [|done].  lia.
  - rewrite home_view_other; [by apply committed_view_home|lia|]. by rewrite firstn_all2 by lia.
Qed.

Lemma installed_read bn :
  ¬ in_log lg bn →
  disk_read (home_writes lg (logged lg) n (committed_view lg view) ++ d2) bn = view bn.
Proof.
  intros Hbn. pose proof crash_n as [Hn Hln]. rewrite home_writes_read.
  - by apply installed_view_home.
  - rewrite firstn_all2 by lia. destruct (decide (bn ∈ logged lg)) as [Hin|Hout]; [by left|right].
    rewrite committed_view_home, <- (crash_committed bn) by done.
    apply recovered_out. by rewrite committed_blocks.
  - lia.
Qed.

(** The empty header at the end. *)
Lemma installed_start_size : length (installed_view lg view (lg_start lg)) = Z.to_nat BSIZE.
Proof.
  pose proof crash_n as [_ Hln]. unfold installed_view.  rewrite home_view_other.
  - unfold committed_view. rewrite fn_lookup_insert.
    apply new_header_length; [by destruct Hlg|destruct Hlg; lia|apply logged_view_start_size].
  - lia.
  - rewrite firstn_all2 by lia. intros Hin. destruct (lo_home lg Hlg _ Hin) as [_ Hx].
    apply Hx, start_in_log.
Qed.

Lemma done_empty :
  head_n (disk_read (commit_writes lg view ++ d) (lg_start lg)) = 0.
Proof.
  unfold commit_writes. cbn [app]. rewrite disk_read_eq.
  by rewrite (header_n (set_lg_n 0 lg)) by (apply log_ok_empty, Hlg || apply installed_start_size).
Qed.

Lemma commit_read bn :
  ¬ in_log lg bn → disk_read (commit_writes lg view ++ d) bn = view bn.
Proof.
  intros Hbn. unfold commit_writes. cbn [app].
  rewrite disk_read_ne by (intros <-; by apply Hbn, start_in_log).
  rewrite <- (assoc (++)). by apply installed_read.
Qed.

Lemma crash_installing_head ws :
  (∀ x, x ∈ ws → x.1 ∈ logged lg) →
  head_ok (lg_start lg) (disk_read (ws ++ d2) (lg_start lg)).
Proof.
  intros Hws. rewrite disk_read_app_out; [apply committed_head_ok|]. intros x Hx E.
  destruct (lo_home lg Hlg x.1) as [_ Ho]; [auto|]. rewrite E in Ho. apply Ho, start_in_log.
Qed.

Lemma crash_logging a b :
  log_writes lg (logged lg) n view = a ++ b →
  head_ok (lg_start lg) (disk_read (b ++ d) (lg_start lg)) ∧
  ((∀ bn, ¬ in_log lg bn → recovered (lg_start lg) (b ++ d) bn = disk_read d bn) ∨
   (∀ bn, ¬ in_log lg bn → recovered (lg_start lg) (b ++ d) bn = view bn)).
Proof.
  intros Eb. pose proof crash_n as [Hn _].
  assert (∀ x, x ∈ b → lg_start lg < x.1 < lg_start lg + LOGSIZE) as Hb.
  { intros x Hx. apply (log_writes_in lg (logged lg) n view x Hn). rewrite Eb.
    apply elem_of_app. by right. }
  split; [|left; intros bn Hbn; by apply recovered_logging].
  apply head_ok_empty. rewrite disk_read_app_out; [done|]. intros x Hx E. apply Hb in Hx. lia.
Qed.

(** Recovery from any point of the commit gives all of the old contents or all of
    the new ones; from the end of the commit, the new ones. *)
Lemma commit_crash_points ws1 ws2 :
  commit_writes lg view = ws1 ++ ws2 →
  head_ok (lg_start lg) (disk_read (ws2 ++ d) (lg_start lg)) ∧
  ((∀ bn, ¬ in_log lg bn → recovered (lg_start lg) (ws2 ++ d) bn = disk_read d bn) ∨
   (∀ bn, ¬ in_log lg bn → recovered (lg_start lg) (ws2 ++ d) bn = view bn)).
Proof.
  intros E. pose proof done_empty as E0. unfold commit_writes in E, E0.
  pose proof crash_n as [Hn Hln].
  apply (app_eq_parts [_]) in E as [(a & Ea & ->)|(b & -> & E)].
  - destruct ws1 as [|? ws1]; [|destruct ws1; [|done]]; simpl in Ea; simplify_eq.
    + split; [by apply head_ok_empty|right]. intros bn Hbn. rewrite recovered_out.
      * by apply commit_read.
      * rewrite head_blocks_empty by done. apply not_elem_of_nil.
    + cbn [app]. rewrite <- (assoc (++)). cbn [app].
      assert (∀ x, x ∈ home_writes lg (logged lg) n (committed_view lg view) → x.1 ∈ logged lg)
        as Hws by (intros x; apply home_writes_in; lia).
      split; [by apply crash_installing_head|right]. intros bn Hbn.
      rewrite <- (assoc (++)). by apply crash_installing.
  - apply app_eq_parts in E as [(a & Ea & ->)|(c & -> & E)].
    + rewrite <- (assoc (++)). cbn [app].
      assert (∀ x, x ∈ a → x.1 ∈ logged lg) as Hws.
      { intros x Hx. eapply (home_writes_in lg _ n); [lia|]. rewrite Ea. apply elem_of_app. by right. }
      split; [by apply crash_installing_head|right]. intros bn Hbn.
      rewrite <- (assoc (++)). by apply crash_installing.
    + apply (app_eq_parts [_]) in E as [(a & Ea & ->)|(e & -> & E)]; [|by eapply crash_logging].
      destruct c as [|? c]; [|destruct c; [|done]]; simpl in Ea; simplify_eq.
      * split; [apply committed_head_ok|right]. intros. by apply crash_committed.
      * by apply (crash_logging []).
Qed.
End commit_crash.

(** ** [recover_from_log] *)

(** The log in memory after [read_head]. *)
Definition loaded (lg : log) (h : list Z) : log :=
  set_lg_block (head_blocks h ++ drop (Z.to_nat (head_n h)) (lg_block lg)) (set_lg_n (head_n h) lg).

Lemma loaded_logged lg h : logged (loaded lg h) = head_blocks h.
Proof.
  unfold logged, loaded. cbn [lg_n lg_block set_lg_block set_lg_n].
  rewrite take_app_le, firstn_all2 by (rewrite head_blocks_length; lia). done.
Qed.

Lemma loaded_ok lg h : log_ok lg → head_ok (lg_start lg) h → log_ok (loaded lg h).
Proof.
  intros Hlg []. constructor; rewrite ?loaded_logged; try (by destruct Hlg).
  cbn [loaded lg_block set_lg_block]. rewrite length_app, head_blocks_length, length_drop.
  destruct Hlg. lia.
Qed.

Lemma at_read_head s0 lg view d s :
  log_ok lg → head_ok (lg_start lg) (view (lg_start lg)) → disk_at s0 lg view ∅ ∅ d s →
  wp read_head s (λ _ s', disk_at s0 (loaded lg (view (lg_start lg))) view ∅ ∅ d s').
Proof.
  intros Hlg Hh Hs. set (st := lg_start lg) in *. set (h := view st) in *.
  unfold read_head. apply wp_bind. eapply wp_returns; [by eapply at_log|]. cbn beta.
  rewrite log_dev_u32, log_start_u32 by done. fold st.
  apply wp_bind. eapply wp_mono.
  { eapply at_bread; [done|set_solver|by apply log_start_block|]. right. rewrite union_empty_r_L, size_empty. unfold NBUF. lia. }
  intros n s1 (Hs1 & Hn1 & _). rewrite union_empty_r_L in Hs1.
  destruct (at_get_buf _ _ _ _ _ _ _ n st _ Hs1) as (b & Hb & Hdata); [set_solver|done|].
  apply wp_bind. eapply wp_returns; [done|]. cbn beta. rewrite Hdata. fold h (head_n h).
  rewrite (proj2 (Z.ltb_ge _ _)) by (destruct Hh; lia). fold (head_blocks h).
  apply wp_bind. eapply wp_mono; [by eapply (at_upd_log pid s0 lg)|].
  intros [] s2 [H2 K2].
  apply wp_bind. eapply wp_mono; [by eapply (at_upd_log pid s0 (set_lg_n (head_n h) lg) (loaded lg h))|].
  intros [] s3 [H3 K3].
  eapply wp_mono.
  { eapply (at_brelse _ _ _ _ _ _ _ n st); [done|set_solver|by apply K3, K2|].
    right. eapply at_clean; [exact Hs|set_solver..]. }
  intros [] s4 (H4 & _). by rewrite difference_diag_L in H4.
Qed.

(** The writes of recovery, latest first. *)
Definition recover_writes (lg : log) view : list (Z * list Z) :=
  let h := view (lg_start lg) in
  (lg_start lg, new_header (set_lg_n 0 (loaded lg h))
     (home_view (loaded lg h) (head_blocks h) (Z.to_nat (head_n h)) view)) ::
  home_writes (loaded lg h) (head_blocks h) (Z.to_nat (head_n h)) view.

Lemma at_recover s0 lg view d s :
  log_ok lg → head_ok (lg_start lg) (view (lg_start lg)) → disk_at s0 lg view ∅ ∅ d s →
  wp recover_from_log s (λ _ s', ∃ lg' view',
    log_ok lg' ∧ lg_n lg' = 0 ∧ lg_start lg' = lg_start lg ∧ lg_dev lg' = lg_dev lg ∧
    lg_size lg' = lg_size lg ∧ lg_outstanding lg' = lg_outstanding lg ∧
    lg_committing lg' = lg_committing lg ∧
    disk_at s0 lg' view' ∅ ∅ (recover_writes lg view ++ d) s').
Proof.
  intros Hlg Hh Hs. set (h := view (lg_start lg)) in *.
  pose proof (loaded_ok lg h Hlg Hh) as Hl. pose proof (loaded_logged lg h) as Eb.
  assert (size (∅ : gset Z) < NBUF)%nat as Hsz by (rewrite size_empty; unfold NBUF; lia).
  unfold recover_from_log. apply wp_bind.
  eapply wp_mono; [exact (at_read_head s0 lg view d s Hlg Hh Hs)|].
  intros [] s1 H1. cbn beta in H1. fold h in H1.
  apply wp_bind. eapply wp_mono;
    [eapply (at_install_trans pid s0 (loaded lg h) view ∅ d s1 true Hl); try done; set_solver|].
  intros [] s2 H2. cbn beta zeta in H2. rewrite Eb in H2. cbn [pins_left] in H2.
  apply wp_bind. eapply wp_mono; [by eapply (at_upd_log pid s0 (loaded lg h) (set_lg_n 0 (loaded lg h)))|].
  intros [] s3 [H3 _].
  eapply wp_mono; [eapply (at_write_head pid s0 (set_lg_n 0 (loaded lg h)));
    [by apply log_ok_empty|..|exact H3]; [set_solver|done]|].
  intros [] s4 H4. cbn beta in H4. eexists _, _. split; [by apply log_ok_empty|].
  do 6 (split; [done|]). exact H4.
Qed.

(** ** The disk at a crash during recovery *)

Section recover_crash.
Context (lg : log) (view : Z → list Z) (d : list (Z * list Z)).
Context (Hlg : log_ok lg) (Hsize : ∀ bn, length (view bn) = Z.to_nat BSIZE).
Context (Hclean : ∀ bn, view bn = disk_read d bn).
Context (Hh : head_ok (lg_start lg) (view (lg_start lg))).

Notation h := (view (lg_start lg)).
Notation n := (Z.to_nat (head_n h)).
Notation hw := (home_writes (loaded lg h) (head_blocks h) n view).

Lemma recover_home x : x ∈ hw → x.1 ∈ head_blocks (disk_read d (lg_start lg)).
Proof.
  rewrite <- Hclean. apply home_writes_in. by rewrite head_blocks_length.
Qed.

Lemma recover_start_home : lg_start lg ∉ head_blocks h.
Proof.
  intros Hin. destruct (ho_home _ _ Hh _ Hin) as [_ Ho]. apply Ho.
  unfold LOGSIZE, MAXOPBLOCKS. lia.
Qed.

Lemma recover_empty : head_n (disk_read (recover_writes lg view ++ d) (lg_start lg)) = 0.
Proof.
  unfold recover_writes. cbn [app]. rewrite disk_read_eq.
  assert (log_ok (set_lg_n 0 (loaded lg h))) as Hl by (by apply log_ok_empty, loaded_ok).
  rewrite header_n; [done|done|]. cbn [lg_start set_lg_n loaded set_lg_block].
  rewrite home_view_other; [done|by rewrite head_blocks_length|].
  rewrite firstn_all2 by (by rewrite head_blocks_length). apply recover_start_home.
Qed.

Lemma recover_read bn :
  ¬ in_log lg bn → disk_read (recover_writes lg view ++ d) bn = recovered (lg_start lg) d bn.
Proof.
  intros Hbn. unfold recover_writes. cbn [app].
  rewrite disk_read_ne by (intros <-; by apply Hbn, start_in_log).
  assert (n ≤ length (head_blocks h))%nat as Hn by (by rewrite head_blocks_length).
  rewrite home_writes_read by (done || by right).
  destruct (decide (bn ∈ head_blocks h)) as [Hin|Hout].
  - pose proof Hin as [i Hi]%list_elem_of_lookup. pose proof (lookup_lt_Some _ _ _ Hi) as Hlt.
    rewrite head_blocks_length in Hlt.
    rewrite (home_view_block _ _ _ _ i bn), Hclean by (done || by destruct Hh).
    rewrite (recovered_in _ _ i); rewrite <- ?Hclean; [done|by destruct Hh|done].
  - rewrite recovered_out by (by rewrite <- Hclean).
    rewrite home_view_other; [done|done|]. by rewrite firstn_all2 by (by rewrite head_blocks_length).
Qed.

Lemma recover_crash_points ws1 ws2 :
  recover_writes lg view = ws1 ++ ws2 →
  head_ok (lg_start lg) (disk_read (ws2 ++ d) (lg_start lg)) ∧
  ∀ bn, ¬ in_log lg bn → recovered (lg_start lg) (ws2 ++ d) bn = recovered (lg_start lg) d bn.
Proof.
  intros E. pose proof recover_empty as E0. pose proof recover_read as Er.
  destruct ws1 as [|x ws1]; cbn [app] in E.
  - rewrite <- E. split; [by apply head_ok_empty|]. intros bn Hbn. rewrite recovered_out; [by apply Er|].
    rewrite head_blocks_empty by done. apply not_elem_of_nil.
  - unfold recover_writes in E. injection E as Ex E. 
    assert (∀ y, y ∈ ws2 → y.1 ∈ head_blocks (disk_read d (lg_start lg))) as Hws.
    { intros y Hy. apply recover_home. rewrite E. apply elem_of_app. by right. }
    rewrite disk_read_app_out.
    + rewrite <- Hclean. split; [done|]. intros bn Hbn. apply recovered_installing; [|done].
      by rewrite <- Hclean.
    + intros y Hy Ey. apply Hws in Hy. rewrite Ey, <- Hclean in Hy. by apply recover_start_home.
Qed.
End recover_crash.
End crash.
