(* ===== verification/LogOps.v ===== *)
(** * Transactions: [begin_op], [log_write], [end_op], and recovery at boot

    The operations of the log on the view of the buffer cache, and the atomicity of
    the changes made between [begin_op] and [end_op]. *)

From S2P Require Import Prelude Bytes Memory Riscv Data State Spinlock Table Mlfq MlfqFacts Sleeplock Bio Log Fs Calm BioFacts LogFacts LogCrash.

Local Open Scope Z_scope.

Section ops.
Context {En : Env} {Dk : Disk} {HDk : DiskOk} (pid : Z).
Implicit Types (view : Z → list Z) (pinned held : gset Z) (d : list (Z * list Z)).

Notation disk_at := (disk_at pid).

(** ** The blocks of a transaction *)

(** The log after [log_write] of block [bn]. *)
Definition log_add (bn : Z) (lg : log) : log :=
  if decide (bn ∈ logged lg) then lg
  else set_lg_n (lg_n lg + 1) (set_lg_block (<[Z.to_nat (lg_n lg) := bn]> (lg_block lg)) lg).

Lemma log_absorb_spec l bn :
  (∀ b, b ∈ l → u32 b = b) →
  (bn ∈ l ∧ l !! log_absorb l bn = Some bn) ∨ (bn ∉ l ∧ log_absorb l bn = length l).
Proof.
  intros Hl. induction l as [|b l IH]; simpl.
  - right. split; [apply not_elem_of_nil|done].
  - rewrite Hl by left. destruct (Z.eqb_spec b bn) as [->|Hne].
    + left. split; [left|done].
    + destruct IH as [[Hin E]|[Hout E]]; [intros; apply Hl; by right|left|right].
      * split; [by right|done].
      * split; [|by rewrite E]. rewrite not_elem_of_cons. auto.
Qed.

Lemma log_add_logged bn lg :
  log_ok lg → bn ∉ logged lg → logged (log_add bn lg) = logged lg ++ [bn].
Proof.
  intros Hlg Hbn. unfold log_add. rewrite decide_False by done.
  destruct Hlg. unfold logged. cbn [lg_n lg_block set_lg_n set_lg_block].
  replace (Z.to_nat (lg_n lg + 1)) with (S (Z.to_nat (lg_n lg))) by lia.
  erewrite take_S_r by (apply list_lookup_insert_eq; rewrite lo_block; lia).
  by rewrite take_insert_ge by done.
Qed.

Lemma log_add_ok bn lg :
  log_ok lg → bn ∈ logged lg ∨ lg_n lg + 1 < LOGSIZE → 0 ≤ bn < 2 ^ 31 → ¬ in_log lg bn →
  log_ok (log_add bn lg).
Proof.
  intros Hlg Hroom Hbn Hhome. destruct (decide (bn ∈ logged lg)) as [Hin|Hout].
  { unfold log_add. by rewrite decide_True. }
  destruct Hroom as [?|Hroom]; [done|]. pose proof (log_add_logged bn lg Hlg Hout) as E.
  constructor; rewrite ?E; unfold log_add; rewrite ?decide_False by done;
    cbn [lg_dev lg_start lg_block lg_n set_lg_n set_lg_block]; destruct Hlg; try done.
  - by rewrite length_insert.
  - lia.
  - apply list.NoDup_app. split_and!; [done| |apply NoDup_singleton].
    intros x Hx Hs. apply list_elem_of_singleton in Hs. by subst.
  - intros x [Hx|Hx]%elem_of_app; [by apply lo_home|]. apply list_elem_of_singleton in Hx. by subst.
Qed.

Lemma log_add_set bn lg :
  log_ok lg →
  (list_to_set (logged (log_add bn lg)) : gset Z) = {[bn]} ∪ list_to_set (logged lg).
Proof.
  intros Hlg. destruct (decide (bn ∈ logged lg)) as [Hin|Hout].
  - unfold log_add. rewrite decide_True by done. set_solver.
  - rewrite log_add_logged by done. rewrite list_to_set_app_L. set_solver.
Qed.

(** ** [log_write] *)

(** The transaction of one process: its blocks are pinned, and nothing else. *)
Definition op_at (s0 : kstate) (lg : log) view held d (s : kstate) : Prop :=
  log_ok lg ∧ disk_at s0 lg view (list_to_set (logged lg)) held d s.

(** The part of [log_write] up to the choice of the index. *)
Lemma log_write_index lg bn :
  log_ok lg → 0 ≤ bn < 2 ^ 31 → let i := log_absorb (logged lg) bn in
  (bn ∈ logged lg ∧ lg_block lg !! i = Some bn ∧ Z.of_nat i ≠ lg_n lg) ∨
  (bn ∉ logged lg ∧ i = Z.to_nat (lg_n lg) ∧ is_Some (lg_block lg !! i)).
Proof.
  intros Hlg Hbn i. destruct (log_absorb_spec (logged lg) bn) as [[Hin E]|[Hout E]].
  - intros b Hb. by apply (log_home_u32 lg).
  - left. fold i in E. destruct (logged_lookup lg i bn Hlg E) as [E' Hlt].
    split_and!; [done|done|]. destruct Hlg. lia.
  - right. fold i in E. rewrite logged_length in E by done. split_and!; [done|done|].
    apply lookup_lt_is_Some_2. destruct Hlg. lia.
Qed.

Lemma set_log_id s : set_k_log (k_log s) s = s.
Proof. by destruct s. Qed.

Lemma returns_log_write lg n b s :
  log_ok lg → k_log s = lg → ready s → k_locks s = ∅ → k_bufs s !! n = Some b →
  0 ≤ b_blockno b < 2 ^ 31 →
  0 < lg_outstanding lg → lg_n lg < lg_size lg - 1 →
  returns (log_write n) s tt (set_k_log (log_add (b_blockno b) lg)
    (if decide (b_blockno b ∈ logged lg) then s
     else set_k_bufs (<[n := set_b_refcnt (u32 (b_refcnt b + 1)) b]> (k_bufs s)) s)).
Proof.
  intros Hlg Hk Hr Hl Hb Hbn Ho Hn. set (bn := b_blockno b) in *.
  assert (∀ lk, unlocked lk s) as Hu by (intros lk; unfold unlocked; by rewrite Hl).
  unfold log_write. kstep. kstep. change (k_log (locked LkLog s)) with (k_log s). rewrite Hk.
  rewrite (proj2 (Z.leb_gt LOGSIZE _)), (proj2 (Z.leb_gt _ (lg_n lg))) by (destruct Hlg; lia).
  cbn [orb]. rewrite (proj2 (Z.ltb_ge _ _)) by lia.
  eapply returns_bind; [by apply returns_get_buf|]. fold bn (logged lg).
  rewrite (i32_small bn) by (unfold is_i32; lia). unfold log_add.
  destruct (log_write_index lg bn Hlg Hbn) as [(Hin & Hi & Hne)|(Hout & Hi & [x Hx])].
  - eapply returns_bind; [apply returns_index; [lia|by rewrite Nat2Z.id]|]. kstep.
    rewrite (proj2 (Z.eqb_neq _ _)) by done. cbn [when].
    eapply returns_bind; [apply returns_ret|]. rewrite !decide_True by done.
    apply returns_release_from; [|done|by apply Hu].
    cbn [k_log locked set_k_locks on_cpu set_k_cpus]. rewrite Hk.
    rewrite list_insert_id by done. by destruct lg.
  - eapply returns_bind; [apply returns_index; [lia|by rewrite Nat2Z.id]|]. kstep.
    rewrite Hi, (proj2 (Z.eqb_eq _ _)) by (destruct Hlg; lia). cbn [when].
    rewrite !decide_False by done.
    eapply returns_bind.
    { eapply returns_bind.
      - apply (returns_set_refcnt n b 1); [|by apply unlocked_locked; [|apply Hu]|done].
        by apply (ready_locked LkLog (set_k_log _ s)).
      - apply returns_modify. }
    apply returns_release_from; [|done|by apply Hu].
    cbn [k_log locked set_k_locks on_cpu set_k_cpus set_k_log set_k_bufs]. by rewrite Hk.
Qed.

Lemma op_log_write s0 lg view held d n bn s :
  op_at s0 lg view held d s → bn ∈ held → buf_at (lg_dev lg) s n bn →
  0 < lg_outstanding lg → lg_n lg < lg_size lg - 1 → lg_n lg + 1 < LOGSIZE →
  0 ≤ bn < 2 ^ 31 → ¬ in_log lg bn →
  wp (log_write n) s (λ _ s', op_at s0 (log_add bn lg) view held d s' ∧
    ∀ m bn', buf_at (lg_dev lg) s m bn' → buf_at (lg_dev lg) s' m bn').
Proof.
  intros [Hlg (Hc & HI & Hk & Hd & Hs)] Hh Hat Ho Hn Hroom Hbn Hhome.
  pose proof Hat as (b & Hb & Hbd & Hbb).
  eapply wp_returns.
  { eapply (returns_log_write lg n b); try done; [by apply (calm_ready pid)|by destruct Hc|by rewrite Hbb]. }
  rewrite Hbb. unfold op_at. rewrite log_add_set by done.
  assert (log_ok (log_add bn lg)) as Hok by (apply log_add_ok; auto).
  assert (lg_dev (log_add bn lg) = lg_dev lg) as Hdev by (unfold log_add; by case_decide).
  destruct (decide (bn ∈ logged lg)) as [Hin|Hout].
  - split; [|done]. split; [done|].
    replace ({[bn]} ∪ list_to_set (logged lg)) with (list_to_set (logged lg) : gset Z) by set_solver.
    split_and!; [done| |done|done|by apply disk_step_set_log]. rewrite Hdev. by destruct HI.
  - destruct (set_refcnt_inv (lg_dev lg) pid view (list_to_set (logged lg)) held
      ({[bn]} ∪ list_to_set (logged lg)) n b bn 1 s) as [HI' Hat']; try done.
    { apply pin_refs; [done|]. by rewrite elem_of_list_to_set. }
    { set_solver. }
    split; [|done]. split; [done|].
    split_and!; [done| |done|done|by apply disk_step_set_log, disk_step_set_bufs].
    rewrite Hdev. by destruct HI'.
Qed.

(** ** [begin_op] and [end_op] *)

(** No transaction is open. *)
Definition log_idle (lg : log) : Prop :=
  lg_n lg = 0 ∧ lg_outstanding lg = 0 ∧ lg_committing lg = false.

Lemma op_begin s0 lg view d s :
  log_idle lg → op_at s0 lg view ∅ d s →
  wp begin_op s (λ _ s', op_at s0 (set_lg_outstanding 1 lg) view ∅ d s').
Proof.
  intros (Hn & Ho & Hcm) [Hlg (Hc & HI & Hk & Hd & Hs)].
  eapply (wp_returns _ _ tt (set_k_log (set_lg_outstanding 1 lg) s)).
  - pose proof (calm_ready pid s Hc). pose proof (calm_unlocked pid LkLog s Hc).
    unfold begin_op. kstep. apply returns_sleep_loop. intros m. cbn [begin_op_loop].
    kstep. change (k_log (locked LkLog s)) with (k_log s). rewrite Hk, Hcm, Hn, Ho.
    rewrite (proj2 (Z.ltb_ge _ _)) by (unfold LOGSIZE, MAXOPBLOCKS; lia).
    kstep. apply returns_release_from; [|done|done]. simpl. by rewrite Hk, Ho.
  - split; [by destruct Hlg|]. split_and!; [done|by destruct HI|done|done|by apply disk_step_set_log].
Qed.

(** The writes of [end_op]. *)
Definition end_writes (lg : log) view : list (Z * list Z) :=
  if 0 <? lg_n lg then commit_writes lg view else [].

(** What a crash in the middle of these writes leads to. *)
Lemma end_points lg view d :
  log_ok lg → (∀ bn, length (view bn) = Z.to_nat BSIZE) →
  head_n (disk_read d (lg_start lg)) = 0 →
  (∀ bn, bn ∉ logged lg → ¬ in_log lg bn → view bn = disk_read d bn) →
  (∀ bn, ¬ in_log lg bn → disk_read (end_writes lg view ++ d) bn = view bn) ∧
  ∀ ws1 ws2, end_writes lg view = ws1 ++ ws2 →
    head_ok (lg_start lg) (disk_read (ws2 ++ d) (lg_start lg)) ∧
    ((∀ bn, ¬ in_log lg bn → recovered (lg_start lg) (ws2 ++ d) bn = disk_read d bn) ∨
     (∀ bn, ¬ in_log lg bn → recovered (lg_start lg) (ws2 ++ d) bn = view bn)).
Proof.
  intros Hlg Hsize Hempty Hclean. unfold end_writes. destruct (Z.ltb_spec 0 (lg_n lg)) as [Hn|Hn].
  - split; [intros; by apply commit_read|intros; by eapply commit_crash_points].
  - split.
    + intros bn Hbn. symmetry. apply Hclean; [|done].
      unfold logged. replace (Z.to_nat (lg_n lg)) with 0%nat by lia. apply not_elem_of_nil.
    + intros ws1 ws2 E. symmetry in E. apply app_eq_nil in E as [-> ->].
      split; [by apply head_ok_empty|left]. intros bn _. apply recovered_out.
      rewrite head_blocks_empty by done. apply not_elem_of_nil.
Qed.

(** The log during the commit of [end_op]. *)
Definition closing (lg : log) : log := set_lg_committing true (set_lg_outstanding 0 lg).

Lemma op_in_trans lg : log_ok lg → in_trans lg (list_to_set (logged lg)).
Proof.
  intros Hlg. split_and!.
  - set_solver.
  - intros bn Hbn Hin%elem_of_list_to_set. by apply (lo_home lg Hlg bn).
  - rewrite size_list_to_set by (by destruct Hlg). rewrite logged_length by done.
    destruct Hlg. unfold LOGSIZE, MAXOPBLOCKS, NBUF in *. lia.
Qed.

Lemma op_commit s0 lg view d s :
  op_at s0 lg view ∅ d s →
  wp commit s (λ _ s', ∃ view', op_at s0 (set_lg_n 0 lg) view' ∅ (end_writes lg view ++ d) s').
Proof.
  intros [Hlg Hs]. unfold end_writes. destruct (Z.ltb_spec 0 (lg_n lg)) as [Hn|Hn].
  - eapply wp_mono; [by apply (at_commit pid s0 lg view); [| |apply op_in_trans|]|].
    intros [] s' H. cbn beta in H. eexists. split; [by apply log_ok_empty|].
    unfold pins_left in H. rewrite firstn_all2, difference_diag_L in H by (by rewrite logged_length).
    exact H.
  - unfold commit. eapply wp_bind, wp_returns; [by eapply at_log|]. cbn beta.
    rewrite (proj2 (Z.ltb_ge _ _)) by done. cbn [when]. apply wp_ret. exists view.
    assert (lg_n lg = 0) as E by (destruct Hlg; lia).
    assert (set_lg_n 0 lg = lg) as ->; [|done]. rewrite <- E. by destruct lg.
Qed.

Lemma op_end s0 lg view d s :
  lg_outstanding lg = 1 → lg_committing lg = false → op_at s0 lg view ∅ d s →
  wp end_op s (λ _ s', ∃ lg' view', log_idle lg' ∧ lg_start lg' = lg_start lg ∧
    lg_dev lg' = lg_dev lg ∧ lg_size lg' = lg_size lg ∧
    op_at s0 lg' view' ∅ (end_writes (closing lg) view ++ d) s').
Proof.
  intros Ho Hcm [Hlg (Hc & HI & Hk & Hd & Hs)]. unfold end_op.
  pose proof (calm_ready pid s Hc). pose proof (calm_unlocked pid LkLog s Hc).
  wstep. wstep. wstep. simpl. rewrite Hk, Hcm, Ho. cbn [Z.sub Z.eqb].
  wstep. apply wp_bind. eapply (wp_returns _ _ tt (set_k_log (closing lg) s)).
  { by apply returns_release_from. }
  apply wp_bind. eapply wp_mono.
  { apply (op_commit s0 (closing lg) view d). split; [by destruct Hlg|].
    split_and!; [done|by destruct HI|done|done|by apply disk_step_set_log]. }
  intros [] s1 (view' & Hlg' & Hc1 & HI1 & Hk1 & Hd1 & Hs1).
  set (lg' := set_lg_n 0 (closing lg)) in *. set (lg2 := set_lg_committing false lg').
  set (s2 := set_k_log lg2 s1). assert (calm pid s2) as Hc2 by done.
  set (s3 := set_k_procs (imap (awakened (curproc s2) (Some ChLog)) (k_procs s2)) s2).
  assert (calm pid s3) as Hc3 by (by apply calm_woken).
  eapply (wp_returns _ _ tt s3).
  - pose proof (calm_ready pid s1 Hc1). pose proof (calm_unlocked pid LkLog s1 Hc1).
    kstep. kstep.
    assert (set_k_log (set_lg_committing false (k_log (locked LkLog s1))) (locked LkLog s1) =
      locked LkLog s2) as -> by (unfold s2, lg2; rewrite <- Hk1; done).
    eapply returns_bind.
    { apply (returns_wakeup (Some ChLog)), quiet_locked; [done|]. by apply (calm_quiet pid). }
    rewrite curproc_locked.
    apply returns_release_from; [done|by apply (calm_ready pid)|by apply (calm_unlocked pid)].
  - exists lg2, view'. split; [done|]. do 3 (split; [done|]). split; [by destruct Hlg'|].
    split_and!; [done| |done|done|].
    + by destruct HI1.
    + destruct Hs1. constructor; try done. etransitivity; [done|]. apply woken_same.
Qed.

(** ** Boot *)

(** A kernel that has just booted, before the file system is used: nothing of the
    disk [d], whose superblock is [sb], is in memory. *)
Record booted (sb : superblock) d (s : kstate) : Prop := {
  bt_calm : calm pid s;
  bt_bufs : k_bufs s = replicate NBUF zero_buf;
  bt_lru : k_lru s ≡ₚ seq 0 NBUF;
  bt_locks n : k_sleeplocks s !! SlBuf n = None;
  bt_log : k_log s = zero_log;
  bt_disk : k_disk s = d;
  bt_sb : superblock_of (disk_read d 1) = sb;
  bt_size bn : length (disk_read d bn) = Z.to_nat BSIZE;
}.

(** A superblock with a log that fits. *)
Record sb_ok (sb : superblock) : Prop := {
  so_magic : sb_magic sb = FSMAGIC;
  so_log : 0 ≤ sb_logstart sb ∧ sb_logstart sb + LOGSIZE < 2 ^ 31;
}.

Lemma booted_inv sb d s : booted sb d s → cache_inv ROOTDEV pid (disk_read d) ∅ ∅ s.
Proof. intros []. subst d. by apply cold_cache. Qed.

(** The log that [initlog] starts from. *)
Definition boot_log (sb : superblock) : log :=
  mkLog (i32 (sb_logstart sb)) (i32 (sb_nlog sb)) 0 false ROOTDEV 0
    (replicate (Z.to_nat LOGSIZE) 0).

Lemma boot_log_ok sb : sb_ok sb → log_ok (boot_log sb) ∧ lg_start (boot_log sb) = sb_logstart sb.
Proof.
  intros [_ Hl]. assert (i32 (sb_logstart sb) = sb_logstart sb) as E.
  { apply i32_small. unfold is_i32, LOGSIZE, MAXOPBLOCKS in *. lia. }
  split; [|done]. constructor; cbn [boot_log lg_dev lg_start lg_block lg_n]; rewrite ?E; try done.
  - constructor.
  - intros bn Hbn. by apply elem_of_nil in Hbn.
Qed.

Lemma boot_readsb sb d s :
  booted sb d s →
  wp (readsb ROOTDEV) s (λ _ s', calm pid s' ∧ cache_inv ROOTDEV pid (disk_read d) ∅ ∅ s' ∧
    k_disk s' = d ∧ k_log s' = zero_log ∧ k_sb s' = sb).
Proof.
  intros Hb. pose proof (booted_inv sb d s Hb) as HI.
  pose proof (bt_calm _ _ _ Hb) as Hc. pose proof (bt_disk _ _ _ Hb) as Hd.
  pose proof (bt_log _ _ _ Hb) as Hl. unfold readsb.
  change (u32 ROOTDEV) with ROOTDEV.
  apply wp_bind. eapply wp_mono.
  { apply (wp_bread ROOTDEV pid (disk_read d) ∅ ∅ 1 s); [done|done|set_solver|done|].
    right. rewrite union_empty_r_L, size_empty. unfold NBUF. lia. }
  intros n s1 (Hc1 & [Hst1 Hl1] & Hd1 & HI1 & Hat1 & _). rewrite union_empty_r_L in HI1.
  destruct (held_buf ROOTDEV pid _ _ _ s1 n 1 HI1 ltac:(set_solver) Hat1)
    as (b & Hbb & _ & _ & _ & _ & Hdata & _).
  apply wp_bind. eapply wp_returns; [by apply returns_get_buf|]. cbn beta. rewrite Hdata, (bt_sb _ _ _ Hb).
  wstep. set (s2 := set_k_sb sb s1).
  eapply wp_mono.
  { apply (wp_brelse ROOTDEV pid (disk_read d) ∅ {[1]} n 1 s2); [done|by destruct HI1|set_solver|done|].
    right. change (k_disk s2) with (k_disk s1). by rewrite Hd1, Hd. }
  intros [] s3 (Hc3 & [Hst3 Hl3] & Hd3 & HI3 & _). rewrite difference_diag_L in HI3.
  split_and!; [done|done|..].
  - rewrite Hd3. change (k_disk s2) with (k_disk s1). congruence.
  - rewrite Hl3. change (k_log s2) with (k_log s1). congruence.
  - by destruct Hst3 as [_ _ _ _ -> _ _ _ _ _].
Qed.

(** [fsinit] brings the disk to its recovered contents and empties the log; a crash
    during recovery changes nothing of what the next recovery gives. *)
Lemma boot_fsinit sb d s :
  sb_ok sb → booted sb d s → head_ok (sb_logstart sb) (disk_read d (sb_logstart sb)) →
  wp (fsinit ROOTDEV) s (λ _ s', ∃ lg view ws,
    log_idle lg ∧ lg_start lg = sb_logstart sb ∧ op_at s' lg view ∅ (ws ++ d) s' ∧
    head_n (disk_read (ws ++ d) (sb_logstart sb)) = 0 ∧
    (∀ bn, ¬ in_log lg bn → disk_read (ws ++ d) bn = recovered (sb_logstart sb) d bn) ∧
    ∀ ws1 ws2, ws = ws1 ++ ws2 →
      head_ok (sb_logstart sb) (disk_read (ws2 ++ d) (sb_logstart sb)) ∧
      ∀ bn, ¬ in_log lg bn →
        recovered (sb_logstart sb) (ws2 ++ d) bn = recovered (sb_logstart sb) d bn).
Proof.
  intros Hsb Hb Hh. pose proof (boot_log_ok sb Hsb) as [Hlg Est]. unfold fsinit.
  apply wp_bind. eapply wp_mono; [by apply (boot_readsb sb d)|].
  intros [] s1 (Hc1 & HI1 & Hd1 & Hl1 & Hs1). wstep. rewrite Hs1.
  destruct Hsb as [Hm _]. rewrite Hm, Z.eqb_refl. cbn [negb].
  set (s2 := set_k_log (boot_log sb) s1).
  assert (disk_at s2 (boot_log sb) (disk_read d) ∅ ∅ d s2) as Hs2.
  { split_and!; [done|by destruct HI1|done|done|reflexivity]. }
  unfold initlog. wstep.
  assert (set_k_locks (delete LkLog (k_locks s1)) s1 = s1) as ->.
  { destruct Hc1 as [E _]. rewrite E, delete_empty. destruct s1; simpl in *. by subst. }
  wstep. rewrite Hs1. do 3 wstep.
  replace (set_k_log _ _) with s2 by (unfold s2; simpl; by rewrite Hl1).
  eapply wp_mono; [apply (at_recover pid s2 (boot_log sb) (disk_read d)); [done|by rewrite Est|done]|].
  intros [] s3 (lg & view & Hok & Hn & Est' & _ & _ & Ho & Hcm & Hs3).
  exists lg, view, (recover_writes (boot_log sb) (disk_read d)).
  assert (∀ bn, in_log lg bn ↔ in_log (boot_log sb) bn) as Hin by (intros; unfold in_log; by rewrite Est').
  assert (∀ bn, length (disk_read d bn) = Z.to_nat BSIZE) as Hsize by (by destruct Hb).
  split; [done|]. split; [by rewrite Est'|]. split.
  { split; [done|]. replace (logged lg) with (@nil Z) by (unfold logged; by rewrite Hn).
    destruct Hs3 as (? & ? & ? & ? & ?). by split_and!. }
  assert (head_ok (lg_start (boot_log sb)) (disk_read d (lg_start (boot_log sb)))) as Hh'
    by (by rewrite Est).
  rewrite <- Est. split; [by apply recover_empty|]. split.
  - intros bn Hbn. apply recover_read; try done. by rewrite <- Hin.
  - intros ws1 ws2 E. destruct (recover_crash_points (boot_log sb) (disk_read d) d) with ws1 ws2
      as [Hh2 Hr2]; try done. split; [done|].
    intros bn Hbn. apply Hr2. by rewrite <- Hin.
Qed.
End ops.
