(* ===== verification/FsFacts.v ===== *)
(** * The file system on the log: blocks, the free map and inodes

    The operations of [fs.c] within a transaction, as changes of the contents of
    blocks that the transaction shows. *)

From S2P Require Import Prelude Bytes Memory Riscv Data State Spinlock Table Mlfq MlfqFacts Sleeplock Bio Log Fs Calm BioFacts LogFacts LogCrash LogOps.

Local Open Scope Z_scope.

(** ** Inodes on the disk *)

(** The fields of an inode that are on the disk. *)
Definition same_dinode (ip ip' : inode) : Prop :=
  i_type ip = i_type ip' ∧ i_major ip = i_major ip' ∧ i_minor ip = i_minor ip' ∧
  i_nlink ip = i_nlink ip' ∧ i_size ip = i_size ip' ∧ i_addrs ip = i_addrs ip'.

Definition is_i16 (z : Z) : Prop := - 2 ^ 15 ≤ z < 2 ^ 15.

(** The fields have values of their C types. *)
Record dinode_ok (ip : inode) : Prop := {
  di_shorts : is_i16 (i_type ip) ∧ is_i16 (i_major ip) ∧ is_i16 (i_minor ip) ∧ is_i16 (i_nlink ip);
  di_size : is_u32 (i_size ip);
  di_addrs : length (i_addrs ip) = (Z.to_nat NDIRECT + 1)%nat;
  di_blocks : Forall is_u32 (i_addrs ip);
}.

Lemma i16_of_le2 z : is_i16 z → i16 (of_le (le 2 z)) = z.
Proof.
  intros Hz. unfold is_i16, i16 in *. cbn [le of_le]. change (256 * 0) with 0.
  Z.to_euclidean_division_equations. lia.
Qed.

Lemma dinode_bytes_length ip : dinode_ok ip → length (dinode_bytes ip) = Z.to_nat sizeof_dinode.
Proof.
  intros []. unfold dinode_bytes. rewrite !length_app, !le_length, concat_le_length, di_addrs0. done.
Qed.
Lemma slice_splice_at l off x k n :
  0 ≤ off → 0 ≤ k → (Z.to_nat off ≤ length l)%nat → (Z.to_nat k + n ≤ length x)%nat →
  slice (splice l off x) (off + k) n = slice x k n.
Proof.
  intros Ho Hk Hl Hx. unfold slice, splice.
  rewrite drop_app_ge by (rewrite length_take; lia). rewrite length_take, Nat.min_l by lia.
  rewrite drop_app_le by lia. rewrite take_app_le by (rewrite length_drop; lia).
  do 2 f_equal. lia.
Qed.

(** A field in a list of fields of known sizes. *)
Lemma get_le_field n x y z off :
  off = Z.of_nat (length x) → length y = n → get_le n (x ++ y ++ z) off = of_le y.
Proof.
  intros -> Hy. unfold get_le. replace (Z.of_nat (length x)) with (Z.of_nat (length x) + 0) by lia.
  rewrite slice_app_r by lia. rewrite slice_app_l by (cbn; lia). by rewrite slice_full.
Qed.

Lemma read_dinode_bytes ip ip0 : dinode_ok ip → same_dinode (read_dinode (dinode_bytes ip) 0 ip0) ip.
Proof.
  intros [(Ht & Hma & Hmi & Hnl) Hsz Hlen Hblk]. unfold read_dinode, dinode_bytes, get16, get32.
  set (A := concat (map (le 4) (i_addrs ip))).
  set (t := le 2 (i_type ip)). set (a := le 2 (i_major ip)). set (i := le 2 (i_minor ip)).
  set (n := le 2 (i_nlink ip)). set (z := le 4 (i_size ip)).
  split_and!; cbn [i_type i_major i_minor i_nlink i_size i_addrs].
  - etransitivity; [apply f_equal, (get_le_field 2 [] t); done|]. by apply i16_of_le2.
  - rewrite (get_le_field 2 t a) by done. by apply i16_of_le2.
  - rewrite (assoc_L (++) t a), (get_le_field 2 (t ++ a) i) by done. by apply i16_of_le2.
  - rewrite (assoc_L (++) t a), (assoc_L (++) (t ++ a)), (get_le_field 2 ((t ++ a) ++ i) n) by done.
    by apply i16_of_le2.
  - rewrite !(assoc_L (++)), <- (assoc_L (++) _ z A).
    rewrite (get_le_field 4 (((t ++ a) ++ i) ++ n) z) by done.
    apply of_le_le. change (256 ^ Z.of_nat 4) with (2 ^ 32). exact Hsz.
  - apply list_eq. intros k. rewrite list_lookup_fmap.
    destruct (decide (k < 13)%nat) as [Hk|Hk].
    + rewrite lookup_seqZ_lt by (unfold NDIRECT; lia). cbn [fmap option_fmap option_map].
      destruct (lookup_lt_is_Some_2 (i_addrs ip) k) as [v Hv]; [rewrite Hlen; unfold NDIRECT; lia|].
      rewrite Hv. f_equal. unfold get_le.
      replace (0 + dinode_addrs + 4 * (0 + Z.of_nat k))
        with (Z.of_nat (length (t ++ a ++ i ++ n ++ z)) + 4 * Z.of_nat k) by (cbn; unfold dinode_addrs; lia).
      rewrite (assoc_L (++) n z A), (assoc_L (++) i), (assoc_L (++) a), (assoc_L (++) t), slice_app_r by lia.
      unfold A. erewrite (slice_array 4) by done. apply of_le_le.
      by eapply (Forall_lookup_1 is_u32) in Hblk.
    + rewrite lookup_seqZ_ge by (unfold NDIRECT; lia). symmetry. apply lookup_ge_None_2.
      rewrite Hlen. unfold NDIRECT. lia.
Qed.

(** What [iupdate] writes is what [ilock] reads, whatever else is in the block. *)
Lemma read_dinode_splice data off ip ip0 :
  dinode_ok ip → 0 ≤ off → (Z.to_nat off + Z.to_nat sizeof_dinode ≤ length data)%nat →
  same_dinode (read_dinode (splice data off (dinode_bytes ip)) off ip0) ip.
Proof.
  intros Hip Hoff Hl. pose proof (dinode_bytes_length ip Hip) as Hx.
  assert (∀ n k, 0 ≤ k → (Z.to_nat k + n ≤ Z.to_nat sizeof_dinode)%nat →
    get_le n (splice data off (dinode_bytes ip)) (off + k) = get_le n (dinode_bytes ip) (0 + k)) as E.
  { intros n k Hk Hn. unfold get_le. rewrite slice_splice_at by (rewrite ?Hx; lia). done. }
  destruct (read_dinode_bytes ip ip0 Hip) as (E1 & E2 & E3 & E4 & E5 & E6).
  unfold read_dinode, get16, get32 in *. cbn [i_type i_major i_minor i_nlink i_size i_addrs] in *.
  split_and!; cbn [i_type i_major i_minor i_nlink i_size i_addrs].
  - assert (get_le 2 (splice data off (dinode_bytes ip)) off = get_le 2 (dinode_bytes ip) 0) as ->; [|done].
    pose proof (E 2%nat 0) as E0. rewrite !Z.add_0_r in E0. apply E0; unfold sizeof_dinode; lia.
  - rewrite <- E2, E by (unfold sizeof_dinode; lia). done.
  - rewrite <- E3, E by (unfold sizeof_dinode; lia). done.
  - rewrite <- E4, E by (unfold sizeof_dinode; lia). done.
  - rewrite <- E5, E by (unfold sizeof_dinode; lia). done.
  - rewrite <- E6. apply list_fmap_ext. intros j k Hk. apply lookup_seqZ in Hk as [-> Hk].
    rewrite <- !Z.add_assoc, E by (unfold sizeof_dinode, dinode_addrs, NDIRECT in *; lia). done.
Qed.

(** ** The free map *)

Lemma bit_used_testbit data bi : bit_used data bi = Z.testbit (bitmap_byte data bi) (bi mod 8).
Proof.
  unfold bit_used, bit_mask. pose proof (Z.mod_pos_bound bi 8 ltac:(lia)).
  set (x := bitmap_byte data bi). set (k := bi mod 8) in *.
  destruct (Z.testbit x k) eqn:E.
  - destruct (Z.eqb_spec (Z.land x (Z.shiftl 1 k)) 0) as [H0|]; [|done].
    assert (Z.testbit (Z.land x (Z.shiftl 1 k)) k = false) as Hf by (rewrite H0; apply Z.bits_0).
    rewrite Z.land_spec, E, Z.shiftl_spec, Z.sub_diag in Hf by lia. done.
  - assert (Z.land x (Z.shiftl 1 k) = 0) as ->; [|done]. apply Z.bits_inj'. intros i Hi.
    rewrite Z.land_spec, Z.bits_0, Z.shiftl_spec by lia. destruct (decide (i = k)) as [->|Hne].
    + by rewrite E.
    + destruct (decide (i < k)); [rewrite (Z.testbit_neg_r 1) by lia; apply andb_false_r|].
      rewrite (Z.bits_above_log2 1 (i - k)) by (simpl; lia). apply andb_false_r.
Qed.

(** Setting or clearing a bit of the map changes that bit only. *)
Lemma bit_used_upd data bi bj v (x : Z) :
  0 ≤ bi → 0 ≤ bj → (Z.to_nat (bi / 8) < length data)%nat →
  (∀ k, 0 ≤ k → Z.testbit x k = if k =? bi mod 8 then v else Z.testbit (bitmap_byte data bi) k) →
  bit_used (<[Z.to_nat (bi / 8) := x]> data) bj = if bj =? bi then v else bit_used data bj.
Proof.
  intros Hi Hj Hl Hx. rewrite !bit_used_testbit. unfold bitmap_byte in *.
  pose proof (Z.div_mod bi 8). pose proof (Z.div_mod bj 8).
  pose proof (Z.mod_pos_bound bi 8). pose proof (Z.mod_pos_bound bj 8).
  pose proof (Z.div_pos bi 8 ltac:(lia)). pose proof (Z.div_pos bj 8 ltac:(lia)).
  destruct (decide (bj / 8 = bi / 8)) as [E|Hne].
  - rewrite E, list_lookup_insert_eq by done. cbn [default id]. rewrite Hx by lia.
    destruct (Z.eqb_spec (bj mod 8) (bi mod 8)); destruct (Z.eqb_spec bj bi); try lia; done.
  - rewrite list_lookup_insert_ne by lia. destruct (Z.eqb_spec bj bi) as [->|]; [lia|done].
Qed.

Lemma testbit_mask k bi : 0 ≤ k → Z.testbit (bit_mask bi) k = (k =? bi mod 8).
Proof.
  intros Hk. unfold bit_mask. pose proof (Z.mod_pos_bound bi 8 ltac:(lia)).
  rewrite Z.shiftl_spec by lia. destruct (Z.eqb_spec k (bi mod 8)) as [->|Hne].
  - by rewrite Z.sub_diag.
  - destruct (decide (k < bi mod 8)); [apply Z.testbit_neg_r; lia|].
    apply Z.bits_above_log2; simpl; lia.
Qed.

Lemma bit_used_set data bi bj :
  0 ≤ bi → 0 ≤ bj → (Z.to_nat (bi / 8) < length data)%nat →
  bit_used (set_bit data bi) bj = if bj =? bi then true else bit_used data bj.
Proof.
  intros Hi Hj Hl. apply bit_used_upd; [done|done|done|]. intros k Hk.
  rewrite Z.lor_spec, testbit_mask by done. destruct (_ =? _); [apply orb_true_r|apply orb_false_r].
Qed.

Lemma bit_used_clear data bi bj :
  0 ≤ bi → 0 ≤ bj → (Z.to_nat (bi / 8) < length data)%nat →
  bit_used (clear_bit data bi) bj = if bj =? bi then false else bit_used data bj.
Proof.
  intros Hi Hj Hl. apply bit_used_upd; [done|done|done|]. intros k Hk.
  rewrite Z.land_spec, Z.lnot_spec, testbit_mask by done.
  destruct (_ =? _); [apply andb_false_r|apply andb_true_r].
Qed.

Lemma scan_bits_spec n data bi limit :
  match scan_bits n data bi limit with
  | Some r => bi ≤ r < limit ∧ r < bi + Z.of_nat n ∧ bit_used data r = false ∧
      ∀ j, bi ≤ j < r → bit_used data j = true
  | None => ∀ j, bi ≤ j < limit → j < bi + Z.of_nat n → bit_used data j = true
  end.
Proof.
  revert bi. induction n as [|n IH]; intros bi; cbn [scan_bits]; [intros; lia|].
  destruct (Z.ltb_spec bi limit) as [Hlt|Hge]; [|intros; lia].
  destruct (bit_used data bi) eqn:E.
  - specialize (IH (bi + 1)). destruct (scan_bits n data (bi + 1) limit) as [r|].
    + destruct IH as (? & ? & ? & Hall). split_and!; try lia; [done|]. intros j Hj.
      destruct (decide (j = bi)) as [->|]; [done|]. apply Hall. lia.
    + intros j Hj Hn. destruct (decide (j = bi)) as [->|]; [done|]. apply IH; lia.
  - split_and!; try lia; done.
Qed.

Section fs.
Context {En : Env} {Dk : Disk} {HDk : DiskOk} (pid : Z).
Implicit Types (view : Z → list Z) (held : gset Z) (d : list (Z * list Z)).

Notation op_at := (op_at pid).

(** ** Blocks within a transaction *)

Lemma wp_ext {A} (m m' : K A) s Q : (∀ e, m e s = m' e s) → wp m s Q → wp m' s Q.
Proof.
  intros E H w Hw k. destruct (H w Hw k) as (n & a & s' & Hm & HQ). exists n, a, s'.
  split; [|done]. intros e. by rewrite <- E.
Qed.

(** The first three steps of a sequence together. *)
Lemma wp_seq3 {A} (m1 m2 m3 : K unit) (k : K A) s Q :
  wp (m1 ;; m2 ;; m3) s (λ _ s', wp k s' Q) → wp (m1 ;; m2 ;; m3 ;; k) s Q.
Proof.
  intros H. apply (wp_ext ((m1 ;; m2 ;; m3) ;; k)); [|by apply wp_bind]. intros e.
  unfold mbind, K_bind. destruct (m1 e s) as [[] e1 s1| | | | |]; try done.
  by destruct (m2 e1 s1) as [[] e2 s2| | | | |].
Qed.

(** An open transaction with room for [n] more blocks. *)
Definition room (n : Z) (lg : log) : Prop :=
  0 < lg_outstanding lg ∧ lg_n lg + n ≤ lg_size lg - 1 ∧ lg_n lg + n < LOGSIZE.

(** A block that a transaction may change. *)
Definition home (lg : log) (bn : Z) : Prop := 0 ≤ bn < 2 ^ 31 ∧ ¬ in_log lg bn.

Lemma room_add n bn lg : room (n + 1) lg → room n (log_add bn lg).
Proof. unfold room, log_add. intros (? & ? & ?). case_decide; cbn; lia. Qed.
Lemma home_add bn' bn lg : home lg bn → home (log_add bn' lg) bn.
Proof. unfold home, in_log, log_add. by case_decide. Qed.
Lemma log_add_dev bn lg : lg_dev (log_add bn lg) = lg_dev lg.
Proof. unfold log_add. by case_decide. Qed.
Lemma log_add_start bn lg : lg_start (log_add bn lg) = lg_start lg.
Proof. unfold log_add. by case_decide. Qed.

(** A block is read. *)
Lemma op_open s0 lg view d s bn :
  op_at s0 lg view ∅ d s → block_ok bn →
  wp (bread (lg_dev lg) bn) s (λ n s',
    op_at s0 lg view {[bn]} d s' ∧ buf_at (lg_dev lg) s' n bn ∧
    (bn ∈ logged lg ∨ view bn = disk_read d bn)).
Proof.
  intros [Hlg Hs] Hbn. destruct (op_in_trans lg Hlg) as (_ & _ & Hsz).
  eapply wp_mono.
  { eapply (at_bread _ _ _ _ _ _ _ bn); [exact Hs|set_solver|done|]. right. by rewrite union_empty_r_L. }
  intros n s1 (Hs1 & Hat1 & _). rewrite union_empty_r_L in Hs1. split_and!; [by split|done|].
  destruct (decide (bn ∈ logged lg)) as [?|Hn]; [by left|right].
  eapply at_clean; [exact Hs|by rewrite elem_of_list_to_set|set_solver].
Qed.

Lemma op_get s0 lg view d s n bn :
  op_at s0 lg view {[bn]} d s → buf_at (lg_dev lg) s n bn →
  ∃ b, returns (get_buf n) s b s ∧ b_data b = view bn.
Proof. intros [_ Hs] Hat. eapply at_get_buf; [exact Hs|set_solver|done]. Qed.

(** It is released unchanged. *)
Lemma op_drop s0 lg view d s n bn :
  op_at s0 lg view {[bn]} d s → buf_at (lg_dev lg) s n bn →
  (bn ∈ logged lg ∨ view bn = disk_read d bn) →
  wp (brelse n) s (λ _ s', op_at s0 lg view ∅ d s').
Proof.
  intros [Hlg Hs] Hat Hcl. eapply wp_mono.
  { eapply (at_brelse _ _ _ _ _ _ _ n bn); [exact Hs|set_solver|done|].
    destruct Hcl; [left; by rewrite elem_of_list_to_set|by right]. }
  intros [] s1 [Hs1 _]. rewrite difference_diag_L in Hs1. by split.
Qed.

(** It is changed and released. *)
Lemma op_modify s0 lg view d s n bn (f : list Z → list Z) :
  op_at s0 lg view {[bn]} d s → buf_at (lg_dev lg) s n bn → room 1 lg → home lg bn →
  length (f (view bn)) = Z.to_nat BSIZE →
  wp (upd_buf n (λ b, set_b_data (f (b_data b)) b) ;;
      log_write n ;;
      brelse n) s
    (λ _ s', op_at s0 (log_add bn lg) (<[bn := f (view bn)]> view) ∅ d s').
Proof.
  intros [Hlg Hs] Hat (Ho & Hn & Hroom) [Hbn Hhome] Hlen.
  apply wp_bind. eapply wp_mono.
  { eapply (at_write_buf _ _ _ _ _ _ _ n bn f); [done|set_solver|done|done]. }
  intros [] s2 [Hs2 K2].
  apply wp_bind. eapply wp_mono.
  { eapply (op_log_write _ _ lg _ _ _ n bn); [by split|set_solver|by apply K2|lia..|done|done]. }
  intros [] s3 [[Hok Hs3] K3].
  eapply wp_mono.
  { eapply (at_brelse _ _ _ _ _ _ _ n bn); [exact Hs3|set_solver|rewrite log_add_dev; by apply K3, K2|].
    left. rewrite log_add_set by done. set_solver. }
  intros [] s4 [Hs4 _]. rewrite difference_diag_L in Hs4. by split.
Qed.

Lemma op_update s0 lg view d s bn (f : list Z → list Z) :
  op_at s0 lg view ∅ d s → room 1 lg → home lg bn →
  length (f (view bn)) = Z.to_nat BSIZE →
  wp (bp ← bread (lg_dev lg) bn;
      upd_buf bp (λ b, set_b_data (f (b_data b)) b) ;;
      log_write bp ;;
      brelse bp) s
    (λ _ s', op_at s0 (log_add bn lg) (<[bn := f (view bn)]> view) ∅ d s').
Proof.
  intros Hs Hr Hh Hlen. apply wp_bind. eapply wp_mono; [apply op_open; [exact Hs|by destruct Hh]|].
  intros n s1 (Hs1 & Hat & _). by apply op_modify.
Qed.

Lemma op_bzero s0 lg view d s bn :
  op_at s0 lg view ∅ d s → room 1 lg → home lg bn →
  wp (bzero (lg_dev lg) bn) s
    (λ _ s', op_at s0 (log_add bn lg) (<[bn := replicate (Z.to_nat BSIZE) 0]> view) ∅ d s').
Proof.
  intros Hs Hr Hh. by apply (op_update s0 lg view d s bn (λ _, replicate (Z.to_nat BSIZE) 0)).
Qed.

Lemma op_size s0 lg view held d s bn : op_at s0 lg view held d s → length (view bn) = Z.to_nat BSIZE.
Proof. intros [_ Hs]. by eapply at_size. Qed.

(** ** Allocation of blocks *)

(** Block [b] is in use by the free map. *)
Definition used (sb : superblock) view (b : Z) : bool := bit_used (view (BBLOCK b sb)) (b mod BPB).

(** The map lies in blocks of its own, and what is free may be written. *)
Record map_ok (sb : superblock) (lg : log) view : Prop := {
  mo_size : 0 ≤ sb_size sb < 2 ^ 31;
  mo_start : 0 ≤ sb_bmapstart sb < 2 ^ 31;
  mo_home b : 0 ≤ b < sb_size sb → home lg (BBLOCK b sb);
  mo_free b : 0 ≤ b < sb_size sb → used sb view b = false → home lg b;
  mo_own b b' : 0 ≤ b < sb_size sb → 0 ≤ b' < sb_size sb → used sb view b = false →
    BBLOCK b' sb ≠ b;
}.

Lemma BBLOCK_same b bi sb : b mod BPB = 0 → 0 ≤ bi < BPB → BBLOCK (b + bi) sb = BBLOCK b sb ∧ (b + bi) mod BPB = bi.
Proof. unfold BBLOCK, BPB, BSIZE. intros Hb Hbi. split; [f_equal; f_equal|]; zdiv. Qed.

Lemma op_sb s0 lg view held d s : op_at s0 lg view held d s → k_sb s = k_sb s0.
Proof. intros [_ (_ & _ & _ & _ & Hs)]. by destruct Hs. Qed.

(** The contents after the allocation of block [b]. *)
Definition allocated (sb : superblock) (b : Z) view : Z → list Z :=
  <[b := replicate (Z.to_nat BSIZE) 0]>
    (<[BBLOCK b sb := set_bit (view (BBLOCK b sb)) (b mod BPB)]> view).

Lemma op_balloc_loop fuel b s0 lg view d s :
  op_at s0 lg view ∅ d s → map_ok (k_sb s0) lg view → room 2 lg →
  b mod BPB = 0 → 0 ≤ b → (∀ j, 0 ≤ j < b → j < sb_size (k_sb s0) → used (k_sb s0) view j = true) →
  (∃ j, b ≤ j < sb_size (k_sb s0) ∧ used (k_sb s0) view j = false) →
  sb_size (k_sb s0) ≤ b + Z.of_nat fuel * BPB →
  wp (balloc_loop fuel (lg_dev lg) b) s (λ r s', 0 ≤ r < sb_size (k_sb s0) ∧
    used (k_sb s0) view r = false ∧ (∀ j, 0 ≤ j < r → used (k_sb s0) view j = true) ∧
    op_at s0 (log_add r (log_add (BBLOCK r (k_sb s0)) lg)) (allocated (k_sb s0) r view) ∅ d s').
Proof.
  revert b s. induction fuel as [|fuel IH]; intros b s Hs Hm Hr Hmod Hb Hall (j & Hj & Huj) Hf.
  { lia. }
  cbn [balloc_loop]. wstep. rewrite (op_sb _ _ _ _ _ _ Hs). set (sb := k_sb s0) in *.
  rewrite (proj2 (Z.ltb_lt _ _)) by lia.
  apply wp_bind. eapply wp_mono; [apply op_open; [exact Hs|]|].
  { destruct Hm. destruct (mo_home0 b) as [? _]; [lia|]. done. }
  intros n s1 (Hs1 & Hat & Hcl). destruct (op_get _ _ _ _ _ _ _ Hs1 Hat) as (x & Hx & Hdata).
  apply wp_bind. eapply wp_returns; [exact Hx|]. cbn beta. rewrite Hdata.
  pose proof (scan_bits_spec (Z.to_nat BPB) (view (BBLOCK b sb)) 0 (sb_size sb - b)) as Hscan.
  destruct (scan_bits _ _ _ _) as [bi|].
  - destruct Hscan as (Hbi & Hlt & Hfree & Hbefore).
    assert (0 ≤ bi < BPB) as Hbi' by (unfold BPB, BSIZE in *; lia).
    destruct (BBLOCK_same b bi sb Hmod Hbi') as [Eblk Emod].
    assert (used sb view (b + bi) = false) as Hu by (unfold used; by rewrite Eblk, Emod).
    pose proof (op_size _ _ _ _ _ _ (BBLOCK b sb) Hs1) as Hsize.
    apply wp_seq3. eapply wp_mono.
    { apply (op_modify s0 lg view d s1 n (BBLOCK b sb) (λ l, set_bit l bi)); [done|done| |apply Hm; lia|].
      - unfold room in *. lia.
      - unfold set_bit. by rewrite length_insert. }
    intros [] s2 Hs2. apply wp_bind. eapply wp_mono.
    { rewrite <- (log_add_dev (BBLOCK b sb) lg). apply op_bzero; [exact Hs2|by apply room_add|].
      apply home_add, (mo_free _ _ _ Hm); [lia|done]. }
    intros [] s3 Hs3. apply wp_ret. split_and!; [lia|lia|done| |].
    + intros k Hk. destruct (decide (k < b)); [apply Hall; lia|].
      destruct (BBLOCK_same b (k - b) sb Hmod ltac:(lia)) as [E1 E2].
      replace (b + (k - b)) with k in * by lia. unfold used. rewrite E1, E2. apply Hbefore. lia.
    + unfold allocated. by rewrite Eblk, Emod.
  - apply wp_bind. eapply wp_mono; [by eapply op_drop|]. intros [] s2 Hs2.
    assert (∀ k, b ≤ k < b + BPB → k < sb_size sb → used sb view k = true) as Hblk.
    { intros k Hk Hks. destruct (BBLOCK_same b (k - b) sb Hmod ltac:(lia)) as [E1 E2].
      replace (b + (k - b)) with k in * by lia. unfold used. rewrite E1, E2.
      apply Hscan; unfold BPB, BSIZE in *; lia. }
    apply IH; [done|done|done| |unfold BPB, BSIZE; lia| | |lia].
    + unfold BPB, BSIZE in *. zdiv.
    + intros k Hk. destruct (decide (k < b)); [apply Hall; lia|]. apply Hblk; lia.
    + exists j. split; [|done]. destruct (decide (j < b + BPB)); [|lia].
      rewrite Hblk in Huj by lia. done.
Qed.

(** [balloc] takes the first free block, marks it in use and zeroes it. *)
Lemma op_balloc s0 lg view d s :
  op_at s0 lg view ∅ d s → map_ok (k_sb s0) lg view → room 2 lg →
  (∃ j, 0 ≤ j < sb_size (k_sb s0) ∧ used (k_sb s0) view j = false) →
  wp (balloc (lg_dev lg)) s (λ r s', 0 ≤ r < sb_size (k_sb s0) ∧
    used (k_sb s0) view r = false ∧ (∀ j, 0 ≤ j < r → used (k_sb s0) view j = true) ∧
    op_at s0 (log_add r (log_add (BBLOCK r (k_sb s0)) lg)) (allocated (k_sb s0) r view) ∅ d s').
Proof.
  intros Hs Hm Hr Hex. unfold balloc. wstep. rewrite (op_sb _ _ _ _ _ _ Hs).
  apply op_balloc_loop; try done; [intros; lia|].
  destruct Hm. rewrite Z2Nat.id by (apply Z.add_nonneg_nonneg; [apply Z.div_pos|]; unfold BPB, BSIZE; lia).
  unfold BPB, BSIZE. zdiv.
Qed.

(** The contents after [bfree]. *)
Definition freed (sb : superblock) (b : Z) view : Z → list Z :=
  <[BBLOCK b sb := clear_bit (view (BBLOCK b sb)) (b mod BPB)]> view.

Lemma op_bfree s0 lg view d s b :
  op_at s0 lg view ∅ d s → home lg (BBLOCK b (k_sb s0)) → room 1 lg →
  used (k_sb s0) view b = true →
  wp (bfree (lg_dev lg) b) s (λ _ s',
    op_at s0 (log_add (BBLOCK b (k_sb s0)) lg) (freed (k_sb s0) b view) ∅ d s').
Proof.
  intros Hs Hh Hr Hu. unfold bfree. wstep. rewrite (op_sb _ _ _ _ _ _ Hs).
  apply wp_bind. eapply wp_mono; [apply op_open; [exact Hs|by destruct Hh]|].
  intros n s1 (Hs1 & Hat & Hcl). destruct (op_get _ _ _ _ _ _ _ Hs1 Hat) as (x & Hx & Hdata).
  cbv zeta. apply wp_bind. eapply wp_returns; [exact Hx|]. cbn beta. rewrite Hdata.
  unfold used in Hu. rewrite Hu. cbn [negb].
  apply (op_modify s0 lg view d s1 n _ (λ l, clear_bit l (b mod BPB))); try done.
  unfold clear_bit. rewrite length_insert. by eapply op_size.
Qed.

(** ** Outcomes that are panics *)

Definition panics {A} (m : K A) (s : kstate) (msg : string) : Prop :=
  ∀ w, env_ok w → ∀ k, ∃ n, ∀ e, m (map w (seq k n) ++ e) s = Panic msg.

Lemma panics_panic {A} msg s : panics (A := A) (panic msg) s msg.
Proof. intros w Hw k. by exists 0%nat. Qed.

Lemma panics_bind {A B} (m : K A) (f : A → K B) s msg :
  wp m s (λ a s', panics (f a) s' msg) → panics (m ≫= f) s msg.
Proof.
  intros H w Hw k. destruct (H w Hw k) as (n & a & s' & Hm & Hf).
  destruct (Hf w Hw (k + n)%nat) as [n2 Hn2]. exists (n + n2)%nat. intros e.
  rewrite seq_app, map_app, <- (assoc_L (++)). unfold mbind, K_bind. by rewrite Hm.
Qed.

(** A block is freed once only. *)
Lemma op_bfree_free s0 lg view d s b :
  op_at s0 lg view ∅ d s → home lg (BBLOCK b (k_sb s0)) → used (k_sb s0) view b = false →
  panics (bfree (lg_dev lg) b) s "freeing free block".
Proof.
  intros Hs Hh Hu. unfold bfree. apply panics_bind. eapply wp_returns; [apply returns_gets|].
  rewrite (op_sb _ _ _ _ _ _ Hs).
  apply panics_bind. eapply wp_mono; [apply op_open; [exact Hs|by destruct Hh]|].
  intros n s1 (Hs1 & Hat & Hcl). destruct (op_get _ _ _ _ _ _ _ Hs1 Hat) as (x & Hx & Hdata).
  cbv zeta. apply panics_bind. eapply wp_returns; [exact Hx|]. rewrite Hdata.
  unfold used in Hu. rewrite Hu. apply panics_panic.
Qed.

(** ** Inodes *)

Lemma op_inodes s0 lg view held d s : op_at s0 lg view held d s → k_inodes s = k_inodes s0.
Proof. intros [_ (_ & _ & _ & _ & Hs)]. by destruct Hs. Qed.

(** A change of the inode table starts from a new state. *)
Lemma op_set_inodes s0 lg view held d s l :
  op_at s0 lg view held d s →
  op_at (set_k_inodes l s0) lg view held d (set_k_inodes l s).
Proof.
  intros [Hlg (Hc & HI & Hk & Hd & Hs)]. split; [done|].
  split_and!; [done|by destruct HI|done|done|]. destruct Hs. by constructor.
Qed.

Definition dinode_block (sb : superblock) (ip : inode) : Z := IBLOCK (i_inum ip) sb.

(** The contents after [iupdate]. *)
Definition updated (sb : superblock) (ip : inode) view : Z → list Z :=
  let bn := dinode_block sb ip in
  <[bn := splice (view bn) (dinode_off (i_inum ip)) (dinode_bytes ip)]> view.

Lemma dinode_off_fits inum : 0 ≤ dinode_off inum ∧
  (Z.to_nat (dinode_off inum) + Z.to_nat sizeof_dinode ≤ Z.to_nat BSIZE)%nat.
Proof. unfold dinode_off, IPB, BSIZE, sizeof_dinode. pose proof (Z.mod_pos_bound inum 16). change (1024 / 64) with 16. lia. Qed.

Lemma op_iupdate s0 lg view d s n ip :
  op_at s0 lg view ∅ d s → k_inodes s0 !! n = Some ip → dinode_ok ip → i_dev ip = lg_dev lg →
  room 1 lg → home lg (dinode_block (k_sb s0) ip) →
  wp (iupdate n) s (λ _ s',
    op_at s0 (log_add (dinode_block (k_sb s0) ip) lg) (updated (k_sb s0) ip view) ∅ d s').
Proof.
  intros Hs Hn Hip Hdev Hr Hh. unfold iupdate.
  apply wp_bind. eapply wp_returns; [apply returns_get_inode; by rewrite (op_inodes _ _ _ _ _ _ Hs)|].
  wstep. rewrite (op_sb _ _ _ _ _ _ Hs), Hdev.
  apply wp_bind. eapply wp_mono; [apply op_open; [exact Hs|by destruct Hh]|].
  intros bp s1 (Hs1 & Hat & _).
  apply wp_bind. eapply wp_returns; [apply returns_get_inode; by rewrite (op_inodes _ _ _ _ _ _ Hs1)|].
  apply (op_modify s0 lg view d s1 bp _ (λ l, splice l (dinode_off (i_inum ip)) (dinode_bytes ip))); try done.
  pose proof (op_size _ _ _ _ _ _ (dinode_block (k_sb s0) ip) Hs1) as Hsz.
  unfold dinode_block in *. destruct (dinode_off_fits (i_inum ip)).
  rewrite splice_length; rewrite ?dinode_bytes_length by done; rewrite Hsz; done.
Qed.

(** Taking the sleep-lock of an inode. *)
Lemma op_lock_inode s0 lg view d s n :
  op_at s0 lg view ∅ d s → k_sleeplocks s !! SlInode n = None →
  returns (acquiresleep (SlInode n)) s tt
    (set_k_sleeplocks (<[SlInode n := pid]> (k_sleeplocks s)) s) ∧
  op_at (set_k_sleeplocks (<[SlInode n := pid]> (k_sleeplocks s0)) s0) lg view ∅ d
    (set_k_sleeplocks (<[SlInode n := pid]> (k_sleeplocks s)) s).
Proof.
  intros [Hlg (Hc & HI & Hk & Hd & Hs)] Hn. split; [by apply returns_acquiresleep|].
  split; [done|]. split_and!; [done| |done|done|].
  - destruct HI. constructor; try done. intros m b Hm. specialize (ci_buf m b Hm).
    unfold buf_ok in *. cbn [k_sleeplocks set_k_sleeplocks]. by rewrite lookup_insert_ne.
  - destruct Hs. constructor; try done. intros m. cbn. destruct (decide (m = n)) as [->|].
    + by rewrite !lookup_insert_eq.
    + rewrite !lookup_insert_ne by congruence. done.
Qed.

(** [ilock] on an entry that has not been read. *)
Lemma op_ilock s0 lg view d s n ip :
  op_at s0 lg view ∅ d s → k_inodes s0 !! n = Some ip → i_dev ip = lg_dev lg →
  1 ≤ i_ref ip → i_valid ip = false → k_sleeplocks s0 !! SlInode n = None →
  block_ok (dinode_block (k_sb s0) ip) →
  let ip' := set_i_valid true
    (read_dinode (view (dinode_block (k_sb s0) ip)) (dinode_off (i_inum ip)) ip) in
  i_type ip' ≠ 0 →
  wp (ilock (Some n)) s (λ _ s', op_at
    (set_k_inodes (<[n := ip']> (k_inodes s0))
      (set_k_sleeplocks (<[SlInode n := pid]> (k_sleeplocks s0)) s0)) lg view ∅ d s').
Proof.
  intros Hs Hn Hdev Href Hval Hlk Hb ip' Ht. unfold ilock.
  pose proof (op_inodes _ _ _ _ _ _ Hs) as Hin.
  assert (k_sleeplocks s !! SlInode n = None) as Hlk'.
  { destruct Hs as [_ (_ & _ & _ & _ & Hst)]. destruct Hst. by rewrite ds_ilocks. }
  destruct (op_lock_inode s0 lg view d s n Hs Hlk') as [Hacq Hs1].
  set (s1 := set_k_sleeplocks _ s) in *. set (s0' := set_k_sleeplocks _ s0) in *.
  apply wp_bind. eapply wp_returns; [apply returns_get_inode; by rewrite Hin|].
  rewrite (proj2 (Z.ltb_ge _ _)) by lia.
  apply wp_bind. eapply wp_returns; [exact Hacq|].
  apply wp_bind. eapply wp_returns; [apply returns_get_inode; cbn; by rewrite Hin|].
  cbn beta. rewrite Hval. cbn [negb when]. wstep.
  replace (k_sb s1) with (k_sb s0) by (cbn; by rewrite (op_sb _ _ _ _ _ _ Hs)). rewrite Hdev.
  apply wp_bind. eapply wp_mono; [apply op_open; [exact Hs1|done]|].
  intros bp s2 (Hs2 & Hat & Hcl). destruct (op_get _ _ _ _ _ _ _ Hs2 Hat) as (x & Hx & Hdata).
  apply wp_bind. eapply wp_returns; [exact Hx|]. cbn beta. rewrite Hdata.
  pose proof (op_inodes _ _ _ _ _ _ Hs2) as Hin2.
  assert (k_inodes s2 !! n = Some ip) as Hn2 by (rewrite Hin2; done).
  apply wp_bind. eapply wp_returns; [by apply returns_upd_inode|].
  set (ip1 := read_dinode _ _ ip) in *.
  pose proof (op_set_inodes _ _ _ _ _ _ (<[n := ip1]> (k_inodes s2)) Hs2) as Hs3.
  apply wp_bind. eapply wp_mono; [eapply op_drop; [exact Hs3|done|done]|]. intros [] s4 Hs4.
  pose proof (op_inodes _ _ _ _ _ _ Hs4) as Hin4. cbn in Hin4.
  assert (n < length (k_inodes s2))%nat as Hlt by (by eapply lookup_lt_Some).
  assert (k_inodes s4 !! n = Some ip1) as Hn4 by (rewrite Hin4; by apply list_lookup_insert_eq).
  apply wp_bind. eapply wp_returns; [by apply returns_upd_inode|].
  assert (k_inodes s4 = <[n := ip1]> (k_inodes s2)) as E4 by done.
  apply wp_bind. eapply wp_returns.
  { apply returns_get_inode. cbn. rewrite E4, list_lookup_insert_eq; [done|]. by rewrite length_insert. }
  cbn beta. change (i_type (set_i_valid true ip1)) with (i_type ip').
  rewrite (proj2 (Z.eqb_neq _ _)) by done. apply wp_ret.
  pose proof (op_set_inodes _ _ _ _ _ _ (<[n := ip']> (k_inodes s4)) Hs4) as Hs5.
  rewrite E4, list_insert_insert_eq in *. rewrite Hin2 in *. exact Hs5.
Qed.
End fs.
