(* ===== verification/LogProps.v ===== *)
(** * Atomicity of file-system transactions

    The changes that a process makes between [begin_op] and [end_op] reach the disk
    all or not at all, whatever crash interrupts them. *)

From S2P Require Import Prelude Bytes Memory Riscv Data State Spinlock Table Csr Mlfq MlfqFacts Sleeplock Bio Virtio Log Fs Calm BioFacts VirtioFacts DiskProps LogFacts LogCrash LogOps FsFacts.

Local Open Scope Z_scope.

#[local] Existing Instance virtio_disk.
#[local] Existing Instance disk_env.

Section props.
Context {Dv : Device} (pid : Z).
Implicit Types (view : Z → list Z) (held : gset Z) (d : list (Z * list Z)).

Notation op_at := (op_at pid).

(** ** Transactions *)

(** [m] changes blocks through the log only: run in an open transaction with the
    contents [view], it leaves the transaction open with contents in [P]. *)
Definition logged_update (lg : log) (m : K unit) view (P : (Z → list Z) → Prop) : Prop :=
  ∀ s0 d s, op_at s0 (set_lg_outstanding 1 lg) view ∅ d s →
  wp m s (λ _ s', ∃ lg' view', P view' ∧ op_at s0 lg' view' ∅ d s' ∧
    lg_start lg' = lg_start lg ∧ lg_outstanding lg' = 1 ∧ lg_committing lg' = false).

(** All of the blocks outside of the log that starts at [st] have these contents. *)
Definition contents_are (st : Z) d view : Prop :=
  ∀ bn, ¬ (st ≤ bn < st + LOGSIZE) → disk_read d bn = view bn.

(** C1: a transaction is atomic.  From a consistent state in which no transaction is
    open, a call that runs [begin_op], changes blocks through the log and runs
    [end_op] completes with the new contents on the disk; and whatever prefix of its
    writes has reached the disk when the machine crashes, [fsinit] at the next boot
    completes with either all of the old contents or all of the new ones. *)
Theorem transaction_atomic (sb : superblock) (view : Z → list Z) (m : K unit)
    (P : (Z → list Z) → Prop) (s : kstate) :
  sb_ok sb → calm pid s → cache_inv (lg_dev (k_log s)) pid view ∅ ∅ s →
  log_ok (k_log s) → log_idle (k_log s) → lg_start (k_log s) = sb_logstart sb →
  head_n (disk_read (k_disk s) (sb_logstart sb)) = 0 →
  logged_update (k_log s) m view P →
  wp (begin_op ;; m ;; end_op) s (λ _ s', ∃ new ws, P new ∧ k_disk s' = ws ++ k_disk s ∧
    contents_are (sb_logstart sb) (k_disk s') new ∧
    ∀ ws1 ws2 c, ws = ws1 ++ ws2 → booted pid sb (ws2 ++ k_disk s) c →
      wp (fsinit ROOTDEV) c (λ _ c',
        contents_are (sb_logstart sb) (k_disk c') (disk_read (k_disk s)) ∨
        contents_are (sb_logstart sb) (k_disk c') new)).
Proof.
  intros Hsb Hc HI Hlg Hidle Est Hempty Hm. set (d := k_disk s) in *.
  assert (op_at s (k_log s) view ∅ d s) as Hs.
  { split; [done|]. destruct Hidle as [Hn _].
    replace (logged (k_log s)) with (@nil Z) by (unfold logged; by rewrite Hn). by split_and!. }
  apply wp_bind. eapply wp_mono; [by apply (op_begin pid s (k_log s) view d)|].
  intros [] s1 Hs1. cbn beta in Hs1.
  apply wp_bind. eapply wp_mono; [by eapply Hm|].
  intros [] s2 (lg & new & HP & [Hok Hs2] & Est' & Ho & Hcm).
  pose proof (λ bn, at_size _ _ _ _ _ _ _ _ bn Hs2) as Hsize.
  pose proof (λ bn, at_clean _ _ _ _ _ _ _ _ bn Hs2) as Hclean.
  eapply wp_mono; [eapply (op_end pid s lg new d); [done..|by split]|].
  intros [] s3 (lg' & view' & _ & _ & _ & _ & _ & _ & _ & _ & Hd3 & _).
  exists new, (end_writes (closing lg) new). rewrite Hd3.
  destruct (end_points (closing lg) new d) as [Hread Hpoints]; try done.
  { by destruct Hok. }
  { cbn [closing lg_start set_lg_committing set_lg_outstanding]. by rewrite Est', Est. }
  { intros bn Hbn _. apply Hclean; [by rewrite elem_of_list_to_set|apply not_elem_of_empty]. }
  unfold in_log in *. cbn [closing lg_start set_lg_committing set_lg_outstanding] in *.
  rewrite Est', Est in *. split_and!; [done|done|done|].
  intros ws1 ws2 c Ews Hb. destruct (Hpoints ws1 ws2 Ews) as [Hh Hcase].
  eapply wp_mono; [by apply (boot_fsinit pid sb (ws2 ++ d) c)|].
  intros [] c' (lgc & vc & wsc & _ & Estc & [_ (_ & _ & _ & Hdc & _)] & _ & Hrec & _).
  rewrite Hdc. unfold in_log in Hrec. rewrite Estc in Hrec.
  destruct Hcase as [Hold|Hnew]; [left|right]; intros bn Hbn; rewrite Hrec by done; auto.
Qed.

(** C9: recovery is correct and idempotent.  On a disk with a well-formed log, [fsinit]
    at boot completes with the logged blocks installed and the log empty; and when the
    machine crashes after any prefix of the writes of the recovery, the recovery of the
    next boot ends with the same contents. *)
Theorem recovery_idempotent (sb : superblock) (d : list (Z * list Z)) (s : kstate) :
  sb_ok sb → booted pid sb d s → head_ok (sb_logstart sb) (disk_read d (sb_logstart sb)) →
  wp (fsinit ROOTDEV) s (λ _ s', ∃ ws, k_disk s' = ws ++ d ∧
    contents_are (sb_logstart sb) (k_disk s') (recovered (sb_logstart sb) d) ∧
    head_n (disk_read (k_disk s') (sb_logstart sb)) = 0 ∧ log_idle (k_log s') ∧
    ∀ ws1 ws2 c, ws = ws1 ++ ws2 → booted pid sb (ws2 ++ d) c →
      wp (fsinit ROOTDEV) c (λ _ c',
        contents_are (sb_logstart sb) (k_disk c') (recovered (sb_logstart sb) d))).
Proof.
  intros Hsb Hb Hh. eapply wp_mono; [by apply (boot_fsinit pid sb d s)|].
  intros [] s' (lg & view & ws & Hidle & Est & [_ (_ & _ & Elg & Hd & _)] & Hn & Hread & Hcrash).
  unfold in_log in *. rewrite Est in *. exists ws. rewrite Hd, Elg. split_and!; try done.
  intros ws1 ws2 c Ews Hc. destruct (Hcrash ws1 ws2 Ews) as [Hh2 Hr2].
  eapply wp_mono; [by apply (boot_fsinit pid sb (ws2 ++ d) c)|].
  intros [] c' (lg' & view' & ws' & _ & Est' & [_ (_ & _ & _ & Hd' & _)] & _ & Hread' & _).
  unfold in_log in *. rewrite Est', Hd' in *. intros bn Hbn. by rewrite Hread', Hr2.
Qed.
End props.

(** ** Examples *)

(** A file system of 1000 blocks whose log starts at block 2, and a block of data. *)
Definition example_sb : superblock := mkSuperblock FSMAGIC 1000 954 200 30 2 32 45.
Definition example_sb_block : list Z :=
  concat (map (le 4) [FSMAGIC; 1000; 954; 200; 30; 2; 32; 45]) ++ replicate 992 0.
Definition example_disk : list (Z * list Z) :=
  [(1, example_sb_block); (100, replicate (Z.to_nat BSIZE) 7)].

Lemma example_disk_size bn : length (disk_read example_disk bn) = Z.to_nat BSIZE.
Proof. cbn [disk_read example_disk]. repeat case_match; reflexivity. Qed.

Lemma example_sb_ok : sb_ok example_sb.
Proof. split; [done|]. cbn. unfold LOGSIZE, MAXOPBLOCKS. lia. Qed.

Lemma example_booted : booted 1 example_sb example_disk (disk_example example_disk).
Proof.
  constructor; try done; [apply disk_example_calm|apply example_disk_size].
Qed.

#[local] Existing Instance example_device.

Lemma example_bzero :
  logged_update 1 (boot_log example_sb) (bzero ROOTDEV 100) (disk_read example_disk)
    (λ view, view = <[100 := replicate (Z.to_nat BSIZE) 0]> (disk_read example_disk)).
Proof.
  intros s0 d s Hs. set (lg := set_lg_outstanding 1 (boot_log example_sb)) in *.
  eapply wp_mono.
  - apply (op_bzero 1 s0 lg (disk_read example_disk) d s 100 Hs).
    + split_and!; by vm_compute.
    + split; [lia|]. unfold in_log. intros [_ H]. by vm_compute in H.
  - intros [] s' Hs'. exists (log_add 100 lg). eexists. split; [reflexivity|]. split; [exact Hs'|].
    by vm_compute.
Qed.

Lemma transaction_atomic_witness :
  wp (begin_op ;; bzero ROOTDEV 100 ;; end_op)
    (set_k_log (boot_log example_sb) (disk_example example_disk))
    (λ _ s', disk_read (k_disk s') 100 = replicate (Z.to_nat BSIZE) 0).
Proof.
  destruct (disk_example_shows example_disk example_disk_size) as [Hc HI].
  eapply wp_mono.
  - apply (transaction_atomic 1 example_sb (disk_read example_disk) (bzero ROOTDEV 100)
      (λ view, view = <[100 := replicate (Z.to_nat BSIZE) 0]> (disk_read example_disk))).
    + apply example_sb_ok.
    + by apply calm_set_log.
    + by apply cache_inv_set_log.
    + apply (boot_log_ok example_sb example_sb_ok).
    + done.
    + done.
    + by vm_compute.
    + apply example_bzero.
  - intros [] s' (new & ws & -> & _ & Hd & _). rewrite Hd; [by rewrite fn_lookup_insert|].
    cbn. unfold LOGSIZE, MAXOPBLOCKS. lia.
Defined.

(** The log of the example, with block 100 committed and not yet installed. *)
Definition example_crash : list (Z * list Z) :=
  (2, le 4 1 ++ le 4 100 ++ replicate 1016 0) :: (3, replicate (Z.to_nat BSIZE) 9) :: example_disk.

Lemma recovery_idempotent_witness :
  wp (fsinit ROOTDEV) (disk_example example_crash)
    (λ _ s', disk_read (k_disk s') 100 = replicate (Z.to_nat BSIZE) 9).
Proof.
  eapply wp_mono.
  - apply (recovery_idempotent 1 example_sb example_crash).
    + apply example_sb_ok.
    + constructor; try done; [apply disk_example_calm|].
      intros bn. cbn [disk_read example_crash]. repeat case_match; [reflexivity..|].
      apply example_disk_size.
    + split.
      * by vm_compute.
      * vm_compute. apply NoDup_singleton.
      * assert (head_blocks (disk_read example_crash (sb_logstart example_sb)) = [100]) as ->
          by (by vm_compute).
        intros bn ->%list_elem_of_singleton. cbn. unfold LOGSIZE, MAXOPBLOCKS. lia.
  - intros [] s' (ws & _ & Hd & _). rewrite Hd; [by vm_compute|].
    cbn. unfold LOGSIZE, MAXOPBLOCKS. lia.
Defined.
