(* ===== verification/FsProps.v ===== *)
(** * The file system: theorems

    The free map, inodes on the disk, and path names. *)

From S2P Require Import Prelude Bytes Memory Riscv Data State Spinlock Table Csr Mlfq MlfqFacts Sleeplock Bio Virtio Log Fs Calm BioFacts VirtioFacts DiskProps LogFacts LogCrash LogOps FsFacts LogProps.

Local Open Scope Z_scope.

#[local] Existing Instance virtio_disk.
#[local] Existing Instance disk_env.

(** ** Path names *)

(** The non-empty parts of a string between slashes. *)
Fixpoint elements (l cur : list Z) : list (list Z) :=
  match l with
  | [] => if decide (cur = []) then [] else [cur]
  | c :: l' =>
      if c =? chr "/" then if decide (cur = []) then elements l' [] else cur :: elements l' []
      else elements l' (cur ++ [c])
  end.

(** The names that repeated calls of [skipelem] store, as C strings of at most
    [DIRSIZ] characters. *)
Fixpoint path_names (fuel : nat) (path name : list Z) : option (list (list Z)) :=
  match skipelem path name with
  | None => Some []
  | Some (path', name') =>
      match fuel with
      | O => None
      | S fuel' => (λ l, cstr (take DIRSIZ name') :: l) <$> path_names fuel' path' name'
      end
  end.

Lemma skip_slashes_length path : (length (skip_slashes path) ≤ length path)%nat.
Proof. induction path as [|c path IH]; simpl; [lia|]. destruct (_ =? _); simpl; lia. Qed.

Lemma skip_slashes_elements path : elements (cstr (skip_slashes path)) [] = elements (cstr path) [].
Proof.
  induction path as [|c path IH]; [done|]. cbn [skip_slashes].
  destruct (Z.eqb_spec c (chr "/")) as [->|]; [|done]. rewrite IH. by vm_compute.
Qed.

Lemma split_elem_spec path :
  let r := split_elem path in
  path = r.1 ++ r.2 ∧ (∀ c, c ∈ r.1 → c ≠ chr "/" ∧ c ≠ 0) ∧
  (∀ c l, r.2 = c :: l → c = chr "/" ∨ c = 0).
Proof.
  induction path as [|c path IH]; cbn [split_elem].
  - split_and!; [done|intros c Hc; by apply elem_of_nil in Hc|done].
  - destruct (_ || _) eqn:E.
    + split_and!; [done|intros x Hx; by apply elem_of_nil in Hx|]. cbn. intros x l [= -> ->].
      apply orb_true_iff in E as [E|E]; apply Z.eqb_eq in E; auto.
    + apply orb_false_iff in E as [E1 E2]. apply Z.eqb_neq in E1, E2.
      destruct IH as (Ep & Hin & Hr). cbn. split_and!; [by f_equal| |done].
      intros x [->|Hx]%elem_of_cons; auto.
Qed.

Lemma elements_prefix s l cur :
  (∀ c, c ∈ s → c ≠ chr "/") → elements (s ++ l) cur = elements l (cur ++ s).
Proof.
  revert cur. induction s as [|c s IH]; intros cur Hs; cbn [app elements]; [by rewrite app_nil_r|].
  rewrite (proj2 (Z.eqb_neq c _)) by (apply Hs; left).
  rewrite IH by (intros; apply Hs; by right). by rewrite <- (assoc_L (++)).
Qed.

Lemma skip_slashes_head path c l : skip_slashes path = c :: l → c ≠ chr "/".
Proof.
  induction path as [|x path IH]; cbn [skip_slashes]; [done|].
  destruct (Z.eqb_spec x (chr "/")); [auto|]. intros [= -> ->]. done.
Qed.

(** The first element of a path, and what follows it. *)
Lemma elements_split path s r :
  split_elem path = (s, r) → s ≠ [] →
  elements (cstr path) [] = s :: elements (cstr (skip_slashes r)) [].
Proof.
  intros E Hs. pose proof (split_elem_spec path) as (Ep & Hin & Hr). rewrite E in *. cbn [fst snd] in *.
  rewrite skip_slashes_elements, Ep.
  assert (cstr (s ++ r) = s ++ cstr r) as ->.
  { clear -Hin. induction s as [|c s IH]; [done|]. cbn [app cstr].
    rewrite (proj2 (Z.eqb_neq c 0)) by (apply Hin; left). rewrite IH; [done|]. intros x Hx. apply Hin. by right. }
  rewrite elements_prefix by (intros c Hc; by apply Hin). cbn [app].
  destruct r as [|c r]; cbn [cstr elements]; [by rewrite decide_False|].
  destruct (Hr c r eq_refl) as [->| ->].
  - change (chr "/" =? 0) with false. cbn [elements]. rewrite Z.eqb_refl.
    rewrite decide_False by done. by rewrite decide_True.
  - cbn. by rewrite decide_False.
Qed.

(** The name array holds the element, cut at [DIRSIZ] characters. *)
Lemma name_of_elem s name :
  (∀ c, c ∈ s → c ≠ 0) →
  cstr (take DIRSIZ (if (DIRSIZ <=? length s)%nat then take DIRSIZ s ++ drop DIRSIZ name
                     else s ++ 0 :: drop (S (length s)) name)) = take DIRSIZ s.
Proof.
  intros Hs. destruct (Nat.leb_spec DIRSIZ (length s)) as [Hle|Hgt].
  - rewrite take_app_le by (rewrite length_take; lia). rewrite take_take, Nat.min_id.
    apply cstr_no_nul. intros Hin. apply elem_of_take in Hin as (i & Hi & _).
    apply (Hs 0); [|done]. by eapply list_elem_of_lookup_2.
  - rewrite take_app_ge by lia. destruct (DIRSIZ - length s)%nat as [|k] eqn:E; [lia|]. cbn [take].
    rewrite cstr_app, take_ge by (lia || (intros Hin; by apply (Hs 0))). done.
Qed.

(** C33: [skipelem] cuts a path into its elements.  Called repeatedly, as [namex] does, it
    stores the parts of the path between slashes one after the other, each cut at [DIRSIZ]
    characters, and it does so within as many calls as the path has characters. *)
Theorem skipelem_splits_path (path name : list Z) :
  path_names (length path) path name = Some (map (take DIRSIZ) (elements (cstr path) [])).
Proof.
  enough (∀ fuel path name, (length path ≤ fuel)%nat →
    path_names fuel path name = Some (map (take DIRSIZ) (elements (cstr path) []))) as H by auto.
  clear path name. intros fuel. induction fuel as [|fuel IH]; intros path name Hl.
  { by destruct path; [|simpl in Hl; lia]. }
  cbn [path_names]. unfold skipelem. pose proof (skip_slashes_length path) as Hsl.
  rewrite <- (skip_slashes_elements path).
  destruct (skip_slashes path) as [|c l] eqn:E; [done|]. apply skip_slashes_head in E as Hc.
  destruct (Z.eqb_spec c 0) as [->|Hc0]; [done|].
  destruct (split_elem (c :: l)) as [s r] eqn:Es.
  pose proof (split_elem_spec (c :: l)) as (Ep & Hin & _). rewrite Es in *. cbn [fst snd] in *.
  assert (s ≠ []) as Hs.
  { cbn [split_elem] in Es. rewrite (proj2 (Z.eqb_neq c _)), (proj2 (Z.eqb_neq c 0)) in Es by done.
    cbn [orb] in Es. naive_solver. }
  rewrite (elements_split _ s r Es Hs). cbn [map].
  rewrite name_of_elem by (intros x Hx; by apply Hin).
  rewrite IH; [done|]. apply (f_equal length) in Ep. rewrite length_app in Ep.
  pose proof (skip_slashes_length r). destruct s; [done|]. cbn [length] in *. lia.
Qed.

(** ** The free map *)

Section props.
Context {Dv : Device} (pid : Z).
Implicit Types (view : Z → list Z) (d : list (Z * list Z)).

Lemma bit_index_fits b : (Z.to_nat (b mod BPB / 8) < Z.to_nat BSIZE)%nat.
Proof. unfold BPB, BSIZE. pose proof (Z.mod_pos_bound b (1024 * 8)). zdiv. Qed.

(** Blocks of the file system have bits of their own. *)
Lemma bit_of_block sb b b' :
  0 ≤ b < sb_size sb → 0 ≤ b' < sb_size sb → 0 ≤ sb_bmapstart sb < 2 ^ 31 → sb_size sb < 2 ^ 31 →
  BBLOCK b sb = BBLOCK b' sb → b mod BPB = b' mod BPB → b = b'.
Proof.
  unfold BBLOCK, BPB, BSIZE, u32. intros Hb Hb' Hm Hs E Hmod.
  assert (∀ x, 0 ≤ x < 2 ^ 31 → 0 ≤ x / (1024 * 8) < 2 ^ 31) as Hdiv.
  { intros x Hx. split; [apply Z.div_pos; lia|]. apply Z.div_lt_upper_bound; lia. }
  pose proof (Hdiv b ltac:(lia)). pose proof (Hdiv b' ltac:(lia)).
  rewrite !Z.mod_small in E by lia.
  pose proof (Z.div_mod b (1024 * 8)). pose proof (Z.div_mod b' (1024 * 8)). lia.
Qed.

(** A change of one bit of the map. *)
Lemma used_upd sb view b (f : list Z → Z → list Z) v j :
  (∀ bn, length (view bn) = Z.to_nat BSIZE) →
  0 ≤ b < sb_size sb → 0 ≤ j < sb_size sb → 0 ≤ sb_bmapstart sb < 2 ^ 31 → sb_size sb < 2 ^ 31 →
  (∀ l bi bj, 0 ≤ bi → 0 ≤ bj → (Z.to_nat (bi / 8) < length l)%nat →
     bit_used (f l bi) bj = if bj =? bi then v else bit_used l bj) →
  used sb (<[BBLOCK b sb := f (view (BBLOCK b sb)) (b mod BPB)]> view) j =
    if j =? b then v else used sb view j.
Proof.
  intros Hl Hb Hj Hm Hs Hf. unfold used.
  pose proof (Z.mod_pos_bound b BPB ltac:(done)). pose proof (Z.mod_pos_bound j BPB ltac:(done)).
  destruct (decide (BBLOCK j sb = BBLOCK b sb)) as [E|Hne].
  - rewrite E, fn_lookup_insert, Hf by (try rewrite Hl; try apply bit_index_fits; lia).
    destruct (Z.eqb_spec j b) as [->|Hjb]; [by rewrite Z.eqb_refl|].
    rewrite (proj2 (Z.eqb_neq _ _)); [done|]. intros Hmod. apply Hjb. by apply (bit_of_block sb).
  - rewrite fn_lookup_insert_ne by done. destruct (Z.eqb_spec j b) as [->|]; done.
Qed.

(** C30: [balloc] takes the first free block.  In an open transaction with a free block, it
    returns a block that the map had as free, before which all blocks are in use; marks that
    block and no other as in use; fills it with zeroes; and changes no other block. *)
Theorem balloc_takes_first_free lg view d s :
  op_at pid s lg view ∅ d s → map_ok (k_sb s) lg view → room 2 lg →
  (∃ j, 0 ≤ j < sb_size (k_sb s) ∧ used (k_sb s) view j = false) →
  wp (balloc (lg_dev lg)) s (λ b s', ∃ lg' view', op_at pid s lg' view' ∅ d s' ∧
    0 ≤ b < sb_size (k_sb s) ∧ used (k_sb s) view b = false ∧
    (∀ j, 0 ≤ j < b → used (k_sb s) view j = true) ∧
    (∀ j, 0 ≤ j < sb_size (k_sb s) →
       used (k_sb s) view' j = if j =? b then true else used (k_sb s) view j) ∧
    view' b = replicate (Z.to_nat BSIZE) 0 ∧
    ∀ bn, bn ≠ b → bn ≠ BBLOCK b (k_sb s) → view' bn = view bn).
Proof.
  intros Hs Hm Hr Hex. eapply wp_mono; [by apply (op_balloc pid s lg view d s)|].
  intros b s' (Hb & Hu & Hall & Hs'). do 2 eexists. split; [exact Hs'|].
  split_and!; [by apply Hb|by apply Hb|done|done| |by apply fn_lookup_insert|].
  - intros j Hj. pose proof (λ bn, op_size _ _ _ _ _ _ _ bn Hs) as Hl. destruct Hm.
    rewrite <- (used_upd (k_sb s) view b set_bit true j) by (done || lia || apply bit_used_set).
    unfold allocated, used. by rewrite fn_lookup_insert_ne by (intros E; by apply (mo_own b j)).
  - intros bn H1 H2. unfold allocated. by rewrite !fn_lookup_insert_ne.
Qed.

(** C31: [bfree] returns a block, once.  It marks a block in use as free, and nothing else
    changes; on a block that is free already, it panics. *)
Theorem bfree_returns_block lg view d s b :
  op_at pid s lg view ∅ d s → map_ok (k_sb s) lg view → room 1 lg → 0 ≤ b < sb_size (k_sb s) →
  (used (k_sb s) view b = true →
   wp (bfree (lg_dev lg) b) s (λ _ s', ∃ lg' view', op_at pid s lg' view' ∅ d s' ∧
     (∀ j, 0 ≤ j < sb_size (k_sb s) →
        used (k_sb s) view' j = if j =? b then false else used (k_sb s) view j) ∧
     ∀ bn, bn ≠ BBLOCK b (k_sb s) → view' bn = view bn)) ∧
  (used (k_sb s) view b = false → panics (bfree (lg_dev lg) b) s "freeing free block").
Proof.
  intros Hs Hm Hr Hb. split; intros Hu; [|eapply (op_bfree_free pid); [exact Hs|by apply Hm|done]].
  eapply wp_mono; [eapply (op_bfree pid s lg view d s b); [done|by apply Hm|done|done]|].
  intros [] s' Hs'. do 2 eexists. split; [exact Hs'|]. split.
  - intros j Hj. pose proof (λ bn, op_size _ _ _ _ _ _ _ bn Hs) as Hl. destruct Hm.
    apply (used_upd (k_sb s) view b clear_bit false j); (done || lia || apply bit_used_clear).
  - intros bn Hbn. unfold freed. by rewrite fn_lookup_insert_ne.
Qed.

(** ** Inodes *)

(** C32: an inode survives on the disk.  Once [iupdate] has written it, the entry of the
    table may be lost, that is, hold anything but the identity of the inode: [ilock]
    reads back the type, the numbers, the links, the size and the block addresses. *)
Theorem inode_roundtrip lg view d s n ip junk :
  op_at pid s lg view ∅ d s → k_inodes s !! n = Some ip → dinode_ok ip →
  i_dev ip = lg_dev lg → i_type ip ≠ 0 → room 1 lg → home lg (dinode_block (k_sb s) ip) →
  k_sleeplocks s !! SlInode n = None →
  i_dev junk = i_dev ip → i_inum junk = i_inum ip → 1 ≤ i_ref junk → i_valid junk = false →
  wp (iupdate n ;; upd_inode n (λ _, junk) ;; ilock (Some n)) s (λ _ s', ∃ ip',
    k_inodes s' !! n = Some ip' ∧ same_dinode ip' ip ∧ i_valid ip' = true ∧
    i_dev ip' = i_dev ip ∧ i_inum ip' = i_inum ip ∧ i_ref ip' = i_ref junk).
Proof.
  intros Hs Hn Hok Hdev Ht Hr Hh Hlk Hjd Hji Hjr Hjv.
  apply wp_bind. eapply wp_mono; [by apply (op_iupdate pid s lg view d s n ip)|].
  intros [] s1 Hs1. pose proof (op_inodes _ _ _ _ _ _ _ Hs1) as Hin1.
  apply wp_bind. eapply wp_returns; [apply (returns_upd_inode _ _ ip); by rewrite Hin1|]. cbn beta.
  pose proof (op_set_inodes _ _ _ _ _ _ _ (<[n := junk]> (k_inodes s1)) Hs1) as Hs2.
  rewrite Hin1 in *. set (s0 := set_k_inodes _ s) in *. set (view' := updated _ _ _) in *.
  assert (n < length (k_inodes s))%nat as Hlt by (by eapply lookup_lt_Some).
  pose proof (op_size _ _ _ _ _ _ _ (dinode_block (k_sb s) ip) Hs) as Hl.
  set (ip1 := read_dinode (view' (dinode_block (k_sb s0) junk)) (dinode_off (i_inum junk)) junk).
  assert (same_dinode ip1 ip) as Hsame.
  { unfold ip1, view', updated, dinode_block in *. cbn [k_sb set_k_inodes s0]. rewrite Hji, fn_lookup_insert.
    destruct (dinode_off_fits (i_inum ip)). apply read_dinode_splice; [done|done|by rewrite Hl]. }
  eapply wp_mono.
  - eapply (op_ilock pid s0 _ view' d _ n junk); [exact Hs2|..].
    + by apply list_lookup_insert_eq.
    + by rewrite log_add_dev, Hjd.
    + done.
    + done.
    + done.
    + unfold dinode_block. rewrite Hji. by destruct Hh.
    + change (i_type ip1 ≠ 0). by destruct Hsame as [-> _].
  - intros [] s3 Hs3. pose proof (op_inodes _ _ _ _ _ _ _ Hs3) as Hin3.
    eexists. split.
    + rewrite Hin3. cbn. apply list_lookup_insert_eq. by rewrite length_insert.
    + split_and!; done.
Qed.
End props.

(** ** Examples *)

#[local] Existing Instance example_device.

(** A disk on which the blocks up to the map are in use, an open transaction on it, and the
    table with an inode that was changed. *)
Definition fs_map : list Z := replicate 5 255 ++ [63] ++ replicate 1018 0.
Definition fs_disk : list (Z * list Z) := [(45, fs_map)].
Definition fs_log : log := set_lg_outstanding 1 (boot_log example_sb).
Definition fs_inode : inode := mkInode ROOTDEV 5 1 true T_FILE 0 0 1 2000 ([100; 101] ++ replicate 11 0).
Definition fs_lost : inode := mkInode ROOTDEV 5 1 false 0 0 0 0 0 (replicate 13 0).
Definition fs_example : kstate :=
  set_k_inodes (<[0%nat := fs_inode]> (k_inodes initial_kstate))
    (set_k_sb example_sb (set_k_log fs_log (disk_example fs_disk))).

Lemma op_at_start pid lg sb l view s :
  log_ok lg → logged lg = [] → shows (lg_dev lg) pid view s →
  let s' := set_k_inodes l (set_k_sb sb (set_k_log lg s)) in op_at pid s' lg view ∅ (k_disk s) s'.
Proof.
  intros Hok Hl [Hc HI] s'. split; [done|]. rewrite Hl.
  split_and!; [done|by destruct HI|done|done|reflexivity].
Qed.

Lemma fs_example_op : op_at 1 fs_example fs_log (disk_read fs_disk) ∅ fs_disk fs_example.
Proof.
  apply op_at_start; [|done|].
  - by destruct (boot_log_ok example_sb example_sb_ok) as [[] _].
  - apply disk_example_shows. intros bn. cbn [disk_read fs_disk]. repeat case_match; reflexivity.
Qed.

Lemma fs_map_use b : 0 ≤ b < 1000 → used example_sb (disk_read fs_disk) b = (b <? 46).
Proof.
  intros Hb.
  assert (forallb (λ j, eqb (used example_sb (disk_read fs_disk) j) (j <? 46)) (seqZ 0 1000) = true) as H
    by (by vm_compute).
  rewrite forallb_forall in H. apply eqb_prop, H, list_elem_of_In, elem_of_seqZ. lia.
Qed.

Lemma fs_map_block b : 0 ≤ b < 1000 → BBLOCK b example_sb = 45.
Proof. intros Hb. unfold BBLOCK, BPB, BSIZE. rewrite Z.div_small by lia. reflexivity. Qed.

Lemma fs_map_ok : map_ok example_sb fs_log (disk_read fs_disk).
Proof.
  assert (∀ b, 45 ≤ b < 1000 → home fs_log b) as Hh.
  { intros b Hb. split; [lia|]. unfold in_log. change (lg_start fs_log) with 2. unfold LOGSIZE, MAXOPBLOCKS. lia. }
  split; cbn [sb_size sb_bmapstart example_sb]; [lia|lia|..].
  - intros b Hb. rewrite fs_map_block by done. by apply Hh.
  - intros b Hb. rewrite fs_map_use by done. intros. apply Hh. lia.
  - intros b b' Hb Hb' Hu. rewrite fs_map_use in Hu by done. rewrite fs_map_block by done. lia.
Qed.

Lemma fs_room n : n ≤ 10 → room n fs_log.
Proof. intros Hn. unfold room. change (lg_n fs_log) with 0. change (lg_size fs_log) with 30. cbn [lg_outstanding fs_log set_lg_outstanding]. unfold LOGSIZE, MAXOPBLOCKS. lia. Qed.

Lemma balloc_takes_first_free_witness :
  wp (balloc ROOTDEV) fs_example (λ b _, b = 46).
Proof.
  eapply wp_mono.
  - apply (balloc_takes_first_free 1 fs_log (disk_read fs_disk) fs_disk fs_example).
    + apply fs_example_op.
    + apply fs_map_ok.
    + by apply fs_room.
    + exists 46. split; [done|]. by apply fs_map_use.
  - intros b s' (lg' & view' & _ & Hb & Hu & Hall & _). change (k_sb fs_example) with example_sb in *.
    cbn [sb_size example_sb] in Hb. rewrite fs_map_use in Hu by done.
    destruct (decide (46 < b)); [|lia]. pose proof (Hall 46 ltac:(lia)) as H.
    by rewrite fs_map_use in H by lia.
Defined.

Lemma bfree_returns_block_witness :
  wp (bfree ROOTDEV 45) fs_example (λ _ _, True) ∧
  panics (bfree ROOTDEV 46) fs_example "freeing free block".
Proof.
  pose proof (λ b, bfree_returns_block 1 fs_log (disk_read fs_disk) fs_disk fs_example b
    fs_example_op fs_map_ok (fs_room 1 ltac:(done))) as Hf.
  split.
  - eapply wp_mono; [apply (Hf 45); [done|by apply fs_map_use]|done].
  - apply (Hf 46); [done|by apply fs_map_use].
Defined.

Lemma inode_roundtrip_witness :
  wp (iupdate 0 ;; upd_inode 0 (λ _, fs_lost) ;; ilock (Some 0%nat)) fs_example (λ _ s',
    ∃ ip, k_inodes s' !! 0%nat = Some ip ∧ i_size ip = 2000 ∧ take 2 (i_addrs ip) = [100; 101]).
Proof.
  eapply wp_mono.
  - apply (inode_roundtrip 1 fs_log (disk_read fs_disk) fs_disk fs_example 0 fs_inode fs_lost).
    + apply fs_example_op.
    + reflexivity.
    + constructor; [by repeat split|done|done|]. apply Forall_forall. unfold is_u32.
      intros b Hb. cbn in Hb. set_unfold in Hb. naive_solver lia.
    + done.
    + done.
    + by apply fs_room.
    + split; [done|]. intros [_ H]. by vm_compute in H.
    + done.
    + done.
    + done.
    + done.
    + done.
  - intros [] s' (ip & Hip & (_ & _ & _ & _ & Hsz & Ha) & _). exists ip. by rewrite Hsz, Ha.
Defined.
