(* ===== verification/Hoare.v ===== *)
(** * Invariants of the kernel's state

    A function of the kernel keeps an invariant if it does so on every path that
    returns, and holds it at every context switch, provided that what runs in
    between keeps it too. *)

From S2P Require Import Prelude Data State Spinlock.

Section triples.
Context (I : kstate → Prop).

(** From a state with [P], [m] returns in one with [Q] if it returns, and is in one
    with the invariant where it is switched out; the steps of the rest of the system
    are of a kind [E] that keeps the invariant. *)
Definition triple {A} (P : kstate → Prop) (m : K A) (Q : A → kstate → Prop) : Prop :=
  ∀ E : (kstate → kstate) → Prop, (∀ w s, E w → I s → I (w s)) →
  ∀ e s, Forall E e → P s →
  match m e s with
  | Ok a e' s' => Forall E e' ∧ Q a s'
  | Away s' => I s'
  | _ => True
  end.

(** [m] keeps the invariant, and its result satisfies [φ]. *)
Definition gives {A} (m : K A) (φ : A → Prop) : Prop := triple I m (λ a s, I s ∧ φ a).

Lemma triple_ret {A} (a : A) P Q : (∀ s, P s → Q a s) → triple P (mret a) Q.
Proof. intros H E HE e s He Hs. split; [done|]. by apply H. Qed.

Lemma triple_bind {A B} (m : K A) (f : A → K B) P Q R :
  triple P m Q → (∀ a, triple (Q a) (f a) R) → triple P (m ≫= f) R.
Proof.
  intros Hm Hf E HE e s He Hs. specialize (Hm E HE e s He Hs). unfold mbind, K_bind.
  destruct (m e s) as [a e' s'| | | | |]; try done.
  destruct Hm as (He' & Hs'). by apply Hf.
Qed.

(** The first two steps of three together. *)
Lemma triple_bind2 {A B C} (m : K A) (f : A → K B) (g : B → K C) P Q R :
  triple P (m ≫= f) Q → (∀ b, triple (Q b) (g b) R) → triple P (m ≫= λ a, f a ≫= g) R.
Proof.
  intros Hm Hg E HE e s He Hs. pose proof (triple_bind _ _ _ _ _ Hm Hg E HE e s He Hs) as H.
  unfold mbind, K_bind in *. by destruct (m e s).
Qed.

Lemma triple_conseq {A} (m : K A) P P' Q Q' :
  triple P' m Q' → (∀ s, P s → P' s) → (∀ a s, Q' a s → Q a s) → triple P m Q.
Proof.
  intros Hm HP HQ E HE e s He Hs. specialize (Hm E HE e s He (HP s Hs)). destruct (m e s); naive_solver.
Qed.

Lemma triple_pure {A} (m : K A) (X : Prop) P Q : (X → triple P m Q) → triple (λ s, P s ∧ X) m Q.
Proof. intros Hm E HE e s He [Hs HX]. by apply Hm. Qed.

Lemma triple_gets {A} (f : kstate → A) P Q : (∀ s, P s → Q (f s) s) → triple P (gets f) Q.
Proof. intros H E HE e s He Hs. split; [done|]. by apply H. Qed.

Lemma triple_modify f P Q : (∀ s, P s → Q tt (f s)) → triple P (modify f) Q.
Proof. intros H E HE e s He Hs. split; [done|]. by apply H. Qed.

Lemma triple_index {A} (l : list A) i P : triple P (index l i) (λ _, P).
Proof.
  unfold index. destruct (i <? 0)%Z; [done|]. destruct (l !! _); [by apply triple_ret|done].
Qed.

Lemma triple_read {A} (f : kstate → A) P : triple P (gets f) (λ a s, P s ∧ a = f s).
Proof. by apply triple_gets. Qed.

(** ** Programs that keep the invariant *)

Lemma triple_gives {A} (m : K A) φ (X : Prop) :
  (X → gives m φ) → triple (λ s, I s ∧ X) m (λ a s, I s ∧ φ a).
Proof. apply triple_pure. Qed.
Lemma triple_forget {A} (m : K A) φ (Φ : kstate → Prop) :
  gives m φ → triple (λ s, I s ∧ Φ s) m (λ a s, I s ∧ φ a).
Proof. intros H. eapply triple_conseq; [exact H|tauto|done]. Qed.

Lemma gives_ret {A} (a : A) (φ : A → Prop) : φ a → gives (mret a) φ.
Proof. intros H. by apply triple_ret. Qed.

Lemma gives_mono {A} (m : K A) (φ ψ : A → Prop) : gives m φ → (∀ a, φ a → ψ a) → gives m ψ.
Proof. intros Hm Hφ. eapply triple_conseq; [exact Hm|done|]. naive_solver. Qed.

Lemma gives_true {A} (m : K A) φ : gives m φ → gives m (λ _, True).
Proof. intros Hm. by eapply gives_mono. Qed.

Lemma gives_bind {A B} (m : K A) (f : A → K B) φ ψ :
  gives m φ → (∀ a, φ a → gives (f a) ψ) → gives (m ≫= f) ψ.
Proof. intros Hm Hf. eapply triple_bind; [exact Hm|]. intros a. apply triple_pure, Hf. Qed.

Lemma gives_gets {A} (f : kstate → A) (φ : A → Prop) :
  (∀ s, I s → φ (f s)) → gives (gets f) φ.
Proof. intros Hf. apply triple_gets. auto. Qed.
Lemma keeps_gets {A} (f : kstate → A) : gives (gets f) (λ _, True).
Proof. by apply gives_gets. Qed.
Lemma gives_modify f : (∀ s, I s → I (f s)) → gives (modify f) (λ _, True).
Proof. intros Hf. apply triple_modify. auto. Qed.
Lemma gives_panic {A} msg (φ : A → Prop) : gives (panic msg) φ.
Proof. done. Qed.
Lemma gives_fault {A} (φ : A → Prop) : gives fault φ.
Proof. done. Qed.
Lemma gives_no_fuel {A} (φ : A → Prop) : gives no_fuel φ.
Proof. done. Qed.
Lemma gives_deref {A} (o : option A) : gives (deref o) (λ x, o = Some x).
Proof. destruct o; [by apply gives_ret|done]. Qed.
Lemma gives_index {A} (l : list A) i :
  gives (index l i) (λ x, (0 ≤ i)%Z ∧ l !! Z.to_nat i = Some x).
Proof.
  unfold index. destruct (i <? 0)%Z eqn:E; [done|]. apply Z.ltb_ge in E.
  destruct (l !! _) eqn:E'; [by apply gives_ret|done].
Qed.
Lemma gives_when b m : (b = true → gives m (λ _, True)) → gives (when b m) (λ _, True).
Proof. destruct b; intros H; [by apply H|by apply gives_ret]. Qed.
Lemma gives_for_each {A} (l : list A) (f : A → K unit) :
  (∀ x, x ∈ l → gives (f x) (λ _, True)) → gives (for_each l f) (λ _, True).
Proof.
  induction l as [|x l IH]; intros Hf; [by apply gives_ret|].
  eapply gives_bind; [apply Hf; by left|]. intros [] _. apply IH. intros y Hy. apply Hf. by right.
Qed.
Lemma gives_sleep_loop {A} (f : nat → K A) φ : (∀ n, gives (f n) φ) → gives (sleep_loop f) φ.
Proof. intros Hf E HE e s. by apply Hf. Qed.
Lemma triple_sleep_loop {A} (f : nat → K A) P Q : (∀ n, triple P (f n) Q) → triple P (sleep_loop f) Q.
Proof. intros Hf E HE e s. by apply Hf. Qed.
Lemma gives_swtch : gives swtch (λ _, True).
Proof.
  intros E HE e s He Hs. unfold swtch. destruct He as [|w e Hw He]; [done|]. split_and!; auto.
Qed.

(** ** Steps that leave some of the state alone *)

(** [m] does not switch, and leaves these parts of the state as they are. *)
Definition steady {A} (m : K A) : Prop := ∀ e s,
  match m e s with
  | Ok _ _ s' => k_procs s' = k_procs s ∧ k_pipes s' = k_pipes s ∧ k_cons s' = k_cons s
  | Away _ => False
  | _ => True
  end.

Definition about_steady (Φ : kstate → Prop) : Prop := ∀ s s',
  k_procs s' = k_procs s → k_pipes s' = k_pipes s → k_cons s' = k_cons s → Φ s → Φ s'.

Lemma triple_steady {A} (m : K A) φ Φ :
  gives m φ → steady m → about_steady Φ →
  triple (λ s, I s ∧ Φ s) m (λ a s, (I s ∧ Φ s) ∧ φ a).
Proof.
  intros Hm Hst HΦ E HE e s He [Hs HΦs]. specialize (Hm E HE e s He Hs). specialize (Hst e s).
  destruct (m e s) as [a e' s'| | | | |]; try done.
  destruct Hm as (? & ? & ?), Hst as (? & ? & ?). split_and!; eauto.
Qed.
End triples.

Section steady.
Lemma steady_ret {A} (a : A) : steady (mret a).
Proof. by intros e s. Qed.
Lemma steady_bind {A B} (m : K A) (f : A → K B) :
  steady m → (∀ a, steady (f a)) → steady (m ≫= f).
Proof.
  intros Hm Hf e s. specialize (Hm e s). unfold mbind, K_bind.
  destruct (m e s) as [a e' s'| | | | |]; try done.
  specialize (Hf a e' s'). destruct (f a e' s'); intuition congruence.
Qed.
Lemma steady_gets {A} (f : kstate → A) : steady (gets f).
Proof. by intros e s. Qed.
Lemma steady_when b m : steady m → steady (when b m).
Proof. by destruct b. Qed.
Lemma steady_for_each {A} (l : list A) (f : A → K unit) : (∀ x, steady (f x)) → steady (for_each l f).
Proof. intros Hf. induction l as [|x l IH]; [done|]. apply steady_bind; auto. Qed.
Lemma steady_index {A} (l : list A) i : steady (index l i).
Proof. unfold index. destruct (i <? 0)%Z; [done|]. by destruct (l !! _). Qed.
Lemma steady_deref {A} (o : option A) : steady (deref o).
Proof. by destruct o. Qed.
Lemma steady_get_proc i : steady (get_proc i).
Proof. intros e s. unfold get_proc. by destruct (k_procs s !! i). Qed.
Lemma steady_mycpu : steady mycpu.
Proof. intros e s. unfold mycpu. by destruct (k_cpus s !! _). Qed.
Lemma steady_upd_cpu f : steady (upd_cpu f).
Proof. intros e s. unfold upd_cpu. by destruct (k_cpus s !! _). Qed.
Lemma steady_test_and_set lk : steady (test_and_set lk).
Proof. intros e s. unfold test_and_set. by destruct (k_locks s !! _). Qed.
End steady.

(** [steady_step] takes a program apart; the functions it calls are in the database. *)
Create HintDb steady discriminated.
#[export] Hint Constants Opaque : steady.
#[export] Hint Resolve steady_ret steady_gets steady_index steady_deref steady_get_proc
  steady_mycpu steady_upd_cpu steady_test_and_set : steady.

Ltac steady_step :=
  lazymatch goal with
  | |- steady (_ ≫= _) => apply steady_bind; [|intros ?]
  | |- steady (if ?b then _ else _) => destruct b
  | |- steady (match ?x with _ => _ end) => destruct x
  | |- steady (let x := _ in _) => cbv zeta
  | |- steady (when _ _) => apply steady_when
  | |- steady (for_each _ _) => apply steady_for_each; intros ?
  | |- steady _ => first [assumption | solve [auto with steady nocore] | done]
  end.
Ltac steady := repeat steady_step.

Lemma steady_intr_get : steady intr_get.
Proof. unfold intr_get. steady. Qed.
Lemma steady_push_off : steady push_off.
Proof. unfold push_off. pose proof steady_intr_get. unfold intr_off. steady. Qed.
Lemma steady_pop_off : steady pop_off.
Proof. unfold pop_off. pose proof steady_intr_get. unfold intr_on. steady. Qed.
#[export] Hint Resolve steady_push_off steady_pop_off : steady.
Lemma steady_acquire lk : steady (acquire lk).
Proof. unfold acquire, holding. steady. Qed.
Lemma steady_release lk : steady (release lk).
Proof. unfold release, holding. steady. Qed.
#[export] Hint Resolve steady_acquire steady_release : steady.

(** ** Automation *)

(** [gstep] takes a program apart; [gives_db] has the functions that it calls. *)
Create HintDb gives discriminated.
#[export] Hint Constants Opaque : gives.
#[export] Hint Resolve gives_panic gives_fault gives_no_fuel gives_deref gives_index gives_swtch
  : gives.

Ltac gives_leaf :=
  first [ solve [eauto 4 with gives nocore]
        | solve [eapply gives_true; eauto 4 with gives nocore] ].

Ltac gstep :=
  lazymatch goal with
  | |- gives _ (mret _) _ => apply gives_ret; try solve [auto]
  | |- gives _ (_ ≫= _) _ => apply (gives_bind _ _ _ (λ _, True)); [|intros ? _]
  | |- gives _ (if ?b then _ else _) _ => destruct b eqn:?
  | |- gives _ (match ?x with _ => _ end) _ => destruct x eqn:?
  | |- gives _ (let x := _ in _) _ => cbv zeta
  | |- gives _ (when _ _) _ => apply gives_when; intros ?
  | |- gives _ (for_each _ _) _ => apply gives_for_each; intros ? ?
  | |- gives _ (sleep_loop _) _ => apply gives_sleep_loop; intros ?
  end.
