(* ===== verification/Wellformed.v ===== *)
(** * Well-formed kernel states

    The types and data-structure invariants of the kernel's global variables: the
    sizes of arrays, the ranges of integers, indices that stand for valid pointers,
    and ring buffers that hold no more than they have room for. *)

From S2P Require Import Prelude Bytes Memory Riscv Data State Spinlock Csr Kalloc Vm Mlfq Uart Bio Virtio Log Fs Console File Hoare.

Local Open Scope Z_scope.

(** ** The invariant *)

(** A pointer into an array of [n] elements, or null. *)
Definition pointer (n : nat) (o : option nat) : Prop := ∀ i, o = Some i → (i < n)%nat.

(** A ring buffer of [n] elements with free-running indices of type [u]. *)
Definition ring (u : Z → Z) (n r w : Z) : Prop := u r = r ∧ u w = w ∧ u (w - r) ≤ n.

Record proc_wf (p : proc) : Prop := {
  proc_priority : 0 ≤ p_priority p < NMLFQ;
  proc_ints : is_i32 (p_killed p) ∧ is_i32 (p_xstate p) ∧ is_i32 (p_pid p) ∧
    is_i32 (p_ticks_used p) ∧ is_i32 (p_ticks_total p) ∧ is_i32 (p_num_scheduled p) ∧
    is_i32 (p_num_demoted p) ∧ is_i32 (p_num_boosted p);
  proc_parent : pointer NPROC (p_parent p);
  proc_context : length (ctx_s (p_context p)) = 12%nat;
  proc_ofile : length (p_ofile p) = NOFILE ∧ Forall (pointer NFILE) (p_ofile p);
  proc_cwd : pointer NINODE (p_cwd p);
  proc_name : length (p_name p) = 16%nat;
}.

Definition buf_wf (b : buf) : Prop := length (b_data b) = Z.to_nat BSIZE.
Definition log_wf (lg : log) : Prop := length (lg_block lg) = Z.to_nat LOGSIZE.
Definition inode_wf (ip : inode) : Prop := length (i_addrs ip) = (Z.to_nat NDIRECT + 1)%nat.
Definition file_wf (f : file) : Prop := is_i32 (f_ref f) ∧ is_u32 (f_off f) ∧ pointer NINODE (f_ip f).
Definition pipe_wf (p : pipe) : Prop :=
  length (pi_data p) = Z.to_nat PIPESIZE ∧ ring u32 PIPESIZE (pi_nread p) (pi_nwrite p).
Definition uart_wf (u : uart) : Prop :=
  length (u_tx_buf u) = Z.to_nat UART_TX_BUF_SIZE ∧ ring u64 UART_TX_BUF_SIZE (u_tx_r u) (u_tx_w u).
Definition vdisk_wf (v : vdisk) : Prop :=
  length (vd_desc v) = NUM ∧ length (vd_avail_ring v) = NUM ∧ length (vd_used_ring v) = NUM ∧
  length (vd_free v) = NUM ∧ length (vd_info v) = NUM ∧ length (vd_ops v) = NUM.

(** The read index, the end of the complete lines and the edit index follow each
    other in the ring of the console. *)
Record cons_wf (cn : cons) : Prop := {
  cons_buf : length (cn_buf cn) = Z.to_nat INPUT_BUF_SIZE;
  cons_ring : ring u32 INPUT_BUF_SIZE (cn_r cn) (cn_e cn);
  cons_w : u32 (cn_w cn) = cn_w cn;
  cons_line : u32 (cn_w cn - cn_r cn) ≤ u32 (cn_e cn - cn_r cn);
}.

(** [L] is what is known of the list of buffers, which [binit] builds. *)
Record wf_but (L : list nat → Prop) (s : kstate) : Prop := {
  wf_hart : (k_hart s < NCPU)%nat;
  wf_cpus : length (k_cpus s) = NCPU ∧ Forall (λ c, pointer NPROC (c_proc c)) (k_cpus s);
  wf_csrs : length (k_csrs s) = NCPU;
  wf_locks : map_Forall (λ _ h, (h < NCPU)%nat) (k_locks s);
  wf_procs : length (k_procs s) = NPROC ∧ Forall proc_wf (k_procs s);
  wf_initproc : pointer NPROC (k_initproc s);
  wf_nextpid : is_i32 (k_nextpid s);
  wf_ticks : is_u32 (k_ticks s);
  wf_bufs : length (k_bufs s) = NBUF ∧ Forall buf_wf (k_bufs s);
  wf_lru : L (k_lru s);
  wf_log : log_wf (k_log s);
  wf_inodes : length (k_inodes s) = NINODE ∧ Forall inode_wf (k_inodes s);
  wf_files : length (k_files s) = NFILE ∧ Forall file_wf (k_files s);
  wf_pipes : map_Forall (λ _, pipe_wf) (k_pipes s);
  wf_devsw : length (k_devsw s) = Z.to_nat NDEV;
  wf_cons : cons_wf (k_cons s);
  wf_uart : uart_wf (k_uart s);
  wf_vdisk : vdisk_wf (k_vdisk s);
}.

(** The list has every buffer once. *)
Definition lru_wf (l : list nat) : Prop := l ≡ₚ seq 0 NBUF.

Definition kernel_wf : kstate → Prop := wf_but lru_wf.

(** Moving a buffer to the head keeps what is known of the list. *)
Definition lru_closed (L : list nat → Prop) : Prop :=
  ∀ n l, (n < NBUF)%nat → L l → L (move_to_head n l).

Lemma lru_wf_closed : lru_closed lru_wf.
Proof.
  intros n l Hn Hl. unfold lru_wf, move_to_head in *.
  apply NoDup_Permutation.
  - constructor; [rewrite list_elem_of_filter; naive_solver|].
    apply list.NoDup_filter. rewrite Hl. apply NoDup_seq.
  - apply NoDup_seq.
  - intros x. rewrite elem_of_cons, list_elem_of_filter, Hl, elem_of_seq.
    destruct (decide (x = n)); naive_solver lia.
Qed.

Lemma pointer_None n : pointer n None.
Proof. by intros i. Qed.
Lemma pointer_Some n i : (i < n)%nat → pointer n (Some i).
Proof. intros H ? [= <-]. done. Qed.
#[export] Hint Resolve pointer_None pointer_Some i32_range u32_range : core.
#[export] Hint Extern 1 (map_Forall _ (delete _ _)) => apply map_Forall_delete : core.
#[export] Hint Resolve lru_wf_closed pointer_None pointer_Some : gives.

(** ** Access to the state *)

Section access.
Context (L : list nat → Prop).
Notation wf := (wf_but L).

(** Reading and updating an element of an array whose elements are well formed. *)
Lemma gives_get_elem {X} (F : kstate → list X) len (ok : X → Prop) n :
  (∀ s, wf s → length (F s) = len ∧ Forall ok (F s)) →
  gives wf (λ e s, match F s !! n with Some x => Ok x e s | None => Fault end)
    (λ x, (n < len)%nat ∧ ok x).
Proof.
  intros HF E HE e s He Hs. destruct (F s !! n) as [x|] eqn:Ex; [|done].
  destruct (HF s Hs) as [<- HF']. split_and!; [done|done| |by eapply Forall_lookup_1].
  by eapply lookup_lt_Some.
Qed.

Lemma triple_upd_elem {X} (F : kstate → list X) G len (ok : X → Prop) n (P : kstate → Prop) f :
  (∀ s, wf s → length (F s) = len ∧ Forall ok (F s)) →
  (∀ s l, wf s → length l = len ∧ Forall ok l → wf (G l s)) →
  (∀ s x, P s → F s !! n = Some x → wf s ∧ ok (f x)) →
  triple wf P (λ e s, match F s !! n with
                      | Some x => Ok tt e (G (<[n := f x]> (F s)) s)
                      | None => Fault
                      end) (λ _ s, wf s ∧ (n < len)%nat).
Proof.
  intros HF HG Hf E HE e s He HP. destruct (F s !! n) as [x|] eqn:Ex; [|done].
  destruct (Hf s x HP Ex) as [Hs Hx]. destruct (HF s Hs) as [<- HF'].
  split_and!; [done| |by eapply lookup_lt_Some].
  apply HG; [done|]. rewrite length_insert. split; [done|]. by apply Forall_insert.
Qed.

Lemma gives_upd_elem {X} (F : kstate → list X) G len (ok : X → Prop) n f :
  (∀ s, wf s → length (F s) = len ∧ Forall ok (F s)) →
  (∀ s l, wf s → length l = len ∧ Forall ok l → wf (G l s)) →
  (∀ x, ok x → ok (f x)) →
  gives wf (λ e s, match F s !! n with
                   | Some x => Ok tt e (G (<[n := f x]> (F s)) s)
                   | None => Fault
                   end) (λ _, (n < len)%nat).
Proof.
  intros HF HG Hf. apply (triple_upd_elem F G len ok n wf); [done|done|].
  intros s x Hs Hx. split; [done|]. apply Hf. destruct (HF s Hs) as [_ HF'].
  by eapply Forall_lookup_1.
Qed.

Ltac by_wf := intros ? ? []; try intros; constructor; done.

Lemma gives_get_proc i : gives wf (get_proc i) (λ p, (i < NPROC)%nat ∧ proc_wf p).
Proof. apply (gives_get_elem k_procs), wf_procs. Qed.
Lemma triple_get_proc i :
  triple wf wf (get_proc i)
    (λ p s, (wf s ∧ k_procs s !! i = Some p) ∧ (i < NPROC)%nat ∧ proc_wf p).
Proof.
  intros E HE e s He Hs. pose proof (gives_get_proc i E HE e s He Hs) as H. unfold get_proc in *.
  destruct (k_procs s !! i) as [p|] eqn:Ex; [|done]. destruct H as (? & ? & ? & ?). by split_and!.
Qed.
Lemma triple_upd_proc (P : kstate → Prop) i f :
  (∀ s p, P s → k_procs s !! i = Some p → wf s ∧ proc_wf (f p)) →
  triple wf P (upd_proc i f) (λ _ s, wf s ∧ (i < NPROC)%nat).
Proof. apply (triple_upd_elem k_procs set_k_procs); [apply wf_procs|by_wf]. Qed.
Lemma gives_upd_proc i f :
  (∀ p, proc_wf p → proc_wf (f p)) → gives wf (upd_proc i f) (λ _, (i < NPROC)%nat).
Proof. apply (gives_upd_elem k_procs set_k_procs); [apply wf_procs|by_wf]. Qed.

Lemma gives_get_buf n : gives wf (get_buf n) (λ x, (n < NBUF)%nat ∧ buf_wf x).
Proof. apply (gives_get_elem k_bufs), wf_bufs. Qed.
Lemma gives_upd_buf n f :
  (∀ x, buf_wf x → buf_wf (f x)) → gives wf (upd_buf n f) (λ _, (n < NBUF)%nat).
Proof. apply (gives_upd_elem k_bufs set_k_bufs); [apply wf_bufs|by_wf]. Qed.

Lemma gives_get_inode n : gives wf (get_inode n) (λ x, (n < NINODE)%nat ∧ inode_wf x).
Proof. apply (gives_get_elem k_inodes), wf_inodes. Qed.
Lemma gives_upd_inode n f :
  (∀ x, inode_wf x → inode_wf (f x)) → gives wf (upd_inode n f) (λ _, (n < NINODE)%nat).
Proof. apply (gives_upd_elem k_inodes set_k_inodes); [apply wf_inodes|by_wf]. Qed.

Lemma gives_get_file n : gives wf (get_file n) (λ x, (n < NFILE)%nat ∧ file_wf x).
Proof. apply (gives_get_elem k_files), wf_files. Qed.
Lemma gives_upd_file n f :
  (∀ x, file_wf x → file_wf (f x)) → gives wf (upd_file n f) (λ _, (n < NFILE)%nat).
Proof. apply (gives_upd_elem k_files set_k_files); [apply wf_files|by_wf]. Qed.

Lemma gives_get_pipe pi : gives wf (get_pipe pi) pipe_wf.
Proof.
  intros E HE e s He Hs. unfold get_pipe. destruct (k_pipes s !! pi) as [p|] eqn:Ex; [|done].
  split_and!; [done|done|]. by eapply (wf_pipes L s Hs).
Qed.

Lemma triple_get_pipe pi :
  triple wf wf (get_pipe pi) (λ p s, (wf s ∧ k_pipes s !! pi = Some p) ∧ pipe_wf p).
Proof.
  intros E HE e s He Hs. unfold get_pipe. destruct (k_pipes s !! pi) as [p|] eqn:Ex; [|done].
  split_and!; [done|done|done|]. by eapply (wf_pipes L s Hs).
Qed.
Lemma triple_upd_pipe (P : kstate → Prop) pi g (Q : kstate → Prop) :
  (∀ s p, P s → k_pipes s !! pi = Some p →
     wf s ∧ pipe_wf (g p) ∧ Q (set_k_pipes (<[pi := g p]> (k_pipes s)) s)) →
  triple wf P (upd_pipe pi g) (λ _ s, wf s ∧ Q s).
Proof.
  intros Hg E HE e s He HP. unfold upd_pipe. destruct (k_pipes s !! pi) as [p|] eqn:Ex; [|done].
  destruct (Hg s p HP Ex) as (Hs & Hp & HQ). split_and!; [done| |done].
  destruct Hs; constructor; try done. cbn. by apply map_Forall_insert_2.
Qed.

Lemma gives_upd_pipe pi g :
  (∀ p, pipe_wf p → pipe_wf (g p)) → gives wf (upd_pipe pi g) (λ _, True).
Proof.
  intros Hg. eapply (triple_upd_pipe _ pi g (λ _, True)). intros s p Hs Hp. split_and!; [done| |done].
  apply Hg. by eapply (wf_pipes L s Hs).
Qed.

Lemma gives_mycpu : gives wf mycpu (λ c, pointer NPROC (c_proc c)).
Proof.
  intros E HE e s He Hs. unfold mycpu. destruct (k_cpus s !! _) as [c|] eqn:Ex; [|done].
  destruct (wf_cpus L s Hs) as [_ HF]. split_and!; [done|done|]. by eapply Forall_lookup_1 in HF.
Qed.

Lemma wf_set_cpus h f s :
  (∀ c, c_proc (f c) = c_proc c ∨ pointer NPROC (c_proc (f c))) →
  wf s → wf (set_k_cpus (alter f h (k_cpus s)) s).
Proof.
  intros Hf Hs. destruct (wf_cpus L s Hs) as [Hl HF].
  destruct Hs; constructor; try done. cbn. rewrite length_alter. split; [done|].
  apply Forall_alter; [done|]. intros c Hc Hp. destruct (Hf c) as [->|]; done.
Qed.

Lemma gives_upd_cpu f : (∀ c, c_proc (f c) = c_proc c) → gives wf (upd_cpu f) (λ _, True).
Proof.
  intros Hf E HE e s He Hs. unfold upd_cpu. destruct (k_cpus s !! _) as [c|] eqn:Ex; [|done].
  split_and!; [done| |done]. apply wf_set_cpus; auto.
Qed.

Lemma gives_get_csr : gives wf get_csr (λ _, True).
Proof. intros E HE e s He Hs. unfold get_csr. by destruct (k_csrs s !! _). Qed.

Lemma gives_upd_csr f : gives wf (upd_csr f) (λ _, True).
Proof.
  intros E HE e s He Hs. unfold upd_csr. destruct (k_csrs s !! _); [|done].
  split_and!; [done| |done]. destruct Hs; constructor; try done. cbn. by rewrite length_alter.
Qed.

Lemma gives_test_and_set lk : gives wf (test_and_set lk) (λ _, True).
Proof.
  intros E HE e s He Hs. unfold test_and_set. destruct (k_locks s !! _); [done|].
  split_and!; [done| |done]. destruct Hs; constructor; try done. cbn. by apply map_Forall_insert_2.
Qed.

Lemma gives_set_cpu_proc h i : pointer NPROC i → gives wf (set_cpu_proc h i) (λ _, True).
Proof.
  intros Hi E HE e s He Hs. unfold set_cpu_proc. destruct (k_cpus s !! _); [|done].
  split_and!; [done| |done]. apply wf_set_cpus; auto.
Qed.
End access.

(** ** Global variables *)

Section globals.
Context (L : list nat → Prop).
Notation wf := (wf_but L).

Lemma gives_k_initproc : gives wf (gets k_initproc) (pointer NPROC).
Proof. apply gives_gets, wf_initproc. Qed.
Lemma gives_k_nextpid : gives wf (gets k_nextpid) is_i32.
Proof. apply gives_gets, wf_nextpid. Qed.
Lemma gives_k_log : gives wf (gets k_log) log_wf.
Proof. apply gives_gets, wf_log. Qed.
Lemma gives_upd_log f : (∀ lg, log_wf lg → log_wf (f lg)) → gives wf (upd_log f) (λ _, True).
Proof. intros Hf. apply gives_modify. intros s []; constructor; cbn; auto. Qed.
Lemma gives_upd_vd f : (∀ v, vdisk_wf v → vdisk_wf (f v)) → gives wf (upd_vd f) (λ _, True).
Proof. intros Hf. apply gives_modify. intros s []; constructor; cbn; auto. Qed.
Lemma triple_upd_uart (P Q : kstate → Prop) f :
  (∀ s, P s → wf s ∧ uart_wf (f (k_uart s)) ∧ Q (set_k_uart (f (k_uart s)) s)) →
  triple wf P (upd_uart f) (λ _ s, wf s ∧ Q s).
Proof.
  intros Hf. apply triple_modify. intros s HP. destruct (Hf s HP) as ([] & Hu & HQ).
  split; [constructor; done|done].
Qed.
Lemma gives_upd_uart f : (∀ u, uart_wf u → uart_wf (f u)) → gives wf (upd_uart f) (λ _, True).
Proof.
  intros Hf. apply (triple_upd_uart _ (λ _, True)). intros s Hs.
  split_and!; [done| |done]. apply Hf, (wf_uart L s Hs).
Qed.
Lemma triple_upd_cons (P Q : kstate → Prop) f :
  (∀ s, P s → wf s ∧ cons_wf (f (k_cons s)) ∧ Q (set_k_cons (f (k_cons s)) s)) →
  triple wf P (upd_cons f) (λ _ s, wf s ∧ Q s).
Proof.
  intros Hf. apply triple_modify. intros s HP. destruct (Hf s HP) as ([] & Hu & HQ).
  split; [constructor; done|done].
Qed.
End globals.

#[export] Hint Resolve gives_get_proc gives_get_buf gives_get_inode gives_get_file gives_get_pipe
  gives_mycpu gives_get_csr gives_upd_csr gives_test_and_set gives_k_initproc gives_k_nextpid
  gives_k_log : gives.

(** ** Automation *)

#[export] Hint Extern 1 (is_i32 _) => (unfold is_i32; lia) : core.

Ltac by_rule lem := first [apply lem | eapply gives_true, lem].

(** Side conditions: an update keeps an element well formed. *)
Ltac wf_proc :=
  let p := fresh "p" in let Hp := fresh "Hp" in
  by_rule gives_upd_proc; intros p Hp; destruct Hp; constructor; cbn in *;
  unfold NMLFQ in *; intuition (auto; lia).
Ltac wf_field :=
  lazymatch goal with
  | |- gives _ (upd_proc _ _) _ => solve [wf_proc]
  | |- gives _ (upd_buf _ _) _ =>
      by_rule gives_upd_buf; intros ? ?; unfold buf_wf in *; cbn; rewrite ?length_insert; solve [auto]
  | |- gives _ (upd_inode _ _) _ =>
      by_rule gives_upd_inode; intros ? ?; unfold inode_wf in *; cbn; rewrite ?length_insert; solve [auto]
  | |- gives _ (upd_file _ _) _ =>
      by_rule gives_upd_file; intros ? (? & ? & ?); unfold file_wf, is_u32 in *; cbn;
      split_and!; solve [auto | apply u32_range | lia]
  | |- gives _ (upd_pipe _ _) _ => by_rule gives_upd_pipe; intros ? [? ?]; split; cbn; solve [auto]
  | |- gives _ (upd_log _) _ => by_rule gives_upd_log; intros ? ?; unfold log_wf in *; cbn; solve [auto]
  | |- gives _ (upd_uart _) _ => by_rule gives_upd_uart; intros ? [? ?]; split; cbn; solve [auto]
  | |- gives _ (upd_cpu _) _ => by_rule gives_upd_cpu; done
  | |- gives _ (modify _) _ => apply gives_modify; intros ? []; constructor; cbn; rewrite ?length_insert; solve [auto]
  end.
Ltac wf_leaf := first [gives_leaf | wf_field | solve [apply keeps_gets]].
Ltac wf_step :=
  lazymatch goal with
  | |- gives _ (_ ≫= _) _ =>
      first [eapply gives_bind; [wf_leaf | intros ? ?; cbv beta in *] | gstep]
  | |- _ => gstep
  end.
Ltac gsolve := repeat first [wf_leaf | wf_step].
