(* ===== verification/WellformedKernel.v ===== *)
(** * The kernel keeps its state well formed: memory, scheduling, processes *)

From S2P Require Import Prelude Bytes Memory Riscv Data State Spinlock Csr Kalloc Vm Mlfq Uart Proc Sleeplock Bio Virtio Log Fs Console File Exec Process Syscall Trap VmCopy Hoare Wellformed.

Local Open Scope Z_scope.

Section keep.
Context (L : list nat → Prop).
Notation keeps m := (gives (wf_but L) m (λ _, True)).

(** ** Locks *)

Lemma keeps_intr_get : keeps intr_get.
Proof. unfold intr_get. gsolve. Qed.
Lemma keeps_intr_on : keeps intr_on.
Proof. unfold intr_on. gsolve. Qed.
Lemma keeps_intr_off : keeps intr_off.
Proof. unfold intr_off. gsolve. Qed.
#[local] Hint Resolve keeps_intr_get keeps_intr_on keeps_intr_off : gives.
Lemma keeps_push_off : keeps push_off.
Proof. unfold push_off. gsolve. Qed.
Lemma keeps_pop_off : keeps pop_off.
Proof. unfold pop_off. gsolve. Qed.
Lemma keeps_initlock lk : keeps (initlock lk).
Proof. unfold initlock. gsolve. Qed.
#[local] Hint Resolve keeps_push_off keeps_pop_off : gives.
Lemma keeps_acquire lk : keeps (acquire lk).
Proof. unfold acquire, holding. gsolve. Qed.
Lemma keeps_release lk : keeps (release lk).
Proof. unfold release, holding. gsolve. Qed.
Lemma gives_myproc : gives (wf_but L) myproc (pointer NPROC).
Proof. unfold myproc. gsolve. Qed.
#[local] Hint Resolve keeps_initlock keeps_acquire keeps_release gives_myproc : gives.

(** ** Scheduling *)

Lemma keeps_boost_slot i : keeps (boost_slot i).
Proof. unfold boost_slot. gsolve. Qed.
#[local] Hint Resolve keeps_boost_slot : gives.
Lemma keeps_check_boost : keeps check_boost.
Proof. unfold check_boost, priority_boost. gsolve. Qed.
Lemma keeps_scan_level l priority : keeps (scan_level l priority).
Proof. induction l; cbn [scan_level]; gsolve. Qed.
#[local] Hint Resolve keeps_check_boost keeps_scan_level : gives.
Lemma keeps_scan_levels l : keeps (scan_levels l).
Proof. induction l; cbn [scan_levels]; gsolve. Qed.
#[local] Hint Resolve keeps_scan_levels gives_set_cpu_proc : gives.
Lemma keeps_scheduler_iter h : keeps (scheduler_iter h).
Proof. unfold scheduler_iter. gsolve. Qed.
#[local] Hint Resolve keeps_scheduler_iter : gives.
Lemma keeps_scheduler n : keeps (scheduler n).
Proof. unfold scheduler, cpuid. gsolve. Qed.
Lemma keeps_this_proc : keeps this_proc.
Proof. unfold this_proc. gsolve. Qed.
#[local] Hint Resolve keeps_this_proc : gives.
Lemma keeps_sched : keeps sched.
Proof. unfold sched, holding. gsolve. Qed.
#[local] Hint Resolve keeps_sched : gives.
Lemma keeps_sleep ch lk : keeps (sleep ch lk).
Proof. unfold sleep, sleep_with. gsolve. Qed.
Lemma keeps_wakeup ch : keeps (wakeup ch).
Proof. unfold wakeup, wakeup_slot. gsolve. Qed.
Lemma keeps_kill_loop l pid : keeps (kill_loop l pid).
Proof. induction l; cbn [kill_loop]; gsolve. Qed.
Lemma keeps_setkilled i : keeps (setkilled i).
Proof. unfold setkilled. gsolve. Qed.
Lemma keeps_killed i : keeps (killed i).
Proof. unfold killed. gsolve. Qed.
Lemma gives_allocpid : gives (wf_but L) allocpid is_i32.
Proof. unfold allocpid. gsolve. Qed.
Lemma keeps_setprocpriority pid priority : keeps (setprocpriority pid priority).
Proof.
  unfold setprocpriority. gsolve. induction proc_slots as [|i l IH]; cbn [setprocpriority_loop]; gsolve.
Qed.
#[local] Hint Resolve keeps_sleep keeps_wakeup keeps_kill_loop keeps_setkilled keeps_killed
  gives_allocpid keeps_setprocpriority : gives.

(** The queue of a process goes up only below the lowest one. *)
Lemma proc_wf_demote p :
  proc_wf p → p_priority p < NMLFQ - 1 → proc_wf (set_p_priority (i32 (p_priority p + 1)) p).
Proof.
  intros [[? ?]] Hlt. unfold NMLFQ in *.
  constructor; cbn; rewrite ?i32_small by (unfold is_i32; lia); try done. unfold NMLFQ. lia.
Qed.

Lemma keeps_yield : keeps yield.
Proof.
  unfold yield. wf_step. wf_step.
  eapply triple_bind; [apply triple_get_proc|]. intros p. apply triple_pure. intros [Hi Hp].
  cbv zeta. eapply (triple_bind _ _ _ _ (λ _ s, wf_but L s ∧ True)); [|intros []; apply triple_gives; intros ?; gsolve].
  destruct (_ <=? _); cbn [when]; [|apply triple_ret; tauto].
  eapply (triple_bind _ _ _ _ (λ _ s, wf_but L s ∧ True)); [|intros []; apply triple_gives; intros ?; gsolve].
  destruct (p_priority p <? NMLFQ - 1) eqn:E; cbn [when]; [|apply triple_ret; tauto].
  eapply triple_bind; [apply triple_upd_proc|intros []; apply triple_gives; intros ?; gsolve].
  intros s q [Hs Hq] ?. simplify_eq. split; [done|]. apply proc_wf_demote; [done|]. lia.
Qed.
#[local] Hint Resolve keeps_yield : gives.
Lemma keeps_mlfq_check_timer : keeps mlfq_check_timer.
Proof. unfold mlfq_check_timer. gsolve. Qed.
Lemma keeps_clockintr : keeps clockintr.
Proof. unfold clockintr. gsolve. Qed.

(** ** Sleep-locks *)

Lemma keeps_wait_unlocked n l : keeps (wait_unlocked n l).
Proof. induction n; cbn [wait_unlocked]; gsolve. Qed.
#[local] Hint Resolve keeps_wait_unlocked : gives.
Lemma keeps_initsleeplock l : keeps (initsleeplock l).
Proof. unfold initsleeplock. gsolve. Qed.
Lemma keeps_acquiresleep l : keeps (acquiresleep l).
Proof. unfold acquiresleep. gsolve. Qed.
Lemma keeps_releasesleep l : keeps (releasesleep l).
Proof. unfold releasesleep. gsolve. Qed.
Lemma keeps_holdingsleep l : keeps (holdingsleep l).
Proof. unfold holdingsleep. gsolve. Qed.

(** ** Memory *)

Lemma keeps_load a : keeps (load a).
Proof. unfold load. gsolve. Qed.
Lemma keeps_store a v : keeps (store a v).
Proof. unfold store. gsolve. Qed.
Lemma keeps_zero_page a : keeps (zero_page a).
Proof. unfold zero_page. gsolve. Qed.
Lemma keeps_move d s n : keeps (move d s n).
Proof. unfold move. gsolve. Qed.
Lemma keeps_put_bytes a l : keeps (put_bytes a l).
Proof. unfold put_bytes. gsolve. Qed.
Lemma keeps_load_int a : keeps (load_int a).
Proof. unfold load_int. gsolve. Qed.
#[local] Hint Resolve keeps_load keeps_store keeps_zero_page keeps_move keeps_put_bytes
  keeps_load_int : gives.
Lemma keeps_store_int a v : keeps (store_int a v).
Proof. unfold store_int. gsolve. Qed.
#[local] Hint Resolve keeps_store_int : gives.
Lemma keeps_get_tf i off : keeps (get_tf i off).
Proof. unfold get_tf. gsolve. Qed.
Lemma keeps_set_tf i off v : keeps (set_tf i off v).
Proof. unfold set_tf. gsolve. Qed.

Section memory.
Context `{Image}.

Lemma keeps_kfree pa : keeps (kfree pa).
Proof. unfold kfree. gsolve. Qed.
#[local] Hint Resolve keeps_kfree : gives.
Lemma keeps_kinit : keeps kinit.
Proof.
  unfold kinit, freerange. gsolve.
  generalize (PGROUNDUP image_end). induction (Z.to_nat _); intros p; cbn [freerange_loop]; gsolve.
Qed.
Lemma keeps_kalloc : keeps kalloc.
Proof. unfold kalloc. gsolve. Qed.
#[local] Hint Resolve keeps_kalloc : gives.
Lemma keeps_walk pt va alloc : keeps (walk pt va alloc).
Proof.
  unfold walk. gsolve. revert pt. induction [2; 1]; intros pt; cbn [walk_levels]; gsolve.
Qed.
#[local] Hint Resolve keeps_walk : gives.
Lemma keeps_walkaddr pt va : keeps (walkaddr pt va).
Proof. unfold walkaddr. gsolve. Qed.
Lemma keeps_mappages_loop n pt a last pa perm : keeps (mappages_loop n pt a last pa perm).
Proof. revert a pa. induction n; intros a pa; cbn [mappages_loop]; gsolve. Qed.
#[local] Hint Resolve keeps_walkaddr keeps_mappages_loop : gives.
Lemma keeps_mappages pt va size pa perm : keeps (mappages pt va size pa perm).
Proof. unfold mappages. gsolve. Qed.
Lemma keeps_uvmunmap_loop n pt a bound b : keeps (uvmunmap_loop n pt a bound b).
Proof. revert a. induction n; intros a; cbn [uvmunmap_loop]; gsolve. Qed.
#[local] Hint Resolve keeps_mappages keeps_uvmunmap_loop : gives.
Lemma keeps_kvmmap pt va pa sz perm : keeps (kvmmap pt va pa sz perm).
Proof. unfold kvmmap. gsolve. Qed.
Lemma keeps_uvmunmap pt va n b : keeps (uvmunmap pt va n b).
Proof. unfold uvmunmap. gsolve. Qed.
#[local] Hint Resolve keeps_uvmunmap : gives.
Lemma keeps_uvmcreate : keeps uvmcreate.
Proof. unfold uvmcreate. gsolve. Qed.
Lemma keeps_uvmfirst pt l : keeps (uvmfirst pt l).
Proof. unfold uvmfirst. gsolve. Qed.
Lemma keeps_uvmdealloc pt a b : keeps (uvmdealloc pt a b).
Proof. unfold uvmdealloc. gsolve. Qed.
#[local] Hint Resolve keeps_uvmdealloc : gives.
Lemma keeps_uvmalloc_loop n pt a b x i : keeps (uvmalloc_loop n pt a b x i).
Proof. revert i. induction n; intros i; cbn [uvmalloc_loop]; gsolve. Qed.
#[local] Hint Resolve keeps_uvmalloc_loop : gives.
Lemma keeps_uvmalloc pt a b x : keeps (uvmalloc pt a b x).
Proof. unfold uvmalloc. gsolve. Qed.
Lemma keeps_freewalk n pt : keeps (freewalk n pt).
Proof. revert pt. induction n; intros pt; cbn [freewalk]; gsolve. Qed.
#[local] Hint Resolve keeps_freewalk : gives.
Lemma keeps_uvmfree pt sz : keeps (uvmfree pt sz).
Proof. unfold uvmfree. gsolve. Qed.
Lemma keeps_uvmcopy_loop n old new sz i : keeps (uvmcopy_loop n old new sz i).
Proof. revert i. induction n; intros i; cbn [uvmcopy_loop]; gsolve. Qed.
#[local] Hint Resolve keeps_uvmcopy_loop : gives.
Lemma keeps_uvmcopy old new sz : keeps (uvmcopy old new sz).
Proof. unfold uvmcopy. gsolve. Qed.
Lemma keeps_uvmclear pt va : keeps (uvmclear pt va).
Proof. unfold uvmclear. gsolve. Qed.
Lemma keeps_copyout_loop n pt va l : keeps (copyout_loop n pt va l).
Proof. revert va l. induction n; intros va l; cbn [copyout_loop]; gsolve. Qed.
#[local] Hint Resolve keeps_copyout_loop : gives.
Lemma keeps_copyout pt va l : keeps (copyout pt va l).
Proof. unfold copyout. gsolve. Qed.
Lemma gives_read_bytes a n :
  gives (wf_but L) (gets (λ s, read_bytes (k_mem s) a n)) (λ l, length l = n).
Proof. apply gives_gets. intros s _. apply length_read_bytes. Qed.
#[local] Hint Resolve gives_read_bytes : gives.
Lemma gives_copyin_loop n pt va len :
  gives (wf_but L) (copyin_loop n pt va len) (λ r, (length r.2 ≤ Z.to_nat len)%nat).
Proof.
  revert va len. induction n as [|n IH]; intros va len; cbn [copyin_loop].
  all: destruct (0 <? len) eqn:E; [|apply gives_ret; cbn; lia].
  - apply gives_no_fuel.
  - cbv zeta. wf_step. destruct (a =? 0); [apply gives_ret; cbn; lia|].
    set (m := if _ <? _ then _ else _).
    assert (0 ≤ m ≤ len) as Hm.
    { pose proof (PGROUNDDOWN_range va). apply Z.ltb_lt in E. subst m.
      destruct (len <? _) eqn:E'; [lia|]. apply Z.ltb_ge in E'. lia. }
    eapply gives_bind; [apply gives_read_bytes|]. intros l Hl.
    eapply gives_bind; [apply IH|]. intros r Hr. cbv beta in *. apply gives_ret. cbn.
    rewrite length_app. lia.
Qed.
#[local] Hint Resolve gives_copyin_loop : gives.
Lemma gives_copyin pt va len :
  gives (wf_but L) (copyin pt va len) (λ r, (length r.2 ≤ Z.to_nat len)%nat).
Proof. unfold copyin. gsolve. Qed.
Lemma keeps_copyinstr_loop n pt va max : keeps (copyinstr_loop n pt va max).
Proof. revert va max. induction n; intros va max; cbn [copyinstr_loop]; gsolve. Qed.
#[local] Hint Resolve gives_copyin keeps_copyinstr_loop keeps_copyout keeps_uvmcopy keeps_uvmclear
  keeps_uvmalloc keeps_uvmfree keeps_uvmcreate keeps_uvmfirst keeps_kvmmap keeps_get_tf keeps_set_tf
  : gives.
Lemma keeps_copyinstr pt va max : keeps (copyinstr pt va max).
Proof. unfold copyinstr. gsolve. Qed.

(** ** Processes *)

Lemma keeps_w_satp x : keeps (w_satp x).
Proof. unfold w_satp. gsolve. Qed.
#[local] Hint Resolve keeps_w_satp : gives.
Lemma keeps_kvminit : keeps kvminit.
Proof. unfold kvminit, kvmmake, proc_mapstacks. gsolve. Qed.
Lemma keeps_kvminithart : keeps kvminithart.
Proof. unfold kvminithart. gsolve. Qed.
Lemma keeps_procinit : keeps procinit.
Proof. unfold procinit. gsolve. Qed.
Lemma keeps_proc_pagetable i : keeps (proc_pagetable i).
Proof. unfold proc_pagetable. gsolve. Qed.
Lemma keeps_proc_freepagetable pt sz : keeps (proc_freepagetable pt sz).
Proof. unfold proc_freepagetable. gsolve. Qed.
#[local] Hint Resolve keeps_proc_pagetable keeps_proc_freepagetable : gives.

Lemma proc_wf_reset p : proc_wf p → proc_wf (reset_proc p).
Proof. intros []. constructor; cbn; rewrite ?length_insert; unfold NMLFQ; auto; intuition (auto; lia). Qed.
Lemma keeps_freeproc i : keeps (freeproc i).
Proof. unfold freeproc. gsolve. by_rule gives_upd_proc. apply proc_wf_reset. Qed.
#[local] Hint Resolve keeps_freeproc : gives.
Lemma gives_find_unused l : gives (wf_but L) (find_unused l) (pointer NPROC).
Proof. induction l; cbn [find_unused]; gsolve; apply pointer_Some; tauto. Qed.
#[local] Hint Resolve gives_find_unused : gives.
Lemma gives_allocproc : gives (wf_but L) allocproc (pointer NPROC).
Proof. unfold allocproc. gsolve. Qed.
Lemma keeps_growproc n : keeps (growproc n).
Proof. unfold growproc. gsolve. Qed.
Lemma keeps_wakeup_proc o : keeps (wakeup_proc o).
Proof. unfold wakeup_proc. gsolve. Qed.
#[local] Hint Resolve keeps_wakeup_proc : gives.
Lemma keeps_reparent i : keeps (reparent i).
Proof. unfold reparent. gsolve. Qed.
Lemma keeps_wait_scan l i addr b : keeps (wait_scan l i addr b).
Proof. revert b. induction l; intros b; cbn [wait_scan]; gsolve. Qed.
#[local] Hint Resolve keeps_wait_scan : gives.
Lemma keeps_wait_loop n i addr : keeps (wait_loop n i addr).
Proof. induction n; cbn [wait_loop]; gsolve. Qed.
#[local] Hint Resolve keeps_wait_loop : gives.
Lemma keeps_wait addr : keeps (wait addr).
Proof. unfold wait. gsolve. Qed.
Lemma keeps_either_copyout dst l : keeps (either_copyout dst l).
Proof. unfold either_copyout. gsolve. Qed.
Lemma gives_either_copyin src len :
  gives (wf_but L) (either_copyin src len) (λ r, (length r.2 ≤ Z.to_nat len)%nat).
Proof.
  unfold either_copyin. wf_step. wf_step. destruct src as [va|pa|l].
  - gsolve.
  - eapply gives_bind; [apply gives_read_bytes|]. intros l Hl. apply gives_ret. cbn in *. lia.
  - apply gives_ret. cbn. rewrite length_take. lia.
Qed.
Lemma keeps_getprocinfo_loop l pt addr name : keeps (getprocinfo_loop l pt addr name).
Proof. revert name. induction l; intros name; cbn [getprocinfo_loop]; gsolve. Qed.
#[local] Hint Resolve keeps_getprocinfo_loop : gives.
Lemma keeps_getprocinfo addr : keeps (getprocinfo addr).
Proof. unfold getprocinfo, uninit. gsolve. Qed.
Lemma keeps_incr_int a : keeps (incr_int a).
Proof. unfold incr_int. gsolve. Qed.
#[local] Hint Resolve keeps_incr_int : gives.
Lemma keeps_getpstat addr : keeps (getpstat addr).
Proof. unfold getpstat, pstat_slot. gsolve. Qed.
End memory.
End keep.

(** The rules of this file, for the files that follow. *)
#[export] Hint Resolve keeps_intr_get keeps_intr_on keeps_intr_off keeps_push_off keeps_pop_off keeps_initlock
  keeps_acquire keeps_release gives_myproc keeps_boost_slot keeps_check_boost keeps_scan_level
  keeps_scan_levels keeps_scheduler_iter keeps_scheduler keeps_this_proc keeps_sched
  keeps_sleep keeps_wakeup keeps_kill_loop keeps_setkilled keeps_killed gives_allocpid
  keeps_setprocpriority keeps_yield keeps_mlfq_check_timer keeps_clockintr keeps_wait_unlocked
  keeps_initsleeplock keeps_acquiresleep keeps_releasesleep keeps_holdingsleep keeps_load
  keeps_store keeps_zero_page keeps_move keeps_put_bytes keeps_load_int keeps_store_int
  keeps_get_tf keeps_set_tf keeps_kfree keeps_kinit keeps_kalloc keeps_walk keeps_walkaddr
  keeps_mappages_loop keeps_mappages keeps_uvmunmap_loop keeps_kvmmap keeps_uvmunmap
  keeps_uvmcreate keeps_uvmfirst keeps_uvmdealloc keeps_uvmalloc_loop keeps_uvmalloc
  keeps_freewalk keeps_uvmfree keeps_uvmcopy_loop keeps_uvmcopy keeps_uvmclear
  keeps_copyout_loop keeps_copyout gives_read_bytes gives_copyin_loop gives_copyin
  keeps_copyinstr_loop keeps_copyinstr keeps_w_satp keeps_kvminit keeps_kvminithart
  keeps_procinit keeps_proc_pagetable keeps_proc_freepagetable keeps_freeproc
  gives_find_unused gives_allocproc keeps_growproc keeps_wakeup_proc keeps_reparent
  keeps_wait_scan keeps_wait_loop keeps_wait keeps_either_copyout gives_either_copyin
  keeps_getprocinfo_loop keeps_getprocinfo keeps_incr_int keeps_getpstat : gives.
