(* ===== verification/WellformedIo.v ===== *)
(** * The kernel keeps its state well formed: console, files and the log

    The ring buffers of the console, the UART and the pipes hold at most as many
    bytes as they have room for, whatever is interleaved at the points where their
    users sleep. *)

From S2P Require Import Prelude Bytes Memory Riscv Data State Spinlock Csr Kalloc Vm Mlfq Uart Proc Sleeplock Bio Virtio Log Fs Console File Exec Process Syscall Trap VmCopy Hoare Wellformed WellformedKernel.

Local Open Scope Z_scope.

(** ** Ring buffers *)

Lemma u32_u32_l a b : u32 (u32 a - b) = u32 (a - b).
Proof. unfold u32. apply Zminus_mod_idemp_l. Qed.
Lemma u32_u32_r a b : u32 (a - u32 b) = u32 (a - b).
Proof. unfold u32. apply Zminus_mod_idemp_r. Qed.
Lemma u32_pred x : 0 < u32 x → u32 (x - 1) = u32 x - 1.
Proof. unfold u32. intros. zdiv. Qed.
Lemma u32_succ x : u32 x < 2 ^ 32 - 1 → u32 (x + 1) = u32 x + 1.
Proof. unfold u32. intros. zdiv. Qed.
Lemma u32_ne a b r : u32 a = a → u32 b = b → a ≠ b → u32 (a - r) ≠ u32 (b - r).
Proof. unfold u32. intros. zdiv. Qed.

Lemma ring_push32 n r w : 0 ≤ n < 2 ^ 32 → ring u32 n r w → u32 (w - r) < n → ring u32 n r (u32 (w + 1)).
Proof. unfold ring, u32. intros Hn (Hr & Hw & _) Hlt. split_and!; zdiv. Qed.
Lemma ring_pop32 n r w : ring u32 n r w → r ≠ w → ring u32 n (u32 (r + 1)) w.
Proof. unfold ring, u32. intros (Hr & Hw & Hle) Hne. split_and!; zdiv. Qed.
Lemma ring_push64 n r w : 0 ≤ n < 2 ^ 64 → ring u64 n r w → w ≠ u64 (r + n) → ring u64 n r (u64 (w + 1)).
Proof. unfold ring, u64. intros Hn (Hr & Hw & Hle) Hne. split_and!; zdiv. Qed.
Lemma ring_pop64 n r w : ring u64 n r w → r ≠ w → ring u64 n (u64 (r + 1)) w.
Proof. unfold ring, u64. intros (Hr & Hw & Hle) Hne. split_and!; zdiv. Qed.

Section io.
Context (L : list nat → Prop).
Notation wf := (wf_but L).
Notation keeps m := (gives wf m (λ _, True)).

(** ** The UART *)

Lemma keeps_write_thr c : keeps (write_thr c).
Proof. unfold write_thr. gsolve. Qed.
#[local] Hint Resolve keeps_write_thr : gives.

(** The indices of the transmit ring are those of [u]. *)
Definition tx_at (u : uart) (s : kstate) : Prop :=
  u_tx_w (k_uart s) = u_tx_w u ∧ u_tx_r (k_uart s) = u_tx_r u.

Lemma triple_tx_idle u : triple wf (λ s, wf s ∧ tx_at u s) tx_idle (λ _ s, wf s ∧ tx_at u s).
Proof.
  unfold tx_idle. eapply triple_bind; [apply triple_read|]. intros u'.
  destruct (u_polls u') as [|b l]; [by apply triple_ret; intros ? [? _]|].
  eapply (triple_bind _ _ _ _ (λ _ s, wf s ∧ tx_at u s)); [|intros []; by apply triple_ret].
  apply triple_upd_uart. intros s [[Hs Hu] _]. split_and!; [done| |done].
  by destruct (wf_uart L s Hs).
Qed.

Lemma keeps_uartstart_loop n : keeps (uartstart_loop n).
Proof.
  induction n as [|n IH]; cbn [uartstart_loop];
    (eapply triple_bind; [apply triple_read|]; intros u;
     destruct (u_tx_w u =? u_tx_r u) eqn:E; [by apply triple_ret; intros ? [? _]|]); [done|].
  apply Z.eqb_neq in E.
  eapply triple_conseq with (P' := λ s, wf s ∧ tx_at u s);
    [|intros s [? ->]; by split|intros ? ? H; exact H].
  eapply triple_bind; [apply triple_tx_idle|]. intros [|]; cbn [negb]; [|apply triple_ret; tauto].
  eapply triple_bind; [apply triple_index|]. intros c.
  eapply (triple_bind _ _ _ _ (λ _ s, wf s ∧ True)); [|intros []; apply triple_gives; intros _; gsolve].
  apply triple_upd_uart. intros s [Hs [Ew Er]]. split_and!; [done| |done].
  destruct (wf_uart L s Hs) as [Hl Hr]. split; [done|]. cbn. rewrite Ew, Er in *.
  apply ring_pop64; [done|congruence].
Qed.
#[local] Hint Resolve keeps_uartstart_loop : gives.
Lemma keeps_uartstart : keeps uartstart.
Proof. unfold uartstart. gsolve. Qed.
#[local] Hint Resolve keeps_uartstart : gives.

Lemma triple_wait_space n :
  triple wf wf (uart_wait_space n)
    (λ _ s, wf s ∧ u_tx_w (k_uart s) ≠ u64 (u_tx_r (k_uart s) + UART_TX_BUF_SIZE)).
Proof.
  induction n as [|n IH]; cbn [uart_wait_space]; [done|].
  eapply triple_bind; [apply triple_read|]. intros u. destruct (_ =? _) eqn:E.
  - eapply (triple_bind _ _ _ _ (λ _ s, wf s ∧ True)); [|intros []; apply triple_pure; by intros _].
    apply triple_forget. gsolve.
  - apply triple_ret. intros s [Hs ->]. apply Z.eqb_neq in E. done.
Qed.

Lemma keeps_uartputc c : keeps (uartputc c).
Proof.
  unfold uartputc. wf_step. wf_step. destruct a0; [done|].
  eapply triple_bind; [apply triple_sleep_loop; intros n'; apply triple_wait_space|]. intros [].
  eapply triple_bind; [apply triple_read|]. intros u. cbv zeta.
  eapply triple_bind; [apply triple_index|]. intros old.
  eapply (triple_bind _ _ _ _ (λ _ s, wf s ∧
    u_tx_w (k_uart s) ≠ u64 (u_tx_r (k_uart s) + UART_TX_BUF_SIZE))).
  { apply triple_upd_uart. intros s [[Hs Hne] ->]. split_and!; [done| |done].
    destruct (wf_uart L s Hs) as [Hl Hr]. split; [|done]. cbn. by rewrite length_insert. }
  intros []. eapply (triple_bind _ _ _ _ (λ _ s, wf s ∧ True));
    [|intros []; apply triple_gives; intros _; gsolve].
  apply triple_upd_uart. intros s [Hs Hne]. split_and!; [done| |done].
  destruct (wf_uart L s Hs) as [Hl Hr]. split; [done|]. cbn.
  apply ring_push64; [by unfold UART_TX_BUF_SIZE|done|done].
Qed.
Lemma keeps_uartputc_sync c : keeps (uartputc_sync c).
Proof. unfold uartputc_sync, spin_forever. gsolve. Qed.
#[local] Hint Resolve keeps_uartputc keeps_uartputc_sync : gives.
Lemma keeps_uartgetc : keeps uartgetc.
Proof. unfold uartgetc. gsolve. Qed.

(** ** [printf] *)

Lemma keeps_consputc c : keeps (consputc c).
Proof. unfold consputc. gsolve. Qed.
#[local] Hint Resolve keeps_uartgetc keeps_consputc : gives.
Lemma keeps_printint xx base sign : keeps (printint xx base sign).
Proof. unfold printint. gsolve. Qed.
Lemma keeps_printptr x : keeps (printptr x).
Proof. unfold printptr. gsolve. Qed.
#[local] Hint Resolve keeps_printint keeps_printptr : gives.
Lemma keeps_printf_loop fmt ap : keeps (printf_loop fmt ap).
Proof.
  revert ap. induction fmt as [fmt IH] using (well_founded_induction (well_founded_ltof _ length)).
  intros ap. assert (∀ l a, (length l < length fmt)%nat → keeps (printf_loop l a)) as IH' by auto.
  destruct fmt as [|c [|c' fmt]]; cbn [printf_loop]; gsolve; try (apply IH'; cbn; lia).
Qed.
#[local] Hint Resolve keeps_printf_loop : gives.
Lemma keeps_printf fmt ap : keeps (printf fmt ap).
Proof. unfold printf. gsolve. Qed.
Lemma keeps_printfinit : keeps printfinit.
Proof. unfold printfinit. gsolve. Qed.
#[local] Hint Resolve keeps_printf : gives.
Lemma keeps_procdump : keeps procdump.
Proof. unfold procdump. gsolve. Qed.
#[local] Hint Resolve keeps_procdump : gives.

(** ** The console *)

Lemma cons_wf_erase cn :
  cons_wf cn → cn_e cn ≠ cn_w cn → cons_wf (set_cn_e (u32 (cn_e cn - 1)) cn).
Proof.
  intros [Hb (Hr & He & Hle) Hw Hl] Hne.
  pose proof (u32_ne _ _ (cn_r cn) He Hw Hne) as Hd. pose proof (u32_range (cn_w cn - cn_r cn)).
  assert (u32 (u32 (cn_e cn - 1) - cn_r cn) = u32 (cn_e cn - cn_r cn) - 1) as E.
  { rewrite u32_u32_l. replace (cn_e cn - 1 - cn_r cn) with (cn_e cn - cn_r cn - 1) by lia.
    apply u32_pred. unfold is_u32 in *. lia. }
  constructor; cbn; try done; [split_and!|]; rewrite ?E; try lia.
  apply u32_small, u32_range.
Qed.
Lemma cons_wf_append cn i c :
  cons_wf cn → u32 (cn_e cn - cn_r cn) < INPUT_BUF_SIZE →
  cons_wf (set_cn_e (u32 (cn_e cn + 1)) (set_cn_buf (<[i := c]> (cn_buf cn)) cn)).
Proof.
  intros [Hb (Hr & He & Hle) Hw Hl] Hlt. unfold INPUT_BUF_SIZE in *.
  assert (u32 (u32 (cn_e cn + 1) - cn_r cn) = u32 (cn_e cn - cn_r cn) + 1) as E.
  { rewrite u32_u32_l. replace (cn_e cn + 1 - cn_r cn) with (cn_e cn - cn_r cn + 1) by lia.
    apply u32_succ. lia. }
  constructor; cbn; rewrite ?length_insert; try done; [split_and!|];
    rewrite ?E; unfold INPUT_BUF_SIZE; try lia.
  apply u32_small, u32_range.
Qed.
Lemma cons_wf_commit cn : cons_wf cn → cons_wf (set_cn_w (cn_e cn) cn).
Proof. intros [Hb (Hr & He & Hle) Hw Hl]. constructor; cbn; done. Qed.
Lemma cons_wf_take cn :
  cons_wf cn → cn_r cn ≠ cn_w cn → cons_wf (set_cn_r (u32 (cn_r cn + 1)) cn).
Proof.
  intros [Hb (Hr & He & Hle) Hw Hl] Hne.
  pose proof (u32_ne _ _ (cn_r cn) Hr Hw Hne) as Hd. rewrite Z.sub_diag in Hd.
  change (u32 0) with 0 in Hd. pose proof (u32_range (cn_w cn - cn_r cn)).
  assert (∀ x, 0 < u32 (x - cn_r cn) → u32 (x - u32 (cn_r cn + 1)) = u32 (x - cn_r cn) - 1) as E.
  { intros x Hx. rewrite u32_u32_r. replace (x - (cn_r cn + 1)) with (x - cn_r cn - 1) by lia.
    by apply u32_pred. }
  unfold is_u32 in *.
  constructor; cbn; try done; [split_and!|]; rewrite ?E; try lia.
  apply u32_small, u32_range.
Qed.

Lemma steady_consputc c : steady (consputc c).
Proof. unfold consputc, uartputc_sync, upd_uart, write_thr, spin_forever. steady. Qed.

Lemma triple_consputc c (Φ : kstate → Prop) :
  about_steady Φ → triple wf (λ s, wf s ∧ Φ s) (consputc c) (λ _ s, wf s ∧ Φ s).
Proof.
  intros HΦ. eapply triple_conseq; [apply triple_steady; [apply keeps_consputc|apply steady_consputc|
    exact HΦ]|done|]. by intros ? ? [? _].
Qed.

Lemma keeps_kill_line n : keeps (kill_line n).
Proof.
  induction n as [|n IH]; cbn [kill_line];
    (eapply triple_bind; [apply triple_read|]; intros cn;
     destruct (cn_e cn =? cn_w cn) eqn:E; [by apply triple_ret; intros ? [? _]|];
     eapply triple_bind; [apply triple_index|]; intros c;
     destruct (c =? NL); [by apply triple_ret; intros ? [? _]|]); [done|].
  eapply (triple_bind _ _ _ _ (λ _ s, wf s ∧ True)); [|intros []; apply triple_gives; intros _; gsolve].
  apply triple_upd_cons. intros s [Hs ->]. split_and!; [done| |done].
  apply cons_wf_erase; [apply (wf_cons L s Hs)|by apply Z.eqb_neq].
Qed.
#[local] Hint Resolve keeps_kill_line : gives.

(** A character is stored, and the line completed if it ends one. *)
Definition store_char (c : Z) (cn : cons) : K unit :=
  consputc c ;;
  let i := cn_e cn mod INPUT_BUF_SIZE in
  _ ← index (cn_buf cn) i;
  upd_cons (λ cn, set_cn_buf (<[Z.to_nat i := u8 c]> (cn_buf cn)) cn) ;;
  upd_cons (λ cn, set_cn_e (u32 (cn_e cn + 1)) cn) ;;
  cn ← gets k_cons;
  when ((c =? NL) || (c =? Ctrl "D") || (u32 (cn_e cn - cn_r cn) =? INPUT_BUF_SIZE))
    (upd_cons (λ cn, set_cn_w (cn_e cn) cn) ;;
     wakeup (Some ChCons)).

Lemma keeps_store_char c cn :
  u32 (cn_e cn - cn_r cn) < INPUT_BUF_SIZE →
  triple wf (λ s, wf s ∧ cn = k_cons s) (store_char c cn) (λ _ s, wf s ∧ True).
Proof.
  intros Hlt. unfold store_char.
  eapply triple_bind; [apply triple_consputc; by intros s s' _ _ ->|]. intros []. cbv zeta.
  eapply triple_bind; [apply triple_index|]. intros old.
  eapply (triple_bind _ _ _ _ (λ _ s, wf s ∧ ∃ i c, k_cons s = set_cn_buf (<[i := c]> (cn_buf cn)) cn)).
  { apply triple_upd_cons. intros s [Hs ->]. destruct (wf_cons L s Hs) as [Hb Hr Hw Hl].
    split_and!; [done|by constructor; cbn; rewrite ?length_insert|]. by eexists _, _. }
  intros []. eapply (triple_bind _ _ _ _ (λ _ s, wf s ∧ True)).
  { apply triple_upd_cons. intros s (Hs & i & c' & E). split_and!; [done| |done].
    pose proof (wf_cons L s Hs) as Hc. rewrite E in *. cbn in *.
    destruct Hc as [Hb Hr Hw Hl]. cbn in *. rewrite length_insert in Hb.
    apply cons_wf_append; [by constructor|done]. }
  intros []. apply triple_gives. intros _. wf_step. apply gives_when. intros _.
  eapply (triple_bind _ _ _ _ (λ _ s, wf s ∧ True)); [|intros []; apply triple_gives; intros _; gsolve].
  apply triple_upd_cons. intros s Hs. split_and!; [done| |done]. apply cons_wf_commit, (wf_cons L s Hs).
Qed.

Lemma keeps_consoleintr c : keeps (consoleintr c).
Proof.
  unfold consoleintr. wf_step. eapply triple_bind; [apply triple_read|]. intros cn.
  eapply (triple_bind _ _ _ _ (λ _ s, wf s ∧ True)); [|intros []; apply triple_gives; intros _; gsolve].
  destruct (c =? Ctrl "P"); [apply triple_forget; gsolve|].
  destruct (c =? Ctrl "U"); [apply triple_forget; gsolve|].
  destruct (_ || _).
  - destruct (cn_e cn =? cn_w cn) eqn:E; cbn [negb when]; [apply triple_ret; tauto|].
    eapply (triple_bind _ _ _ _ (λ _ s, wf s ∧ True)); [|intros []; apply triple_gives; intros _; gsolve].
    apply triple_upd_cons. intros s [Hs ->]. split_and!; [done| |done].
    apply cons_wf_erase; [apply (wf_cons L s Hs)|by apply Z.eqb_neq].
  - destruct (negb (c =? 0) && _) eqn:E; cbn [when]; [|apply triple_ret; tauto].
    apply andb_true_iff in E as [_ E]. apply Z.ltb_lt in E.
    by apply (keeps_store_char (if c =? 13 then NL else c)).
Qed.
#[local] Hint Resolve keeps_consoleintr : gives.
Lemma keeps_uartintr_loop n : keeps (uartintr_loop n).
Proof. induction n; cbn [uartintr_loop]; gsolve. Qed.
#[local] Hint Resolve keeps_uartintr_loop : gives.
Lemma keeps_uartintr : keeps uartintr.
Proof. unfold uartintr. gsolve. Qed.

Lemma triple_wait_input n :
  triple wf wf (wait_input n)
    (λ b s, wf s ∧ (b = false → cn_r (k_cons s) ≠ cn_w (k_cons s))).
Proof.
  induction n as [|n IH]; cbn [wait_input];
    (eapply triple_bind; [apply triple_read|]; intros cn;
     destruct (cn_r cn =? cn_w cn) eqn:E; cbn [negb];
     [|apply triple_ret; intros s [Hs ->]; split; [done|]; by apply Z.eqb_neq in E]);
    eapply triple_conseq with (P' := wf); try (by intros s [? _]); try (intros ? ? H; exact H);
    (eapply triple_bind; [apply keeps_this_proc|]; intros i; apply triple_pure; intros _;
     eapply triple_bind; [apply keeps_killed|]; intros k; apply triple_pure; intros _;
     destruct (k =? 0); cbn [negb]; [|by apply triple_ret]); [done|].
  eapply triple_bind; [apply keeps_sleep|]. intros []. apply triple_pure. by intros _.
Qed.

Section console.
Context `{Image}.

Lemma keeps_consolewrite_loop n src i : keeps (consolewrite_loop n src i).
Proof. revert i. induction n; intros i; cbn [consolewrite_loop]; gsolve. Qed.
#[local] Hint Resolve keeps_consolewrite_loop : gives.
Lemma keeps_consolewrite src n : keeps (consolewrite src n).
Proof. unfold consolewrite. gsolve. Qed.

Lemma keeps_consoleread_loop n dst target : keeps (consoleread_loop n dst target).
Proof.
  revert dst. induction n as [|n IH]; intros dst; cbn [consoleread_loop]; [gsolve|].
  eapply triple_bind; [apply triple_sleep_loop; intros n'; apply triple_wait_input|]. intros [|]; [apply triple_ret; tauto|].
  eapply triple_bind; [apply triple_read|]. intros cn.
  eapply triple_bind; [apply triple_index|]. intros c.
  eapply (triple_bind _ _ _ _ (λ _ s, wf s ∧ cons_wf cn ∧ k_cons s = set_cn_r (u32 (cn_r cn + 1)) cn)).
  { apply triple_upd_cons. intros s [[Hs Hne] ->]. pose proof (wf_cons L s Hs).
    split_and!; [done|by apply cons_wf_take; auto|done|done]. }
  intros []. destruct (c =? Ctrl "D"); [|apply triple_forget; gsolve].
  eapply (triple_bind _ _ _ _ (λ _ s, wf s ∧ True)); [|intros []; apply triple_gives; intros _; gsolve].
  destruct (_ <? target); cbn [when]; [|apply triple_ret; tauto].
  apply triple_upd_cons. intros s (Hs & [Hb Hr Hw Hl] & ->). split_and!; [done| |done].
  unfold set_cn_r at 1. cbn. rewrite u32_u32_l, Z.add_simpl_r. destruct Hr as (Hr & He & Hle).
  constructor; cbn; rewrite ?Hr; done.
Qed.
#[local] Hint Resolve keeps_consoleread_loop : gives.
Lemma keeps_consoleread dst n : keeps (consoleread dst n).
Proof. unfold consoleread. gsolve. Qed.
Lemma keeps_consoleinit : keeps consoleinit.
Proof. unfold consoleinit, uartinit, WriteReg, mmio_write. gsolve. Qed.
End console.

(** ** The disk and the buffer cache *)

Lemma vdisk_wf_desc f i v : vdisk_wf v → vdisk_wf (set_vd_desc (alter f i (vd_desc v)) v).
Proof. unfold vdisk_wf. cbn. rewrite length_alter. tauto. Qed.
Lemma vdisk_wf_info f i v : vdisk_wf v → vdisk_wf (set_vd_info (alter f i (vd_info v)) v).
Proof. unfold vdisk_wf. cbn. rewrite length_alter. tauto. Qed.
Lemma keeps_upd_desc i f : keeps (upd_desc i f).
Proof. apply gives_upd_vd. intros v. apply vdisk_wf_desc. Qed.
Lemma keeps_upd_info i f : keeps (upd_info i f).
Proof. apply gives_upd_vd. intros v. apply vdisk_wf_info. Qed.
Lemma keeps_set_free i b : keeps (set_free i b).
Proof. apply gives_upd_vd. intros v. unfold vdisk_wf. cbn. rewrite length_insert. tauto. Qed.
#[local] Hint Resolve keeps_upd_desc keeps_upd_info keeps_set_free : gives.
Lemma keeps_free_desc i : keeps (free_desc i).
Proof. unfold free_desc. gsolve. Qed.
#[local] Hint Resolve keeps_free_desc : gives.
Lemma keeps_free_chain_loop n i : keeps (free_chain_loop n i).
Proof. revert i. induction n; intros i; cbn [free_chain_loop]; gsolve. Qed.
Lemma keeps_alloc_desc : keeps alloc_desc.
Proof. unfold alloc_desc. gsolve. Qed.
#[local] Hint Resolve keeps_free_chain_loop keeps_alloc_desc : gives.
Lemma keeps_alloc3_loop n idx : keeps (alloc3_loop n idx).
Proof. revert idx. induction n; intros idx; cbn [alloc3_loop]; gsolve. Qed.
#[local] Hint Resolve keeps_alloc3_loop : gives.
Lemma keeps_alloc3_wait n : keeps (alloc3_wait n).
Proof. induction n; cbn [alloc3_wait]; unfold alloc3_desc; gsolve. Qed.
Lemma keeps_mmio_write a v : keeps (mmio_write a v).
Proof. unfold mmio_write. gsolve. Qed.
#[local] Hint Resolve keeps_alloc3_wait keeps_mmio_write : gives.
Lemma keeps_format_request i0 i1 i2 n w sector : keeps (format_request i0 i1 i2 n w sector).
Proof.
  unfold format_request. gsolve. apply gives_upd_vd. intros v. unfold vdisk_wf. cbn.
  rewrite length_insert. tauto.
Qed.
Lemma keeps_submit_request i : keeps (submit_request i).
Proof.
  unfold submit_request. gsolve; apply gives_upd_vd; intros v; unfold vdisk_wf; cbn;
    rewrite ?length_insert; tauto.
Qed.
Lemma keeps_wait_request n b : keeps (wait_request n b).
Proof. induction n; cbn [wait_request]; gsolve. Qed.
#[local] Hint Resolve keeps_format_request keeps_submit_request keeps_wait_request : gives.
Lemma keeps_virtio_disk_rw n w : keeps (virtio_disk_rw n w).
Proof. unfold virtio_disk_rw, Virtio.free_chain. gsolve. Qed.
Lemma keeps_intr_loop n : keeps (intr_loop n).
Proof. induction n; cbn [intr_loop]; gsolve. by apply gives_upd_vd. Qed.
#[local] Hint Resolve keeps_intr_loop : gives.
Lemma keeps_mmio_read `{Device} a : keeps (mmio_read a).
Proof. unfold mmio_read. gsolve. Qed.
#[local] Hint Resolve keeps_mmio_read : gives.
Lemma keeps_virtio_disk_intr `{Device} : keeps virtio_disk_intr.
Proof. unfold virtio_disk_intr. gsolve. Qed.
Lemma keeps_virtio_disk_init `{Device} `{Image} : keeps virtio_disk_init.
Proof.
  unfold virtio_disk_init. gsolve; apply gives_upd_vd; intros v; unfold vdisk_wf; cbn;
    rewrite ?length_replicate; tauto.
Qed.
End io.

(** ** The interface of the disk driver *)

Class DiskKeeps (L : list nat → Prop) `{Disk} := {
  keeps_disk_rw : ∀ n write, gives (wf_but L) (disk_rw n write) (λ _, True);
  keeps_disk_intr : gives (wf_but L) disk_intr (λ _, True);
}.
#[export] Hint Resolve keeps_disk_rw keeps_disk_intr : gives.

Lemma virtio_disk_keeps L `{Device} : DiskKeeps L (H := virtio_disk).
Proof. split; [apply keeps_virtio_disk_rw|apply keeps_virtio_disk_intr]. Qed.

(** The rules of this file, for the files that follow. *)
#[export] Hint Resolve keeps_write_thr keeps_uartstart_loop keeps_uartstart keeps_uartputc keeps_uartputc_sync
  keeps_uartgetc keeps_consputc keeps_printint keeps_printptr keeps_printf_loop keeps_printf
  keeps_printfinit keeps_procdump keeps_kill_line keeps_store_char keeps_consoleintr
  keeps_uartintr_loop keeps_uartintr keeps_consolewrite_loop keeps_consolewrite
  keeps_consoleread_loop keeps_consoleread keeps_consoleinit keeps_upd_desc keeps_upd_info
  keeps_set_free keeps_free_desc keeps_free_chain_loop keeps_alloc_desc keeps_alloc3_loop
  keeps_alloc3_wait keeps_mmio_write keeps_format_request keeps_submit_request
  keeps_wait_request keeps_virtio_disk_rw keeps_intr_loop keeps_mmio_read
  keeps_virtio_disk_intr keeps_virtio_disk_init : gives.
