(* ===== verification/WellformedFs.v ===== *)
(** * The kernel keeps its state well formed: the file system *)

From S2P Require Import Prelude Bytes Memory Riscv Data State Spinlock Csr Kalloc Vm Mlfq Uart Proc Sleeplock Bio Virtio Log Fs Console File Exec Process Syscall Trap VmCopy Hoare Wellformed WellformedKernel WellformedIo.

Local Open Scope Z_scope.

Section fs.
Context (L : list nat → Prop) (HL : lru_closed L) `{Image} `{Disk} `{!DiskKeeps L}.
Notation wf := (wf_but L).
Notation keeps m := (gives wf m (λ _, True)).

(** ** The buffer cache *)

Lemma keeps_find_buf l test : keeps (find_buf l test).
Proof. induction l; cbn [find_buf]; gsolve. Qed.
#[local] Hint Resolve keeps_find_buf : gives.
Lemma keeps_bget dev bn : keeps (bget dev bn).
Proof. unfold bget. gsolve. Qed.
#[local] Hint Resolve keeps_bget : gives.
Lemma keeps_bread dev bn : keeps (bread dev bn).
Proof. unfold bread. gsolve. Qed.
Lemma keeps_bwrite n : keeps (bwrite n).
Proof. unfold bwrite. gsolve. Qed.
Lemma keeps_brelse n : keeps (brelse n).
Proof. unfold brelse. gsolve. Qed.
Lemma keeps_bpin n : keeps (bpin n).
Proof. unfold bpin. gsolve. Qed.
Lemma keeps_bunpin n : keeps (bunpin n).
Proof. unfold bunpin. gsolve. Qed.
#[local] Hint Resolve keeps_bread keeps_bwrite keeps_brelse keeps_bpin keeps_bunpin : gives.

(** ** The log *)

Lemma keeps_log_loop l body : (∀ x, keeps (body x)) → keeps (log_loop l body).
Proof. intros Hb. induction l; cbn [log_loop]; gsolve. Qed.
Lemma keeps_install_trans b : keeps (install_trans b).
Proof.
  unfold install_trans. apply keeps_log_loop. intros x. gsolve.
  by_rule gives_upd_buf. intros b'. unfold buf_wf in *. tauto.
Qed.
Lemma keeps_write_log : keeps write_log.
Proof.
  unfold write_log. apply keeps_log_loop. intros x. gsolve.
  by_rule gives_upd_buf. intros b'. unfold buf_wf in *. tauto.
Qed.
Lemma keeps_read_head : keeps read_head.
Proof.
  unfold read_head. gsolve. apply gives_upd_log. intros lg. unfold log_wf. cbn.
  rewrite length_app, length_drop. unfold header_blocks. rewrite length_map, length_seq.
  unfold LOGSIZE, MAXOPBLOCKS in *. lia.
Qed.

Lemma length_concat_le n l : length (concat (map (le n) l)) = (n * length l)%nat.
Proof. induction l; cbn; [lia|]. rewrite length_app, le_length. lia. Qed.

Lemma keeps_write_head : keeps write_head.
Proof.
  unfold write_head. gsolve. by_rule gives_upd_buf. intros b Hb. unfold buf_wf, log_wf in *. cbn [b_data set_b_data].
  rewrite splice_length; [done|]. unfold header_bytes. rewrite length_app, le_length, length_concat_le.
  rewrite length_take, Hb. unfold BSIZE, LOGSIZE, MAXOPBLOCKS in *. lia.
Qed.
#[local] Hint Resolve keeps_install_trans keeps_write_log keeps_read_head keeps_write_head : gives.
Lemma keeps_initlog dev : keeps (initlog dev).
Proof. unfold initlog, recover_from_log. gsolve. Qed.
Lemma keeps_begin_op_loop n : keeps (begin_op_loop n).
Proof. induction n; cbn [begin_op_loop]; gsolve. Qed.
#[local] Hint Resolve keeps_begin_op_loop : gives.
Lemma keeps_begin_op : keeps begin_op.
Proof. unfold begin_op. gsolve. Qed.
Lemma keeps_end_op : keeps end_op.
Proof. unfold end_op, commit. gsolve. Qed.
Lemma keeps_log_write n : keeps (log_write n).
Proof.
  unfold log_write. gsolve. apply gives_upd_log. intros lg _. unfold log_wf in *. cbn.
  by rewrite length_insert.
Qed.
#[local] Hint Resolve keeps_initlog keeps_begin_op keeps_end_op keeps_log_write : gives.

(** ** Blocks and inodes *)

Lemma keeps_fsinit dev : keeps (fsinit dev).
Proof. unfold fsinit, readsb. gsolve. Qed.
Lemma keeps_bzero dev bn : keeps (bzero dev bn).
Proof. unfold bzero. gsolve. Qed.
#[local] Hint Resolve keeps_bzero : gives.
Lemma keeps_balloc_loop n dev b : keeps (balloc_loop n dev b).
Proof.
  revert b. induction n; intros b; cbn [balloc_loop]; gsolve.
  by_rule gives_upd_buf. intros d. unfold buf_wf, set_bit. cbn. by rewrite length_insert.
Qed.
#[local] Hint Resolve keeps_balloc_loop : gives.
Lemma keeps_balloc dev : keeps (balloc dev).
Proof. unfold balloc. gsolve. Qed.
Lemma keeps_bfree dev b : keeps (bfree dev b).
Proof.
  unfold bfree. gsolve.
  by_rule gives_upd_buf. intros d. unfold buf_wf, clear_bit. cbn. by rewrite length_insert.
Qed.
#[local] Hint Resolve keeps_balloc keeps_bfree : gives.

(** A write of a whole [struct dinode] stays in its block. *)
Lemma dinode_off_range inum : 0 ≤ dinode_off inum ≤ BSIZE - sizeof_dinode.
Proof. unfold dinode_off, IPB, BSIZE, sizeof_dinode. zdiv. Qed.
Lemma buf_wf_dinode d inum x :
  buf_wf d → length x = Z.to_nat sizeof_dinode →
  buf_wf (set_b_data (splice (b_data d) (dinode_off inum) x) d).
Proof.
  unfold buf_wf. intros Hd Hx. cbn [b_data set_b_data]. pose proof (dinode_off_range inum).
  rewrite splice_length; [done|]. rewrite Hx, Hd. unfold BSIZE, sizeof_dinode in *. lia.
Qed.
Lemma length_dinode_bytes ip : inode_wf ip → length (dinode_bytes ip) = Z.to_nat sizeof_dinode.
Proof.
  unfold inode_wf, dinode_bytes. intros Hip. rewrite !length_app, !le_length, length_concat_le, Hip. done.
Qed.

Lemma keeps_iget_scan l dev inum o : keeps (iget_scan l dev inum o).
Proof. revert o. induction l; intros o; cbn [iget_scan]; gsolve. Qed.
#[local] Hint Resolve keeps_iget_scan : gives.
Lemma gives_iget dev inum : gives wf (iget dev inum) (λ n, (n < NINODE)%nat).
Proof. unfold iget. gsolve. Qed.
Lemma gives_idup n : gives wf (idup n) (λ n, (n < NINODE)%nat).
Proof. unfold idup. gsolve. Qed.
#[local] Hint Resolve gives_iget gives_idup : gives.
Lemma keeps_ialloc_loop n dev type inum : keeps (ialloc_loop n dev type inum).
Proof.
  revert inum. induction n; intros inum; cbn [ialloc_loop]; gsolve.
  by_rule gives_upd_buf. intros d Hd. by apply buf_wf_dinode.
Qed.
#[local] Hint Resolve keeps_ialloc_loop : gives.
Lemma keeps_ialloc dev type : keeps (ialloc dev type).
Proof. unfold ialloc. gsolve. Qed.
Lemma keeps_iupdate n : keeps (iupdate n).
Proof.
  unfold iupdate. gsolve. by_rule gives_upd_buf. intros d Hd. apply buf_wf_dinode; [done|].
  apply length_dinode_bytes. tauto.
Qed.
Lemma inode_wf_read data off ip : inode_wf (read_dinode data off ip).
Proof. done. Qed.
Lemma keeps_ilock o : keeps (ilock o).
Proof. unfold ilock. gsolve. Qed.
Lemma keeps_iunlock o : keeps (iunlock o).
Proof. unfold iunlock. gsolve. Qed.
#[local] Hint Resolve keeps_ialloc keeps_iupdate keeps_ilock keeps_iunlock : gives.
Lemma keeps_bmap_slot n i : keeps (bmap_slot n i).
Proof. unfold bmap_slot. gsolve. Qed.
#[local] Hint Resolve keeps_bmap_slot : gives.
Lemma keeps_bmap n bn : keeps (bmap n bn).
Proof.
  unfold bmap. gsolve. by_rule gives_upd_buf. intros d Hd. unfold buf_wf in *. cbn [b_data set_b_data].
  unfold put32, put_le. rewrite splice_length; [done|]. rewrite le_length, Hd.
  unfold NDIRECT, NINDIRECT, BSIZE in *. lia.
Qed.
Lemma keeps_itrunc n : keeps (itrunc n).
Proof. unfold itrunc. gsolve. Qed.
#[local] Hint Resolve keeps_bmap keeps_itrunc : gives.
Lemma keeps_iput n : keeps (iput n).
Proof. unfold iput. gsolve. Qed.
#[local] Hint Resolve keeps_iput : gives.
Lemma keeps_iunlockput n : keeps (iunlockput n).
Proof. unfold iunlockput. gsolve. Qed.
Lemma keeps_stati n : keeps (stati n).
Proof. unfold stati, uninit. gsolve. Qed.
#[local] Hint Resolve keeps_iunlockput keeps_stati keeps_fsinit : gives.

(** ** Contents, directories and paths *)

Lemma keeps_readi_loop fuel n dst off cnt tot l : keeps (readi_loop fuel n dst off cnt tot l).
Proof.
  revert dst off tot l. induction fuel; intros dst off tot l; cbn [readi_loop]; gsolve.
Qed.
#[local] Hint Resolve keeps_readi_loop : gives.
Lemma keeps_readi n dst off cnt : keeps (readi n dst off cnt).
Proof. unfold readi. gsolve. Qed.
Lemma keeps_writei_loop fuel n src off cnt tot : keeps (writei_loop fuel n src off cnt tot).
Proof.
  revert src off tot. induction fuel; intros src off tot; cbn [writei_loop]; gsolve.
  by_rule gives_upd_buf. intros d Hd. unfold buf_wf in *. cbn [b_data set_b_data].
  rewrite splice_length; [done|]. rewrite Hd. pose proof (Z.mod_pos_bound off BSIZE).
  unfold BSIZE in *. lia.
Qed.
#[local] Hint Resolve keeps_readi keeps_writei_loop : gives.
Lemma keeps_writei n src off cnt : keeps (writei n src off cnt).
Proof. unfold writei. gsolve. Qed.
#[local] Hint Resolve keeps_writei : gives.
Lemma keeps_namecmp s t : keeps (namecmp s t).
Proof. unfold namecmp. gsolve. Qed.
#[local] Hint Resolve keeps_namecmp : gives.
Lemma gives_dirlookup_loop fuel dp name off :
  gives wf (dirlookup_loop fuel dp name off) (λ r, pointer NINODE (fst <$> r)).
Proof.
  revert off. induction fuel; intros off; cbn [dirlookup_loop]; gsolve;
    by (apply pointer_None || apply pointer_Some).
Qed.
#[local] Hint Resolve gives_dirlookup_loop : gives.
Lemma gives_dirlookup dp name : gives wf (dirlookup dp name) (λ r, pointer NINODE (fst <$> r)).
Proof. unfold dirlookup. gsolve. Qed.
Lemma keeps_find_empty fuel dp off : keeps (find_empty fuel dp off).
Proof. revert off. induction fuel; intros off; cbn [find_empty]; gsolve. Qed.
#[local] Hint Resolve gives_dirlookup keeps_find_empty : gives.
Lemma keeps_dirlink dp name inum : keeps (dirlink dp name inum).
Proof. unfold dirlink. gsolve. Qed.

(** An inode that a path leads to is one of the table. *)
Lemma gives_namex_loop fuel ip path b name :
  (ip < NINODE)%nat →
  gives wf (namex_loop fuel ip path b name) (λ r, pointer NINODE r.1).
Proof.
  revert ip path name. induction fuel; intros ip path name Hip; cbn [namex_loop]; gsolve;
    try (by apply pointer_Some).
  apply IHfuel. naive_solver.
Qed.
#[local] Hint Resolve gives_namex_loop : gives.
Lemma gives_namex path b name : gives wf (namex path b name) (λ r, pointer NINODE r.1).
Proof.
  unfold namex. eapply (gives_bind _ _ _ (λ ip, (ip < NINODE)%nat)).
  - gsolve.
  - intros ip Hip. gsolve.
Qed.
#[local] Hint Resolve gives_namex : gives.
Lemma gives_namei path : gives wf (namei path) (pointer NINODE).
Proof. unfold namei, uninit. gsolve. Qed.
Lemma gives_nameiparent path name : gives wf (nameiparent path name) (λ r, pointer NINODE r.1).
Proof. unfold nameiparent. gsolve. Qed.
#[local] Hint Resolve keeps_dirlink gives_namei gives_nameiparent : gives.

(** ** Files and pipes *)

Lemma gives_filealloc_loop l : gives wf (filealloc_loop l) (pointer NFILE).
Proof. induction l; cbn [filealloc_loop]; gsolve. Qed.
#[local] Hint Resolve gives_filealloc_loop : gives.
Lemma gives_filealloc : gives wf filealloc (pointer NFILE).
Proof. unfold filealloc. gsolve. Qed.
Lemma gives_filedup n : gives wf (filedup n) (λ n, (n < NFILE)%nat).
Proof. unfold filedup. gsolve. Qed.
Lemma keeps_free_pipe pi : keeps (free_pipe pi).
Proof. unfold free_pipe. gsolve. Qed.
#[local] Hint Resolve gives_filealloc gives_filedup keeps_free_pipe : gives.
Lemma keeps_pipeclose pi b : keeps (pipeclose pi b).
Proof. unfold pipeclose. gsolve. Qed.
#[local] Hint Resolve keeps_pipeclose : gives.
Lemma keeps_fileclose n : keeps (fileclose n).
Proof. unfold fileclose. gsolve. Qed.
#[local] Hint Resolve keeps_fileclose : gives.
Lemma gives_pipealloc_bad f0 f1 : gives wf (pipealloc_bad f0 f1) (λ r, r = None).
Proof. unfold pipealloc_bad. gsolve. Qed.

Lemma keeps_new_pipe pi data :
  length data = Z.to_nat PIPESIZE →
  keeps (modify (λ s, set_k_pipes (<[pi := mkPipe data 0 0 true true]> (k_pipes s)) s)).
Proof.
  intros Hd. apply gives_modify. intros s []; constructor; cbn; try done.
  apply map_Forall_insert_2; [|done]. by split; [|split].
Qed.
Lemma gives_pipealloc :
  gives wf pipealloc (λ r, ∀ rf wf, r = Some (rf, wf) → (rf < NFILE)%nat ∧ (wf < NFILE)%nat).
Proof.
  unfold pipealloc. gsolve; try (eapply gives_mono; [apply gives_pipealloc_bad|naive_solver]).
  - by apply keeps_new_pipe.
  - naive_solver.
Qed.

Lemma steady_kalloc : steady kalloc.
Proof. unfold kalloc. steady. Qed.
#[local] Hint Resolve steady_kalloc : steady.
Lemma steady_walk pt va b : steady (walk pt va b).
Proof.
  unfold walk. steady. revert pt. induction [2; 1]; intros pt; cbn [walk_levels];
    unfold load, store, zero_page; steady; auto.
Qed.
#[local] Hint Resolve steady_walk : steady.
Lemma steady_copyin pt va len : steady (copyin pt va len).
Proof.
  unfold copyin. generalize (Z.to_nat len) at 1. intros n. revert va len.
  induction n; intros va len; cbn [copyin_loop]; unfold walkaddr, load; steady; auto.
Qed.
Lemma steady_killed i : steady (killed i).
Proof. unfold killed. steady. Qed.


(** The pipe at [pi] is [p]. *)
Definition pipe_at (pi : Z) (p : pipe) (s : kstate) : Prop := k_pipes s !! pi = Some p.
Lemma pipe_at_steady pi p : about_steady (pipe_at pi p).
Proof. unfold pipe_at. by intros s s' _ ->. Qed.

Lemma triple_at_pipe {A} (m : K A) φ pi p :
  gives wf m φ → steady m →
  triple wf (λ s, wf s ∧ pipe_at pi p s) m (λ a s, (wf s ∧ pipe_at pi p s) ∧ φ a).
Proof. intros Hm Hs. apply triple_steady; [done|done|apply pipe_at_steady]. Qed.

(** A byte goes into the ring of a pipe that is not full. *)
Lemma triple_pipe_put pi p j ch :
  pi_nwrite p ≠ u32 (pi_nread p + PIPESIZE) →
  triple wf (λ s, wf s ∧ pipe_at pi p s)
    (upd_pipe pi (λ p, set_pi_data (<[j := ch]> (pi_data p)) p) ;;
     upd_pipe pi (λ p, set_pi_nwrite (u32 (pi_nwrite p + 1)) p))
    (λ _ s, wf s ∧ True).
Proof.
  intros Hne. unfold pipe_at.
  eapply (triple_bind _ _ _ _ (λ _ s, wf s ∧ pipe_at pi (set_pi_data (<[j := ch]> (pi_data p)) p) s)).
  - apply triple_upd_pipe. intros s q [Hs Hq] ?. simplify_eq.
    destruct (wf_pipes L s Hs pi _ Hq) as [Hl Hr].
    split_and!; [done|split; cbn; by rewrite ?length_insert|]. unfold pipe_at. cbn. apply lookup_insert_eq.
  - intros []. apply triple_upd_pipe. intros s q [Hs Hq] ?. unfold pipe_at in Hq. simplify_eq.
    destruct (wf_pipes L s Hs pi _ Hq) as [Hl Hr]. cbn in *.
    split_and!; [done|split; [done|]|done]. cbn.
    apply ring_push32; [by unfold PIPESIZE|done|].
    destruct Hr as (Hr & Hw & Hle). unfold u32, PIPESIZE in *. zdiv.
Qed.

Lemma keeps_pipewrite_loop fuel pr pi addr n i : keeps (pipewrite_loop fuel pr pi addr n i).
Proof.
  revert i. induction fuel as [|fuel IH]; intros i; cbn [pipewrite_loop];
    (destruct (i <? n); [|gsolve]); [done|].
  eapply triple_bind; [apply triple_get_pipe|]. intros p. apply triple_pure. intros Hp.
  eapply triple_bind; [apply (triple_at_pipe _ (λ _, True)); [gsolve|]|].
  { destruct (pi_readopen p); [apply steady_killed|apply steady_ret]. }
  intros k. apply triple_pure. intros _.
  destruct (negb (k =? 0)); [apply triple_forget; gsolve|].
  destruct (_ =? u32 _) eqn:E; [apply triple_forget; gsolve|]. apply Z.eqb_neq in E.
  eapply triple_bind; [apply (triple_at_pipe _ (λ _, True)); [gsolve|apply steady_get_proc]|].
  intros q. apply triple_pure. intros _.
  eapply triple_bind; [apply (triple_at_pipe _ (λ _, True)); [gsolve|apply steady_copyin]|].
  intros r. apply triple_pure. intros _. destruct (r.1 =? -1); [apply triple_ret; tauto|].
  eapply triple_bind; [apply triple_index|]. intros ch. cbv zeta.
  eapply triple_bind; [apply triple_index|]. intros old.
  eapply triple_bind2; [by apply triple_pipe_put|].
  intros []. apply triple_gives. intros _. gsolve.
Qed.
#[local] Hint Resolve keeps_pipewrite_loop : gives.
Lemma keeps_pipewrite pi addr n : keeps (pipewrite pi addr n).
Proof. unfold pipewrite. gsolve. Qed.

Lemma keeps_pipe_wait n pr pi : keeps (pipe_wait n pr pi).
Proof. induction n; cbn [pipe_wait]; gsolve. Qed.
#[local] Hint Resolve keeps_pipe_wait : gives.
Lemma keeps_piperead_loop n pr pi addr i : keeps (piperead_loop n pr pi addr i).
Proof.
  revert i. induction n as [|n IH]; intros i; cbn [piperead_loop]; [gsolve|].
  eapply triple_bind; [apply triple_get_pipe|]. intros p. apply triple_pure. intros Hp.
  destruct (_ =? _) eqn:E; [apply triple_ret; tauto|]. apply Z.eqb_neq in E.
  eapply triple_bind; [apply triple_index|]. intros ch.
  eapply (triple_bind _ _ _ _ (λ _ s, wf s ∧ True)); [|intros []; apply triple_gives; intros _; gsolve].
  apply triple_upd_pipe. intros s q [Hs Hq] ?. simplify_eq. split_and!; [done| |done].
  destruct Hp as [Hl Hr]. split; [done|]. by apply ring_pop32.
Qed.
#[local] Hint Resolve keeps_piperead_loop : gives.
Lemma keeps_piperead pi addr n : keeps (piperead pi addr n).
Proof. unfold piperead. gsolve. Qed.
#[local] Hint Resolve keeps_pipewrite keeps_piperead : gives.
Lemma keeps_filestat n addr : keeps (filestat n addr).
Proof. unfold filestat. gsolve. Qed.
Lemma keeps_has_dev m : keeps (has_dev m).
Proof. unfold has_dev. gsolve. Qed.
#[local] Hint Resolve keeps_has_dev : gives.
Lemma keeps_fileread n addr cnt : keeps (fileread n addr cnt).
Proof. unfold fileread. gsolve. Qed.
Lemma keeps_filewrite_loop fuel n addr cnt i : keeps (filewrite_loop fuel n addr cnt i).
Proof. revert i. induction fuel; intros i; cbn [filewrite_loop]; gsolve. Qed.
#[local] Hint Resolve keeps_filewrite_loop : gives.
Lemma keeps_filewrite n addr cnt : keeps (filewrite n addr cnt).
Proof. unfold filewrite. gsolve. Qed.
End fs.

(** The rules of this file, for the files that follow. *)
#[export] Hint Resolve keeps_find_buf keeps_bget keeps_bread keeps_bwrite keeps_brelse keeps_bpin keeps_bunpin
  keeps_log_loop keeps_install_trans keeps_write_log keeps_read_head keeps_write_head
  keeps_initlog keeps_begin_op_loop keeps_begin_op keeps_end_op keeps_log_write keeps_fsinit
  keeps_bzero keeps_balloc_loop keeps_balloc keeps_bfree keeps_iget_scan gives_iget gives_idup
  keeps_ialloc_loop keeps_ialloc keeps_iupdate keeps_ilock keeps_iunlock keeps_bmap_slot
  keeps_bmap keeps_itrunc keeps_iput keeps_iunlockput keeps_stati keeps_readi_loop keeps_readi
  keeps_writei_loop keeps_writei keeps_namecmp gives_dirlookup_loop gives_dirlookup
  keeps_find_empty keeps_dirlink gives_namex_loop gives_namex gives_namei gives_nameiparent
  gives_filealloc_loop gives_filealloc gives_filedup keeps_free_pipe keeps_pipeclose
  keeps_fileclose gives_pipealloc_bad keeps_new_pipe gives_pipealloc keeps_pipewrite_loop
  keeps_pipewrite keeps_pipe_wait keeps_piperead_loop keeps_piperead keeps_filestat
  keeps_has_dev keeps_fileread keeps_filewrite_loop keeps_filewrite : gives.
