(* ===== verification/WellformedSys.v ===== *)
(** * The kernel keeps its state well formed: system calls and traps *)

From S2P Require Import Prelude Bytes Memory Riscv Data State Spinlock Csr Kalloc Vm Mlfq Uart Proc Sleeplock Bio Virtio Log Fs Console File Exec Process Syscall Trap VmCopy Hoare Wellformed WellformedKernel WellformedIo WellformedFs.

Local Open Scope Z_scope.

Lemma safestrcpy_length s t n s' : safestrcpy s t n = Some s' → length s' = length s.
Proof.
  unfold safestrcpy. destruct (n <=? 0); [naive_solver|]. revert t s'. generalize (Z.to_nat (n - 1)).
  clear n. intros n. revert s. induction n as [|n IH]; intros [|x s] t s'; cbn; try naive_solver.
  destruct t as [|c t]; [done|]. destruct (c =? 0); [destruct s; naive_solver|].
  destruct (safestrcpy_loop s t n) eqn:E; naive_solver.
Qed.

Section sys.
Context (L : list nat → Prop) (HL : lru_closed L) `{Image} `{Disk} `{!DiskKeeps L}.
Notation wf := (wf_but L).
Notation keeps m := (gives wf m (λ _, True)).

(** ** Processes *)

Lemma keeps_set_name i p t name :
  proc_wf p → safestrcpy (p_name p) t 16 = Some name → keeps (upd_proc i (set_p_name name)).
Proof.
  intros Hp Hn. apply safestrcpy_length in Hn. by_rule gives_upd_proc.
  intros q []. destruct Hp. constructor; cbn; try done. by rewrite Hn.
Qed.
Lemma keeps_set_fd i fd o :
  pointer NFILE o → keeps (upd_proc i (λ p, set_p_ofile (<[fd := o]> (p_ofile p)) p)).
Proof.
  intros Ho. by_rule gives_upd_proc. intros q [? ? ? ? [? ?]]. constructor; cbn; try done.
  rewrite length_insert. split; [done|]. by apply Forall_insert.
Qed.

Lemma keeps_userinit : keeps userinit.
Proof. unfold userinit. gsolve. eapply keeps_set_name; [|done]. tauto. Qed.
Lemma keeps_dup_fd i np fd : keeps (dup_fd i np fd).
Proof. unfold dup_fd. gsolve. apply keeps_set_fd. auto. Qed.
#[local] Hint Resolve keeps_dup_fd : gives.
Lemma keeps_fork : keeps fork.
Proof. unfold fork. gsolve. eapply keeps_set_name; [|done]. tauto. Qed.
Lemma keeps_close_fd i fd : keeps (close_fd i fd).
Proof. unfold close_fd. gsolve. by apply keeps_set_fd. Qed.
#[local] Hint Resolve keeps_close_fd : gives.
Lemma keeps_exit status : is_i32 status → keeps (exit status).
Proof. intros Hst. unfold exit. gsolve. Qed.

(** ** [exec] *)

Lemma keeps_loadseg_loop fuel pt va ip off sz i : keeps (loadseg_loop fuel pt va ip off sz i).
Proof. revert i. induction fuel; intros i; cbn [loadseg_loop]; gsolve. Qed.
#[local] Hint Resolve keeps_loadseg_loop : gives.
Lemma keeps_loadseg pt va ip off sz : keeps (loadseg pt va ip off sz).
Proof. unfold loadseg. gsolve. Qed.
Lemma keeps_exec_bad pt sz ip : keeps (exec_bad pt sz ip).
Proof. unfold exec_bad. gsolve. Qed.
#[local] Hint Resolve keeps_loadseg keeps_exec_bad : gives.
Lemma keeps_load_segments n pt ip off sz : keeps (load_segments n pt ip off sz).
Proof. revert off sz. induction n; intros off sz; cbn [load_segments]; gsolve. Qed.
Lemma keeps_push_args fuel pt base argv argc sp l : keeps (push_args fuel pt base argv argc sp l).
Proof. revert argc sp l. induction fuel; intros argc sp l; cbn [push_args]; gsolve. Qed.
#[local] Hint Resolve keeps_load_segments keeps_push_args : gives.
Lemma keeps_build_stack pt sz argv : keeps (build_stack pt sz argv).
Proof. unfold build_stack. gsolve. Qed.
#[local] Hint Resolve keeps_build_stack : gives.
Lemma keeps_exec path argv : keeps (exec path argv).
Proof. unfold exec. gsolve. eapply keeps_set_name; [|done]. tauto. Qed.
#[local] Hint Resolve keeps_userinit keeps_fork keeps_exec : gives.

(** ** System calls *)

Lemma keeps_fetchaddr addr : keeps (fetchaddr addr).
Proof. unfold fetchaddr. gsolve. Qed.
Lemma keeps_fetchstr addr max : keeps (fetchstr addr max).
Proof. unfold fetchstr. gsolve. Qed.
Lemma keeps_argraw n : keeps (argraw n).
Proof. unfold argraw. gsolve. Qed.
#[local] Hint Resolve keeps_fetchaddr keeps_fetchstr keeps_argraw : gives.
Lemma gives_argint n : gives wf (argint n) is_i32.
Proof. unfold argint. gsolve. Qed.
Lemma keeps_argaddr n : keeps (argaddr n).
Proof. unfold argaddr. gsolve. Qed.
#[local] Hint Resolve gives_argint keeps_argaddr : gives.
Lemma keeps_argstr n max : keeps (argstr n max).
Proof. unfold argstr. gsolve. Qed.
#[local] Hint Resolve keeps_argstr keeps_exit : gives.
Lemma keeps_sys_exit : keeps sys_exit.
Proof. unfold sys_exit. gsolve. Qed.
Lemma keeps_sys_getpid : keeps sys_getpid.
Proof. unfold sys_getpid. gsolve. Qed.
Lemma keeps_sys_wait : keeps sys_wait.
Proof. unfold sys_wait. gsolve. Qed.
Lemma keeps_sys_sbrk : keeps sys_sbrk.
Proof. unfold sys_sbrk. gsolve. Qed.
Lemma keeps_sys_sleep_loop fuel t n : keeps (sys_sleep_loop fuel t n).
Proof. induction fuel; cbn [sys_sleep_loop]; gsolve. Qed.
#[local] Hint Resolve keeps_sys_sleep_loop : gives.
Lemma keeps_sys_sleep : keeps sys_sleep.
Proof. unfold sys_sleep. gsolve. Qed.
Lemma keeps_sys_kill : keeps sys_kill.
Proof. unfold sys_kill, kill. gsolve. Qed.
Lemma keeps_sys_uptime : keeps sys_uptime.
Proof. unfold sys_uptime. gsolve. Qed.
Lemma keeps_sys_getpstat : keeps sys_getpstat.
Proof. unfold sys_getpstat. gsolve. Qed.
Lemma keeps_sys_getpinfo : keeps sys_getpinfo.
Proof. unfold sys_getpinfo. gsolve. Qed.
Lemma keeps_sys_setpriority : keeps sys_setpriority.
Proof. unfold sys_setpriority. gsolve. Qed.

Lemma proc_wf_fd p i f : proc_wf p → p_ofile p !! i = Some (Some f) → (f < NFILE)%nat.
Proof. intros [? ? ? ? [_ HF]] Hi. eapply Forall_lookup_1 in HF; [|done]. by apply HF. Qed.
Lemma gives_argfd n :
  gives wf (argfd n) (λ r, ∀ fd f, r = Some (fd, f) → (f < NFILE)%nat).
Proof.
  unfold argfd. gsolve; [done|]. intros fd f. case_match; [|done]. intros [= <- <-].
  eapply proc_wf_fd; intuition eauto.
Qed.
Lemma keeps_fdalloc_loop l i f : (f < NFILE)%nat → keeps (fdalloc_loop l i f).
Proof. intros Hf. induction l; cbn [fdalloc_loop]; gsolve. apply keeps_set_fd. auto. Qed.
#[local] Hint Resolve gives_argfd keeps_fdalloc_loop : gives.
Lemma keeps_fdalloc f : (f < NFILE)%nat → keeps (fdalloc f).
Proof. intros Hf. unfold fdalloc. gsolve. Qed.
#[local] Hint Resolve keeps_fdalloc : gives.
Lemma keeps_sys_dup : keeps sys_dup.
Proof. unfold sys_dup. gsolve. all: apply keeps_fdalloc; naive_solver. Qed.
Lemma keeps_sys_read : keeps sys_read.
Proof. unfold sys_read. gsolve. Qed.
Lemma keeps_sys_write : keeps sys_write.
Proof. unfold sys_write. gsolve. Qed.
Lemma keeps_clear_fd i fd : keeps (clear_fd i fd).
Proof. unfold clear_fd. by apply keeps_set_fd. Qed.
#[local] Hint Resolve keeps_clear_fd : gives.
Lemma keeps_sys_close : keeps sys_close.
Proof. unfold sys_close. gsolve. Qed.
Lemma keeps_sys_fstat : keeps sys_fstat.
Proof. unfold sys_fstat. gsolve. Qed.
Lemma keeps_add_nlink n d : keeps (add_nlink n d).
Proof. unfold add_nlink. gsolve. Qed.
#[local] Hint Resolve keeps_add_nlink : gives.
Lemma keeps_link_bad ip : keeps (link_bad ip).
Proof. unfold link_bad. gsolve. Qed.
#[local] Hint Resolve keeps_link_bad : gives.
Lemma keeps_sys_link : keeps sys_link.
Proof. unfold sys_link, uninit. gsolve. Qed.
Lemma keeps_isdirempty_loop fuel dp off : keeps (isdirempty_loop fuel dp off).
Proof. revert off. induction fuel; intros off; cbn [isdirempty_loop]; gsolve. Qed.
#[local] Hint Resolve keeps_isdirempty_loop : gives.
Lemma keeps_isdirempty dp : keeps (isdirempty dp).
Proof. unfold isdirempty. gsolve. Qed.
Lemma keeps_unlink_bad dp : keeps (unlink_bad dp).
Proof. unfold unlink_bad. gsolve. Qed.
#[local] Hint Resolve keeps_isdirempty keeps_unlink_bad : gives.
Lemma keeps_sys_unlink : keeps sys_unlink.
Proof. unfold sys_unlink, uninit. gsolve. Qed.
Lemma keeps_create_fail ip dp : keeps (create_fail ip dp).
Proof. unfold create_fail. gsolve. Qed.
Lemma keeps_link_dots ip dp : keeps (link_dots ip dp).
Proof. unfold link_dots. gsolve. Qed.
#[local] Hint Resolve keeps_create_fail keeps_link_dots : gives.
Lemma keeps_create path type major minor : keeps (create path type major minor).
Proof. unfold create, uninit. gsolve. Qed.
#[local] Hint Resolve keeps_create : gives.
Lemma keeps_open_inode path omode : keeps (open_inode path omode).
Proof. unfold open_inode. gsolve. Qed.
#[local] Hint Resolve keeps_open_inode : gives.
Lemma file_wf_open ip d omode f : (ip < NINODE)%nat → file_wf f → file_wf (open_file ip d omode f).
Proof.
  intros Hip (? & ? & ?). unfold open_file, file_wf. destruct (i_type d =? T_DEVICE); cbn;
    split_and!; auto; unfold is_u32; lia.
Qed.
Lemma keeps_sys_open : keeps sys_open.
Proof.
  unfold sys_open. gsolve. all: first [apply keeps_fdalloc; naive_solver|by_rule gives_upd_file].
  intros f Hf. apply file_wf_open; tauto.
Qed.
Lemma keeps_sys_mkdir : keeps sys_mkdir.
Proof. unfold sys_mkdir. gsolve. Qed.
Lemma keeps_sys_mknod : keeps sys_mknod.
Proof. unfold sys_mknod. gsolve. Qed.
Lemma keeps_sys_chdir : keeps sys_chdir.
Proof. unfold sys_chdir. gsolve. Qed.
Lemma keeps_fetch_args fuel uargv i argv : keeps (fetch_args fuel uargv i argv).
Proof. revert i argv. induction fuel; intros i argv; cbn [fetch_args]; gsolve. Qed.
Lemma keeps_free_args argv : keeps (free_args argv).
Proof. induction argv; cbn [free_args]; gsolve. Qed.
#[local] Hint Resolve keeps_fetch_args keeps_free_args : gives.
Lemma keeps_sys_exec : keeps sys_exec.
Proof. unfold sys_exec. gsolve. Qed.
Lemma keeps_sys_pipe : keeps sys_pipe.
Proof. unfold sys_pipe. gsolve. all: apply keeps_fdalloc; naive_solver. Qed.
#[local] Hint Resolve keeps_sys_exit keeps_sys_getpid keeps_sys_wait keeps_sys_sbrk keeps_sys_sleep
  keeps_sys_kill keeps_sys_uptime keeps_sys_getpstat keeps_sys_getpinfo keeps_sys_setpriority
  keeps_sys_dup keeps_sys_read keeps_sys_write keeps_sys_close keeps_sys_fstat keeps_sys_link
  keeps_sys_unlink keeps_sys_open keeps_sys_mkdir keeps_sys_mknod keeps_sys_chdir keeps_sys_exec
  keeps_sys_pipe : gives.

Lemma keeps_handler num m : syscalls num = Some m → keeps m.
Proof. unfold syscalls, sys_fork. intros Hm. repeat case_match; simplify_eq; gives_leaf. Qed.
#[local] Hint Resolve keeps_handler : gives.
Lemma keeps_syscall : keeps syscall.
Proof. unfold syscall. gsolve. Qed.
#[local] Hint Resolve keeps_syscall : gives.

(** ** Traps *)

Section trap.
Context `{Device}.

Lemma keeps_read_csr f : keeps (read_csr f).
Proof. unfold read_csr. gsolve. Qed.
#[local] Hint Resolve keeps_read_csr : gives.
Lemma keeps_r_sstatus : keeps r_sstatus.
Proof. unfold r_sstatus. gsolve. Qed.
Lemma keeps_w_sstatus x : keeps (w_sstatus x).
Proof. unfold w_sstatus. gsolve. Qed.
#[local] Hint Resolve keeps_r_sstatus keeps_w_sstatus : gives.
Lemma keeps_devintr : keeps devintr.
Proof. unfold devintr, r_scause, r_sip, w_sip, plic_claim, plic_complete, cpuid. gsolve. Qed.
Lemma keeps_usertrapret : keeps usertrapret.
Proof. unfold usertrapret, w_stvec, r_satp, r_tp, w_sepc. gsolve. Qed.
Lemma keeps_end_tick w : keeps (end_tick w).
Proof. unfold end_tick. gsolve. Qed.
Lemma keeps_unexpected_trap i : keeps (unexpected_trap i).
Proof. unfold unexpected_trap, r_scause, r_sepc, r_stval. gsolve. Qed.
#[local] Hint Resolve keeps_devintr keeps_usertrapret keeps_end_tick keeps_unexpected_trap : gives.
Lemma keeps_exit_killed : keeps (exit (-1)).
Proof. by apply keeps_exit. Qed.
#[local] Hint Resolve keeps_exit_killed : gives.
Lemma keeps_usertrap : keeps usertrap.
Proof. unfold usertrap, w_stvec, r_sepc, r_scause. gsolve. Qed.
Lemma keeps_kerneltrap : keeps kerneltrap.
Proof. unfold kerneltrap, r_sepc, r_scause, r_stval, w_sepc. gsolve. Qed.
Lemma keeps_forkret : keeps forkret.
Proof. unfold forkret. gsolve. Qed.

(** ** Start-up *)

Lemma keeps_main_other : keeps main_other.
Proof. unfold main_other, trapinithart, w_stvec, plicinithart, cpuid. gsolve. Qed.
End trap.
End sys.
