(* ===== verification/WellformedProps.v ===== *)
(** * The kernel's state is well formed: theorems *)

From S2P Require Import Prelude Bytes Memory Riscv Data State Spinlock Csr Kalloc Vm Mlfq MlfqFacts MlfqSys MlfqProps Uart Proc Sleeplock Bio Virtio Log Fs Console File Exec Process Syscall Trap TrapFacts BootVm BootFacts Hoare KallocProps DiskProps Wellformed WellformedKernel WellformedIo WellformedFs WellformedSys.

Local Open Scope Z_scope.

(** The state where the code returns or is switched out is well formed. *)
Definition ends_wf {A} (o : outcome A) : Prop :=
  match o with Ok _ _ s' | Away s' => kernel_wf s' | _ => True end.

Lemma ends_wf_gives {A} (m : K A) φ e s :
  gives kernel_wf m φ → Forall (λ w : kstate → kstate, ∀ s, kernel_wf s → kernel_wf (w s)) e →
  kernel_wf s → ends_wf (m e s).
Proof.
  intros Hm He Hs. specialize (Hm (λ w, ∀ s, kernel_wf s → kernel_wf (w s))).
  specialize (Hm ltac:(naive_solver) e s He Hs). unfold ends_wf. destruct (m e s); naive_solver.
Qed.

(** ** Start-up *)

(** [m] run by hart 0 while no other code runs. *)
Definition alone {A} (m : K A) (s : kstate) (Q : kstate → Prop) : Prop :=
  match m [] s with Ok _ e s' => e = [] ∧ Q s' | _ => True end.

Lemma alone_bind {A B} (m : K A) (f : A → K B) s Q R :
  alone m s Q → (∀ a s', Q s' → alone (f a) s' R) → alone (m ≫= f) s R.
Proof.
  unfold alone, mbind, K_bind. intros Hm Hf. destruct (m [] s) as [a e s'| | | | |]; try done.
  destruct Hm as [-> Hs']. by apply Hf.
Qed.

Lemma alone_gives {A} (I : kstate → Prop) (m : K A) φ s : gives I m φ → I s → alone m s I.
Proof.
  intros Hm Hs. specialize (Hm (λ _, False) ltac:(done) [] s (Forall_nil_2 _) Hs). unfold alone.
  destruct (m [] s) as [a e s'| | | | |]; try done. destruct Hm as (He & Hs' & _).
  split; [|done]. by destruct He.
Qed.

Lemma alone_modify f s (Q : kstate → Prop) : Q (f s) → alone (modify f) s Q.
Proof. by split. Qed.

Lemma alone_mono {A} (m : K A) s (Q R : kstate → Prop) :
  alone m s Q → (∀ s', Q s' → R s') → alone m s R.
Proof. unfold alone. intros Hm HQ. destruct (m [] s); naive_solver. Qed.

Lemma alone_returns {A} (m : K A) s a s' (Q : kstate → Prop) :
  alone m s Q → returns m s a s' → Q s'.
Proof. unfold alone. intros Hm Hret. rewrite Hret in Hm. by apply Hm. Qed.

(** The list of buffers, while [binit] builds it. *)
Lemma binit_builds l l0 s :
  wf_but (eq l0) s →
  alone (for_each l (λ n, initsleeplock (SlBuf n) ;; modify (λ s, set_k_lru (n :: k_lru s) s))) s
    (wf_but (eq (rev l ++ l0))).
Proof.
  revert l0 s. induction l as [|n l IH]; intros l0 s Hs; [done|]. cbn [for_each rev].
  rewrite <- (assoc_L (++)). eapply (alone_bind _ _ _ (wf_but (eq (n :: l0)))); [|intros _; apply IH].
  eapply alone_bind; [eapply alone_gives; [apply keeps_initsleeplock|exact Hs]|].
  intros [] s' []. apply alone_modify. constructor; try done. cbn. congruence.
Qed.

Lemma binit_wf s : wf_but (λ _, True) s → alone binit s kernel_wf.
Proof.
  intros Hs. unfold binit.
  eapply alone_bind; [eapply alone_gives; [apply keeps_initlock|exact Hs]|]. intros [] s1 H1.
  eapply (alone_bind _ _ _ (wf_but (eq []))).
  { eapply alone_modify. destruct H1. by constructor. }
  intros [] s2 H2. eapply alone_mono; [apply (binit_builds (seq 0 NBUF) [] s2 H2)|].
  intros s' []; constructor; try done. rewrite app_nil_r in wf_lru. unfold lru_wf.
  rewrite <- wf_lru. symmetry. apply Permutation_rev.
Qed.

Section props.
Context `{Image} `{Device}.
#[local] Existing Instance virtio_disk.
#[local] Existing Instance virtio_disk_keeps.

(** C3: the kernel keeps its state well formed.  In every state that well-formed states
    lead to through a trap from user or kernel mode, the first return of a new process or
    the scheduler's loop, also where the code is switched out, the tables have their
    sizes, priorities are queues, integers are in the range of their types, indices that
    stand for pointers are valid, every buffer is once in the list of the cache, and the
    rings of the console, the UART and the pipes hold no more bytes than they have room
    for, provided that the code that runs in between keeps this too. *)
Theorem kernel_keeps_wf (e : schedule) (s : kstate) :
  Forall (λ w : kstate → kstate, ∀ s, kernel_wf s → kernel_wf (w s)) e → kernel_wf s →
  ends_wf (usertrap e s) ∧ ends_wf (kerneltrap e s) ∧ ends_wf (forkret e s) ∧
  ∀ n, ends_wf (scheduler n e s).
Proof.
  intros He Hs. split_and!; [| | |intros n]; (eapply ends_wf_gives; [|done|done]).
  - apply (keeps_usertrap lru_wf lru_wf_closed).
  - apply (keeps_kerneltrap lru_wf).
  - apply (keeps_forkret lru_wf lru_wf_closed).
  - apply keeps_scheduler.
Qed.

(** Where [main] of hart 0 enters the scheduler, the state is well formed. *)
Lemma main_alone (s : kstate) : wf_but (λ _, True) s → alone main_first s kernel_wf.
Proof.
  intros Hs. unfold main_first.
  do 13 (eapply (alone_bind _ _ _ (wf_but (λ _, True)));
    [eapply alone_gives; [|exact Hs]; unfold trapinit, trapinithart, w_stvec, plicinit,
       plicinithart, cpuid; gsolve
    |clear s Hs; intros [] s Hs]).
  eapply alone_bind; [by apply binit_wf|]. clear s Hs. intros [] s Hs.
  do 3 (eapply (alone_bind _ _ _ kernel_wf);
    [eapply alone_gives; [|exact Hs]; unfold iinit, fileinit, kernel_wf; gsolve
    |clear s Hs; intros [] s Hs]).
  eapply (alone_bind _ _ _ kernel_wf);
    [eapply alone_gives; [apply (keeps_userinit lru_wf lru_wf_closed)|exact Hs]|].
  clear s Hs. intros [] s Hs. apply alone_modify. by destruct Hs; constructor.
Qed.

(** C11: start-up succeeds and establishes the invariant.  Hart 0 runs [main] on the memory
    that the loader has left: unused tables, [nextpid] 1, no page on the free list, no lock
    held, no write to the disk's queue yet ([starting]).  If the
    image has the layout of [kernel.ld] and leaves 160 pages, and the disk is at [VIRTIO0],
    no function panics, runs out of memory or waits, and [main] reaches the scheduler.  The
    state is then well formed, no lock is held, and the process table has one process, of
    pid 1, ready to run in the highest queue with the root as its directory. *)
Theorem boot_establishes_wf {HI : ImageOk} {HF : ImageFits} {HD : DiskPresent} (s : kstate) :
  wf_but (λ _, True) s → starting false [] s →
  ∃ s', returns main_first s tt s' ∧ kernel_wf s' ∧ started s'.
Proof.
  intros Hwf Hs. destruct (completes_main_first s Hs) as ([] & s' & Hret & Hst).
  exists s'. split; [exact Hret|]. split; [|exact Hst].
  exact (alone_returns _ _ _ _ _ (main_alone s Hwf) Hret).
Qed.
End props.

(** ** Examples *)

Lemma initial_wf_but : wf_but (λ _, True) initial_kstate.
Proof.
  constructor; cbn [initial_kstate k_hart k_cpus k_csrs k_locks k_procs k_initproc k_nextpid k_ticks
    k_bufs k_lru k_log k_inodes k_files k_pipes k_devsw k_cons k_uart k_vdisk];
    rewrite ?length_replicate; try (split; [done|apply Forall_replicate]); try done.
  - unfold NCPU. lia.
  - constructor; cbn; unfold NMLFQ; auto; try lia; [intuition auto|].
    split; [done|]. apply (Forall_replicate (pointer NFILE) NOFILE None), pointer_None.
Qed.

(** The last value that was written to a register. *)
Definition last_write (a : Z) (l : list (Z * Z)) : Z :=
  match list_find (λ w : Z * Z, w.1 = a) l with Some (_, (_, v)) => v | None => 0 end.

(** The registers of QEMU's disk. *)
Definition example_disk : Device := λ a s,
  if a =? R VIRTIO_MMIO_MAGIC_VALUE then 0x74726976 else
  if a =? R VIRTIO_MMIO_VERSION then 2 else
  if a =? R VIRTIO_MMIO_DEVICE_ID then 2 else
  if a =? R VIRTIO_MMIO_VENDOR_ID then 0x554d4551 else
  if a =? R VIRTIO_MMIO_QUEUE_NUM_MAX then 1024 else
  last_write a (k_mmio s).

Lemma example_disk_present : @DiskPresent example_disk.
Proof.
  constructor.
  - by intros s.
  - intros s v l Hl Hv. change (mmio_reg (R VIRTIO_MMIO_STATUS) s) with
      (last_write (R VIRTIO_MMIO_STATUS) (k_mmio s)). by rewrite Hl.
  - intros s Hall. change (mmio_reg (R VIRTIO_MMIO_QUEUE_READY) s) with
      (last_write (R VIRTIO_MMIO_QUEUE_READY) (k_mmio s)).
    unfold last_write. by rewrite (proj2 (list_find_None _ _) Hall).
  - by intros s.
Qed.

Lemma example_image_fits : @ImageFits example_image.
Proof. constructor; by vm_compute. Qed.

Lemma initial_starting : @starting example_image false [] initial_kstate.
Proof.
  constructor; cbn [initial_kstate k_procs k_inodes k_csrs k_hart k_mmio]; try done.
  - apply boot_initial.
  - split; [done|constructor].
  - split; [done|]. by apply Forall_replicate.
  - split; [done|]. by apply Forall_replicate.
Qed.

Lemma boot_establishes_wf_witness :
  ∃ s', returns (@main_first example_image (@virtio_disk example_disk) example_disk) initial_kstate tt s' ∧
    kernel_wf s' ∧ started s'.
Proof.
  apply (@boot_establishes_wf example_image example_disk example_image_ok example_image_fits
    example_disk_present initial_kstate); [apply initial_wf_but|apply initial_starting].
Defined.

(** A process in user mode, at a timer interrupt. *)
Definition example_interrupted : kstate :=
  set_k_csrs (replicate NCPU (set_csr_scause 0x8000000000000001 zero_csr))
    (set_k_lru (seq 0 NBUF) (running_three (set_p_trapframe 0x87fff000 zero_proc))).

Lemma example_interrupted_wf : kernel_wf example_interrupted.
Proof.
  destruct initial_wf_but. constructor; try done.
  - split; [done|]. apply Forall_alter; [by destruct wf_cpus|]. intros c _ _ n [= <-]. unfold NPROC. lia.
  - split; [done|]. apply with_procs_Forall.
    + destruct wf_procs as [_ Hall]. by eapply (Forall_lookup_1 _ _ 0).
    + apply list.Forall_singleton. destruct wf_procs as [_ Hall].
      assert (proc_wf zero_proc) as [] by (by eapply (Forall_lookup_1 _ _ 0)). by constructor.
  - apply Permutation_refl.
Qed.

Lemma example_interrupted_away :
  ∃ s', @usertrap example_image (@virtio_disk example_disk) [] example_interrupted = Away s'.
Proof.
  pose (p := set_p_trapframe 0x87fff000 zero_proc).
  assert (no_tick_sleeper (k_procs example_interrupted)) as Hns.
  { apply (with_procs_Forall (λ p, p_state p = SLEEPING → p_chan p ≠ Some ChTicks)); [done|].
    by apply list.Forall_singleton. }
  destruct (@usertrap_timer example_image (@virtio_disk example_disk) 3 (set_p_state RUNNING p)
    (set_csr_scause 0x8000000000000001 zero_csr) example_interrupted
    (running_running_three p) eq_refl eq_refl Hns eq_refl ltac:(done) eq_refl eq_refl eq_refl)
    as (_ & _ & s' & Haway & _).
  exists s'. exact Haway.
Qed.

Lemma kernel_keeps_wf_witness :
  ∃ s', @usertrap example_image (@virtio_disk example_disk) [] example_interrupted = Away s' ∧
    kernel_wf s'.
Proof.
  destruct example_interrupted_away as [s' Haway]. exists s'. split; [exact Haway|].
  pose proof (proj1 (@kernel_keeps_wf example_image example_disk [] example_interrupted
    (Forall_nil_2 _) example_interrupted_wf)) as Hends.
  rewrite Haway in Hends. exact Hends.
Defined.
