(* ===== verification/User.v ===== *)
(** * User programs: system calls and the monad

    A user program sees the kernel as the system calls of [user/user.h].  A program is
    written in the monad [U], over any world that serves the calls; strings and arrays
    of its memory are values that the code passes along.  A loop of a program that
    does not end with its data takes its bound from the monad: [runs] and [exits]
    say that some bound is enough. *)

From S2P Require Import Prelude Bytes.

Local Open Scope Z_scope.

(** ** System calls *)

Inductive call :=
  | SysFork | SysWait | SysPipe
  | SysWrite (fd : Z) (data : list Z)
  | SysRead (fd n : Z)
  | SysClose (fd : Z)
  | SysKill (pid : Z)
  | SysExec (path : list Z) (argv : list (list Z))
  | SysOpen (path : list Z) (mode : Z)
  | SysMknod (path : list Z) (major minor : Z)
  | SysUnlink (path : list Z)
  | SysFstat (fd : Z)
  | SysLink (old new : list Z)
  | SysMkdir (path : list Z)
  | SysChdir (path : list Z)
  | SysDup (fd : Z)
  | SysGetpid
  | SysSbrk (n : Z)
  | SysSleep (n : Z)
  | SysUptime
  | SysGetpinfo
  | SysSetpriority (pid priority : Z)
  | SysGetpstat.

(** What comes back: the value returned, and what is stored through the pointer that
    the call was given. *)
Record reply := mkReply { r_ret : Z; r_out : list Z }.

(** The rest of the system.  A call without a reply does not return: an [exec] that
    succeeds, or a call that waits forever. *)
Class Os (W : Type) := serve : call → W → option (reply * W).

(** ** The monad *)

Inductive uresult (W A : Type) :=
  | Done (a : A) (w : W)
  | Exited (status : Z) (w : W)
  | Gone (w : W)
  | Crashed
  | Unfinished.
Arguments Done {_ _} _ _.
Arguments Exited {_ _} _ _.
Arguments Gone {_ _} _.
Arguments Crashed {_ _}.
Arguments Unfinished {_ _}.

Definition U (W A : Type) : Type := nat → W → uresult W A.

#[export] Instance U_ret {W} : MRet (U W) := λ A a fuel w, Done a w.

#[export] Instance U_bind {W} : MBind (U W) := λ A B f m fuel w,
  match m fuel w with
  | Done a w' => f a fuel w'
  | Exited st w' => Exited st w'
  | Gone w' => Gone w'
  | Crashed => Crashed
  | Unfinished => Unfinished
  end.

Section operations.
Context {W : Type}.

(** An access out of bounds. *)
Definition crash {A} : U W A := λ _ _, Crashed.

(** A loop that is cut short. *)
Definition unfinished {A} : U W A := λ _ _, Unfinished.

(** [exit] *)
Definition exit {A} (status : Z) : U W A := λ _ w, Exited status w.

(** The bound for a loop. *)
Definition bounded {A} (m : nat → U W A) : U W A := λ fuel, m fuel fuel.

Definition uwhen (b : bool) (m : U W unit) : U W unit := if b then m else mret tt.

Fixpoint ufor {A} (l : list A) (body : A → U W unit) : U W unit :=
  match l with
  | [] => mret tt
  | x :: l' => body x ;; ufor l' body
  end.

(** An element of an array. *)
Definition uindex {A} (l : list A) (i : Z) : U W A :=
  if i <? 0 then crash else
  match l !! Z.to_nat i with Some x => mret x | None => crash end.
End operations.

Section system_calls.
Context {W : Type} {OS : Os W}.

Definition syscall (c : call) : U W reply := λ _ w,
  match serve c w with Some (r, w') => Done r w' | None => Gone w end.

Definition sys (c : call) : U W Z := r ← syscall c; mret (r_ret r).

Definition fork : U W Z := sys SysFork.
Definition wait : U W Z := sys SysWait.
Definition write (fd : Z) (data : list Z) : U W Z := sys (SysWrite fd data).
Definition close (fd : Z) : U W Z := sys (SysClose fd).
Definition kill (pid : Z) : U W Z := sys (SysKill pid).
Definition exec (path : list Z) (argv : list (list Z)) : U W Z := sys (SysExec path argv).
Definition open (path : list Z) (mode : Z) : U W Z := sys (SysOpen path mode).
Definition mknod (path : list Z) (major minor : Z) : U W Z := sys (SysMknod path major minor).
Definition unlink (path : list Z) : U W Z := sys (SysUnlink path).
Definition link (old new : list Z) : U W Z := sys (SysLink old new).
Definition mkdir (path : list Z) : U W Z := sys (SysMkdir path).
Definition chdir (path : list Z) : U W Z := sys (SysChdir path).
Definition dup (fd : Z) : U W Z := sys (SysDup fd).
Definition getpid : U W Z := sys SysGetpid.
Definition sbrk (n : Z) : U W Z := sys (SysSbrk n).
Definition sleep (n : Z) : U W Z := sys (SysSleep n).
Definition uptime : U W Z := sys SysUptime.

(** Calls that store: the value returned, and the bytes stored. *)
Definition read (fd n : Z) : U W (Z * list Z) :=
  r ← syscall (SysRead fd n); mret (r_ret r, take (Z.to_nat n) (r_out r)).
Definition pipe : U W (Z * Z * Z) :=
  r ← syscall SysPipe; mret (r_ret r, i32 (get32 (r_out r) 0), i32 (get32 (r_out r) 4)).
Definition fstat (fd : Z) : U W (Z * list Z) :=
  r ← syscall (SysFstat fd); mret (r_ret r, r_out r).
Definition getpinfo : U W (Z * list Z) := r ← syscall SysGetpinfo; mret (r_ret r, r_out r).
Definition getpstat : U W (Z * list Z) := r ← syscall SysGetpstat; mret (r_ret r, r_out r).
End system_calls.

(** ** Equality of programs *)

(** Programs that do the same in every world. *)
#[export] Instance U_equiv {W A} : Equiv (U W A) := λ m m', ∀ fuel w, m fuel w = m' fuel w.

#[export] Instance U_equivalence {W A} : Equivalence (≡@{U W A}).
Proof. split; [done|by intros m m' H fuel w|]. intros m1 m2 m3 H1 H2 fuel w. by rewrite H1, H2. Qed.

#[export] Instance U_bind_proper {W A B} :
  Proper (pointwise_relation A (≡) ==> (≡) ==> (≡)) (@mbind (U W) _ A B).
Proof.
  intros f f' Hf m m' Hm fuel w. unfold mbind, U_bind. rewrite Hm.
  destruct (m' fuel w); try done. apply Hf.
Qed.

Lemma U_bind_assoc {W A B C} (m : U W A) (f : A → U W B) (g : B → U W C) :
  (m ≫= f) ≫= g ≡ m ≫= (λ a, f a ≫= g).
Proof. intros fuel w. unfold mbind, U_bind. by destruct (m fuel w). Qed.

Lemma U_ret_bind {W A B} (a : A) (f : A → U W B) : (mret a : U W A) ≫= f ≡ f a.
Proof. done. Qed.

Lemma ufor_app {W A} (l l' : list A) (body : A → U W unit) :
  ufor (l ++ l') body ≡ (ufor l body ;; ufor l' body).
Proof.
  induction l as [|x l IH]; cbn [ufor app]; [by rewrite U_ret_bind|].
  rewrite U_bind_assoc. f_equiv. intros []. apply IH.
Qed.

(** ** Reasoning *)

(** With a large enough bound, the program returns, or exits. *)
Definition runs {W A} (m : U W A) (w : W) (a : A) (w' : W) : Prop :=
  ∃ n, ∀ fuel, (n ≤ fuel)%nat → m fuel w = Done a w'.
Definition exits {W A} (m : U W A) (w : W) (st : Z) (w' : W) : Prop :=
  ∃ n, ∀ fuel, (n ≤ fuel)%nat → m fuel w = Exited st w'.

Create HintDb runs.

Section rules.
Context {W : Type}.
Implicit Types (w : W).

Lemma runs_ret {A} (a : A) w : runs (mret a) w a w.
Proof. by exists 0%nat. Qed.

Lemma runs_bind {A B} (m : U W A) (f : A → U W B) w a w1 b w2 :
  runs m w a w1 → runs (f a) w1 b w2 → runs (m ≫= f) w b w2.
Proof.
  intros [n1 H1] [n2 H2]. exists (n1 `max` n2)%nat. intros fuel Hf.
  unfold mbind, U_bind. rewrite H1 by lia. apply H2. lia.
Qed.

Lemma exits_bind {A B} (m : U W A) (f : A → U W B) w a w1 st w2 :
  runs m w a w1 → exits (f a) w1 st w2 → exits (m ≫= f) w st w2.
Proof.
  intros [n1 H1] [n2 H2]. exists (n1 `max` n2)%nat. intros fuel Hf.
  unfold mbind, U_bind. rewrite H1 by lia. apply H2. lia.
Qed.

Lemma exits_first {A B} (m : U W A) (f : A → U W B) w st w1 :
  exits m w st w1 → exits (m ≫= f) w st w1.
Proof. intros [n1 H1]. exists n1. intros fuel Hf. unfold mbind, U_bind. by rewrite H1. Qed.

Lemma exits_exit {A} st w : exits (exit (A := A) st) w st w.
Proof. by exists 0%nat. Qed.

(** A loop, by its bound: the rules peel off one turn. *)
Definition loops {A} (m : nat → U W A) w (a : A) (w' : W) : Prop :=
  ∃ n, ∀ k fuel, (n ≤ k)%nat → (n ≤ fuel)%nat → m k fuel w = Done a w'.

Lemma runs_bounded {A} (m : nat → U W A) w a w' : loops m w a w' → runs (bounded m) w a w'.
Proof. intros [n H]. exists n. intros fuel Hf. by apply H. Qed.

Lemma loops_turn {A} (m : nat → U W A) w a w' : loops (λ k, m (S k)) w a w' → loops m w a w'.
Proof. intros [n H]. exists (S n). intros [|k] fuel Hk Hf; [lia|]. apply H; lia. Qed.

Lemma loops_runs {A} (m : U W A) w a w' : runs m w a w' → loops (λ _, m) w a w'.
Proof. intros [n H]. exists n. auto. Qed.

Lemma loops_bind {A B} (m : U W A) (f : nat → A → U W B) w a w1 b w2 :
  runs m w a w1 → loops (λ k, f k a) w1 b w2 → loops (λ k, m ≫= f k) w b w2.
Proof.
  intros [n1 H1] [n2 H2]. exists (n1 `max` n2)%nat. intros k fuel Hk Hf.
  unfold mbind, U_bind. rewrite H1 by lia. apply H2; lia.
Qed.

Lemma runs_equiv {A} (m m' : U W A) w a w' : m ≡ m' → runs m' w a w' → runs m w a w'.
Proof. intros E [n H]. exists n. intros fuel Hf. by rewrite E, H. Qed.

Lemma runs_det {A} (m : U W A) w a b w1 w2 :
  runs m w a w1 → runs m w b w2 → a = b ∧ w1 = w2.
Proof.
  intros [n1 H1] [n2 H2]. pose proof (H1 (n1 `max` n2)%nat ltac:(lia)) as E.
  rewrite H2 in E by lia. by simplify_eq.
Qed.
End rules.
