(* ===== verification/Ulib.v ===== *)
(** * The user library

    [user/ulib.c] and [user/printf.c].  A string is the list of its characters, with the
    NUL that ends it left out; the functions also stop at a NUL inside the list.
    An array is the list of its bytes. *)

From S2P Require Import Prelude Bytes Data User.

Local Open Scope Z_scope.

(** ** [user/ulib.c] *)

(** The character at the start of a string. *)
Definition at0 (s : list Z) : Z := default 0 (head s).

(** The bytes that [strcpy] stores. *)
Definition strcpy (t : list Z) : list Z := cstr t ++ [0].

Fixpoint strcmp (p q : list Z) : Z :=
  match p with
  | [] => 0 - at0 q
  | c :: p' => if negb (c =? 0) && (c =? at0 q) then strcmp p' (tail q) else c - at0 q
  end.

Fixpoint strlen_loop (s : list Z) (n : Z) : Z :=
  match s with
  | [] => n
  | c :: s' => if c =? 0 then n else strlen_loop s' (n + 1)
  end.
Definition strlen (s : list Z) : Z := u32 (strlen_loop s 0).

(** [memset] on the array [l] from offset [dst] on; [None] when it runs out of it. *)
Definition memset (l : list Z) (dst : nat) (c : Z) (n : nat) : option (list Z) :=
  if (dst + n <=? length l)%nat then
    Some (take dst l ++ replicate n (u8 c) ++ drop (dst + n) l)
  else None.

(** The offset of the first [c]. *)
Fixpoint strchr (s : list Z) (c : Z) : option nat :=
  match s with
  | [] => None
  | x :: s' =>
      if x =? 0 then None else
      if x =? c then Some 0%nat else S <$> strchr s' c
  end.

Definition atoi_step (n c : Z) : Z := i32 (n * 10 + c - chr "0").
Fixpoint atoi_loop (s : list Z) (n : Z) : Z :=
  match s with
  | [] => n
  | c :: s' =>
      if (chr "0" <=? c) && (c <=? chr "9") then atoi_loop s' (atoi_step n c) else n
  end.
Definition atoi (s : list Z) : Z := atoi_loop s 0.

(** [*dst++ = *src++], [n] times, inside one array. *)
Fixpoint copy_forward (n : nat) (l : list Z) (dst src : nat) : option (list Z) :=
  match n with
  | O => Some l
  | S n' =>
      x ← l !! src;
      if (dst <? length l)%nat then copy_forward n' (<[dst := x]> l) (S dst) (S src) else None
  end.

(** [*--dst = *--src], [n] times, from offsets [dst + n] and [src + n]. *)
Fixpoint copy_backward (n : nat) (l : list Z) (dst src : nat) : option (list Z) :=
  match n with
  | O => Some l
  | S n' =>
      x ← l !! (src + n')%nat;
      if (dst + n' <? length l)%nat
      then copy_backward n' (<[(dst + n')%nat := x]> l) dst src else None
  end.

Definition memmove (l : list Z) (dst src n : nat) : option (list Z) :=
  if (dst <? src)%nat then copy_forward n l dst src else copy_backward n l dst src.

Fixpoint memcmp (p1 p2 : list Z) (n : nat) : option Z :=
  match n with
  | O => Some 0
  | S n' =>
      match p1, p2 with
      | x :: p1', y :: p2' => if negb (x =? y) then Some (x - y) else memcmp p1' p2' n'
      | _, _ => None
      end
  end.

Section ulib.
Context {W : Type} {OS : Os W}.

(** The characters that [gets] reads. *)
Fixpoint gets_loop (room : nat) : U W (list Z) :=
  match room with
  | O => mret []
  | S room' =>
      '(cc, data) ← read 0 1;
      if cc <? 1 then mret [] else
      let c := at0 data in
      if (c =? 10) || (c =? 13) then mret [c]
      else l ← gets_loop room'; mret (c :: l)
  end.

(** [gets]: the buffer afterwards. *)
Definition gets (buf : list Z) (max : nat) : U W (list Z) :=
  l ← gets_loop (max - 1);
  if (length l <? length buf)%nat then mret (splice buf 0 (l ++ [0])) else crash.

Definition stat (n : list Z) : U W (Z * list Z) :=
  fd ← open n O_RDONLY;
  if fd <? 0 then mret (-1, []) else
  r ← fstat fd;
  close fd ;;
  mret r.

(** ** [user/printf.c] *)

Definition digits : list Z := bytes "0123456789ABCDEF".

Definition putc (fd c : Z) : U W unit := write fd [u8 c] ;; mret tt.

(** The digits of [x] from the lowest, at most [room] of them. *)
Fixpoint int_digits (room : nat) (x base : Z) : option (list Z) :=
  match room with
  | O => None
  | S room' =>
      d ← digits !! Z.to_nat (x mod base);
      if x / base =? 0 then Some [d]
      else l ← int_digits room' (x / base) base; Some (d :: l)
  end.

(** The contents of [buf[16]] in [printint]. *)
Definition int_buf (xx base : Z) (sgn : bool) : option (list Z) :=
  let neg := sgn && (xx <? 0) in
  let x := u32 (if neg then - xx else xx) in
  l ← int_digits (if neg then 15 else 16) x base;
  Some (if neg then l ++ [chr "-"] else l).

Definition printint (fd xx base : Z) (sgn : bool) : U W unit :=
  match int_buf xx base sgn with
  | None => crash
  | Some buf => ufor (reverse buf) (putc fd)
  end.

Definition printptr (fd x : Z) : U W unit :=
  putc fd (chr "0") ;;
  putc fd (chr "x") ;;
  ufor (seqZ 0 16) (λ i,
    d ← uindex digits (Z.shiftr (u64 (Z.shiftl x (4 * i))) 60);
    putc fd d).

(** A variable argument: a register, or a string. *)
Inductive varg := VNum (z : Z) | VStr (s : option (list Z)).

Fixpoint vprintf_loop (fd : Z) (state : bool) (fmt : list Z) (ap : list varg) : U W unit :=
  match fmt with
  | [] => mret tt
  | c :: fmt' =>
      if c =? 0 then mret tt else
      if negb state then
        if c =? chr "%" then vprintf_loop fd true fmt' ap
        else putc fd c ;; vprintf_loop fd false fmt' ap
      else if c =? chr "d" then
        match ap with
        | VNum z :: ap' => printint fd (i32 z) 10 true ;; vprintf_loop fd false fmt' ap'
        | _ => crash
        end
      else if c =? chr "l" then
        match ap with
        | VNum z :: ap' => printint fd (i32 (u64 z)) 10 false ;; vprintf_loop fd false fmt' ap'
        | _ => crash
        end
      else if c =? chr "x" then
        match ap with
        | VNum z :: ap' => printint fd (i32 z) 16 false ;; vprintf_loop fd false fmt' ap'
        | _ => crash
        end
      else if c =? chr "p" then
        match ap with
        | VNum z :: ap' => printptr fd (u64 z) ;; vprintf_loop fd false fmt' ap'
        | _ => crash
        end
      else if c =? chr "s" then
        match ap with
        | VStr s :: ap' =>
            ufor (cstr (default (bytes "(null)") s)) (putc fd) ;;
            vprintf_loop fd false fmt' ap'
        | _ => crash
        end
      else if c =? chr "c" then
        match ap with
        | VNum z :: ap' => putc fd (u32 z) ;; vprintf_loop fd false fmt' ap'
        | _ => crash
        end
      else if c =? chr "%" then putc fd c ;; vprintf_loop fd false fmt' ap
      else putc fd (chr "%") ;; putc fd c ;; vprintf_loop fd false fmt' ap
  end.

Definition vprintf (fd : Z) (fmt : list Z) (ap : list varg) : U W unit :=
  vprintf_loop fd false fmt ap.
Definition fprintf (fd : Z) (fmt : list Z) (ap : list varg) : U W unit := vprintf fd fmt ap.
Definition printf (fmt : list Z) (ap : list varg) : U W unit := vprintf 1 fmt ap.
End ulib.

(** A literal whose last character is a newline. *)
Definition line (s : string) : list Z := bytes s ++ [10].
