(* ===== verification/UserFacts.v ===== *)
(** * User programs: a world with an input and outputs, and what [printf] writes *)

From S2P Require Import Prelude Bytes Data User Ulib.

Local Open Scope Z_scope.

(** ** Streams

    A world in which every read takes from one input, and what is written to the
    descriptors 1 and 2 is collected.  A read returns fewer bytes than asked for
    as the list of cuts says, but none only at the end of the input. *)
Record stream := mkStream {
  io_in : list Z; (* what is left of the input *)
  io_cuts : list nat; (* the size of the next reads, less one *)
  io_out : list Z; (* written to descriptor 1 *)
  io_err : list Z; (* written to descriptor 2 *)
}.

(** The size of the next read. *)
Definition cut (cuts : list nat) (n : nat) : nat :=
  match cuts with [] => n | c :: _ => Nat.min (S c) n end.

#[export] Instance stream_os : Os stream := λ c w,
  match c with
  | SysRead _ n =>
      let k := cut (io_cuts w) (Z.to_nat n) in
      let data := take k (io_in w) in
      Some (mkReply (Z.of_nat (length data)) data,
            mkStream (drop k (io_in w)) (tail (io_cuts w)) (io_out w) (io_err w))
  | SysWrite fd data =>
      if fd =? 1 then
        Some (mkReply (Z.of_nat (length data)) [],
              mkStream (io_in w) (io_cuts w) (io_out w ++ data) (io_err w))
      else if fd =? 2 then
        Some (mkReply (Z.of_nat (length data)) [],
              mkStream (io_in w) (io_cuts w) (io_out w) (io_err w ++ data))
      else Some (mkReply (-1) [], w)
  | SysOpen _ _ => Some (mkReply 3 [], w)
  | SysClose _ => Some (mkReply 0 [], w)
  | _ => Some (mkReply (-1) [], w)
  end.

(** The world after writing [l] to descriptor 1. *)
Definition wrote (w : stream) (l : list Z) : stream :=
  mkStream (io_in w) (io_cuts w) (io_out w ++ l) (io_err w).

Lemma stream_wrote_nil w : wrote w [] = w.
Proof. destruct w. unfold wrote. cbn. by rewrite app_nil_r. Qed.
Lemma stream_wrote_app w l l' : wrote (wrote w l) l' = wrote w (l ++ l').
Proof. unfold wrote. cbn. by rewrite app_assoc. Qed.

Lemma runs_write w l : runs (write 1 l) w (Z.of_nat (length l)) (wrote w l).
Proof. by exists 0%nat. Qed.

Lemma runs_read inp cuts o e fd n :
  let k := cut cuts n in
  runs (read fd (Z.of_nat n)) (mkStream inp cuts o e)
    (Z.of_nat (length (take k inp)), take k inp) (mkStream (drop k inp) (tail cuts) o e).
Proof.
  exists 0%nat. intros fuel _. unfold read, syscall, mbind, U_bind, serve, stream_os.
  cbn [io_cuts io_in io_out io_err r_ret r_out]. rewrite Nat2Z.id. unfold mret, U_ret.
  f_equal. f_equal. rewrite take_take. f_equal. unfold cut. destruct cuts; lia.
Qed.

Lemma cut_le cuts n : (cut cuts n ≤ n)%nat.
Proof. unfold cut. destruct cuts; lia. Qed.
Lemma cut_pos cuts n : (0 < n)%nat → (0 < cut cuts n)%nat.
Proof. unfold cut. destruct cuts; lia. Qed.

(** ** What [printf] writes *)

(** The characters of a number. *)
Definition number (xx base : Z) (sgn : bool) : option (list Z) :=
  reverse <$> int_buf xx base sgn.

Definition pointer (x : Z) : option (list Z) :=
  ds ← mapM (λ i, digits !! Z.to_nat (Z.shiftr (u64 (Z.shiftl x (4 * i))) 60)) (seqZ 0 16);
  Some (chr "0" :: chr "x" :: ds).

(** The text of one conversion, and the arguments that are left. *)
Definition convert (c : Z) (ap : list varg) : option (list Z * list varg) :=
  if (c =? chr "d") || (c =? chr "l") || (c =? chr "x") || (c =? chr "p") || (c =? chr "c") then
    match ap with
    | VNum z :: ap' =>
        t ← (if c =? chr "d" then number (i32 z) 10 true
             else if c =? chr "l" then number (i32 (u64 z)) 10 false
             else if c =? chr "x" then number (i32 z) 16 false
             else if c =? chr "p" then pointer (u64 z)
             else Some [u32 z]);
        Some (t, ap')
    | _ => None
    end
  else if c =? chr "s" then
    match ap with
    | VStr s :: ap' => Some (cstr (default (bytes "(null)") s), ap')
    | _ => None
    end
  else if c =? chr "%" then Some ([c], ap)
  else Some ([chr "%"; c], ap).

(** The text of a format: parts between conversions are copied. *)
Fixpoint format (fmt : list Z) (ap : list varg) : option (list Z) :=
  match fmt with
  | [] => Some []
  | c :: fmt1 =>
      if c =? 0 then Some [] else
      if negb (c =? chr "%") then t ← format fmt1 ap; Some (c :: t) else
      match fmt1 with
      | [] => Some []
      | c :: fmt2 =>
          if c =? 0 then Some [] else
          '(t, ap') ← convert c ap;
          t' ← format fmt2 ap';
          Some (t ++ t')
      end
  end.

Lemma format_d fmt n ap :
  format (chr "%" :: chr "d" :: fmt) (VNum n :: ap) =
    t ← number (i32 n) 10 true; t' ← format fmt ap; Some (t ++ t').
Proof.
  change (format (chr "%" :: chr "d" :: fmt) (VNum n :: ap)) with
    ('(t, ap') ← (t ← number (i32 n) 10 true; Some (t, ap)); t' ← format fmt ap'; Some (t ++ t')).
  by destruct (number _ _ _).
Qed.

Lemma format_s fmt s ap :
  format (chr "%" :: chr "s" :: fmt) (VStr (Some s) :: ap) = t' ← format fmt ap; Some (cstr s ++ t').
Proof. done. Qed.

Section printf.
Context {W : Type} {OS : Os W}.

Lemma printint_text fd xx base sgn t :
  number xx base sgn = Some t → printint fd xx base sgn ≡ ufor t (putc fd).
Proof. unfold number, printint. destruct (int_buf _ _ _); intros [= <-]. done. Qed.

Lemma printptr_text fd x t : pointer x = Some t → printptr fd x ≡ ufor t (putc fd).
Proof.
  unfold pointer, printptr. intros (ds & Hds & [= <-])%bind_Some. cbn [ufor].
  do 2 (f_equiv; intros []). revert ds Hds. generalize (seqZ 0 16).
  induction l as [|i l IH]; intros ds Hds; cbn [mapM ufor] in *; [by injection Hds as <-|].
  apply bind_Some in Hds as (d & Hd & (ds' & Hds & [= <-])%bind_Some). cbn [ufor].
  unfold uindex. rewrite (proj2 (Z.ltb_ge _ _)), Hd, U_ret_bind.
  - f_equiv. intros []. by apply IH.
  - apply Z.shiftr_nonneg. apply u64_range.
Qed.

Lemma vprintf_convert fd c fmt ap t ap' :
  c ≠ 0 → convert c ap = Some (t, ap') →
  vprintf_loop fd true (c :: fmt) ap ≡ (ufor t (putc fd) ;; vprintf_loop fd false fmt ap').
Proof.
  intros Hc. cbn [vprintf_loop]. rewrite (proj2 (Z.eqb_neq c 0)) by done. cbn [negb].
  unfold convert.
  destruct (c =? chr "d") eqn:Ed; [|destruct (c =? chr "l") eqn:El; [|destruct (c =? chr "x") eqn:Ex;
    [|destruct (c =? chr "p") eqn:Ep]]]; cbn [orb].
  1-4: destruct ap as [|[z|] ap]; try done; intros (t' & Ht & [= <- <-])%bind_Some.
  1-3: by rewrite (printint_text _ _ _ _ _ Ht).
  1: by rewrite (printptr_text _ _ _ Ht).
  destruct (c =? chr "c") eqn:Ecc.
  { apply Z.eqb_eq in Ecc as ->. change (chr "c" =? chr "s") with false. cbn iota.
    destruct ap as [|[z|] ap]; try done. intros [= <- <-]. cbn [ufor].
    rewrite U_bind_assoc. f_equiv. by intros []. }
  destruct (c =? chr "s"); [destruct ap as [|[z|] ap]; try done; by intros [= <- <-]|].
  destruct (c =? chr "%") eqn:Epc; intros [= <- <-]; cbn [ufor]; rewrite U_bind_assoc; f_equiv;
    intros []; [done|].
  rewrite U_bind_assoc. f_equiv. by intros [].
Qed.

(** [vprintf] writes the text of the format, one character at a time. *)
Lemma vprintf_text fd fmt ap t : format fmt ap = Some t → vprintf fd fmt ap ≡ ufor t (putc fd).
Proof.
  unfold vprintf. remember (length fmt) as n eqn:Hn. revert fmt ap t Hn.
  induction (lt_wf n) as [n _ IH]. intros [|c fmt] ap t Hn; cbn [format]; [by intros [= <-]|].
  destruct (Z.eqb_spec c 0) as [->|Hc]; [by intros [= <-]|].
  destruct (Z.eqb_spec c (chr "%")) as [->|Hp]; cbn [negb].
  - change (vprintf_loop fd false (chr "%" :: fmt) ap) with (vprintf_loop fd true fmt ap).
    destruct fmt as [|c fmt]; [by intros [= <-]|].
    destruct (Z.eqb_spec c 0) as [->|Hc']; [by intros [= <-]|].
    intros ([t1 ap'] & Hcv & (t2 & Ht2 & [= <-])%bind_Some)%bind_Some.
    rewrite (vprintf_convert _ _ _ _ _ _ Hc' Hcv), ufor_app. f_equiv. intros [].
    eapply IH; [|reflexivity|exact Ht2]. cbn in *. lia.
  - intros (t' & Ht & [= <-])%bind_Some. cbn [vprintf_loop ufor].
    rewrite (proj2 (Z.eqb_neq c 0)), (proj2 (Z.eqb_neq c (chr "%"))) by done. cbn [negb].
    f_equiv. intros []. eapply IH; [|reflexivity|exact Ht]. cbn in *. lia.
Qed.
End printf.

Lemma runs_putc w c : runs (putc 1 c) w tt (wrote w [u8 c]).
Proof. by exists 0%nat. Qed.

Lemma runs_puts w t : runs (ufor t (putc 1)) w tt (wrote w (map u8 t)).
Proof.
  revert w. induction t as [|c t IH]; intros w; cbn [ufor map].
  - rewrite stream_wrote_nil. apply runs_ret.
  - eapply runs_bind; [apply runs_putc|]. cbn beta.
    pose proof (IH (wrote w [u8 c])) as H. by rewrite stream_wrote_app in H.
Qed.

Lemma runs_printf w fmt ap t :
  format fmt ap = Some t → Forall is_u8 t → runs (printf fmt ap) w tt (wrote w t).
Proof.
  intros Ht Hb. eapply runs_equiv; [by apply vprintf_text|].
  assert (map u8 t = t) as E; [|rewrite <- E at 2; apply runs_puts].
  clear Ht. induction Hb as [|c t Hc Hb IH]; cbn [map]; [done|]. by rewrite u8_small, IH.
Qed.

(** The format has its arguments, and its text is made of characters. *)
Definition printable (fmt : list Z) (ap : list varg) : bool :=
  match format fmt ap with
  | Some t => forallb (λ c, (0 <=? c) && (c <? 256)) t
  | None => false
  end.

Lemma printable_text fmt ap :
  printable fmt ap = true → ∃ t, format fmt ap = Some t ∧ Forall is_u8 t.
Proof.
  unfold printable. destruct (format fmt ap) as [t|]; [|done]. intros H. exists t. split; [done|].
  induction t as [|c t IH]; cbn [forallb] in H; [done|]. apply andb_prop in H as [Hc Ht].
  constructor; [unfold is_u8; lia|auto].
Qed.

(** ** [memmove]: the result, also when the parts overlap *)

Definition moved (l : list Z) (dst src n : nat) : list Z :=
  take dst l ++ take n (drop src l) ++ drop (dst + n) l.

Lemma copy_forward_moved n l dst src :
  (dst < src)%nat → (src + n ≤ length l)%nat → copy_forward n l dst src = Some (moved l dst src n).
Proof.
  revert l dst src. induction n as [|n IH]; intros l dst src Hd Hs; cbn [copy_forward]; unfold moved.
  - by rewrite Nat.add_0_r, take_0, app_nil_l, take_drop.
  - destruct (lookup_lt_is_Some_2 l src ltac:(lia)) as [x Hx]. rewrite Hx. cbn [mbind option_bind].
    rewrite (proj2 (Nat.ltb_lt _ _)) by lia. rewrite IH by (rewrite ?length_insert; lia). unfold moved.
    rewrite (drop_S l x src Hx). cbn [take].
    rewrite (take_S_r _ _ x) by (apply list_lookup_insert_eq; lia).
    rewrite take_insert_ge, !drop_insert_lt by lia. rewrite <- app_assoc.
    by replace (S dst + n)%nat with (dst + S n)%nat by lia.
Qed.

Lemma copy_backward_moved n l dst src :
  (src ≤ dst)%nat → (dst + n ≤ length l)%nat → copy_backward n l dst src = Some (moved l dst src n).
Proof.
  revert l. induction n as [|n IH]; intros l Hd Hs; cbn [copy_backward]; unfold moved.
  - by rewrite Nat.add_0_r, take_0, app_nil_l, take_drop.
  - destruct (lookup_lt_is_Some_2 l (src + n) ltac:(lia)) as [x Hx]. rewrite Hx. cbn [mbind option_bind].
    rewrite (proj2 (Nat.ltb_lt _ _)) by lia. rewrite IH by (rewrite ?length_insert; lia). unfold moved.
    rewrite take_insert_ge by lia.
    rewrite (drop_S (<[(dst + n)%nat := x]> l) x (dst + n)) by (apply list_lookup_insert_eq; lia).
    rewrite (drop_insert_lt l (S (dst + n))) by lia.
    rewrite (take_S_r (drop src l) n x) by (by rewrite lookup_drop).
    rewrite !take_drop_commute, take_insert_ge by lia.
    rewrite <- !app_assoc. cbn [app]. by replace (dst + S n)%nat with (S (dst + n)) by lia.
Qed.

Lemma memmove_moved l dst src n :
  (src + n ≤ length l)%nat → (dst + n ≤ length l)%nat → memmove l dst src n = Some (moved l dst src n).
Proof.
  intros Hs Hd. unfold memmove. destruct (Nat.ltb_spec dst src).
  - by apply copy_forward_moved.
  - by apply copy_backward_moved.
Qed.
