(* ===== verification/Grep.v ===== *)
(** * [user/grep.c]

    The matcher of regular expressions and the loop over the lines of the input. *)

From S2P Require Import Prelude Bytes Data User Ulib.

Local Open Scope Z_scope.

(** ** The matcher *)

(** [matchstar], with [matchhere re] as an argument. *)
Fixpoint matchstar (here : list Z → bool) (c : Z) (text : list Z) : bool :=
  here text ||
  match text with
  | [] => false
  | t :: text' =>
      if negb (t =? 0) && ((t =? c) || (c =? chr ".")) then matchstar here c text' else false
  end.

Fixpoint matchhere (re text : list Z) : bool :=
  match re with
  | [] => true
  | c :: re1 =>
      if c =? 0 then true else
      let step :=
        if (c =? chr "$") && (at0 re1 =? 0) then at0 text =? 0
        else if negb (at0 text =? 0) && ((c =? chr ".") || (c =? at0 text))
        then matchhere re1 (tail text) else false in
      match re1 with
      | s :: re2 => if s =? chr "*" then matchstar (matchhere re2) c text else step
      | [] => step
      end
  end.

(** The loop of [match]. *)
Fixpoint match_loop (re text : list Z) : bool :=
  matchhere re text ||
  match text with
  | [] => false
  | t :: text' => if t =? 0 then false else match_loop re text'
  end.

Definition match_ (re text : list Z) : bool :=
  if at0 re =? chr "^" then matchhere (tail re) text else match_loop re text.

(** ** The loop over the input *)

Section grep.
Context {W : Type} {OS : Os W}.

(** [while((q = strchr(p, '\n')) != 0)]: the buffer and [p] afterwards. *)
Fixpoint grep_lines (fuel : nat) (pattern buf : list Z) (p : nat) : U W (list Z * nat) :=
  match fuel with
  | O => unfinished
  | S fuel' =>
      match strchr (drop p buf) 10 with
      | None => mret (buf, p)
      | Some k =>
          let q := (p + k)%nat in
          let buf := <[q := 0]> buf in
          if match_ pattern (cstr (drop p buf)) then
            let buf := <[q := 10]> buf in
            write 1 (slice buf (Z.of_nat p) (q + 1 - p)) ;;
            grep_lines fuel' pattern buf (q + 1)
          else grep_lines fuel' pattern buf (q + 1)
      end
  end.

Definition GREP_BUF : nat := 1024.

(** The loop of [grep], with [m] bytes in the buffer. *)
Fixpoint grep_loop (pattern : list Z) (fd : Z) (buf : list Z) (m : nat) (fuel : nat) : U W unit :=
  match fuel with
  | O => unfinished
  | S fuel' =>
      '(n, data) ← read fd (Z.of_nat GREP_BUF - Z.of_nat m - 1);
      if negb (0 <? n) then mret tt else
      let buf := splice buf (Z.of_nat m) data in
      let m := (m + Z.to_nat n)%nat in
      if negb (m <? GREP_BUF)%nat then crash else
      let buf := <[m := 0]> buf in
      '(buf, p) ← grep_lines (S (length buf)) pattern buf 0;
      if (0 <? m)%nat then
        let m := (m - p)%nat in
        match memmove buf 0 p m with
        | None => crash
        | Some buf => grep_loop pattern fd buf m fuel'
        end
      else grep_loop pattern fd buf m fuel'
  end.

Definition grep (pattern : list Z) (fd : Z) : U W unit :=
  bounded (grep_loop pattern fd (replicate GREP_BUF 0) 0).

Definition grep_main (argv : list (list Z)) : U W unit :=
  match argv with
  | _ :: pattern :: files =>
      (if decide (files = []) then grep pattern 0 ;; exit 0 else mret tt) ;;
      ufor files (λ f,
        fd ← open f O_RDONLY;
        if fd <? 0 then
          printf (line "grep: cannot open %s") [VStr (Some f)] ;; exit 1
        else grep pattern fd ;; close fd ;; mret tt) ;;
      exit 0
  | _ => fprintf 2 (line "usage: grep pattern [file ...]") [] ;; exit 1
  end.
End grep.
