(* ===== verification/Utils.v ===== *)
(** * The small user programs

    [user/cat.c], [user/echo.c], [user/wc.c], [user/ls.c], [user/kill.c], [user/ln.c],
    [user/mkdir.c], [user/rm.c] and [user/init.c].  The [main] of program [p] is
    [p_main]; its argument is the list of the strings of [argv]. *)

From S2P Require Import Prelude Bytes Data User Ulib.

Local Open Scope Z_scope.

Section programs.
Context {W : Type} {OS : Os W}.

(** ** cat *)

Definition CAT_BUF : nat := 512.

Fixpoint cat_loop (fd : Z) (buf : list Z) (fuel : nat) : U W unit :=
  match fuel with
  | O => unfinished
  | S fuel' =>
      '(n, data) ← read fd (Z.of_nat CAT_BUF);
      let buf := splice buf 0 data in
      if 0 <? n then
        r ← write 1 (take (Z.to_nat n) buf);
        if negb (r =? n) then fprintf 2 (line "cat: write error") [] ;; exit 1
        else cat_loop fd buf fuel'
      else if n <? 0 then fprintf 2 (line "cat: read error") [] ;; exit 1
      else mret tt
  end.

Definition cat (fd : Z) : U W unit := bounded (cat_loop fd (replicate CAT_BUF 0)).

Definition cat_main (argv : list (list Z)) : U W unit :=
  uwhen (length argv <=? 1)%nat (cat 0 ;; exit 0) ;;
  ufor (tail argv) (λ f,
    fd ← open f O_RDONLY;
    if fd <? 0 then fprintf 2 (line "cat: cannot open %s") [VStr (Some f)] ;; exit 1
    else cat fd ;; close fd ;; mret tt) ;;
  exit 0.

(** ** echo *)

Fixpoint echo_loop (args : list (list Z)) : U W unit :=
  match args with
  | [] => mret tt
  | a :: args' =>
      write 1 (take (Z.to_nat (strlen a)) a) ;;
      (if decide (args' = []) then write 1 [10] else write 1 (bytes " ")) ;;
      echo_loop args'
  end.

Definition echo_main (argv : list (list Z)) : U W unit := echo_loop (tail argv) ;; exit 0.

(** ** wc *)

Record counts := mkCounts { wc_l : Z; wc_w : Z; wc_c : Z; wc_inword : bool }.

Definition wc_space : list Z := [32; 13; 9; 10; 11].

Definition wc_char (k : counts) (x : Z) : counts :=
  let l := if x =? 10 then i32 (wc_l k + 1) else wc_l k in
  let c := i32 (wc_c k + 1) in
  if strchr wc_space x then mkCounts l (wc_w k) c false
  else if negb (wc_inword k) then mkCounts l (i32 (wc_w k + 1)) c true
  else mkCounts l (wc_w k) c (wc_inword k).

Fixpoint wc_loop (fd : Z) (name buf : list Z) (k : counts) (fuel : nat) : U W unit :=
  match fuel with
  | O => unfinished
  | S fuel' =>
      '(n, data) ← read fd (Z.of_nat CAT_BUF);
      let buf := splice buf 0 data in
      if 0 <? n then wc_loop fd name buf (foldl wc_char k (take (Z.to_nat n) buf)) fuel'
      else if n <? 0 then printf (line "wc: read error") [] ;; exit 1
      else printf (line "%d %d %d %s")
        [VNum (wc_l k); VNum (wc_w k); VNum (wc_c k); VStr (Some name)]
  end.

Definition wc (fd : Z) (name : list Z) : U W unit :=
  bounded (wc_loop fd name (replicate CAT_BUF 0) (mkCounts 0 0 0 false)).

Definition wc_main (argv : list (list Z)) : U W unit :=
  uwhen (length argv <=? 1)%nat (wc 0 [] ;; exit 0) ;;
  ufor (tail argv) (λ f,
    fd ← open f O_RDONLY;
    if fd <? 0 then printf (line "wc: cannot open %s") [VStr (Some f)] ;; exit 1
    else wc fd f ;; close fd ;; mret tt) ;;
  exit 0.

(** ** ls *)

(** The last slash at or before [i]; [-1] if there is none. *)
Fixpoint find_slash (path : list Z) (i : nat) : Z :=
  if default 0 (path !! i) =? chr "/" then Z.of_nat i else
  match i with O => -1 | S i' => find_slash path i' end.

(** The string that [fmtname] returns: in the path, or in its own buffer. *)
Definition fmtname (path : list Z) : list Z :=
  let p := drop (Z.to_nat (find_slash path (Z.to_nat (strlen path)) + 1)) path in
  if Z.of_nat DIRSIZ <=? strlen p then p
  else take (Z.to_nat (strlen p)) p ++ replicate (DIRSIZ - Z.to_nat (strlen p)) 32.

(** The fields of a [struct stat]. *)
Definition st_ino (st : list Z) : Z := get32 st 4.
Definition st_type (st : list Z) : Z := i16 (get16 st 8).
Definition st_size (st : list Z) : Z := get64 st 16.

Definition sizeof_dirent : Z := 16.

(** The loop over the directory; [prefix] is the start of the buffer, up to the slash. *)
Fixpoint ls_loop (fd : Z) (prefix : list Z) (fuel : nat) : U W unit :=
  match fuel with
  | O => unfinished
  | S fuel' =>
      '(n, de) ← read fd sizeof_dirent;
      if negb (n =? sizeof_dirent) then mret tt else
      if get16 de 0 =? 0 then ls_loop fd prefix fuel' else
      let buf := prefix ++ cstr (slice de 2 DIRSIZ) in
      '(r, st) ← stat buf;
      (if r <? 0 then printf (line "ls: cannot stat %s") [VStr (Some buf)]
       else printf (line "%s %d %d %d")
         [VStr (Some (fmtname buf)); VNum (st_type st); VNum (st_ino st); VNum (st_size st)]) ;;
      ls_loop fd prefix fuel'
  end.

Definition LS_BUF : Z := 512.

Definition ls (path : list Z) : U W unit :=
  fd ← open path O_RDONLY;
  if fd <? 0 then fprintf 2 (line "ls: cannot open %s") [VStr (Some path)] else
  '(r, st) ← fstat fd;
  if r <? 0 then
    fprintf 2 (line "ls: cannot stat %s") [VStr (Some path)] ;; close fd ;; mret tt
  else
    (if (st_type st =? T_DEVICE) || (st_type st =? T_FILE) then
       printf (line "%s %d %d %l")
         [VStr (Some (fmtname path)); VNum (st_type st); VNum (st_ino st); VNum (st_size st)]
     else if st_type st =? T_DIR then
       if LS_BUF <? u32 (strlen path + 1 + Z.of_nat DIRSIZ + 1)
       then printf (line "ls: path too long") []
       else bounded (ls_loop fd (cstr path ++ [chr "/"]))
     else mret tt) ;;
    close fd ;; mret tt.

Definition ls_main (argv : list (list Z)) : U W unit :=
  uwhen (length argv <? 2)%nat (ls (bytes ".") ;; exit 0) ;;
  ufor (tail argv) ls ;;
  exit 0.

(** ** kill, ln, mkdir, rm *)

Definition kill_main (argv : list (list Z)) : U W unit :=
  uwhen (length argv <? 2)%nat (fprintf 2 (line "usage: kill pid...") [] ;; exit 1) ;;
  ufor (tail argv) (λ a, kill (atoi a) ;; mret tt) ;;
  exit 0.

Definition ln_main (argv : list (list Z)) : U W unit :=
  match argv with
  | [_; old; new] =>
      r ← link old new;
      uwhen (r <? 0)
        (fprintf 2 (line "link %s %s: failed") [VStr (Some old); VStr (Some new)]) ;;
      exit 0
  | _ => fprintf 2 (line "Usage: ln old new") [] ;; exit 1
  end.

(** [for(...) if(f(argv[i]) < 0){ fprintf(...); break; }] *)
Fixpoint until_failure (f : list Z → U W Z) (msg : list Z) (args : list (list Z)) : U W unit :=
  match args with
  | [] => mret tt
  | a :: args' =>
      r ← f a;
      if r <? 0 then fprintf 2 msg [VStr (Some a)] else until_failure f msg args'
  end.

Definition mkdir_main (argv : list (list Z)) : U W unit :=
  uwhen (length argv <? 2)%nat (fprintf 2 (line "Usage: mkdir files...") [] ;; exit 1) ;;
  until_failure mkdir (line "mkdir: %s failed to create") (tail argv) ;;
  exit 0.

Definition rm_main (argv : list (list Z)) : U W unit :=
  uwhen (length argv <? 2)%nat (fprintf 2 (line "Usage: rm files...") [] ;; exit 1) ;;
  until_failure unlink (line "rm: %s failed to delete") (tail argv) ;;
  exit 0.

(** ** init *)

Definition CONSOLE : Z := 1.
Definition sh_argv : list (list Z) := [bytes "sh"].

(** The loop that waits for the shell. *)
Fixpoint init_wait (pid : Z) (fuel : nat) : U W unit :=
  match fuel with
  | O => unfinished
  | S fuel' =>
      wpid ← wait;
      if wpid =? pid then mret tt
      else if wpid <? 0 then printf (line "init: wait returned an error") [] ;; exit 1
      else init_wait pid fuel'
  end.

Fixpoint init_loop (fuel : nat) : U W unit :=
  match fuel with
  | O => unfinished
  | S fuel' =>
      printf (line "init: starting sh") [] ;;
      pid ← fork;
      uwhen (pid <? 0) (printf (line "init: fork failed") [] ;; exit 1) ;;
      uwhen (pid =? 0)
        (exec (bytes "sh") sh_argv ;;
         printf (line "init: exec sh failed") [] ;;
         exit 1) ;;
      bounded (init_wait pid) ;;
      init_loop fuel'
  end.

Definition init_main : U W unit :=
  fd ← open (bytes "console") O_RDWR;
  uwhen (fd <? 0)
    (mknod (bytes "console") CONSOLE 0 ;; open (bytes "console") O_RDWR ;; mret tt) ;;
  dup 0 ;;
  dup 0 ;;
  bounded init_loop.
End programs.
