(* ===== verification/Umalloc.v ===== *)
(** * [user/umalloc.c]

    The allocator of user programs: a circular list of free blocks, in the order of
    their addresses, that starts at the static header [base].  A block is a header
    and the bytes after it; sizes count headers.  The state is the memory that
    the headers take, as the contents of their two fields by address, and [freep];
    fields that were never assigned have no contents. *)

From S2P Require Import Prelude Bytes Data User Ulib.

Local Open Scope Z_scope.

Record heap := mkHeap {
  hp_ptr : gmap Z Z; (* s.ptr, by the address of the header *)
  hp_size : gmap Z Z; (* s.size *)
  hp_freep : Z; (* freep *)
}.

Definition set_ptr (a v : Z) (h : heap) : heap := mkHeap (<[a := v]> (hp_ptr h)) (hp_size h) (hp_freep h).
Definition set_size (a v : Z) (h : heap) : heap := mkHeap (hp_ptr h) (<[a := v]> (hp_size h)) (hp_freep h).
Definition set_freep (p : Z) (h : heap) : heap := mkHeap (hp_ptr h) (hp_size h) p.

Definition sizeof_Header : Z := 16.

Section umalloc.
Context {W : Type} {OS : Os W}.

(** The address of the static header [base]. *)
Context (base : Z).

Definition get_ptr (h : heap) (a : Z) : U W Z :=
  match hp_ptr h !! a with Some v => mret v | None => crash end.
Definition get_size (h : heap) (a : Z) : U W Z :=
  match hp_size h !! a with Some v => mret v | None => crash end.

(** The search of [free] for the place of [bp] in the list. *)
Fixpoint free_search (h : heap) (bp p : Z) (fuel : nat) : U W Z :=
  match fuel with
  | O => unfinished
  | S fuel' =>
      next ← get_ptr h p;
      if (p <? bp) && (bp <? next) then mret p
      else if (next <=? p) && ((p <? bp) || (bp <? next)) then mret p
      else free_search h bp next fuel'
  end.

(** Joining [bp] to the block after it. *)
Definition join_next (h : heap) (bp p : Z) : U W heap :=
  next ← get_ptr h p;
  size ← get_size h bp;
  if bp + size * sizeof_Header =? next then
    size' ← get_size h next;
    next' ← get_ptr h next;
    mret (set_ptr bp next' (set_size bp (u32 (size + size')) h))
  else mret (set_ptr bp next h).

(** Joining the block before, or linking it. *)
Definition join_prev (h : heap) (bp p : Z) : U W heap :=
  size ← get_size h p;
  if p + size * sizeof_Header =? bp then
    size' ← get_size h bp;
    next ← get_ptr h bp;
    mret (set_ptr p next (set_size p (u32 (size + size')) h))
  else mret (set_ptr p bp h).

Definition free (ap : Z) (h : heap) : U W heap :=
  let bp := ap - sizeof_Header in
  p ← bounded (free_search h bp (hp_freep h));
  h ← join_next h bp p;
  h ← join_prev h bp p;
  mret (set_freep p h).

(** [morecore]: the value returned, and the heap. *)
Definition morecore (nu : Z) (h : heap) : U W (Z * heap) :=
  let nu := if nu <? 4096 then 4096 else nu in
  p ← sbrk (i32 (nu * sizeof_Header));
  if p =? -1 then mret (0, h) else
  h ← free (p + sizeof_Header) (set_size p nu h);
  mret (hp_freep h, h).

(** [p] has room: the pointer returned, and the heap. *)
Definition take_block (p prevp nunits size : Z) (h : heap) : U W (Z * heap) :=
  if size =? nunits then
    next ← get_ptr h p;
    mret (p + sizeof_Header, set_freep prevp (set_ptr prevp next h))
  else
    let h := set_size p (size - nunits) h in
    let p := p + (size - nunits) * sizeof_Header in
    mret (p + sizeof_Header, set_freep prevp (set_size p nunits h)).

(** The loop of [malloc]. *)
Fixpoint malloc_loop (nunits prevp p : Z) (h : heap) (fuel : nat) : U W (Z * heap) :=
  match fuel with
  | O => unfinished
  | S fuel' =>
      size ← get_size h p;
      if nunits <=? size then take_block p prevp nunits size h
      else if p =? hp_freep h then
        '(p, h) ← morecore nunits h;
        if p =? 0 then mret (0, h)
        else next ← get_ptr h p; malloc_loop nunits p next h fuel'
      else next ← get_ptr h p; malloc_loop nunits p next h fuel'
  end.

Definition malloc (nbytes : Z) (h : heap) : U W (Z * heap) :=
  let nunits := u32 ((nbytes + sizeof_Header - 1) / sizeof_Header + 1) in
  let h := if hp_freep h =? 0 then set_freep base (set_ptr base base (set_size base 0 h)) else h in
  let prevp := hp_freep h in
  p ← get_ptr h prevp;
  bounded (malloc_loop nunits prevp p h).
End umalloc.

Definition empty_heap : heap := mkHeap ∅ ∅ 0.
