(* ===== verification/Sched.v ===== *)
(** * The user programs that exercise and report the scheduler

    [user/pstat.c], [user/mlfqmon.c], [user/schedtest.c], [user/cpu_bound.c] and
    [user/io_bound.c].  The array that [getpinfo] fills is read as the list of its
    bytes. *)

From S2P Require Import Prelude Bytes Data User Ulib.

Local Open Scope Z_scope.

(** ** [struct procinfo] *)

Definition sizeof_procinfo : Z := 40.
Record procinfo := mkProcinfo {
  pi_inuse : Z; pi_pid : Z; pi_priority : Z; pi_state : Z;
  pi_ticks_used : Z; pi_ticks_total : Z; pi_name : list Z;
}.

Definition get_procinfo (l : list Z) (i : nat) : procinfo :=
  let at_ off := i32 (get32 l (Z.of_nat i * sizeof_procinfo + off)) in
  mkProcinfo (at_ 0) (at_ 4) (at_ 8) (at_ 12) (at_ 16) (at_ 20)
    (cstr (drop (Z.to_nat (Z.of_nat i * sizeof_procinfo + 24)) l)).

(** [pinfo[0]], ..., [pinfo[NPROC-1]] *)
Definition procinfos (l : list Z) : list procinfo := map (get_procinfo l) (seq 0 NPROC).

(** ** pstat *)

Definition pstat_states : list (list Z) :=
  map bytes ["UNUSED"; "USED"; "SLEEP"; "RUNBL"; "RUN"; "ZOMBI"].

(** [states[state]], or the mark for a state that has no name. *)
Definition state_name (states : list (list Z)) (state : Z) : list Z :=
  if (0 <=? state) && (state <=? 5) then default [] (states !! Z.to_nat state) else bytes "???".

(** [queue_count[priority]++] when [priority] is that of a queue. *)
Definition count_queue (priority : Z) (q : list Z) : list Z :=
  if (0 <=? priority) && (priority <? 3)
  then alter (λ n, i32 (n + 1)) (Z.to_nat priority) q else q.

Definition tab : list Z := [9].

(** A signed 64-bit integer. *)
Definition i64 (z : Z) : Z := (z + 2 ^ 63) mod 2 ^ 64 - 2 ^ 63.

(** [result ^= (result << 3) | (result >> 5)] *)
Definition mix (r : Z) : Z := Z.lxor r (Z.lor (i64 (Z.shiftl r 3)) (Z.shiftr r 5)).

(** [compute] of [user/cpu_bound.c] *)
Definition compute (n : Z) : Z :=
  snd (Z.iter n (λ '(i, r), (i + 1, Z.iter 100 mix (i64 (r + i64 (i * i))))) (0, 0)).

(** The computation of [cpu_work] *)
Definition cpu_step (j r : Z) : Z :=
  let r := mix (i64 (r + i64 (j * j))) in
  i64 (r + i64 (Z.rem r 7 * Z.rem r 13)).
Definition cpu_burn (n : Z) : Z := snd (Z.iter n (λ '(j, r), (j + 1, cpu_step j r)) (0, 0)).

(** The sum of the integers below [n] *)
Definition sum_below (n : Z) : Z := foldl (λ s j, i32 (s + j)) 0 (seqZ 0 n).

Section programs.
Context {W : Type} {OS : Os W}.

(** [printf("%d\t%d\t%s\t%d\t%d\t%s\n", ...)] *)
Definition print_row (before after : list Z) (states : list (list Z)) (p : procinfo) : U W unit :=
  printf (before ++ bytes "%d" ++ tab ++ bytes "%d" ++ tab ++ bytes "%s" ++ tab ++ bytes "%d" ++ tab ++
      bytes "%d" ++ tab ++ bytes "%s" ++ after ++ [10])
    [VNum (pi_pid p); VNum (pi_priority p); VStr (Some (state_name states (pi_state p)));
     VNum (pi_ticks_used p); VNum (pi_ticks_total p); VStr (Some (pi_name p))].

Definition row_titles : list Z :=
  bytes "PID" ++ tab ++ bytes "PRIO" ++ tab ++ bytes "STATE" ++ tab ++ bytes "TICKS" ++ tab ++
  bytes "TOTAL" ++ tab ++ line "NAME".

(** The loop of [main]: [count] and [queue_count] afterwards. *)
Fixpoint pstat_loop (l : list procinfo) (count : Z) (q : list Z) : U W (Z * list Z) :=
  match l with
  | [] => mret (count, q)
  | p :: l' =>
      if negb (pi_inuse p =? 0) then
        print_row [] [] pstat_states p ;;
        pstat_loop l' (i32 (count + 1)) (count_queue (pi_priority p) q)
      else pstat_loop l' count q
  end.

Definition pstat_main : U W unit :=
  '(r, l) ← getpinfo;
  if r <? 0 then printf (line "getpinfo failed") [] ;; exit 1 else
  printf [10] [] ;;
  printf (line "        MLFQ Scheduler Process Statistics") [] ;;
  printf row_titles [] ;;
  '(count, q) ← pstat_loop (procinfos l) 0 [0; 0; 0];
  printf (line "Total processes: %d") [VNum count] ;;
  printf ([10] ++ line "Queue distribution:") [] ;;
  printf (line "  Queue 0 (HIGH):   %d processes") [VNum (q !!! 0%nat)] ;;
  printf (line "  Queue 1 (MEDIUM): %d processes") [VNum (q !!! 1%nat)] ;;
  printf (line "  Queue 2 (LOW):    %d processes") [VNum (q !!! 2%nat)] ;;
  exit 0.

(** ** mlfqmon *)

Definition mlfqmon_states : list (list Z) :=
  map bytes ["UNUSED"; "USED  "; "SLEEP "; "RUNBLE"; "RUN   "; "ZOMBIE"].

Definition clear_screen : U W unit := ufor (seq 0 25) (λ _, printf [10] []).

(** The number of characters of the bar that are filled. *)
Definition bar_filled (count max : Z) : Z :=
  let filled := if 0 <? max then Z.quot (i32 (count * 20)) max else 0 in
  if (0 <? count) && (filled =? 0) then 1 else filled.

Definition draw_bar (count max c : Z) : U W unit :=
  printf (bytes "[") [] ;;
  ufor (seqZ 0 20) (λ i,
    if i <? bar_filled count max then printf (bytes "%c") [VNum c] else printf (bytes " ") []) ;;
  printf (bytes "]") [].

(** The counters of one refresh. *)
Record tally := mkTally { ty_total : Z; ty_queues : list Z; ty_running : Z; ty_sleeping : Z }.

Definition listed (p : procinfo) : bool := negb (pi_inuse p =? 0) && negb (pi_state p =? 0).

Definition tally_proc (t : tally) (p : procinfo) : tally :=
  if listed p then
    mkTally (ty_total t + 1) (count_queue (pi_priority p) (ty_queues t))
      (if pi_state p =? 4 then ty_running t + 1 else ty_running t)
      (if pi_state p =? 2 then ty_sleeping t + 1 else ty_sleeping t)
  else t.

Definition rule : list Z := line "------------------------------------------------------------".

Definition draw_queue (name : string) (t : tally) (i : nat) (c : Z) : U W unit :=
  printf (bytes name) [VNum (ty_queues t !!! i)] ;;
  draw_bar (ty_queues t !!! i) (if 0 <? ty_total t then ty_total t else 1) c ;;
  printf [10] [].

(** One refresh of the display, with the number of refreshes before it. *)
Definition mlfqmon_refresh (iterations interval : Z) : U W unit :=
  '(r, l) ← getpinfo;
  uwhen (r <? 0) (printf (line "getpinfo failed") [] ;; exit 1) ;;
  let ps := procinfos l in
  let t := foldl tally_proc (mkTally 0 [0; 0; 0] 0 0) ps in
  clear_screen ;;
  printf (line "        MLFQ SCHEDULER MONITOR (Refresh #%d)") [VNum (i32 (iterations + 1))] ;;
  now ← uptime;
  printf (line "Time: %d ticks" ++ [10]) [VNum now] ;;
  printf (line "QUEUE STATUS:") [] ;;
  draw_queue "Queue 0 [HIGH  ] (%d) " t 0 (chr "#") ;;
  draw_queue "Queue 1 [MEDIUM] (%d) " t 1 (chr "=") ;;
  draw_queue "Queue 2 [LOW   ] (%d) " t 2 (chr "-") ;;
  printf (rule ++ [10]) [] ;;
  printf (line "PROCESS TABLE:") [] ;;
  printf row_titles [] ;;
  printf rule [] ;;
  ufor ps (λ p,
    uwhen (listed p)
      (if pi_state p =? 4 then print_row (bytes "*") (bytes "*") mlfqmon_states p
       else print_row [] [] mlfqmon_states p)) ;;
  printf (line "Total: %d | Running: %d | Sleeping: %d")
    [VNum (ty_total t); VNum (ty_running t); VNum (ty_sleeping t)] ;;
  sleep interval ;;
  mret tt.

(** The loop of [main]: [iterations] afterwards. *)
Fixpoint mlfqmon_loop (interval max_iterations iterations : Z) (fuel : nat) : U W Z :=
  match fuel with
  | O => unfinished
  | S fuel' =>
      if iterations <? max_iterations then
        mlfqmon_refresh iterations interval ;;
        mlfqmon_loop interval max_iterations (i32 (iterations + 1)) fuel'
      else mret iterations
  end.

Definition arg_or (argv : list (list Z)) (i : nat) (n : Z) : Z :=
  match argv !! i with Some a => atoi a | None => n end.

Definition mlfqmon_main (argv : list (list Z)) : U W unit :=
  let interval :=
    match argv !! 1%nat with
    | Some a => if atoi a <? 1 then 1 else atoi a
    | None => 10
    end in
  let max_iterations := arg_or argv 2 50 in
  printf (line "MLFQ Monitor started. Refresh every %d ticks.") [VNum interval] ;;
  printf (line "Press Ctrl+C or wait for %d iterations to exit." ++ [10]) [VNum max_iterations] ;;
  sleep 20 ;;
  iterations ← bounded (mlfqmon_loop interval max_iterations 0);
  printf ([10] ++ line "Monitor finished after %d iterations.") [VNum iterations] ;;
  exit 0.

(** ** cpu_bound *)

Definition cpu_bound_main (argv : list (list Z)) : U W unit :=
  pid ← getpid;
  let iterations := arg_or argv 1 5 in
  printf (line "CPU-bound process (PID %d) starting with %d iterations")
    [VNum pid; VNum iterations] ;;
  printf (line "This process should be DEMOTED to lower priority queues." ++ [10]) [] ;;
  ufor (seqZ 0 iterations) (λ i,
    start ← uptime;
    let _ := compute 500000 in
    end_ ← uptime;
    printf (line "[PID %d] Iteration %d: computed, took %d ticks")
      [VNum pid; VNum (i + 1); VNum (i32 (end_ - start))]) ;;
  printf ([10] ++ line "CPU-bound process (PID %d) finished.") [VNum pid] ;;
  exit 0.

(** ** io_bound *)

Definition io_bound_main (argv : list (list Z)) : U W unit :=
  pid ← getpid;
  let iterations := arg_or argv 1 10 in
  let sleep_time := arg_or argv 2 5 in
  printf (line "I/O-bound process (PID %d) starting with %d iterations")
    [VNum pid; VNum iterations] ;;
  printf (line "Sleep time: %d ticks between each iteration.") [VNum sleep_time] ;;
  printf (line "This process should STAY in high priority queues." ++ [10]) [] ;;
  ufor (seqZ 0 iterations) (λ i,
    start ← uptime;
    let sum := sum_below 1000 in
    sleep sleep_time ;;
    end_ ← uptime;
    printf (line "[PID %d] Iteration %d: sum=%d, elapsed %d ticks")
      [VNum pid; VNum (i + 1); VNum sum; VNum (i32 (end_ - start))]) ;;
  printf ([10] ++ line "I/O-bound process (PID %d) finished.") [VNum pid] ;;
  exit 0.

(** ** schedtest *)

Fixpoint find_priority (l : list procinfo) (target_pid : Z) : Z :=
  match l with
  | [] => -1
  | p :: l' =>
      if negb (pi_inuse p =? 0) && (pi_pid p =? target_pid) then pi_priority p
      else find_priority l' target_pid
  end.

Definition get_priority (target_pid : Z) : U W Z :=
  '(r, l) ← getpinfo;
  if r <? 0 then mret (-1) else mret (find_priority (procinfos l) target_pid).

Definition cpu_work (id iterations : Z) : U W unit :=
  pid ← getpid;
  start_prio ← get_priority pid;
  printf (line "[CPU-%d PID %d] Starting CPU-bound work (Priority: %d)") [VNum id; VNum pid; VNum start_prio] ;;
  ufor (seqZ 0 iterations) (λ i,
    let _ := cpu_burn 2000000 in
    curr_prio ← get_priority pid;
    printf (line "[CPU-%d PID %d] Iter %d done (Priority: %d)")
      [VNum id; VNum pid; VNum (i + 1); VNum curr_prio]) ;;
  end_prio ← get_priority pid;
  printf (line "[CPU-%d PID %d] Finished (Priority: %d -> %d)")
    [VNum id; VNum pid; VNum start_prio; VNum end_prio].

Definition io_work (id iterations : Z) : U W unit :=
  pid ← getpid;
  start_prio ← get_priority pid;
  printf (line "[IO-%d PID %d] Starting I/O-bound work (Priority: %d)") [VNum id; VNum pid; VNum start_prio] ;;
  ufor (seqZ 0 iterations) (λ i,
    let _ := sum_below 500 in
    sleep 2 ;;
    curr_prio ← get_priority pid;
    printf (line "[IO-%d PID %d] Iter %d done (Priority: %d)")
      [VNum id; VNum pid; VNum (i + 1); VNum curr_prio]) ;;
  end_prio ← get_priority pid;
  printf (line "[IO-%d PID %d] Finished (Priority: %d -> %d)")
    [VNum id; VNum pid; VNum start_prio; VNum end_prio].

Definition NUM_CPU_PROCS : Z := 2.
Definition NUM_IO_PROCS : Z := 2.

(** One phase of [main]: the children run one after the other. *)
Definition schedtest_phase (n : Z) (child : Z → U W unit) : U W unit :=
  ufor (seqZ 0 n) (λ i,
    pid ← fork;
    uwhen (pid =? 0) (child i ;; exit 0) ;;
    wait ;;
    printf [10] []).

Definition double_rule : list Z := line "=============================================================".

Definition schedtest_main : U W unit :=
  printf [10] [] ;;
  printf double_rule [] ;;
  printf (line "           MLFQ Scheduler Test") [] ;;
  printf double_rule [] ;;
  printf (line "Creating %d CPU-bound and %d I/O-bound processes." ++ [10])
    [VNum NUM_CPU_PROCS; VNum NUM_IO_PROCS] ;;
  printf (line "Expected behavior:") [] ;;
  printf (line "  - CPU-bound processes: DEMOTED to lower priority (0->1->2)") [] ;;
  printf (line "  - I/O-bound processes: STAY in high priority (keep at 0)") [] ;;
  printf (line "  - I/O processes should complete faster (more responsive)") [] ;;
  printf (double_rule ++ [10]) [] ;;
  start_time ← uptime;
  printf (line "--- PHASE 1: CPU-bound processes (should demote) ---" ++ [10]) [] ;;
  schedtest_phase NUM_CPU_PROCS (λ i, cpu_work i 4) ;;
  printf (line "--- PHASE 2: I/O-bound processes (should stay at priority 0) ---" ++ [10]) [] ;;
  schedtest_phase NUM_IO_PROCS (λ i, io_work i 6) ;;
  end_time ← uptime;
  printf double_rule [] ;;
  printf (line "   TEST COMPLETED!") [] ;;
  printf (line "   Total execution time: %d ticks") [VNum (i32 (end_time - start_time))] ;;
  printf double_rule [] ;;
  printf ([10] ++ line "Key observations:") [] ;;
  printf (line "  - CPU-bound processes should show priority degradation (0->1->2)") [] ;;
  printf (line "  - I/O-bound processes should maintain priority 0") [] ;;
  printf (line "  - This demonstrates MLFQ's adaptive scheduling" ++ [10]) [] ;;
  exit 0.
End programs.
