(* ===== verification/Monitor.v ===== *)
(** * [user/monitor.c]

    The monitor of the scheduler: formatted output, the parts of the display, and the
    refresh loop.  The structure that [getpstat] fills is read as the list of its
    bytes. *)

From S2P Require Import Prelude Bytes Data User Ulib Umalloc Sched.

Local Open Scope Z_scope.

(** ** Escape sequences *)

Definition ansi (s : string) : list Z := 27 :: bytes s.
Definition ANSI_CLEAR : list Z := ansi "[2J".
Definition ANSI_HOME : list Z := ansi "[H".
Definition ANSI_HIDE_CURSOR : list Z := ansi "[?25l".
Definition ANSI_SHOW_CURSOR : list Z := ansi "[?25h".
Definition ANSI_RESET : list Z := ansi "[0m".
Definition ANSI_BOLD : list Z := ansi "[1m".
Definition ANSI_RED : list Z := ansi "[31m".
Definition ANSI_GREEN : list Z := ansi "[32m".
Definition ANSI_YELLOW : list Z := ansi "[33m".
Definition ANSI_CYAN : list Z := ansi "[36m".
Definition ANSI_WHITE : list Z := ansi "[37m".

Definition BAR_WIDTH : Z := 20.
Definition MAX_DISPLAY_PROC : Z := 15.

Definition state_names : list (list Z) :=
  map bytes ["UNUSED"; "USED"; "SLEEP"; "READY"; "RUN"; "ZOMBIE"].

(** ** [struct pstat] *)

Definition ps_global_ticks (ps : list Z) : Z := i32 (get32 ps 0).
Definition ps_next_boost_in (ps : list Z) : Z := i32 (get32 ps 8).
Definition ps_queue_count (ps : list Z) (i : Z) : Z := i32 (get32 ps (12 + 4 * i)).
Definition ps_total_processes (ps : list Z) : Z := i32 (get32 ps 24).
Definition ps_running_count (ps : list Z) : Z := i32 (get32 ps 28).
Definition ps_sleeping_count (ps : list Z) : Z := i32 (get32 ps 32).
Definition ps_runnable_count (ps : list Z) : Z := i32 (get32 ps 36).

Definition sizeof_proc_stat : Z := 60.
Definition PSTAT_NPROC : nat := 64.
Definition sizeof_pstat : Z := 40 + Z.of_nat PSTAT_NPROC * sizeof_proc_stat.

(** The [int] at offset [off] of [ps->procs[i]], and the name. *)
Definition ps_field (ps : list Z) (off : Z) (i : nat) : Z :=
  i32 (get32 ps (40 + Z.of_nat i * sizeof_proc_stat + off)).
Definition ps_inuse (ps : list Z) : nat → Z := ps_field ps 0.
Definition ps_pid (ps : list Z) : nat → Z := ps_field ps 4.
Definition ps_state (ps : list Z) : nat → Z := ps_field ps 12.
Definition ps_priority (ps : list Z) : nat → Z := ps_field ps 16.
Definition ps_ticks_current (ps : list Z) : nat → Z := ps_field ps 20.
Definition ps_ticks_total (ps : list Z) : nat → Z := ps_field ps 24.
Definition ps_time_slice (ps : list Z) : nat → Z := ps_field ps 28.
Definition ps_num_scheduled (ps : list Z) : nat → Z := ps_field ps 32.
Definition ps_num_demoted (ps : list Z) : nat → Z := ps_field ps 36.
Definition ps_num_boosted (ps : list Z) : nat → Z := ps_field ps 40.
Definition ps_name (ps : list Z) (i : nat) : list Z :=
  cstr (drop (Z.to_nat (40 + Z.of_nat i * sizeof_proc_stat + 44)) ps).

(** ** Formatted output *)

(** [while(n > 0) { count++; n /= 10; }]; ten turns are enough for an [int]. *)
Fixpoint count_digits (fuel : nat) (n count : Z) : Z :=
  match fuel with
  | O => count
  | S fuel' => if 0 <? n then count_digits fuel' (n / 10) (count + 1) else count
  end.

Definition num_digits (n : Z) : Z :=
  if n =? 0 then 1 else
  if n <? 0 then count_digits 11 (i32 (- n)) 1 else count_digits 11 n 0.

Definition str_len (s : list Z) : Z := i32 (Z.of_nat (length (cstr s))).

Section monitor.
Context {W : Type} {OS : Os W}.

(** [for(int i = 0; i < n; i++) printf(" ")] *)
Definition spaces (n : Z) : U W unit := ufor (seqZ 0 n) (λ _, printf (bytes " ") []).

Definition print_int_r (val width : Z) : U W unit :=
  spaces (width - num_digits val) ;; printf (bytes "%d") [VNum val].
Definition print_int_l (val width : Z) : U W unit :=
  printf (bytes "%d") [VNum val] ;; spaces (width - num_digits val).
Definition print_str_l (s : list Z) (width : Z) : U W unit :=
  printf (bytes "%s") [VStr (Some s)] ;; spaces (width - str_len s).
Definition print_str_r (s : list Z) (width : Z) : U W unit :=
  spaces (width - str_len s) ;; printf (bytes "%s") [VStr (Some s)].

(** ** Drawing *)

Definition draw_line (width c : Z) : U W unit :=
  ufor (seqZ 0 width) (λ _, printf (bytes "%c") [VNum c]).

Definition fill_width (filled total : Z) : Z :=
  if 0 <? total then
    let w := Z.quot (i32 (filled * BAR_WIDTH)) total in
    if (0 <? filled) && (w =? 0) then 1 else w
  else 0.

Definition draw_bar (filled total fill_char empty_char : Z) : U W unit :=
  printf (bytes "[") [] ;;
  ufor (seqZ 0 BAR_WIDTH) (λ i,
    printf (bytes "%c") [VNum (if i <? fill_width filled total then fill_char else empty_char)]) ;;
  printf (bytes "]") [].

Definition slice_filled (used total : Z) : Z :=
  let filled := if 0 <? total then Z.quot (i32 (used * 4)) total else 0 in
  let filled := if (0 <? used) && (filled =? 0) then 1 else filled in
  if 4 <? filled then 4 else filled.

Definition draw_timeslice_bar (used total : Z) : U W unit :=
  printf (bytes "[") [] ;;
  ufor (seqZ 0 4) (λ i,
    if i <? slice_filled used total then printf (bytes "#") [] else printf (bytes ".") []) ;;
  printf (bytes "]") [].

Definition clear_screen_simple : U W unit := ufor (seqZ 0 30) (λ _, printf [10] []).

(** [printf("+"); draw_line(80, '-'); printf("+\n")] *)
Definition draw_border : U W unit :=
  printf (bytes "+") [] ;; draw_line 80 (chr "-") ;; printf (line "+") [].

Definition draw_header (iteration global_ticks : Z) : U W unit :=
  printf ANSI_BOLD [] ;;
  draw_border ;;
  printf (bytes "|") [] ;;
  print_str_l (bytes "              MLFQ SCHEDULER MONITOR v1.0") 80 ;;
  printf (line "|") [] ;;
  printf (bytes "|         System Time: ") [] ;;
  printf (bytes "%d") [VNum global_ticks] ;;
  printf (bytes " ticks") [] ;;
  spaces (80 - 28 - num_digits global_ticks) ;;
  printf (line "|") [] ;;
  printf (bytes "|") [] ;;
  spaces 56 ;;
  printf (bytes "Refresh: #") [] ;;
  printf (bytes "%d") [VNum iteration] ;;
  spaces (80 - 67 - num_digits iteration) ;;
  printf (line "|") [] ;;
  draw_border ;;
  printf ANSI_RESET [].

Definition draw_queue_section (ps : list Z) : U W unit :=
  let max_count := if ps_total_processes ps <? 1 then 1 else ps_total_processes ps in
  printf (ANSI_BOLD ++ [10] ++ bytes "  QUEUE VISUALIZATION") [] ;;
  printf (line "                         SYSTEM STATS" ++ ANSI_RESET) [] ;;
  printf (bytes "  ") [] ;;
  draw_line 21 (chr "=") ;;
  printf (bytes "                         ") [] ;;
  draw_line 12 (chr "=") ;;
  printf [10; 10] [] ;;
  printf (bytes "  Q0 " ++ ANSI_GREEN ++ bytes "[HIGH  ]" ++ ANSI_RESET ++ bytes " ") [] ;;
  draw_bar (ps_queue_count ps 0) max_count (chr "#") (chr " ") ;;
  printf (bytes "  %d procs") [VNum (ps_queue_count ps 0)] ;;
  printf (line "     Total:     %d processes") [VNum (ps_total_processes ps)] ;;
  printf (bytes "              Time Slice: 1 tick") [] ;;
  printf (line "                Running:    %d") [VNum (ps_running_count ps)] ;;
  printf (bytes "  Q1 " ++ ANSI_YELLOW ++ bytes "[MEDIUM]" ++ ANSI_RESET ++ bytes " ") [] ;;
  draw_bar (ps_queue_count ps 1) max_count (chr "=") (chr " ") ;;
  printf (bytes "  %d procs") [VNum (ps_queue_count ps 1)] ;;
  printf (line "     Sleeping:  %d") [VNum (ps_sleeping_count ps)] ;;
  printf (bytes "              Time Slice: 2 ticks") [] ;;
  printf (line "               Runnable:   %d") [VNum (ps_runnable_count ps)] ;;
  printf (bytes "  Q2 " ++ ANSI_RED ++ bytes "[LOW   ]" ++ ANSI_RESET ++ bytes " ") [] ;;
  draw_bar (ps_queue_count ps 2) max_count (chr "-") (chr " ") ;;
  printf (bytes "  %d procs") [VNum (ps_queue_count ps 2)] ;;
  printf (line "     ") [] ;;
  printf (bytes "              Time Slice: 4 ticks") [] ;;
  printf (line "               Next Boost: %d ticks") [VNum (ps_next_boost_in ps)] ;;
  printf [10] [].

Definition row_color (is_running : bool) (prio : Z) : list Z :=
  if is_running then ANSI_BOLD ++ ANSI_CYAN
  else if prio =? 0 then ANSI_GREEN
  else if prio =? 1 then ANSI_YELLOW
  else if prio =? 2 then ANSI_RED
  else ANSI_RESET.

Definition row_state (state : Z) : list Z :=
  if (0 <=? state) && (state <=? 5) then default [] (state_names !! Z.to_nat state)
  else bytes "???   ".

Definition sep : U W unit := printf (bytes " | ") [].

Definition draw_row (ps : list Z) (i : nat) : U W unit :=
  let is_running := ps_state ps i =? 4 in
  let prio := ps_priority ps i in
  printf (bytes "%s") [VStr (Some (row_color is_running prio))] ;;
  (if is_running then printf (bytes " *") [] else printf (bytes "  ") []) ;;
  print_int_r (ps_pid ps i) 4 ;; sep ;;
  print_str_l (ps_name ps i) 12 ;; sep ;;
  print_str_l (row_state (ps_state ps i)) 7 ;; sep ;;
  printf (bytes "  %d ") [VNum prio] ;; sep ;;
  draw_timeslice_bar (ps_ticks_current ps i) (ps_time_slice ps i) ;; sep ;;
  print_int_r (ps_ticks_total ps i) 5 ;; sep ;;
  print_int_r (ps_num_scheduled ps i) 5 ;; sep ;;
  print_int_r (ps_num_demoted ps i) 3 ;; sep ;;
  print_int_r (ps_num_boosted ps i) 3 ;;
  printf (ANSI_RESET ++ [10]) [].

(** The rows, of which at most [MAX_DISPLAY_PROC] are shown. *)
Fixpoint draw_rows (ps : list Z) (l : list nat) (displayed : Z) : U W unit :=
  match l with
  | [] => mret tt
  | i :: l' =>
      if displayed <? MAX_DISPLAY_PROC then
        if negb (ps_inuse ps i =? 0) && negb (ps_state ps i =? 0) then
          draw_row ps i ;; draw_rows ps l' (displayed + 1)
        else draw_rows ps l' displayed
      else mret tt
  end.

Definition draw_process_table (ps : list Z) : U W unit :=
  draw_border ;;
  printf (ANSI_BOLD ++ ANSI_WHITE) [] ;;
  printf (line "  PROCESS TABLE") [] ;;
  printf ANSI_RESET [] ;;
  printf (bytes "  ") [] ;;
  draw_line 13 (chr "=") ;;
  printf [10; 10] [] ;;
  printf (ANSI_BOLD ++ ANSI_WHITE) [] ;;
  printf (line "  PID  | NAME         | STATE   | PRIO | SLICE  | TOTAL | SCHED | DEM | BST") [] ;;
  printf ANSI_RESET [] ;;
  printf (line "  -----+--------------+---------+------+--------+-------+-------+-----+----") [] ;;
  draw_rows ps (seq 0 PSTAT_NPROC) 0 ;;
  printf [10] [].

Definition draw_footer (interval : Z) : U W unit :=
  draw_border ;;
  printf (bytes "  Legend: " ++ ANSI_CYAN ++ bytes "*=RUN" ++ ANSI_RESET ++ bytes " | ") [] ;;
  printf (ANSI_GREEN ++ bytes "Q0=HIGH" ++ ANSI_RESET ++ bytes " | ") [] ;;
  printf (ANSI_YELLOW ++ bytes "Q1=MED" ++ ANSI_RESET ++ bytes " | ") [] ;;
  printf (ANSI_RED ++ bytes "Q2=LOW" ++ ANSI_RESET ++ bytes " | ") [] ;;
  printf (bytes "Refresh: ") [] ;;
  printf (bytes "%d") [VNum interval] ;;
  printf (line " ticks") [] ;;
  printf (line "  Wait for iterations to finish (xv6 doesn't support Ctrl+C)") [] ;;
  draw_border.

(** ** [main] *)

(** The refresh loop: the heap is that of the allocator, [p] the structure in it. *)
Fixpoint monitor_loop (h : heap) (p interval max_iter : Z) (use_ansi : bool) (iter : Z)
    (fuel : nat) : U W unit :=
  match fuel with
  | O => unfinished
  | S fuel' =>
      if max_iter <? iter then mret tt else
      '(r, ps) ← getpstat;
      uwhen (r <? 0)
        (printf (line "monitor: getpstat failed") [] ;; free p h ;; exit 1) ;;
      (if use_ansi then printf ANSI_HOME [] else clear_screen_simple) ;;
      draw_header iter (ps_global_ticks ps) ;;
      draw_queue_section ps ;;
      draw_process_table ps ;;
      draw_footer interval ;;
      sleep interval ;;
      monitor_loop h p interval max_iter use_ansi (i32 (iter + 1)) fuel'
  end.

Definition clamp_low (n : Z) : Z := if n <? 1 then 1 else n.

(** [base] is the address of the allocator's static header. *)
Definition monitor_main (base : Z) (argv : list (list Z)) : U W unit :=
  let max_iter := match argv !! 1%nat with Some a => clamp_low (atoi a) | None => 100 end in
  let interval :=
    match argv !! 2%nat with
    | Some a => let n := clamp_low (atoi a) in if 100 <? n then 100 else n
    | None => 10
    end in
  let use_ansi := match argv !! 3%nat with Some a => negb (atoi a =? 0) | None => true end in
  '(p, h) ← malloc base sizeof_pstat empty_heap;
  uwhen (p =? 0) (printf (line "monitor: malloc failed") [] ;; exit 1) ;;
  printf (ANSI_CLEAR ++ ANSI_HOME) [] ;;
  printf (line "MLFQ Monitor starting...") [] ;;
  printf (line "  Iterations: %d") [VNum max_iter] ;;
  printf (line "  Refresh interval: %d ticks") [VNum interval] ;;
  printf (line "  ANSI colors: %s")
    [VStr (Some (if use_ansi then bytes "enabled" else bytes "disabled"))] ;;
  printf ([10] ++ line "Note: xv6 doesn't support Ctrl+C. Wait for iterations or Ctrl+A X to exit QEMU.") [] ;;
  printf ([10] ++ line "Starting in 2 seconds...") [] ;;
  sleep 20 ;;
  uwhen use_ansi (printf ANSI_HIDE_CURSOR []) ;;
  bounded (monitor_loop h p interval max_iter use_ansi 1) ;;
  uwhen use_ansi (printf ANSI_SHOW_CURSOR []) ;;
  printf ([10] ++ line "Monitor finished after %d iterations.") [VNum max_iter] ;;
  free p h ;;
  exit 0.
End monitor.
