(* ===== verification/Sh.v ===== *)
(** * [user/sh.c]

    The shell: the parser of command lines, and their execution.  A pointer into the
    line is an offset into the buffer that holds it, and a command that the
    constructors allocate is a value of type [cmd]: the code never compares or shares
    the pointers to them, except that [parseexec] fills in the arguments of a
    command that redirections already refer to.  The model collects those
    redirections and puts them around the command when its arguments are known. *)

From S2P Require Import Prelude Bytes Data User Ulib.

Local Open Scope Z_scope.

Definition MAXARGS : nat := 10.

(** The target of a redirection: [file], [efile], [mode] and [fd]. *)
Record redir := mkRedir { rd_file : nat; rd_efile : nat; rd_mode : Z; rd_fd : Z }.

(** Commands; the arguments of [EXEC] are the entries of [argv] and [eargv] before
    the first null one. *)
Inductive cmd :=
  | EXEC (args : list (nat * nat))
  | REDIR (c : cmd) (r : redir)
  | PIPE (left right : cmd)
  | LIST (left right : cmd)
  | BACK (c : cmd).

(** The constructors [execcmd], [redircmd], [pipecmd], [listcmd] and [backcmd] *)
Definition execcmd : cmd := EXEC [].
Definition redircmd (c : cmd) (r : redir) : cmd := REDIR c r.
Definition pipecmd (left right : cmd) : cmd := PIPE left right.
Definition listcmd (left right : cmd) : cmd := LIST left right.
Definition backcmd (c : cmd) : cmd := BACK c.

(** ** Tokens *)

Definition whitespace : list Z := [32; 9; 13; 10; 11].
Definition symbols : list Z := bytes "<|>&;()".

Definition is_in (set : list Z) (c : Z) : bool := if strchr set c then true else false.

Section tokens.
Context (buf : list Z) (es : nat).

(** [*s] *)
Definition ch (s : nat) : Z := default 0 (buf !! s).

(** [while(s < es && p( *s )) s++], with at most [n] turns. *)
Fixpoint skip_while (p : Z → bool) (n s : nat) : nat :=
  match n with
  | O => s
  | S n' => if (s <? es)%nat && p (ch s) then skip_while p n' (S s) else s
  end.
Definition skip (p : Z → bool) (s : nat) : nat := skip_while p (es - s) s.

Definition skip_white : nat → nat := skip (is_in whitespace).
Definition skip_word : nat → nat := skip (λ c, negb (is_in whitespace c) && negb (is_in symbols c)).

(** The token at [s]: its kind, and where it ends. *)
Definition token (s : nat) : Z * nat :=
  let c := ch s in
  if c =? 0 then (c, s)
  else if (c =? chr "|") || (c =? chr "(") || (c =? chr ")") || (c =? chr ";") ||
          (c =? chr "&") || (c =? chr "<") then (c, S s)
  else if c =? chr ">" then
    if ch (S s) =? chr ">" then (chr "+", S (S s)) else (c, S s)
  else (chr "a", skip_word s).

(** [gettoken]: the value returned, and [*q], [*eq] and [*ps]. *)
Definition gettoken (ps : nat) : Z * nat * nat * nat :=
  let q := skip_white ps in
  let '(ret, eq) := token q in
  (ret, q, eq, skip_white eq).

(** [peek]: the value returned, and [*ps]. *)
Definition peek (toks : list Z) (ps : nat) : bool * nat :=
  let s := skip_white ps in
  (negb (ch s =? 0) && is_in toks (ch s), s).

(** ** Parsing *)

Section parsing.
Context {W : Type} {OS : Os W}.

Definition panic {A} (s : string) : U W A :=
  fprintf 2 (line "%s") [VStr (Some (bytes s))] ;; exit 1.

(** The redirection for the token [tok]; there is no other token. *)
Definition redir_of (tok : Z) (q eq : nat) : option redir :=
  if tok =? chr "<" then Some (mkRedir q eq O_RDONLY 0)
  else if tok =? chr ">" then
    Some (mkRedir q eq (Z.lor (Z.lor O_WRONLY O_CREATE) O_TRUNC) 1)
  else if tok =? chr "+" then Some (mkRedir q eq (Z.lor O_WRONLY O_CREATE) 1)
  else None.

(** [parseredirs]: the redirections, innermost first, and [*ps]. *)
Fixpoint parseredirs (fuel : nat) (ps : nat) : U W (list redir * nat) :=
  match fuel with
  | O => unfinished
  | S fuel' =>
      let '(b, ps) := peek (bytes "<>") ps in
      if (b : bool) then
        let '(tok, _, _, ps) := gettoken ps in
        let '(kind, q, eq, ps) := gettoken ps in
        if negb (kind =? chr "a") then panic "missing file for redirection" else
        '(rs, ps) ← parseredirs fuel' ps;
        mret (match redir_of tok q eq with Some r => r :: rs | None => rs end, ps)
      else mret ([], ps)
  end.

Definition redirect (c : cmd) (rs : list redir) : cmd := foldl redircmd c rs.

(** The loop of [parseexec] over the arguments. *)
Fixpoint parseargs (fuel : nat) (args : list (nat * nat)) (rs : list redir) (ps : nat)
    : U W (cmd * nat) :=
  match fuel with
  | O => unfinished
  | S fuel' =>
      let '(b, ps) := peek (bytes "|)&;") ps in
      if (b : bool) then mret (redirect (EXEC args) rs, ps) else
      let '(tok, q, eq, ps) := gettoken ps in
      if tok =? 0 then mret (redirect (EXEC args) rs, ps) else
      if negb (tok =? chr "a") then panic "syntax" else
      let args := args ++ [(q, eq)] in
      if (MAXARGS <=? length args)%nat then panic "too many args" else
      '(rs', ps) ← parseredirs fuel' ps;
      parseargs fuel' args (rs ++ rs') ps
  end.

(** [while(peek(ps, es, "&")) cmd = backcmd(cmd)] *)
Fixpoint parseback (fuel : nat) (c : cmd) (ps : nat) : U W (cmd * nat) :=
  match fuel with
  | O => unfinished
  | S fuel' =>
      let '(b, ps) := peek (bytes "&") ps in
      if (b : bool) then
        let '(_, _, _, ps) := gettoken ps in parseback fuel' (backcmd c) ps
      else mret (c, ps)
  end.

Fixpoint parseline (fuel : nat) (ps : nat) : U W (cmd * nat) :=
  match fuel with
  | O => unfinished
  | S fuel' =>
      '(c, ps) ← parsepipe fuel' ps;
      '(c, ps) ← parseback fuel' c ps;
      let '(b, ps) := peek (bytes ";") ps in
      if (b : bool) then
        let '(_, _, _, ps) := gettoken ps in
        '(r, ps) ← parseline fuel' ps;
        mret (listcmd c r, ps)
      else mret (c, ps)
  end
with parsepipe (fuel : nat) (ps : nat) : U W (cmd * nat) :=
  match fuel with
  | O => unfinished
  | S fuel' =>
      '(c, ps) ← parseexec fuel' ps;
      let '(b, ps) := peek (bytes "|") ps in
      if (b : bool) then
        let '(_, _, _, ps) := gettoken ps in
        '(r, ps) ← parsepipe fuel' ps;
        mret (pipecmd c r, ps)
      else mret (c, ps)
  end
with parseexec (fuel : nat) (ps : nat) : U W (cmd * nat) :=
  match fuel with
  | O => unfinished
  | S fuel' =>
      let '(b, ps) := peek (bytes "(") ps in
      if (b : bool) then parseblock fuel' ps else
      '(rs, ps) ← parseredirs fuel' ps;
      parseargs fuel' [] rs ps
  end
with parseblock (fuel : nat) (ps : nat) : U W (cmd * nat) :=
  match fuel with
  | O => unfinished
  | S fuel' =>
      let '(b, ps) := peek (bytes "(") ps in
      if negb b then panic "parseblock" else
      let '(_, _, _, ps) := gettoken ps in
      '(c, ps) ← parseline fuel' ps;
      let '(b, ps) := peek (bytes ")") ps in
      if negb b then panic "syntax - missing )" else
      let '(_, _, _, ps) := gettoken ps in
      '(rs, ps) ← parseredirs fuel' ps;
      mret (redirect c rs, ps)
  end.
End parsing.
End tokens.

(** The buffer after [nulterminate]. *)
Fixpoint nulterminate (c : cmd) (buf : list Z) : list Z :=
  match c with
  | EXEC args => foldl (λ buf a, <[a.2 := 0]> buf) buf args
  | REDIR c r => <[rd_efile r := 0]> (nulterminate c buf)
  | PIPE l r | LIST l r => nulterminate r (nulterminate l buf)
  | BACK c => nulterminate c buf
  end.

Section sh.
Context {W : Type} {OS : Os W}.

(** [parsecmd]: the command, and the buffer. *)
Definition parsecmd (buf : list Z) : U W (cmd * list Z) :=
  let es := Z.to_nat (strlen buf) in
  '(c, ps) ← bounded (λ fuel, parseline buf es fuel 0);
  let '(_, ps) := peek buf es [] ps in
  if negb (ps =? es)%nat then
    fprintf 2 (line "leftovers: %s") [VStr (Some (drop ps buf))] ;;
    panic "syntax"
  else mret (c, nulterminate c buf).

(** ** Execution *)

Definition fork1 : U W Z :=
  pid ← fork;
  if pid =? -1 then panic "fork" else mret pid.

(** The string at offset [q] of the buffer. *)
Definition str (buf : list Z) (q : nat) : list Z := cstr (drop q buf).

Fixpoint runcmd (buf : list Z) (c : cmd) : U W unit :=
  match c with
  | EXEC args =>
      match args with
      | [] => exit 1
      | (q, _) :: _ =>
          exec (str buf q) (map (λ a, str buf a.1) args) ;;
          fprintf 2 (line "exec %s failed") [VStr (Some (str buf q))] ;;
          exit 0
      end
  | REDIR c r =>
      close (rd_fd r) ;;
      fd ← open (str buf (rd_file r)) (rd_mode r);
      (if fd <? 0 then
         fprintf 2 (line "open %s failed") [VStr (Some (str buf (rd_file r)))] ;; exit 1
       else mret tt) ;;
      runcmd buf c
  | LIST l r =>
      pid ← fork1;
      (if pid =? 0 then runcmd buf l else mret tt) ;;
      wait ;;
      runcmd buf r
  | PIPE l r =>
      '(ret, p0, p1) ← pipe;
      (if ret <? 0 then panic "pipe" else mret tt) ;;
      pid ← fork1;
      (if pid =? 0 then
         close 1 ;; dup p1 ;; close p0 ;; close p1 ;; runcmd buf l
       else mret tt) ;;
      pid ← fork1;
      (if pid =? 0 then
         close 0 ;; dup p0 ;; close p0 ;; close p1 ;; runcmd buf r
       else mret tt) ;;
      close p0 ;;
      close p1 ;;
      wait ;;
      wait ;;
      exit 0
  | BACK c =>
      pid ← fork1;
      (if pid =? 0 then runcmd buf c else mret tt) ;;
      exit 0
  end.

Definition SH_BUF : nat := 100.

(** [getcmd]: the value returned, and the buffer. *)
Definition getcmd : U W (Z * list Z) :=
  write 2 (bytes "$ ") ;;
  buf ← gets (replicate SH_BUF 0) SH_BUF;
  mret (if ch buf 0 =? 0 then -1 else 0, buf).

(** [while((fd = open("console", O_RDWR)) >= 0)] *)
Fixpoint open_console (fuel : nat) : U W unit :=
  match fuel with
  | O => unfinished
  | S fuel' =>
      fd ← open (bytes "console") O_RDWR;
      if 0 <=? fd then
        if 3 <=? fd then close fd ;; mret tt else open_console fuel'
      else mret tt
  end.

(** The loop of [main]. *)
Fixpoint sh_loop (fuel : nat) : U W unit :=
  match fuel with
  | O => unfinished
  | S fuel' =>
      '(r, buf) ← getcmd;
      if negb (0 <=? r) then mret tt else
      if (ch buf 0 =? chr "c") && (ch buf 1 =? chr "d") && (ch buf 2 =? chr " ") then
        let buf := <[Z.to_nat (strlen buf - 1) := 0]> buf in
        r ← chdir (str buf 3);
        uwhen (r <? 0) (fprintf 2 (line "cannot cd %s") [VStr (Some (str buf 3))]) ;;
        sh_loop fuel'
      else
        pid ← fork1;
        (if pid =? 0 then '(c, buf) ← parsecmd buf; runcmd buf c else mret tt) ;;
        wait ;;
        sh_loop fuel'
  end.

Definition sh_main : U W unit :=
  bounded open_console ;;
  bounded sh_loop ;;
  exit 0.
End sh.
