(* ===== verification/Mkfs.v ===== *)
(** * [mkfs/mkfs.c]

    The program that makes the image of the file system, on a little-endian host.  The
    image is a function from block numbers to contents, and the number of blocks of
    the file; the host opens the file, and its writes to it do not fail.  A program that
    gives up is [MDie], with what it prints.  The files to copy are an
    argument: for each name, what the reads of the open file return. *)

From S2P Require Import Prelude Bytes Memory Riscv Data State Spinlock Table Mlfq Bio Log Fs.

Local Open Scope Z_scope.

Record mstate := mkMstate {
  m_img : Z → list Z; (* the image, by block *)
  m_size : Z; (* its size in blocks *)
  m_freeinode : Z; (* freeinode *)
  m_freeblock : Z; (* freeblock *)
}.

Inductive mresult (A : Type) :=
  | MOk (a : A) (st : mstate)
  | MDie (msg : list Z)
  | MAssert
  | MUnfinished.
Arguments MOk {_} _ _.
Arguments MDie {_} _.
Arguments MAssert {_}.
Arguments MUnfinished {_}.

Definition M (A : Type) : Type := mstate → mresult A.

#[export] Instance M_ret : MRet M := λ A a st, MOk a st.
#[export] Instance M_bind : MBind M := λ A B f m st,
  match m st with
  | MOk a st' => f a st'
  | MDie msg => MDie msg
  | MAssert => MAssert
  | MUnfinished => MUnfinished
  end.

Definition die {A} (s : list Z) : M A := λ _, MDie s.
Definition massert (b : bool) : M unit := λ st, if b then MOk tt st else MAssert.

(** ** The layout *)

Definition NINODES : Z := 200.
Definition nbitmap : Z := FSSIZE / (BSIZE * 8) + 1.
Definition ninodeblocks : Z := NINODES / IPB + 1.
Definition nlog : Z := LOGSIZE.
Definition nmeta : Z := 2 + nlog + ninodeblocks + nbitmap.
Definition nblocks : Z := FSSIZE - nmeta.

(** The value whose bytes on the host are those of [x] in RISC-V order. *)
Definition xshort (x : Z) : Z := of_le (le 2 x).
Definition xint (x : Z) : Z := of_le (le 4 x).

Definition sb : superblock :=
  mkSuperblock FSMAGIC (xint FSSIZE) (xint nblocks) (xint NINODES) (xint nlog) (xint 2)
    (xint (2 + nlog)) (xint (2 + nlog + ninodeblocks)).

Definition sb_bytes : list Z :=
  le 4 (sb_magic sb) ++ le 4 (sb_size sb) ++ le 4 (sb_nblocks sb) ++ le 4 (sb_ninodes sb) ++
  le 4 (sb_nlog sb) ++ le 4 (sb_logstart sb) ++ le 4 (sb_inodestart sb) ++ le 4 (sb_bmapstart sb).

(** ** Sectors *)

(** The block at the offset [sec * BSIZE], a [uint]. *)
Definition sector (sec : Z) : Z := u32 (sec * BSIZE) / BSIZE.

Definition wsect (sec : Z) (buf : list Z) : M unit := λ st,
  MOk tt (mkMstate (<[sector sec := buf]> (m_img st)) (Z.max (m_size st) (sector sec + 1))
    (m_freeinode st) (m_freeblock st)).

Definition rsect (sec : Z) : M (list Z) := λ st,
  if sector sec <? m_size st then MOk (m_img st (sector sec)) st else MDie (bytes "read").

(** ** Inodes

    A [struct dinode] is the list of its bytes. *)

Definition winode (inum : Z) (ip : list Z) : M unit :=
  buf ← rsect (IBLOCK inum sb);
  wsect (IBLOCK inum sb) (splice buf (dinode_off inum) ip).

Definition rinode (inum : Z) : M (list Z) :=
  buf ← rsect (IBLOCK inum sb);
  mret (slice buf (dinode_off inum) (Z.to_nat sizeof_dinode)).

(** [freeinode++] and [freeblock++] *)
Definition next_inode : M Z := λ st,
  MOk (m_freeinode st)
    (mkMstate (m_img st) (m_size st) (u32 (m_freeinode st + 1)) (m_freeblock st)).
Definition next_block : M Z := λ st,
  MOk (m_freeblock st)
    (mkMstate (m_img st) (m_size st) (m_freeinode st) (u32 (m_freeblock st + 1))).

Definition zero_dinode : list Z := replicate (Z.to_nat sizeof_dinode) 0.

Definition ialloc (type : Z) : M Z :=
  inum ← next_inode;
  winode inum (put32 (put16 (put16 zero_dinode 0 (xshort type)) 6 (xshort 1)) 8 (xint 0)) ;;
  mret inum.

(** ** The free map *)

(** [buf[i/8] = buf[i/8] | (0x1 << (i%8))], for [i] below [used] *)
Definition mark_used (used : Z) : list Z :=
  foldl set_bit (replicate (Z.to_nat BSIZE) 0) (seqZ 0 used).

Definition balloc (used : Z) : M unit :=
  massert (used <? BSIZE * 8) ;;
  wsect (sb_bmapstart sb) (mark_used used).

(** ** Appending to a file *)

(** The address of entry [i] of [addrs]. *)
Definition din_addr (i : Z) : Z := 12 + 4 * i.

(** The block of the file at index [fbn], which is allocated if need be: its number and
    the inode. *)
Definition file_block (din : list Z) (fbn : Z) : M (Z * list Z) :=
  if fbn <? NDIRECT then
    din ← (if xint (get32 din (din_addr fbn)) =? 0
           then b ← next_block; mret (put32 din (din_addr fbn) (xint b)) else mret din);
    mret (xint (get32 din (din_addr fbn)), din)
  else
    din ← (if xint (get32 din (din_addr NDIRECT)) =? 0
           then b ← next_block; mret (put32 din (din_addr NDIRECT) (xint b)) else mret din);
    let ind := xint (get32 din (din_addr NDIRECT)) in
    indirect ← rsect ind;
    let off := 4 * (fbn - NDIRECT) in
    indirect ← (if get32 indirect off =? 0
                then b ← next_block;
                  let indirect := put32 indirect off (xint b) in
                  wsect ind indirect ;; mret indirect
                else mret indirect);
    mret (xint (get32 indirect off), din).

(** The loop of [iappend] over the bytes [p]: the inode and the offset.  Every turn takes
    at least one byte, so that the number of bytes bounds the turns. *)
Fixpoint iappend_loop (fuel : nat) (din : list Z) (off : Z) (p : list Z) : M (list Z * Z) :=
  match p, fuel with
  | [], _ => mret (din, off)
  | _, O => λ _, MUnfinished
  | _, S fuel' =>
      let fbn := off / BSIZE in
      massert (fbn <? MAXFILE) ;;
      '(x, din) ← file_block din fbn;
      let n1 := Z.min (Z.of_nat (length p)) ((fbn + 1) * BSIZE - off) in
      buf ← rsect x;
      wsect x (splice buf (off - fbn * BSIZE) (take (Z.to_nat n1) p)) ;;
      iappend_loop fuel' din (u32 (off + n1)) (drop (Z.to_nat n1) p)
  end.

Definition iappend (inum : Z) (p : list Z) : M unit :=
  din ← rinode inum;
  '(din, off) ← iappend_loop (length p) din (xint (get32 din 8)) p;
  winode inum (put32 din 8 (xint off)).

(** ** [main] *)

(** A [struct dirent] whose name is the bytes [name], at most [DIRSIZ] of them. *)
Definition dirent (inum : Z) (name : list Z) : list Z :=
  le 2 (xshort inum) ++ take DIRSIZ (name ++ replicate DIRSIZ 0).

(** The name of a file in the image. *)
Definition short_name (arg : list Z) : list Z :=
  let n := if decide (take 5 arg = bytes "user/") then drop 5 arg else arg in n.
Definition skip_underscore (n : list Z) : list Z :=
  if default 0 (head n) =? chr "_" then tail n else n.

Fixpoint mfor {A} (l : list A) (body : A → M unit) : M unit :=
  match l with
  | [] => mret tt
  | x :: l' => body x ;; mfor l' body
  end.

(** The copy of one file; [host arg] is what the reads return. *)
Definition add_file (host : list Z → option (list (list Z))) (rootino : Z) (arg : list Z) : M unit :=
  let shortname := short_name arg in
  massert (bool_decide (chr "/" ∉ shortname)) ;;
  match host arg with
  | None => die arg
  | Some chunks =>
      inum ← ialloc T_FILE;
      iappend rootino (dirent inum (skip_underscore shortname)) ;;
      mfor chunks (iappend inum)
  end.

Definition make_image (host : list Z → option (list (list Z))) (files : list (list Z)) : M unit :=
  massert (BSIZE mod sizeof_dinode =? 0) ;;
  massert (BSIZE mod sizeof_dirent =? 0) ;;
  mfor (seqZ 0 FSSIZE) (λ i, wsect i (replicate (Z.to_nat BSIZE) 0)) ;;
  wsect 1 (splice (replicate (Z.to_nat BSIZE) 0) 0 sb_bytes) ;;
  rootino ← ialloc T_DIR;
  massert (rootino =? ROOTINO) ;;
  iappend rootino (dirent rootino (bytes ".")) ;;
  iappend rootino (dirent rootino (bytes "..")) ;;
  mfor files (add_file host rootino) ;;
  din ← rinode rootino;
  let off := u32 ((xint (get32 din 8) / BSIZE + 1) * BSIZE) in
  winode rootino (put32 din 8 (xint off)) ;;
  st ← (λ st, MOk st st);
  balloc (m_freeblock st).

(** [argv] is the name of the program, the image, and the files to copy. *)
Definition mkfs_main (host : list Z → option (list (list Z))) (argv : list (list Z)) : M unit :=
  match argv with
  | _ :: _ :: files => make_image host files
  | _ => die (bytes "Usage: mkfs fs.img files...")
  end.

(** The variables at the start: the file is empty. *)
Definition mkfs_start : mstate := mkMstate (λ _, []) 0 1 nmeta.
