(* ===== verification/MlfqTest.v ===== *)
(** * The test programs

    [user/mlfq_test.c] and [user/test_pstat.c].  The counters of the test suite are a
    record that the tests pass along, with the heap of the allocator; a test
    returns its result and both.  [base] is the address of the allocator's static
    header. *)

From S2P Require Import Prelude Bytes Data User Ulib Umalloc Sched Monitor.

Local Open Scope Z_scope.

Definition TEST_PASSED : Z := 0.
Definition TEST_FAILED : Z := 1.

(** [total_tests], [passed_tests] and [failed_tests] *)
Record tests := mkTests { t_total : Z; t_passed : Z; t_failed : Z }.

(** ** The work of the children *)

(** [result += i * i], for [i] below [n] *)
Definition square_sum (n : Z) : Z := foldl (λ r i, i64 (r + i64 (i * i))) 0 (seqZ 0 n).

(** The loops of the child of the first scheduling test. *)
Definition shift_mix (r : Z) : Z := Z.lxor r (i64 (Z.shiftl r 2)).
Definition demotion_work : Z :=
  Z.iter 10 (λ r, foldl (λ r i, Z.iter 30 shift_mix (i64 (r + i64 (i * i)))) r (seqZ 0 50000)) 0.

Definition NCHILD : Z := 3.

Section mlfq_test.
Context {W : Type} {OS : Os W}.
Context (base : Z).

Definition heading : list Z := line "============================================================".

Definition test_header (name : list Z) : U W unit :=
  printf [10] [] ;;
  printf heading [] ;;
  printf (line "  Test: %s") [VStr (Some name)] ;;
  printf heading [].

Definition test_result (test_name : list Z) (passed : Z) (reason : option (list Z)) (t : tests)
    : U W tests :=
  let t := mkTests (i32 (t_total t + 1)) (t_passed t) (t_failed t) in
  if negb (passed =? 0) then
    let t := mkTests (t_total t) (i32 (t_passed t + 1)) (t_failed t) in
    printf (line "  [PASS] %s") [VStr (Some test_name)] ;;
    mret t
  else
    let t := mkTests (t_total t) (t_passed t) (i32 (t_failed t + 1)) in
    printf (line "  [FAIL] %s") [VStr (Some test_name)] ;;
    match reason with
    | Some r => printf (line "           Reason: %s") [VStr (Some r)]
    | None => mret tt
    end ;;
    mret t.

(** A test on a condition, whose value in C is 0 or 1. *)
Definition test_cond (test_name : string) (b : bool) (reason : string) (t : tests) : U W tests :=
  test_result (bytes test_name) (if b then 1 else 0) (Some (bytes reason)) t.

(** ** Looking up a process *)

(** The field [f] of the first entry with the pid. *)
Fixpoint find_pid (f : nat → Z) (ps : list Z) (pid : Z) (idx : list nat) : Z :=
  match idx with
  | [] => -1
  | i :: idx' =>
      if negb (ps_inuse ps i =? 0) && (ps_pid ps i =? pid) then f i else find_pid f ps pid idx'
  end.

(** [get_priority] and [get_demote_count] differ in the field. *)
Definition get_field (field : list Z → nat → Z) (pid : Z) (h : heap) : U W (Z * heap) :=
  '(p, h) ← malloc base sizeof_pstat h;
  if p =? 0 then mret (-1, h) else
  '(r, ps) ← getpstat;
  if r <? 0 then h ← free p h; mret (-1, h) else
  h ← free p h;
  mret (find_pid (field ps) ps pid (seq 0 PSTAT_NPROC), h).

Definition get_priority (pid : Z) (h : heap) : U W (Z * heap) := get_field ps_priority pid h.
Definition get_demote_count (pid : Z) (h : heap) : U W (Z * heap) := get_field ps_num_demoted pid h.

(** ** The tests *)

Definition count_processes (ps : list Z) : Z :=
  Z.of_nat (length (filter (λ i, ps_inuse ps i ≠ 0 ∧ ps_state ps i ≠ 0) (seq 0 PSTAT_NPROC))).

Definition test_syscall (t : tests) (h : heap) : U W (Z * tests * heap) :=
  test_header (bytes "Syscall Functionality") ;;
  '(p, h) ← malloc base sizeof_pstat h;
  if p =? 0 then
    t ← test_result (bytes "malloc allocation") TEST_FAILED (Some (bytes "malloc failed")) t;
    mret (TEST_FAILED, t, h)
  else
  '(ret, ps) ← getpstat;
  t ← test_cond "getpstat() returns 0" (ret =? 0) "syscall failed" t;
  if negb (ret =? 0) then h ← free p h; mret (TEST_FAILED, t, h) else
  t ← test_cond "global_ticks > 0" (0 <? ps_global_ticks ps) "ticks not updated" t;
  t ← test_cond "total_processes > 0" (0 <? ps_total_processes ps) "no processes found" t;
  t ← test_cond "found processes >= 2" (2 <=? count_processes ps) "expected init + sh" t;
  h ← free p h;
  mret (TEST_PASSED, t, h).

Definition print_details (start_prio mid_prio end_prio demote_count : Z) : U W unit :=
  printf (line "  Details: Priority %d -> %d -> %d, demoted %d times")
    [VNum start_prio; VNum mid_prio; VNum end_prio; VNum demote_count].

Definition test_priority_demotion (t : tests) (h : heap) : U W (Z * tests * heap) :=
  test_header (bytes "Priority Demotion (CPU-bound)") ;;
  pid ← fork;
  if pid <? 0 then
    t ← test_result (bytes "fork()") TEST_FAILED (Some (bytes "fork failed")) t;
    mret (TEST_FAILED, t, h)
  else if pid =? 0 then let _ := demotion_work in exit 0 else
  sleep 5 ;;
  '(start_prio, h) ← get_priority pid h;
  sleep 20 ;;
  '(mid_prio, h) ← get_priority pid h;
  sleep 20 ;;
  '(end_prio, h) ← get_priority pid h;
  wait ;;
  t ← test_cond "initial priority = 0" (start_prio =? 0) "should start at HIGH" t;
  t ← test_cond "priority decreased" (start_prio <? end_prio) "CPU-bound should demote" t;
  '(demote_count, h) ← get_demote_count pid h;
  t ← test_cond "demote count > 0" (0 <? demote_count) "CPU-bound should be demoted" t;
  print_details start_prio mid_prio end_prio demote_count ;;
  mret (if start_prio <? end_prio then TEST_PASSED else TEST_FAILED, t, h).

Definition test_priority_preservation (t : tests) (h : heap) : U W (Z * tests * heap) :=
  test_header (bytes "Priority Preservation (I/O-bound)") ;;
  pid ← fork;
  if pid <? 0 then
    t ← test_result (bytes "fork()") TEST_FAILED (Some (bytes "fork failed")) t;
    mret (TEST_FAILED, t, h)
  else if pid =? 0 then
    ufor (seqZ 0 15) (λ _, let _ := sum_below 100 in sleep 3 ;; mret tt) ;;
    exit 0
  else
  sleep 5 ;;
  '(start_prio, h) ← get_priority pid h;
  sleep 25 ;;
  '(mid_prio, h) ← get_priority pid h;
  sleep 25 ;;
  '(end_prio, h) ← get_priority pid h;
  wait ;;
  t ← test_cond "initial priority = 0" (start_prio =? 0) "should start at HIGH" t;
  t ← test_cond "priority stayed at 0" (end_prio =? 0) "I/O-bound should stay HIGH" t;
  '(demote_count, h) ← get_demote_count pid h;
  t ← test_cond "demote count = 0" (demote_count =? 0) "I/O-bound should not demote" t;
  print_details start_prio mid_prio end_prio demote_count ;;
  mret (if (end_prio =? 0) && (demote_count =? 0) then TEST_PASSED else TEST_FAILED, t, h).

(** The loop over the two children: [first_done]. *)
Fixpoint wait_both (n : nat) (start first_done : Z) : U W Z :=
  match n with
  | O => mret first_done
  | S n' =>
      done_pid ← wait;
      now ← uptime;
      let elapsed := i32 (now - start) in
      if first_done <? 0 then
        printf (line "  First finished: PID %d at %d ticks") [VNum done_pid; VNum elapsed] ;;
        wait_both n' start done_pid
      else
        printf (line "  Second finished: PID %d at %d ticks") [VNum done_pid; VNum elapsed] ;;
        wait_both n' start first_done
  end.

Definition test_mixed_fairness (t : tests) (h : heap) : U W (Z * tests * heap) :=
  test_header (bytes "Mixed Workload Fairness") ;;
  cpu_pid ← fork;
  if cpu_pid =? 0 then let _ := square_sum 200000 in exit 0 else
  io_pid ← fork;
  if io_pid =? 0 then ufor (seqZ 0 20) (λ _, sleep 2 ;; mret tt) ;; exit 0 else
  start ← uptime;
  first_done ← wait_both 2 start (-1);
  t ← test_cond "I/O finished before CPU" (first_done =? io_pid)
        "I/O-bound should be more responsive" t;
  mret (if first_done =? io_pid then TEST_PASSED else TEST_FAILED, t, h).

Definition start_workers : U W unit :=
  ufor (seqZ 0 NCHILD) (λ _,
    pid ← fork;
    if pid =? 0 then let _ := square_sum 100000 in exit 0 else mret tt).

Definition positive (z : Z) : Z := if 0 <? z then 1 else 0.

Definition test_queue_distribution (t : tests) (h : heap) : U W (Z * tests * heap) :=
  test_header (bytes "Queue Distribution") ;;
  '(p, h) ← malloc base sizeof_pstat h;
  if p =? 0 then
    t ← test_result (bytes "malloc") TEST_FAILED (Some (bytes "allocation failed")) t;
    mret (TEST_FAILED, t, h)
  else
  start_workers ;;
  sleep 30 ;;
  '(r, ps) ← getpstat;
  if r <? 0 then
    h ← free p h;
    t ← test_result (bytes "getpstat") TEST_FAILED (Some (bytes "syscall failed")) t;
    mret (TEST_FAILED, t, h)
  else
  printf (line "  Queue distribution:") [] ;;
  printf (line "    Q0: %d processes") [VNum (ps_queue_count ps 0)] ;;
  printf (line "    Q1: %d processes") [VNum (ps_queue_count ps 1)] ;;
  printf (line "    Q2: %d processes") [VNum (ps_queue_count ps 2)] ;;
  let total_in_queues :=
    i32 (i32 (ps_queue_count ps 0 + ps_queue_count ps 1) + ps_queue_count ps 2) in
  t ← test_cond "processes distributed" (0 <? total_in_queues) "no processes in queues" t;
  t ← test_cond "at least 2 queues used"
        (2 <=? positive (ps_queue_count ps 0) + positive (ps_queue_count ps 1) +
               positive (ps_queue_count ps 2))
        "CPU workers should spread across queues" t;
  ufor (seqZ 0 NCHILD) (λ _, wait ;; mret tt) ;;
  h ← free p h;
  mret (TEST_PASSED, t, h).

(** ** The runner *)

Definition box_top : list Z :=
  line "╔══════════════════════════════════════════════════════════════╗".
Definition box_empty : list Z :=
  line "║                                                              ║".

Definition print_summary (t : tests) : U W unit :=
  printf [10] [] ;;
  printf box_top [] ;;
  printf (line "║                      TEST SUMMARY                            ║") [] ;;
  printf (line "╠══════════════════════════════════════════════════════════════╣") [] ;;
  printf box_empty [] ;;
  printf (line "║  Total Tests:   %2d                                           ║")
    [VNum (t_total t)] ;;
  printf (line "║  Passed:        %2d                                            ║")
    [VNum (t_passed t)] ;;
  printf (line "║  Failed:        %2d                                            ║")
    [VNum (t_failed t)] ;;
  printf box_empty [] ;;
  (if t_failed t =? 0
   then printf (line "║  Result:        ALL TESTS PASSED!                           ║") []
   else printf (line "║  Result:        SOME TESTS FAILED                           ║") []) ;;
  printf box_empty [] ;;
  printf (line "╚══════════════════════════════════════════════════════════════╝") [] ;;
  printf [10] [].

(** The calls of the tests in [main]. *)
Definition run_tests : U W tests :=
  '(_, t, h) ← test_syscall (mkTests 0 0 0) empty_heap;
  '(_, t, h) ← test_priority_demotion t h;
  '(_, t, h) ← test_priority_preservation t h;
  '(_, t, h) ← test_mixed_fairness t h;
  '(_, t, h) ← test_queue_distribution t h;
  mret t.

Definition mlfq_test_main : U W unit :=
  printf [10] [] ;;
  printf box_top [] ;;
  printf (line "║          MLFQ SCHEDULER - AUTOMATED TEST SUITE              ║") [] ;;
  printf box_top [] ;;
  printf [10] [] ;;
  printf (line "Running comprehensive tests...") [] ;;
  t ← run_tests;
  print_summary t ;;
  exit (if 0 <? t_failed t then 1 else 0).

(** ** [user/test_pstat.c] *)

Definition test_pstat_main : U W unit :=
  printf (line "Starting getpstat() test...") [] ;;
  '(p, h) ← malloc base sizeof_pstat empty_heap;
  if p =? 0 then printf (line "ERROR: malloc failed") [] ;; exit 1 else
  '(ret, ps) ← getpstat;
  if ret <? 0 then
    printf (line "ERROR: getpstat() returned %d") [VNum ret] ;;
    free p h ;;
    exit 1
  else
  printf (line "SUCCESS: getpstat() returned 0") [] ;;
  printf ([10] ++ line "SYSTEM STATS:") [] ;;
  printf (line "  Global ticks:     %d") [VNum (ps_global_ticks ps)] ;;
  printf (line "  Total processes:  %d") [VNum (ps_total_processes ps)] ;;
  printf (line "  Queue 0 (HIGH):   %d") [VNum (ps_queue_count ps 0)] ;;
  printf (line "  Queue 1 (MED):    %d") [VNum (ps_queue_count ps 1)] ;;
  printf (line "  Queue 2 (LOW):    %d") [VNum (ps_queue_count ps 2)] ;;
  printf ([10] ++ line "Test PASSED") [] ;;
  free p h ;;
  exit 0.
End mlfq_test.
