(* ===== verification/GrepProps.v ===== *)
(** * [grep]: theorems

    The matcher decides the meaning of the expression, and the program prints the
    matching lines however the input is cut into reads. *)

From S2P Require Import Prelude Bytes Data User Ulib UserFacts Grep.

Local Open Scope Z_scope.

(** ** The meaning of an expression *)

Inductive atom := One (c : Z) | Star (c : Z) | End.

(** The parts of an expression: [c], [c*], and a final dollar sign. *)
Fixpoint atoms (re : list Z) : list atom :=
  match re with
  | [] => []
  | c :: re1 =>
      match re1 with
      | s :: re2 => if s =? chr "*" then Star c :: atoms re2 else One c :: atoms re1
      | [] => [if c =? chr "$" then End else One c]
      end
  end.

(** [c] stands for [x]. *)
Definition stands (c x : Z) : Prop := c = chr "." ∨ x = c.

(** The text starts with a match of the parts. *)
Fixpoint starts (l : list atom) (text : list Z) : Prop :=
  match l with
  | [] => True
  | One c :: l' => ∃ x text', text = x :: text' ∧ stands c x ∧ starts l' text'
  | Star c :: l' => ∃ run text', text = run ++ text' ∧ Forall (stands c) run ∧ starts l' text'
  | End :: _ => text = []
  end.

(** The text has a match of the expression: at its start, if the expression begins
    with a caret, and else anywhere. *)
Definition has_match (re text : list Z) : Prop :=
  match re with
  | c :: re' =>
      if c =? chr "^" then starts (atoms re') text
      else ∃ before after, text = before ++ after ∧ starts (atoms re) after
  | [] => True
  end.

(** Strings have no NUL inside. *)
Definition string_ok (s : list Z) : Prop := 0 ∉ s.

Lemma string_ok_cons c s : string_ok (c :: s) ↔ c ≠ 0 ∧ string_ok s.
Proof. unfold string_ok. rewrite not_elem_of_cons. naive_solver. Qed.

Lemma matchstar_spec here c (P : list Z → Prop) text :
  (∀ t, string_ok t → here t = true ↔ P t) → string_ok text →
  matchstar here c text = true ↔ ∃ run text', text = run ++ text' ∧ Forall (stands c) run ∧ P text'.
Proof.
  intros Hh Hok. induction text as [|t text IH]; cbn [matchstar].
  - rewrite orb_true_iff, Hh by done. split.
    + intros [Hp|Hp]; [|done]. by exists [], [].
    + intros (run & text' & E & _ & Hp). symmetry in E. apply app_eq_nil in E as [-> ->]. by left.
  - pose proof Hok as [Ht Hok']%string_ok_cons. specialize (IH Hok').
    rewrite orb_true_iff, Hh by done. split.
    + intros [Hp|Hp]; [by exists [], (t :: text)|].
      destruct (Z.eqb_spec t 0); [done|]. cbn [negb andb] in Hp.
      destruct (_ || _) eqn:Es; [|done]. apply IH in Hp as (run & text' & -> & Hr & Hp).
      exists (t :: run), text'. split_and!; [done| |done]. constructor; [|done].
      unfold stands. apply orb_true_iff in Es as [Es|Es]; apply Z.eqb_eq in Es; naive_solver.
    + intros ([|x run] & text' & E & Hr & Hp); [left; by rewrite E|]. right.
      injection E as <- E. apply Forall_cons_1 in Hr as [Hx Hr].
      rewrite (proj2 (Z.eqb_neq t 0)) by done. cbn [negb andb].
      assert ((t =? c) || (c =? chr ".") = true) as ->.
      { apply orb_true_iff. destruct Hx as [->| ->]; [right|left]; apply Z.eqb_refl. }
      apply IH. by exists run, text'.
Qed.

Lemma at0_nul text : string_ok text → (at0 text =? 0) = true ↔ text = [].
Proof.
  destruct text as [|t text]; [done|]. intros [Ht _]%string_ok_cons. cbn. rewrite Z.eqb_eq. done.
Qed.

Lemma matchone_spec here c (P : list Z → Prop) text :
  (∀ t, string_ok t → here t = true ↔ P t) → string_ok text →
  (if negb (at0 text =? 0) && ((c =? chr ".") || (c =? at0 text)) then here (tail text) else false)
    = true ↔ ∃ x text', text = x :: text' ∧ stands c x ∧ P text'.
Proof.
  intros Hh. destruct text as [|t text]; [naive_solver|].
  intros [Ht Hok]%string_ok_cons. change (at0 (t :: text)) with t. cbn [tail].
  rewrite (proj2 (Z.eqb_neq t 0)) by done. cbn [negb andb]. unfold stands.
  pose proof (Hh text Hok). pose proof (Z.eqb_spec c (chr ".")). pose proof (Z.eqb_spec c t).
  destruct (c =? chr "."), (c =? t); cbn [orb]; repeat select (reflect _ _) (fun H => inversion_clear H);
    naive_solver.
Qed.

Lemma matchhere_spec re text :
  string_ok re → string_ok text → matchhere re text = true ↔ starts (atoms re) text.
Proof.
  remember (length re) as n eqn:Hn. revert re text Hn.
  induction (lt_wf n) as [n _ IH]. intros [|c re1] text Hn Hre Ht; cbn [matchhere atoms]; [done|].
  pose proof Hre as [Hc Hre1]%string_ok_cons. rewrite (proj2 (Z.eqb_neq c 0)) by done.
  cbn [length] in Hn. destruct re1 as [|s re2].
  - destruct (Z.eqb_spec c (chr "$")) as [->|Hd]; cbn [andb].
    + change (at0 [] =? 0) with true. cbn iota. cbn [starts]. by apply at0_nul.
    + cbn [starts]. by apply (matchone_spec (matchhere []) c (λ _, True)).
  - pose proof Hre1 as [Hs Hre2]%string_ok_cons. cbn [length] in Hn.
    destruct (s =? chr "*").
    + cbn [starts]. apply matchstar_spec; [|done]. intros t Hok. apply (IH (length re2)); [lia|done..].
    + assert ((at0 (s :: re2) =? 0) = false) as -> by (by apply Z.eqb_neq).
      rewrite andb_false_r. cbn [starts]. apply matchone_spec; [|done].
      intros t Hok. apply (IH (length (s :: re2))); [cbn; lia|done..].
Qed.

Lemma string_ok_app a b : string_ok (a ++ b) ↔ string_ok a ∧ string_ok b.
Proof. unfold string_ok. rewrite not_elem_of_app. done. Qed.

Lemma match_loop_spec re text :
  string_ok re → string_ok text →
  match_loop re text = true ↔ ∃ before after, text = before ++ after ∧ starts (atoms re) after.
Proof.
  intros Hre. induction text as [|t text IH]; intros Hok; cbn [match_loop];
    rewrite orb_true_iff, matchhere_spec by done.
  - split.
    + intros [H|H]; [|done]. by exists [], [].
    + intros (before & after & E & H). symmetry in E. apply app_eq_nil in E as [-> ->]. by left.
  - pose proof Hok as [Ht Hok']%string_ok_cons. rewrite (proj2 (Z.eqb_neq t 0)), IH by done. split.
    + intros [H|(before & after & -> & H)]; [by exists [], (t :: text)|by exists (t :: before), after].
    + intros ([|x before] & after & E & H); [left; by rewrite E|right].
      injection E as -> ->. by exists before, after.
Qed.

(** ** Lines *)

(** The complete lines of a text, without their newlines, and what is left. *)
Fixpoint split_lines (l : list Z) : list (list Z) * list Z :=
  match l with
  | [] => ([], [])
  | c :: l' =>
      let '(ls, r) := split_lines l' in
      if c =? 10 then ([] :: ls, r)
      else match ls with
           | [] => ([], c :: r)
           | x :: ls' => ((c :: x) :: ls', r)
           end
  end.

(** Text without a newline is put before the first line, or what is left. *)
Definition put_before (a : list Z) (s : list (list Z) * list Z) : list (list Z) * list Z :=
  match s with
  | ([], r) => ([], a ++ r)
  | (x :: ls, r) => ((a ++ x) :: ls, r)
  end.

Lemma split_lines_part a l : 10 ∉ a → split_lines (a ++ l) = put_before a (split_lines l).
Proof.
  induction a as [|c a IH]; intros Ha; cbn [app].
  - by destruct (split_lines l) as [[|x ls] r].
  - apply not_elem_of_cons in Ha as [Hc Ha]. cbn [split_lines]. rewrite IH by done.
    rewrite (proj2 (Z.eqb_neq c 10)) by done. by destruct (split_lines l) as [[|x ls] r].
Qed.

Lemma split_lines_line a l :
  10 ∉ a → split_lines (a ++ 10 :: l) = (a :: (split_lines l).1, (split_lines l).2).
Proof.
  intros Ha. rewrite split_lines_part by done. cbn. destruct (split_lines l) as [ls r]. cbn.
  by rewrite app_nil_r.
Qed.

Lemma split_lines_app a b :
  split_lines (a ++ b) =
    let '(ls, r) := split_lines a in
    let '(ls', r') := split_lines (r ++ b) in (ls ++ ls', r').
Proof.
  induction a as [|c a IH]; cbn [app split_lines].
  - by destruct (split_lines b).
  - rewrite IH. destruct (split_lines a) as [ls r]. destruct (c =? 10) eqn:Ec.
    + by destruct (split_lines (r ++ b)).
    + destruct ls as [|x ls]; cbn [app split_lines].
      * destruct (split_lines (r ++ b)) as [ls' r']. rewrite Ec. by destruct ls'.
      * by destruct (split_lines (r ++ b)).
Qed.

Lemma split_lines_rest l : 10 ∉ (split_lines l).2.
Proof.
  induction l as [|c l IH]; cbn [split_lines]; [apply not_elem_of_nil|].
  destruct (split_lines l) as [ls r]. cbn in IH. destruct (Z.eqb_spec c 10); [done|].
  destruct ls; cbn; [|done]. by apply not_elem_of_cons.
Qed.

Lemma split_lines_string l : string_ok l → string_ok (split_lines l).2.
Proof.
  induction l as [|c l IH]; cbn [split_lines]; [done|]. intros [Hc Hl]%string_ok_cons.
  specialize (IH Hl). destruct (split_lines l) as [ls r]. cbn in IH.
  destruct (c =? 10); [done|]. destruct ls; cbn; [|done]. by apply string_ok_cons.
Qed.

(** The search for the end of a line in a string. *)
Lemma strchr_newline l r :
  string_ok l →
  match strchr (l ++ 0 :: r) 10 with
  | None => 10 ∉ l
  | Some k => (k < length l)%nat ∧ l !! k = Some 10 ∧ 10 ∉ take k l
  end.
Proof.
  induction l as [|c l IH]; cbn [app strchr]; [intros _; apply not_elem_of_nil|].
  intros [Hc Hl]%string_ok_cons. specialize (IH Hl). rewrite (proj2 (Z.eqb_neq c 0)) by done.
  destruct (Z.eqb_spec c 10) as [->|Hn]; [split; [cbn; lia|split; [done|apply not_elem_of_nil]]|].
  destruct (strchr _ 10) as [k|]; cbn [fmap option_fmap option_map].
  - destruct IH as (Hk & Hx & Ht). cbn. rewrite not_elem_of_cons. split_and!; [lia|done|done|done].
  - by apply not_elem_of_cons.
Qed.

(** The lines that the program prints. *)
Definition matching (pattern : list Z) (ls : list (list Z)) : list Z :=
  concat (map (λ x, if match_ pattern x then x ++ [10] else []) ls).

Lemma matching_app pattern ls ls' :
  matching pattern (ls ++ ls') = matching pattern ls ++ matching pattern ls'.
Proof. unfold matching. by rewrite map_app, concat_app. Qed.

(** The end of a line overwritten, in a buffer that has [a], a newline and [t] at [p]. *)
Lemma drop_at_line (buf : list Z) p (a : list Z) c t x :
  drop p buf = a ++ c :: t →
  drop p (<[(p + length a)%nat := x]> buf) = a ++ x :: t ∧
  drop (p + length a + 1) (<[(p + length a)%nat := x]> buf) = t.
Proof.
  intros E. assert (drop p (<[(p + length a)%nat := x]> buf) = a ++ x :: t) as E1.
  { rewrite drop_insert_ge, E by lia. replace (p + length a - p)%nat with (length a + 0)%nat by lia.
    by rewrite insert_app_r. }
  split; [done|]. rewrite <- Nat.add_assoc, <- drop_drop, E1.
  rewrite drop_app_ge by lia. by replace (length a + 1 - length a)%nat with 1%nat by lia.
Qed.

(** The loop over the lines of the buffer: from [p] on, the buffer has the string [l]. *)
Lemma runs_grep_lines pattern fuel buf p l w :
  (length l < fuel)%nat → string_ok l → (∃ r, drop p buf = l ++ 0 :: r) →
  ∃ buf' p', runs (grep_lines fuel pattern buf p) w (buf', p')
      (wrote w (matching pattern (split_lines l).1)) ∧
    length buf' = length buf ∧ (p' + length (split_lines l).2 = p + length l)%nat ∧
    ∃ r, drop p' buf' = (split_lines l).2 ++ 0 :: r.
Proof.
  revert buf p l w. induction fuel as [|fuel IH]; [lia|].
  intros buf p l w Hf Hok [r Hr]. cbn [grep_lines]. rewrite Hr.
  pose proof (strchr_newline l r Hok) as Hs. destruct (strchr _ 10) as [k|].
  - destruct Hs as (Hk & Hx & Ha). set (a := take k l) in *.
    assert (k = length a) as Ek by (unfold a; rewrite length_take; lia).
    assert (l = a ++ 10 :: drop (S k) l) as El by (unfold a; by rewrite <- (drop_S l 10 k Hx), take_drop).
    set (l2 := drop (S k) l) in *. clearbody a l2. subst k l.
    apply string_ok_app in Hok as [Hoka [_ Hok2]%string_ok_cons].
    rewrite length_app in *. cbn [length] in *.
    rewrite split_lines_line by done. cbn [fst snd]. rewrite <- app_assoc in Hr. cbn [app] in Hr.
    destruct (drop_at_line _ _ _ _ _ 0 Hr) as [E0 E0']. set (buf1 := <[_ := 0]> buf) in *.
    rewrite E0, cstr_app by done.
    assert (matching pattern (a :: (split_lines l2).1) =
      (if match_ pattern a then a ++ [10] else []) ++ matching pattern (split_lines l2).1) as -> by done.
    destruct (match_ pattern a); cbn [app].
    + destruct (drop_at_line _ _ _ _ _ 10 E0) as [E1 E1']. set (buf2 := <[_ := 10]> buf1) in *.
      destruct (IH buf2 (p + length a + 1)%nat l2 (wrote w (a ++ [10]))) as (buf' & p' & H & Hl & Hp & Hr');
        [lia|done|eauto|].
      exists buf', p'. split_and!; [|by rewrite Hl; unfold buf2, buf1; rewrite !length_insert|lia|done].
      eapply runs_bind; [apply runs_write|]. cbn beta. unfold slice. rewrite Nat2Z.id, E1.
      replace (p + length a + 1 - p)%nat with (length a + 1)%nat by lia.
      rewrite firstn_app_2. cbn [take]. by rewrite stream_wrote_app in H.
    + destruct (IH buf1 (p + length a + 1)%nat l2 w) as (buf' & p' & H & Hl & Hp & Hr');
        [lia|done|eauto|].
      exists buf', p'. split_and!; [done|by rewrite Hl; unfold buf1; rewrite length_insert|lia|done].
  - assert (split_lines l = ([], l)) as ->.
    { rewrite <- (app_nil_r l) at 1. rewrite split_lines_part by done. cbn. by rewrite app_nil_r. }
    exists buf, p. cbn [fst snd]. change (matching pattern []) with (@nil Z). rewrite stream_wrote_nil.
    split_and!; [apply runs_ret|done|done|eauto].
Qed.

(** Lines that the buffer has room for, with the newline. *)
Definition fits (l : list Z) : Prop := Z.of_nat (length l) < 1023.
Definition short (s : list (list Z) * list Z) : Prop := Forall fits s.1 ∧ fits s.2.

Lemma short_part a l : 10 ∉ a → short (split_lines (a ++ l)) → fits a.
Proof.
  intros Ha. rewrite split_lines_part by done. unfold fits.
  destruct (split_lines l) as [[|x ls] r]; intros [H1 H2]; cbn in *.
  - unfold fits in H2. rewrite length_app in H2. lia.
  - apply Forall_cons_1 in H1 as [H1 _]. unfold fits in H1. rewrite length_app in H1. lia.
Qed.

Lemma buffer_extended buf part data :
  take (length part) buf = part → (length part + length data < length buf)%nat →
  let m := (length part + length data)%nat in
  let buf' := <[m := 0]> (splice buf (Z.of_nat (length part)) data) in
  length buf' = length buf ∧ ∃ r, drop 0 buf' = (part ++ data) ++ 0 :: r.
Proof.
  intros Hp Hl m buf'. unfold buf'. rewrite length_insert, splice_length by lia.
  split; [done|]. unfold splice. rewrite Nat2Z.id, Hp, app_assoc, drop_0.
  destruct (drop (length part + length data) buf) as [|x r] eqn:Ed.
  - apply (f_equal length) in Ed. rewrite length_drop in Ed. cbn in Ed. lia.
  - exists r. replace m with (length (part ++ data) + 0)%nat by (unfold m; rewrite length_app; lia).
    by rewrite insert_app_r.
Qed.

(** The lines in the buffer after [data] was read, and what [memmove] then leaves in it. *)
Lemma grep_lines_turn pattern buf part data w :
  length buf = GREP_BUF → take (length part) buf = part → string_ok (part ++ data) →
  (length part + length data < GREP_BUF)%nat →
  let buf1 := <[(length part + length data)%nat := 0]> (splice buf (Z.of_nat (length part)) data) in
  let part2 := (split_lines (part ++ data)).2 in
  ∃ buf2 p, runs (grep_lines (S (length buf1)) pattern buf1 0) w (buf2, p)
      (wrote w (matching pattern (split_lines (part ++ data)).1)) ∧
    (p + length part2 = length part + length data ∧ length buf2 = GREP_BUF ∧ p + length part2 ≤ length buf2)%nat ∧
    length (moved buf2 0 p (length part2)) = GREP_BUF ∧
    take (length part2) (moved buf2 0 p (length part2)) = part2.
Proof.
  intros Hbuf Hpart Hok Hlen buf1 part2.
  destruct (buffer_extended buf part data) as [Hl1 Hr1]; [done|lia|]. cbv zeta in Hl1, Hr1. fold buf1 in Hl1, Hr1.
  destruct (runs_grep_lines pattern (S (length buf1)) buf1 0 (part ++ data) w)
    as (buf2 & p & Hlines & Hl2 & Hp & r & Hr2); [rewrite length_app; lia|done|done|].
  rewrite length_app in Hp. fold part2 in Hr2, Hp.
  assert (p + length part2 ≤ length buf2)%nat as Hfit.
  { apply (f_equal length) in Hr2. rewrite length_drop, length_app in Hr2. cbn in Hr2. lia. }
  exists buf2, p. split; [exact Hlines|]. split; [lia|]. unfold moved. split.
  - rewrite !length_app, !length_take, !length_drop. lia.
  - by rewrite take_0, Hr2, app_nil_l, (take_app_length part2), take_app_length.
Qed.

Lemma loops_grep pattern fd n inp cuts o e part buf :
  (length inp < n)%nat → length buf = GREP_BUF → take (length part) buf = part → 10 ∉ part →
  string_ok (part ++ inp) → short (split_lines (part ++ inp)) →
  ∃ cuts', loops (grep_loop pattern fd buf (length part)) (mkStream inp cuts o e) tt
    (mkStream [] cuts' (o ++ matching pattern (split_lines (part ++ inp)).1) e).
Proof.
  assert (Z.of_nat GREP_BUF = 1024) as HB by done.
  revert inp cuts o part buf. induction n as [|n IH]; [lia|].
  intros inp cuts o part buf Hn Hbuf Hpart Hnl Hok Hsh.
  pose proof (short_part _ _ Hnl Hsh) as Hm. unfold fits in Hm.
  set (k := cut cuts (GREP_BUF - length part - 1)). set (data := take k inp).
  pose proof (runs_read inp cuts o e fd (GREP_BUF - length part - 1)) as Hread. cbv zeta in Hread.
  fold k data in Hread.
  replace (Z.of_nat (GREP_BUF - length part - 1)) with
    (Z.of_nat GREP_BUF - Z.of_nat (length part) - 1) in Hread by lia.
  pose proof (cut_pos cuts (GREP_BUF - length part - 1) ltac:(lia)) as Hk0. fold k in Hk0.
  pose proof (cut_le cuts (GREP_BUF - length part - 1)) as Hk1. fold k in Hk1.
  assert (length data ≤ k)%nat as Hdk by (unfold data; rewrite length_take; lia).
  destruct (decide (inp = [])) as [->|Hne].
  { exists (tail cuts). apply loops_turn. cbn [grep_loop]. eapply loops_bind; [exact Hread|].
    unfold data. rewrite take_nil, drop_nil, split_lines_part by done. cbn.
    rewrite app_nil_r. apply loops_runs, runs_ret. }
  assert (0 < length data)%nat as Hd0.
  { unfold data. rewrite length_take. destruct inp; [done|cbn; lia]. }
  assert (inp = data ++ drop k inp) as Einp by (unfold data; by rewrite take_drop).
  set (rest := drop k inp) in *. clearbody k data rest. subst inp.
  assert (string_ok (part ++ data)) as Hok1.
  { rewrite app_assoc in Hok. by apply string_ok_app in Hok as [? _]. }
  destruct (grep_lines_turn pattern buf part data (mkStream rest (tail cuts) o e))
    as (buf2 & p & Hlines & (Hp & Hl2 & Hfit) & Hlen2 & Hpart2); [done|done|done|lia|].
  set (buf1 := <[_ := 0]> _) in *.
  pose proof (split_lines_rest (part ++ data)) as Hnl2.
  pose proof (split_lines_app (part ++ data) rest) as Esp.
  destruct (split_lines (part ++ data)) as [ls part2] eqn:Els. cbn [fst snd] in *.
  destruct (IH rest (tail cuts) (o ++ matching pattern ls) part2 (moved buf2 0 p (length part2)))
    as [cuts' Hloop].
  - rewrite length_app in Hn. lia.
  - done.
  - done.
  - done.
  - rewrite app_assoc in Hok. apply string_ok_app in Hok as [_ Hok2]. apply string_ok_app.
    split; [|done]. pose proof (split_lines_string _ Hok1) as H. by rewrite Els in H.
  - rewrite app_assoc, Esp in Hsh. destruct (split_lines (part2 ++ rest)) as [ls' r'].
    destruct Hsh as [Hsh ?]. by apply Forall_app in Hsh as [_ ?].
  - exists cuts'. apply loops_turn. cbn [grep_loop]. eapply loops_bind; [exact Hread|]. cbv beta iota.
    rewrite Nat2Z.id. fold buf1. rewrite (proj2 (Z.ltb_lt 0 _)), (proj2 (Nat.ltb_lt _ GREP_BUF)) by lia.
    cbn [negb]. eapply loops_bind; [exact Hlines|]. cbv beta iota.
    rewrite (proj2 (Nat.ltb_lt 0 _)) by lia.
    replace (length part + length data - p)%nat with (length part2) by lia.
    rewrite memmove_moved by lia. rewrite app_assoc, Esp.
    destruct (split_lines (part2 ++ rest)) as [ls' r']. cbn [fst] in *.
    by rewrite matching_app, app_assoc.
Qed.

(** C34: the matcher of [grep] decides the meaning of the expression: [match] says yes
    exactly when the text has a match, where a character stands for itself, a dot for
    any character, [c*] for any number of characters that [c] stands for, a final
    dollar sign for the end of the text, and a first caret ties the match to the start. *)
Theorem match_decides re text :
  string_ok re → string_ok text → match_ re text = true ↔ has_match re text.
Proof.
  intros Hre Ht. unfold match_, has_match. destruct re as [|c re].
  - change (at0 [] =? chr "^") with false. cbn iota. rewrite match_loop_spec by done.
    split; [done|]. intros _. by exists [], text.
  - pose proof Hre as [_ Hre']%string_ok_cons. change (at0 (c :: re)) with c. destruct (c =? chr "^").
    + by apply matchhere_spec.
    + by apply match_loop_spec.
Qed.

(** C35: [grep] prints the lines that match, in order, however the reads cut the input:
    when the input has no NUL byte and every line fits in the buffer with its newline, the output is the complete
    lines of the input that match, each with its newline.  What follows the last
    newline is not printed. *)
Theorem grep_prints_matching_lines pattern fd inp cuts o e :
  string_ok inp → short (split_lines inp) →
  ∃ cuts', runs (grep pattern fd) (mkStream inp cuts o e) tt
    (mkStream [] cuts' (o ++ matching pattern (split_lines inp).1) e).
Proof.
  intros Hok Hsh.
  destruct (loops_grep pattern fd (S (length inp)) inp cuts o e [] (replicate GREP_BUF 0))
    as [cuts' H]; [lia|apply length_replicate|done|apply not_elem_of_nil|done|done|].
  exists cuts'. by apply runs_bounded.
Qed.

(** "ab*c$" in "xabbbc" *)
Lemma match_decides_witness : has_match (bytes "ab*c$") (bytes "xabbbc").
Proof.
  apply match_decides.
  - by apply (bool_decide_unpack _).
  - by apply (bool_decide_unpack _).
  - reflexivity.
Defined.

Definition example_text : list Z := line "one" ++ line "two" ++ line "three" ++ bytes "to".

Lemma grep_prints_matching_lines_witness :
  ∃ cuts', runs (grep (bytes "^t.*e*$") 0) (mkStream example_text [2; 0; 4; 3]%nat [] []) tt
    (mkStream [] cuts' (line "two" ++ line "three") []).
Proof.
  apply (grep_prints_matching_lines (bytes "^t.*e*$") 0 example_text [2; 0; 4; 3]%nat [] []).
  - by apply (bool_decide_unpack _).
  - split; [|done]. repeat constructor.
Defined.
