(* ===== verification/UserProps.v ===== *)
(** * The user library and [wc]: theorems *)

From S2P Require Import Prelude Bytes Data User Ulib UserFacts Utils.

Local Open Scope Z_scope.

(** ** Numbers *)

Lemma digits_lookup d : 0 ≤ d < 10 → digits !! Z.to_nat d = Some (chr "0" + d).
Proof.
  intros Hd. assert (d = 0 ∨ d = 1 ∨ d = 2 ∨ d = 3 ∨ d = 4 ∨ d = 5 ∨ d = 6 ∨ d = 7 ∨ d = 8 ∨ d = 9)
    as H by lia. by destruct_or!; subst d.
Qed.

Definition is_digit (c : Z) : Prop := chr "0" ≤ c ≤ chr "9".

Lemma atoi_loop_digits l n : Forall is_digit l → atoi_loop l n = foldl atoi_step n l.
Proof.
  intros Hl. revert n. induction Hl as [|c l Hc Hl IH]; intros n; cbn [atoi_loop foldl]; [done|].
  unfold is_digit in Hc. rewrite (proj2 (Z.leb_le (chr "0") c)), (proj2 (Z.leb_le c _)) by lia.
  apply IH.
Qed.

Lemma i32_shift a k : i32 (a + k * 2 ^ 32) = i32 a.
Proof.
  unfold i32. replace (a + k * 2 ^ 32 + 2 ^ 31) with (a + 2 ^ 31 + k * 2 ^ 32) by lia.
  by rewrite Z.mod_add.
Qed.

Lemma i32_shifted a : ∃ k, i32 a = a + k * 2 ^ 32.
Proof.
  exists (- ((a + 2 ^ 31) / 2 ^ 32)). unfold i32.
  pose proof (Z.div_mod (a + 2 ^ 31) (2 ^ 32) ltac:(lia)). lia.
Qed.

(** The digits of a number, read back from the highest. *)
Lemma int_digits_value room x :
  0 ≤ x < 10 ^ Z.of_nat room → (0 < room)%nat →
  ∃ l, int_digits room x 10 = Some l ∧ Forall is_digit l ∧ foldl atoi_step 0 (reverse l) = i32 x.
Proof.
  revert x. induction room as [|room IH]; intros x Hx Hr; [lia|]. cbn [int_digits].
  pose proof (Z.mod_pos_bound x 10 ltac:(lia)). rewrite digits_lookup by done. cbn [mbind option_bind].
  assert (is_digit (chr "0" + x mod 10)) as Hd by (unfold is_digit; change (chr "0") with 48;
    change (chr "9") with 57; lia).
  destruct (Z.eqb_spec (x / 10) 0) as [E|E].
  - eexists. split; [done|]. split; [by constructor|].
    cbn [foldl reverse app rev rev_append]. unfold atoi_step. f_equal. pose proof (Z.div_mod x 10). lia.
  - assert (0 < x / 10) by (pose proof (Z.div_pos x 10); lia).
    destruct (IH (x / 10)) as (l & -> & Hl & Hv).
    + split; [lia|]. apply Z.div_lt_upper_bound; [lia|].
      rewrite Nat2Z.inj_succ, Z.pow_succ_r in Hx by lia. lia.
    + destruct room; [|lia]. cbn in Hx. assert (x / 10 = 0) by (apply Z.div_small; lia). lia.
    + cbn [mbind option_bind]. eexists. split; [done|]. split; [by constructor|].
      rewrite reverse_cons, foldl_snoc, Hv. unfold atoi_step.
      replace (i32 (x / 10) * 10 + (chr "0" + x mod 10) - chr "0") with (i32 (x / 10) * 10 + x mod 10) by lia.
      pose proof (Z.div_mod x 10 ltac:(lia)). destruct (i32_shifted (x / 10)) as [k ->].
      rewrite <- (i32_shift x (10 * k)). f_equal. lia.
Qed.

Lemma number_reads_back n :
  is_i32 n → ∃ t, number n 10 true = Some t ∧ Forall is_u8 t ∧
    if n <? 0 then ∃ t', t = chr "-" :: t' ∧ i32 (- atoi t') = n else atoi t = n.
Proof.
  intros Hn. unfold is_i32 in Hn. unfold number, int_buf. cbn [andb].
  assert (u32 (if n <? 0 then - n else n) = Z.abs n) as ->.
  { rewrite u32_small; [|unfold is_u32]; destruct (Z.ltb_spec n 0); lia. }
  destruct (int_digits_value (if n <? 0 then 15 else 16) (Z.abs n)) as (l & -> & Hl & Hv).
  { destruct (n <? 0); cbn; lia. }
  { destruct (n <? 0); lia. }
  assert (Forall is_digit (reverse l)) as Hl' by (by apply Forall_reverse).
  assert (atoi (reverse l) = i32 (Z.abs n)) as Ha by (unfold atoi; by rewrite atoi_loop_digits).
  assert (Forall is_u8 (reverse l)) as Hu.
  { eapply Forall_impl; [|exact Hl']. intros c [H0 H9]. change (chr "0") with 48 in *.
    change (chr "9") with 57 in *. unfold is_u8. lia. }
  destruct (Z.ltb_spec n 0); cbn [mbind option_bind fmap option_fmap option_map].
  - eexists. split; [done|]. rewrite reverse_app. split; [by constructor|].
    exists (reverse l). split; [done|].
    rewrite Ha. destruct (i32_shifted (Z.abs n)) as [k ->].
    rewrite <- (i32_small n) at 2 by (unfold is_i32; lia). rewrite <- (i32_shift n (- k)). f_equal. lia.
  - eexists. split; [done|]. split; [done|]. rewrite Ha, i32_small; [lia|unfold is_i32; lia].
Qed.

(** C36: numbers survive printing.  For every [int], [printf] with [%d] writes a text from
    which [atoi] gets the number back; that of a negative number is a minus sign and
    the text of its absolute value. *)
Theorem printf_number_roundtrip n :
  is_i32 n → ∃ t,
    (∀ W (OS : Os W) fd, fprintf fd (bytes "%d") [VNum n] ≡ ufor t (putc fd)) ∧
    if n <? 0 then ∃ t', t = chr "-" :: t' ∧ i32 (- atoi t') = n else atoi t = n.
Proof.
  intros Hn. destruct (number_reads_back n Hn) as (t & Ht & _ & Hb). exists t. split; [|done].
  intros W OS fd. apply vprintf_text.
  change (bytes "%d") with [chr "%"; chr "d"]. rewrite format_d, i32_small, Ht by done.
  cbn [mbind option_bind format]. by rewrite app_nil_r.
Qed.

Lemma printf_number_roundtrip_witness :
  ∃ t, (∀ W (OS : Os W) fd, fprintf fd (bytes "%d") [VNum (-42)] ≡ ufor t (putc fd)) ∧
    ∃ t', t = chr "-" :: t' ∧ i32 (- atoi t') = -42.
Proof. apply (printf_number_roundtrip (-42)). unfold is_i32. lia. Defined.

(** ** wc *)

Definition is_space (c : Z) : bool := if strchr wc_space c then true else false.

(** The parts of a text between spaces, of which the words are those that are not
    empty; and its newlines. *)
Fixpoint pieces (l : list Z) : list (list Z) :=
  match l with
  | [] => [[]]
  | c :: l' =>
      if is_space c then [] :: pieces l'
      else match pieces l' with p :: ps => (c :: p) :: ps | [] => [] end
  end.
Definition nonempty (ps : list (list Z)) : nat := length (filter (λ p, p ≠ []) ps).
Definition words (l : list Z) : Z := Z.of_nat (nonempty (pieces l)).
Definition newlines (l : list Z) : Z := Z.of_nat (length (filter (λ c, c = 10) l)).

Lemma pieces_cons l : ∃ p ps, pieces l = p :: ps.
Proof.
  induction l as [|c l (p & ps & IH)]; cbn [pieces]; [eauto|]. rewrite IH.
  destruct (is_space c); eauto.
Qed.

(** The words that begin in a text, if the character before it belongs to a word. *)
Definition new_words (inword : bool) (l : list Z) : nat :=
  nonempty (if inword then tail (pieces l) else pieces l).

Lemma new_words_cons inword c l :
  new_words inword (c :: l) =
    if is_space c then new_words false l
    else ((if inword then 0 else 1) + new_words true l)%nat.
Proof.
  unfold new_words. cbn [pieces]. destruct (is_space c).
  - unfold nonempty. destruct inword; [done|]. by rewrite filter_cons_False by naive_solver.
  - destruct (pieces_cons l) as (p & ps & ->). unfold nonempty. destruct inword; [done|].
    by rewrite filter_cons_True by done.
Qed.

(** The counters after a text, while none overflows. *)
Lemma wc_text k l :
  (∀ z, z ∈ [wc_l k; wc_w k; wc_c k] → 0 ≤ z ∧ z + Z.of_nat (length l) < 2 ^ 31) →
  ∃ b, foldl wc_char k l = mkCounts (wc_l k + newlines l)
    (wc_w k + Z.of_nat (new_words (wc_inword k) l)) (wc_c k + Z.of_nat (length l)) b.
Proof.
  revert k. induction l as [|c l IH]; intros k Hk; cbn [foldl].
  - exists (wc_inword k). assert (new_words (wc_inword k) [] = 0%nat) as -> by (by destruct (wc_inword k)).
    change (newlines []) with 0. rewrite !Z.add_0_r. by destruct k.
  - pose proof (Hk (wc_l k) ltac:(set_solver)) as H1. pose proof (Hk (wc_w k) ltac:(set_solver)) as H2.
    pose proof (Hk (wc_c k) ltac:(set_solver)) as H3. cbn [length] in *.
    assert (∀ z, 0 ≤ z → z + Z.of_nat (S (length l)) < 2 ^ 31 → i32 (z + 1) = z + 1) as E.
    { intros z ? ?. apply i32_small. unfold is_i32. lia. }
    assert (newlines (c :: l) = (if c =? 10 then 1 else 0) + newlines l) as En.
    { unfold newlines. rewrite filter_cons. destruct (Z.eqb_spec c 10); case_decide; cbn; lia. }
    destruct (IH (wc_char k c)) as [b Hb].
    { intros z Hz. unfold wc_char in Hz.
      rewrite !E in Hz by lia. destruct (c =? 10), (strchr wc_space c), (wc_inword k);
        cbn in Hz; set_unfold in Hz; naive_solver lia. }
    exists b. rewrite Hb, En, new_words_cons. unfold wc_char, is_space. rewrite !E by lia.
    destruct (c =? 10), (strchr wc_space c), (wc_inword k); cbn; f_equal; lia.
Qed.

(** The line that [wc] prints. *)
Definition wc_report (k : counts) (name : list Z) : option (list Z) :=
  format (line "%d %d %d %s")
    [VNum (wc_l k); VNum (wc_w k); VNum (wc_c k); VStr (Some name)].

Lemma wc_report_some k name :
  is_i32 (wc_l k) → is_i32 (wc_w k) → is_i32 (wc_c k) → Forall is_u8 name →
  ∃ t, wc_report k name = Some t ∧ Forall is_u8 t.
Proof.
  intros Hl Hw Hc Hn.
  destruct (number_reads_back _ Hl) as (t1 & E1 & U1 & _).
  destruct (number_reads_back _ Hw) as (t2 & E2 & U2 & _).
  destruct (number_reads_back _ Hc) as (t3 & E3 & U3 & _).
  exists (t1 ++ [32] ++ t2 ++ [32] ++ t3 ++ [32] ++ cstr name ++ [10]). split.
  - unfold wc_report. change (line "%d %d %d %s") with
      (chr "%" :: chr "d" :: 32 :: chr "%" :: chr "d" :: 32 :: chr "%" :: chr "d" :: 32 ::
       chr "%" :: chr "s" :: [10]).
    assert (∀ l ap, format (32 :: l) ap = (t ← format l ap; Some (32 :: t))) as E32 by done.
    rewrite format_d, i32_small, E1, E32, format_d, i32_small, E2, E32, format_d, i32_small, E3, E32,
      format_s by done. done.
  - rewrite !Forall_app. unfold is_u8. repeat split; try done; try lia; try (repeat constructor; lia).
    clear -Hn. induction Hn as [|c l Hc Hl IH]; cbn [cstr]; [done|]. destruct (c =? 0); [done|].
    by constructor.
Qed.

Lemma splice_prefix buf data :
  (length data ≤ length buf)%nat → take (length data) (splice buf 0 data) = data.
Proof. intros H. unfold splice. cbn [Z.to_nat]. by rewrite take_0, app_nil_l, take_app_length. Qed.

Lemma loops_wc fd name n inp cuts o e buf k t :
  (length inp < n)%nat → length buf = CAT_BUF → wc_report (foldl wc_char k inp) name = Some t →
  Forall is_u8 t →
  ∃ cuts', loops (wc_loop fd name buf k) (mkStream inp cuts o e) tt (mkStream [] cuts' (o ++ t) e).
Proof.
  revert inp cuts buf k. induction n as [|n IH]; [lia|]. intros inp cuts buf k Hn Hbuf Ht Hu.
  pose proof (runs_read inp cuts o e fd CAT_BUF) as Hread. cbv zeta in Hread.
  pose proof (cut_pos cuts CAT_BUF ltac:(unfold CAT_BUF; lia)) as Hk0.
  pose proof (cut_le cuts CAT_BUF) as Hk1. set (m := cut cuts CAT_BUF) in *.
  destruct (decide (inp = [])) as [->|Hne].
  - exists (tail cuts). apply loops_turn. cbn [wc_loop]. eapply loops_bind; [exact Hread|].
    rewrite take_nil, drop_nil. cbv beta iota. cbn [length Z.of_nat Z.ltb Z.compare].
    apply loops_runs. by apply (runs_printf (mkStream [] (tail cuts) o e)).
  - set (data := take m inp) in *. set (rest := drop m inp) in *.
    assert (0 < length data)%nat as Hd.
    { unfold data. rewrite length_take. destruct inp; [done|cbn; lia]. }
    assert (length data ≤ m)%nat as Hdm by (unfold data; rewrite length_take; lia).
    assert (inp = data ++ rest) as Einp by (unfold data, rest; by rewrite take_drop).
    clearbody data rest. subst inp. rewrite foldl_app in Ht. rewrite length_app in Hn.
    destruct (IH rest (tail cuts) (splice buf 0 data) (foldl wc_char k data)) as [cuts' Hloop];
      [lia|rewrite splice_length; lia|done|done|].
    exists cuts'. apply loops_turn. cbn [wc_loop]. eapply loops_bind; [exact Hread|]. cbv beta iota.
    rewrite (proj2 (Z.ltb_lt 0 _)), Nat2Z.id, splice_prefix by lia. exact Hloop.
Qed.

Lemma words_le l : words l ≤ Z.of_nat (length l).
Proof.
  assert (∀ b, (new_words b l ≤ length l)%nat) as H; [|pose proof (H false); unfold words, new_words in *; lia].
  induction l as [|c l IH]; intros b; [by destruct b|].
  rewrite new_words_cons. cbn [length]. pose proof (IH true). pose proof (IH false).
  destruct (is_space c), b; lia.
Qed.

Lemma newlines_le l : newlines l ≤ Z.of_nat (length l).
Proof. unfold newlines. pose proof (length_filter (λ c, c = 10) l). lia. Qed.

(** C37: [wc] counts.  Whatever the sizes of the reads, for less than [2^31] bytes, it prints the number of newlines of
    the input, of its words, that is, of its longest parts without a space, and of its
    bytes. *)
Theorem wc_counts fd name inp cuts o e :
  Z.of_nat (length inp) < 2 ^ 31 → Forall is_u8 name → ∃ cuts' t,
  format (line "%d %d %d %s")
    [VNum (newlines inp); VNum (words inp); VNum (Z.of_nat (length inp)); VStr (Some name)] = Some t ∧
  runs (wc fd name) (mkStream inp cuts o e) tt (mkStream [] cuts' (o ++ t) e).
Proof.
  intros Hl Hn. destruct (wc_text (mkCounts 0 0 0 false) inp) as [b Hk].
  { cbn. intros z Hz. set_unfold in Hz. naive_solver lia. }
  cbn [wc_l wc_w wc_c wc_inword] in Hk. rewrite !Z.add_0_l in Hk.
  change (Z.of_nat (new_words false inp)) with (words inp) in Hk.
  pose proof (words_le inp). pose proof (newlines_le inp).
  destruct (wc_report_some (foldl wc_char (mkCounts 0 0 0 false) inp) name) as (t & Ht & Hu);
    [rewrite Hk; cbn [wc_l wc_w wc_c]; unfold is_i32, words, newlines in *; lia..|done|].
  destruct (loops_wc fd name (S (length inp)) inp cuts o e (replicate CAT_BUF 0)
    (mkCounts 0 0 0 false) t) as [cuts' Hloop]; [lia|apply length_replicate|done|done|].
  exists cuts', t. split; [|by apply runs_bounded]. by rewrite Hk in Ht.
Qed.

Lemma wc_counts_witness :
  ∃ cuts', runs (wc 0 (bytes "f")) (mkStream (line "two words" ++ line "x") [4]%nat [] []) tt
    (mkStream [] cuts' (line "2 3 12 f") []).
Proof.
  destruct (wc_counts 0 (bytes "f") (line "two words" ++ line "x") [4]%nat [] []) as (cuts' & t & Ht & H).
  - reflexivity.
  - constructor; [by split|constructor].
  - exists cuts'. vm_compute in Ht. injection Ht as <-. exact H.
Defined.
