(* ===== verification/UmallocFacts.v ===== *)
(** * The user allocator: its invariant

    The free blocks form a ring in the order of their addresses, with a gap between any
    two; the blocks in use lie in the gaps. *)

From S2P Require Import Prelude Bytes Data User Ulib Umalloc.

Local Open Scope Z_scope.

(** ** The interface to [sbrk]

    [brk] is the end of the process: a call that does not fail returns it and moves it.
    What a process can have is bounded by the memory of the machine. *)
Class Grows {W} (OS : Os W) (brk : W → Z) : Prop := {
  grows_sbrk n w : 0 < n < 2 ^ 31 → ∃ r w', serve (SysSbrk n) w = Some (r, w') ∧
    ((r_ret r = -1 ∧ brk w' = brk w) ∨ (r_ret r = brk w ∧ brk w' = brk w + n));
  grows_bound w : brk w ≤ 2 ^ 36;
}.

(** ** Blocks

    A block is the address of its header and its size in headers. *)

#[local] Notation block := (Z * Z)%type.
Implicit Types (x y : block) (bl : list block).

Definition below x y : Prop := x.1 + 16 * x.2 < y.1.
Definition apart x y : Prop := x.1 + 16 * x.2 ≤ y.1 ∨ y.1 + 16 * y.2 ≤ x.1.

Fixpoint spaced bl : Prop :=
  match bl with
  | [] => True
  | x :: bl' => (∀ y, y ∈ bl' → below x y) ∧ spaced bl'
  end.

Lemma spaced_app bl1 bl2 :
  spaced (bl1 ++ bl2) ↔ spaced bl1 ∧ spaced bl2 ∧ ∀ x y, x ∈ bl1 → y ∈ bl2 → below x y.
Proof.
  induction bl1 as [|z bl1 IH]; cbn; [set_solver|]. rewrite IH. set_solver.
Qed.

(** ** The ring *)

(** The address of the first block, or [z]. *)
Definition first bl (z : Z) : Z := match bl with [] => z | x :: _ => x.1 end.

(** The headers of the blocks, of which each points to the next, and the last to [z]. *)
Fixpoint links (h : heap) bl (z : Z) : Prop :=
  match bl with
  | [] => True
  | x :: bl' =>
      hp_ptr h !! x.1 = Some (first bl' z) ∧ hp_size h !! x.1 = Some x.2 ∧ links h bl' z
  end.

Lemma links_app h bl1 bl2 z : links h (bl1 ++ bl2) z ↔ links h bl1 (first bl2 z) ∧ links h bl2 z.
Proof.
  induction bl1 as [|x bl1 IH]; cbn; [naive_solver|]. rewrite IH.
  assert (first (bl1 ++ bl2) z = first bl1 (first bl2 z)) as -> by (by destruct bl1). naive_solver.
Qed.

Lemma links_ext h h' bl z :
  (∀ x, x ∈ bl → hp_ptr h' !! x.1 = hp_ptr h !! x.1 ∧ hp_size h' !! x.1 = hp_size h !! x.1) →
  links h bl z → links h' bl z.
Proof.
  induction bl as [|x bl IH]; cbn; [done|]. intros He (H1 & H2 & H3).
  destruct (He x) as [E1 E2]; [set_solver|]. rewrite E1, E2. split_and!; [done..|].
  apply IH; [set_solver|done].
Qed.

(** ** The invariant *)

Section invariant.
Context (base : Z).

(** The ring is [bl], which starts with [base]; the blocks in use are [al]; and all lies
    below [top]. *)
Record heap_ok (h : heap) bl (al : gmap Z Z) (top : Z) : Prop := {
  ho_base : 0 < base ∧ base + 16 ≤ top ≤ 2 ^ 36 ∧ ∃ fl, bl = (base, 0) :: fl;
  ho_links : links h bl base;
  ho_freep : hp_freep h ∈ map fst bl;
  ho_spaced : spaced bl;
  ho_free x : x ∈ bl → x ≠ (base, 0) → 1 ≤ x.2 ∧ base + 16 ≤ x.1 ∧ x.1 + 16 * x.2 ≤ top;
  ho_used a s : al !! a = Some s →
    hp_size h !! a = Some s ∧ 1 ≤ s ∧ base + 16 ≤ a ∧ a + 16 * s ≤ top;
  ho_apart a s x : al !! a = Some s → x ∈ bl → apart (a, s) x;
  ho_disjoint a s b t : al !! a = Some s → al !! b = Some t → a ≠ b → apart (a, s) (b, t);
}.

Lemma ho_ordered h bl al top x y bl1 bl2 :
  heap_ok h bl al top → bl = bl1 ++ x :: bl2 → y ∈ bl2 → x.1 < y.1.
Proof.
  intros [] -> Hy. apply spaced_app in ho_spaced0 as (_ & Hs & _). destruct Hs as [Hs _].
  specialize (Hs y Hy). unfold below in Hs.
  destruct (decide (x = (base, 0))) as [->|Hx]; [cbn in *; lia|].
  destruct (ho_free0 x) as (? & _); [set_solver|done|lia].
Qed.

Lemma ho_lowest h bl al top x : heap_ok h bl al top → x ∈ bl → base ≤ x.1.
Proof.
  intros [] Hx. destruct (decide (x = (base, 0))) as [->|Hne]; [done|].
  destruct (ho_free0 x Hx Hne) as (_ & ? & _). lia.
Qed.

Section world.
Context {W : Type} {OS : Os W}.
Implicit Types (w : W).

(** ** The search of [free] *)

Lemma free_search_turn h bp p next n fuel w :
  hp_ptr h !! p = Some next →
  free_search h bp p (S n) fuel w =
    if (p <? bp) && (bp <? next) then Done p w
    else if (next <=? p) && ((p <? bp) || (bp <? next)) then Done p w
    else free_search h bp next n fuel w.
Proof.
  intros Hp. cbn [free_search]. unfold get_ptr, mbind, U_bind. rewrite Hp.
  unfold mret, U_ret. by repeat destruct (_ && _).
Qed.

Lemma last_cons {A} (a : A) l d : List.last (a :: l) d = List.last l a.
Proof.
  revert a d. induction l as [|b l IH]; intros a d; [done|].
  change (List.last (a :: b :: l) d) with (List.last (b :: l) d). by rewrite !IH.
Qed.

(** From a block below [bp], the search stops at the last one below it. *)
Lemma search_low h bp q mid post k fuel w :
  links h ((q :: mid) ++ post) base → (∀ x, x ∈ q :: mid → base ≤ x.1 < bp) →
  (∀ x, x ∈ post → bp < x.1) → spaced (q :: mid) → (∀ x, x ∈ q :: mid → 0 ≤ x.2) →
  free_search h bp q.1 (S (length mid) + k) fuel w = Done (List.last (map fst mid) q.1) w.
Proof.
  revert q. induction mid as [|r mid IH]; intros q (Hp & _ & Hl) Hlo Hhi Hsp Hsz;
    pose proof (Hlo q ltac:(set_solver)); cbn [Nat.add]; rewrite (free_search_turn _ _ _ _ _ _ _ Hp).
  - cbn [app]. rewrite (proj2 (Z.ltb_lt q.1 bp)) by lia. destruct post as [|y post]; cbn [first andb].
    + rewrite (proj2 (Z.ltb_ge bp base)), (proj2 (Z.leb_le base q.1)) by lia. done.
    + pose proof (Hhi y ltac:(set_solver)). by rewrite (proj2 (Z.ltb_lt bp y.1)) by lia.
  - cbn [first app]. pose proof (Hlo r ltac:(set_solver)). destruct Hsp as [Hq Hsp].
    pose proof (Hq r ltac:(set_solver)) as Hqr. unfold below in Hqr. pose proof (Hsz q ltac:(set_solver)).
    rewrite (proj2 (Z.ltb_ge bp r.1)), andb_false_r, (proj2 (Z.leb_gt r.1 q.1)) by lia. cbn [andb].
    rewrite IH; [|done|set_solver|done|done|set_solver]. cbn [map]. by rewrite last_cons.
Qed.

(** From a block above [bp], it goes on to [base]. *)
Lemma search_high h bp q hi k fuel w :
  links h (q :: hi) base → base < bp → (∀ x, x ∈ q :: hi → bp < x.1) → spaced (q :: hi) →
  (∀ x, x ∈ q :: hi → 0 ≤ x.2) →
  free_search h bp q.1 (S (length hi) + k) fuel w = free_search h bp base k fuel w.
Proof.
  intros Hl Hb. revert q Hl. induction hi as [|r hi IH]; intros q (Hp & _ & Hl) Hhi Hsp Hsz;
    pose proof (Hhi q ltac:(set_solver)); cbn [Nat.add]; rewrite (free_search_turn _ _ _ _ _ _ _ Hp);
    cbn [first]; rewrite (proj2 (Z.ltb_ge q.1 bp)) by lia; cbn [andb orb].
  - by rewrite (proj2 (Z.ltb_ge bp base)), andb_false_r by lia.
  - destruct Hsp as [Hq Hsp]. pose proof (Hq r ltac:(set_solver)) as Hqr. unfold below in Hqr.
    pose proof (Hsz q ltac:(set_solver)).
    rewrite (proj2 (Z.leb_gt r.1 q.1)) by lia. cbn [andb]. apply IH; [done|set_solver|done|set_solver].
Qed.

Lemma last_snoc {A} (l : list A) (z : A) d : List.last (l ++ [z]) d = z.
Proof. revert d. induction l as [|y l IH]; intros d; cbn [app]; [done|]. by rewrite last_cons. Qed.

Lemma free_search_ok h bl al top bp pre p post w :
  heap_ok h bl al top → bl = pre ++ p :: post → base < bp →
  (∀ x, x ∈ pre ++ [p] → x.1 < bp) → (∀ x, x ∈ post → bp < x.1) →
  runs (bounded (free_search h bp (hp_freep h))) w p.1 w.
Proof.
  intros Hh Ebl Hb Hlo Hhi.
  pose proof Hh as [(_ & _ & fl & Efl) Hl Hf Hsp Hfree _ _ _].
  assert (∀ x, x ∈ bl → 0 ≤ x.2) as Hsz.
  { intros x Hx. destruct (decide (x = (base, 0))) as [->|Hne]; [done|]. apply Hfree in Hne; [lia|done]. }
  assert (∀ pre1 q mid k fuel, pre ++ [p] = pre1 ++ q :: mid →
    free_search h bp q.1 (S (length mid) + k) fuel w = Done p.1 w) as Hfrom.
  { intros pre1 q mid k fuel E.
    assert (bl = pre1 ++ (q :: mid) ++ post) as E1
      by (rewrite Ebl, app_assoc, <- E, <- app_assoc; done).
    assert (∀ x, x ∈ q :: mid → x ∈ bl) as Hin by (rewrite E1; set_solver).
    rewrite E1 in Hl, Hsp. apply links_app in Hl as [_ Hl]. apply spaced_app in Hsp as (_ & Hsp & _).
    apply spaced_app in Hsp as (Hsp & _).
    rewrite (search_low h bp q mid post); [|done| |done|done|auto].
    - f_equal. destruct (exists_last (l := q :: mid)) as (mid' & z & Ez); [done|].
      rewrite Ez, app_assoc in E. apply app_inj_tail in E as [_ <-].
      transitivity (List.last (map fst (q :: mid)) 0); [cbn [map]; by rewrite last_cons|].
      rewrite Ez, map_app. apply last_snoc.
    - intros x Hx. split; [by eapply ho_lowest; eauto|]. apply Hlo. rewrite E. set_solver. }
  assert (bl = (pre ++ [p]) ++ post) as Ebl' by (by rewrite Ebl, <- app_assoc).
  apply list_elem_of_fmap in Hf as (f & Ef & Hf). rewrite Ef.
  exists (length bl + S (length bl))%nat. intros fuel Hfuel. unfold bounded. cbn beta.
  assert (∀ k, (length bl ≤ k)%nat → free_search h bp base k fuel w = Done p.1 w) as Hbase.
  { intros k Hk. assert (∃ mid, pre ++ [p] = (base, 0) :: mid) as [mid E].
    { destruct pre as [|x pre]; cbn in *; simplify_eq; eauto. }
    rewrite Ebl', E in Hk. rewrite length_app in Hk. cbn [length] in Hk.
    replace k with (S (length mid) + (k - S (length mid)))%nat by lia.
    apply (Hfrom [] (base, 0)). done. }
  rewrite Ebl' in Hf. apply elem_of_app in Hf as [Hf|Hf].
  - apply list_elem_of_split in Hf as (pre1 & mid & E).
    assert (length mid < length bl)%nat.
    { rewrite Ebl', E, !length_app. cbn. lia. }
    replace fuel with (S (length mid) + (fuel - S (length mid)))%nat at 1 by lia. by eapply Hfrom.
  - apply list_elem_of_split in Hf as (hi1 & hi & E).
    assert (length hi < length bl)%nat.
    { rewrite Ebl, E, !length_app. cbn. rewrite length_app. cbn. lia. }
    rewrite Ebl', E, app_assoc in Hl, Hsp.
    apply links_app in Hl as [_ Hl]. apply spaced_app in Hsp as (_ & Hsp & _).
    replace fuel with (S (length hi) + (fuel - S (length hi)))%nat at 1 by lia.
    rewrite search_high; [apply Hbase; lia|done|done|set_solver|done|].
    intros x Hx. apply Hsz. set_solver.
Qed.

(** ** Joining blocks *)

Lemma split_at bl (bp : Z) :
  spaced bl → (∀ x, x ∈ bl → 0 ≤ x.2) →
  ∃ pre post, bl = pre ++ post ∧ (∀ x, x ∈ pre → x.1 < bp) ∧ (∀ x, x ∈ post → bp ≤ x.1).
Proof.
  induction bl as [|z bl IH]; intros Hsp Hsz; [exists [], []; set_solver|]. destruct Hsp as [Hz Hsp].
  destruct (decide (z.1 < bp)) as [Hlt|Hge].
  - destruct IH as (pre & post & -> & H1 & H2); [done|set_solver|].
    exists (z :: pre), post. split_and!; [done| |done]. intros x [->|Hx]%elem_of_cons; auto.
  - exists [], (z :: bl). split_and!; [done|set_solver|]. intros x [->|Hx]%elem_of_cons; [lia|].
    pose proof (Hz x Hx) as Hb. unfold below in Hb. pose proof (Hsz z ltac:(set_solver)). lia.
Qed.

Lemma ho_sizes h bl al top x : heap_ok h bl al top → x ∈ bl → 0 ≤ x.2.
Proof.
  intros [] Hx. destruct (decide (x = (base, 0))) as [->|Hne]; [done|].
  destruct (ho_free0 x Hx Hne). lia.
Qed.

(** The place of a block in use in the ring. *)
Lemma ho_place h bl al top bp s :
  heap_ok h bl al top → al !! bp = Some s →
  ∃ pre p post, bl = pre ++ p :: post ∧ (∀ x, x ∈ pre ++ [p] → x.1 + 16 * x.2 ≤ bp ∧ x.1 < bp) ∧
    (∀ x, x ∈ post → bp + 16 * s ≤ x.1).
Proof.
  intros Hh Hbp. pose proof Hh as [(Hb0 & _ & fl & Efl) _ _ Hsp Hfree Hused Hap _].
  destruct (Hused _ _ Hbp) as (_ & Hs & Hlow & _).
  destruct (split_at bl bp Hsp) as (pre & post & E & H1 & H2); [intros; by eapply ho_sizes|].
  destruct (exists_last (l := pre)) as (pre' & p & ->).
  { intros ->. cbn in E. subst post. pose proof (H2 (base, 0)) as H. cbn in H. 
    rewrite Efl in H. specialize (H ltac:(apply elem_of_cons; auto)). lia. }
  exists pre', p, post. split; [by rewrite <- app_assoc in E|].
  assert (∀ x, x ∈ bl → apart (bp, s) x ∧ 0 ≤ x.2 ∧ (x.2 = 0 → x.1 = base)) as Hx.
  { intros x Hx. split_and!; [by apply Hap|by eapply ho_sizes|]. intros H0.
    destruct (decide (x = (base, 0))) as [->|Hne]; [done|]. apply Hfree in Hne; [lia|done]. }
  split; intros x Hin; (assert (x ∈ bl) as Hxb by (rewrite E; apply elem_of_app; auto));
    destruct (Hx x Hxb) as (Ha & H0 & Hz); unfold apart in Ha; cbn in Ha.
  - specialize (H1 x Hin). lia.
  - specialize (H2 x Hin). destruct (decide (x.2 = 0)) as [H|]; [apply Hz in H; lia|lia].
Qed.

Lemma join_next_ok h bl al top bp s pre p post w :
  heap_ok h bl al top → al !! bp = Some s → bl = pre ++ p :: post →
  (∀ x, x ∈ pre ++ [p] → x.1 + 16 * x.2 ≤ bp ∧ x.1 < bp) → (∀ x, x ∈ post → bp + 16 * s ≤ x.1) →
  ∃ h1 s1 post1, runs (join_next h bp p.1) w h1 w ∧
    hp_ptr h1 !! bp = Some (first post1 base) ∧ hp_size h1 !! bp = Some s1 ∧ hp_freep h1 = hp_freep h ∧
    (∀ a, a ≠ bp → hp_ptr h1 !! a = hp_ptr h !! a ∧ hp_size h1 !! a = hp_size h !! a) ∧
    ((s1 = s ∧ post1 = post ∧ ∀ x, x ∈ post → below (bp, s) x) ∨
     (∃ y, post = y :: post1 ∧ s1 = s + y.2 ∧ y.1 = bp + 16 * s)).
Proof.
  intros Hh Hbp Ebl Hlo Hhi. pose proof Hh as [(Hb0 & Htop & _) Hl _ Hsp Hfree Hused _ _].
  destruct (Hused _ _ Hbp) as (Hsize & Hs & Hlow & Hup). rewrite Ebl in Hl.
  apply links_app in Hl as [_ (Hp & _ & Hl)]. rewrite Ebl in Hsp. apply spaced_app in Hsp as (_ & [_ Hsp] & _).
  assert (join_next (W := W) h bp p.1 ≡ (if bp + s * sizeof_Header =? first post base then
      size' ← get_size h (first post base); next' ← get_ptr h (first post base);
      mret (set_ptr bp next' (set_size bp (u32 (s + size')) h))
    else mret (set_ptr bp (first post base) h))) as E.
  { intros fuel w'. unfold join_next, get_ptr, get_size, mbind, U_bind. by rewrite Hp, Hsize. }
  unfold sizeof_Header in E. destruct (Z.eqb_spec (bp + s * 16) (first post base)) as [Hj|Hj].
  - destruct post as [|y post1]; cbn [first] in *; [lia|]. destruct Hl as (Hyp & Hys & _).
    assert (1 ≤ y.2 ∧ y.1 + 16 * y.2 ≤ top) as [Hy1 Hy2].
    { destruct (decide (y = (base, 0))) as [->|Hne]; [cbn in *; lia|].
      destruct (Hfree y) as (? & _ & ?); [rewrite Ebl; set_solver +|done|done]. }
    assert (u32 (s + y.2) = s + y.2) as Eu by (apply u32_small; unfold is_u32; lia).
    exists (set_ptr bp (first post1 base) (set_size bp (s + y.2) h)), (s + y.2), post1. split_and!.
    + eapply runs_equiv; [exact E|]. exists 0%nat. intros fuel _.
      unfold get_ptr, get_size, mbind, U_bind. rewrite Hys, Hyp. unfold mret, U_ret. by rewrite Eu.
    + cbn. by rewrite lookup_insert_eq.
    + cbn. by rewrite lookup_insert_eq.
    + done.
    + intros a Ha. cbn. by rewrite !lookup_insert_ne.
    + right. exists y. split_and!; [done|done|lia].
  - exists (set_ptr bp (first post base) h), s, post. split_and!.
    + eapply runs_equiv; [exact E|]. apply runs_ret.
    + cbn. by rewrite lookup_insert_eq.
    + done.
    + done.
    + intros a Ha. cbn. by rewrite !lookup_insert_ne.
    + left. split_and!; [done|done|]. destruct post as [|y post]; [intros x Hx; by apply elem_of_nil in Hx|]. cbn [first] in Hj.
      destruct Hsp as [Hy _]. intros x [->|Hx]%elem_of_cons; unfold below; cbn.
      * pose proof (Hhi y ltac:(set_solver +)). lia.
      * pose proof (Hhi y ltac:(set_solver +)). pose proof (Hy x Hx) as Hb. unfold below in Hb.
        pose proof (ho_sizes _ _ _ _ y Hh ltac:(rewrite Ebl; set_solver +)). lia.
Qed.

(** The header of a block in use is not that of a free one. *)
Lemma ho_used_ne h bl al top a s x :
  heap_ok h bl al top → al !! a = Some s → x ∈ bl → a ≠ x.1.
Proof.
  intros Hh Ha Hx ->. pose proof Hh as [_ _ _ _ Hfree Hused Hap _].
  destruct (Hused _ _ Ha) as (_ & ? & ? & _). pose proof (Hap _ _ _ Ha Hx) as Hax.
  unfold apart in Hax. cbn in Hax. destruct (decide (x = (base, 0))) as [->|Hne]; [cbn in *; lia|].
  destruct (Hfree x Hx Hne). lia.
Qed.

(** Headers of the ring that differ. *)
Lemma spaced_ne bl1 x bl2 y :
  spaced (bl1 ++ x :: bl2) → (∀ z, z ∈ bl1 ++ x :: bl2 → 0 ≤ z.2) → y ∈ bl1 ++ bl2 → y.1 ≠ x.1.
Proof.
  intros (_ & [Hx _] & Hb)%spaced_app Hsz [Hy|Hy]%elem_of_app.
  - pose proof (Hb y x Hy ltac:(set_solver +)) as H. unfold below in H.
    pose proof (Hsz y ltac:(set_solver +Hy)). lia.
  - pose proof (Hx y Hy) as H. unfold below in H. pose proof (Hsz x ltac:(set_solver +)). lia.
Qed.

(** The block that is freed, once it is joined to the block after it: the ring without
    that block, and what the joined block is apart from. *)
Record loose (h : heap) (pre : list block) (p : block) (post : list block) (al : gmap Z Z)
    (top bp s : Z) : Prop := {
  lo_base : 0 < base ∧ base + 16 ≤ top ≤ 2 ^ 36 ∧ ∃ fl, pre ++ p :: post = (base, 0) :: fl;
  lo_pre : links h pre p.1;
  lo_p : hp_size h !! p.1 = Some p.2;
  lo_post : links h post base;
  lo_bp : hp_ptr h !! bp = Some (first post base) ∧ hp_size h !! bp = Some s;
  lo_spaced : spaced (pre ++ p :: post);
  lo_free x : x ∈ pre ++ p :: post → x ≠ (base, 0) → 1 ≤ x.2 ∧ base + 16 ≤ x.1 ∧ x.1 + 16 * x.2 ≤ top;
  lo_block : 1 ≤ s ∧ base + 16 ≤ bp ∧ bp + 16 * s ≤ top;
  lo_below x : x ∈ pre ++ [p] → x.1 + 16 * x.2 ≤ bp;
  lo_above x : x ∈ post → below (bp, s) x;
  lo_used a t : al !! a = Some t →
    hp_size h !! a = Some t ∧ 1 ≤ t ∧ base + 16 ≤ a ∧ a + 16 * t ≤ top;
  lo_apart a t x : al !! a = Some t → x = (bp, s) ∨ x ∈ pre ++ p :: post → apart (a, t) x;
  lo_disjoint a t b u : al !! a = Some t → al !! b = Some u → a ≠ b → apart (a, t) (b, u);
}.

Lemma links_sub h bl1 x bl2 z z' : links h (bl1 ++ x :: bl2) z → x.1 = z' → links h bl1 z'.
Proof. intros [H _]%links_app <-. done. Qed.

Lemma join_next_loose h bl al top bp s pre p post w :
  heap_ok h bl al top → al !! bp = Some s → bl = pre ++ p :: post →
  (∀ x, x ∈ pre ++ [p] → x.1 + 16 * x.2 ≤ bp ∧ x.1 < bp) → (∀ x, x ∈ post → bp + 16 * s ≤ x.1) →
  ∃ h1 s1 post1, runs (join_next h bp p.1) w h1 w ∧ s ≤ s1 ∧
    loose h1 pre p post1 (delete bp al) top bp s1.
Proof.
  intros Hh Hbp Ebl Hlo Hhi.
  destruct (join_next_ok h bl al top bp s pre p post w Hh Hbp Ebl Hlo Hhi)
    as (h1 & s1 & post1 & Hrun & Hp1 & Hs1 & _ & Hsame & Hcase).
  exists h1, s1, post1. split; [done|].
  pose proof Hh as [(Hb0 & Htop & Hbase) Hl _ Hsp Hfree Hused Hap Hdis].
  destruct (Hused _ _ Hbp) as (_ & Hs & Hlow & Hup).
  assert (∀ x, x ∈ bl → hp_ptr h1 !! x.1 = hp_ptr h !! x.1 ∧ hp_size h1 !! x.1 = hp_size h !! x.1) as Hsame'.
  { intros x Hx. apply Hsame. intros E. by eapply (ho_used_ne h bl al top bp s x). }
  apply (links_ext h h1) in Hl; [|done]. clear Hsame'.
  assert (∀ x, x ∈ pre ++ p :: post1 → x ∈ bl) as Hsub.
  { intros x. rewrite Ebl. destruct Hcase as [(_ & -> & _)|(y & -> & _)]; set_solver +. }
  subst bl. assert (spaced (pre ++ p :: post1)) as Hsp1.
  { destruct Hcase as [(_ & -> & _)|(y & -> & _)]; [done|].
    apply spaced_app in Hsp as (H1 & [Hp [_ H2]] & H3). apply spaced_app. split_and!; [done| |].
    - split; [|done]. intros x Hx. apply Hp. set_solver +Hx.
    - intros x z Hx Hz. apply H3; [done|]. set_solver +Hz. }
  assert (s ≤ s1 ∧ bp + 16 * s1 ≤ top ∧ (∀ x, x ∈ post1 → below (bp, s1) x) ∧
    (∀ a t, delete bp al !! a = Some t → apart (a, t) (bp, s1))) as (Hs1' & Hup1 & Habove & Hap1).
  { destruct Hcase as [(-> & -> & Hb)|(y & -> & -> & Ey)].
    - split_and!; [done|done|done|]. intros a t (Hne & Ha)%lookup_delete_Some. by apply Hdis.
    - assert (y ∈ pre ++ p :: y :: post1) as Hy by (set_solver +).
      assert (1 ≤ y.2 ∧ y.1 + 16 * y.2 ≤ top) as [Hy1 Hy2].
      { destruct (decide (y = (base, 0))) as [->|Hne]; [cbn in *; lia|].
        destruct (Hfree y Hy Hne) as (? & _ & ?). done. }
      apply spaced_app in Hsp as (_ & [_ [Hyb _]] & _).
      split_and!; [lia|lia| |].
      + intros x Hx. pose proof (Hyb x Hx) as Hyx. unfold below in *. cbn. lia.
      + intros a t (Hne & Ha)%lookup_delete_Some. destruct (Hused _ _ Ha) as (_ & ? & _).
        pose proof (Hdis _ _ _ _ Ha Hbp ltac:(done)) as H1. pose proof (Hap _ _ _ Ha Hy) as H2.
        unfold apart in *. cbn in *. lia. }
  apply links_app in Hl as [Hpre (_ & Hp & Hpost)].
  split; [done|]. constructor.
  - split_and!; [done|lia|lia|]. destruct Hbase as [fl E]. clear -E. destruct pre as [|z pre]; cbn in *; simplify_eq; eauto.
  - done.
  - done.
  - destruct Hcase as [(_ & -> & _)|(y & -> & _)]; [done|by destruct Hpost as (_ & _ & ?)].
  - done.
  - done.
  - intros x Hx. apply Hfree. by apply Hsub.
  - split_and!; lia.
  - intros x Hx. by apply Hlo.
  - done.
  - intros a t (Hne & Ha)%lookup_delete_Some. destruct (Hsame a) as [_ ->]; [done|]. by apply Hused.
  - intros a t x Ha [->|Hx]; [by apply Hap1|]. apply lookup_delete_Some in Ha as [_ Ha].
    apply Hap; [done|by apply Hsub].
  - intros a t b u (_ & Ha)%lookup_delete_Some (_ & Hb)%lookup_delete_Some. by apply Hdis.
Qed.

Lemma loose_sizes h pre p post al top bp s x :
  loose h pre p post al top bp s → x ∈ pre ++ p :: post → 0 ≤ x.2.
Proof.
  intros [] Hx. destruct (decide (x = (base, 0))) as [->|Hne]; [done|].
  destruct (lo_free0 x Hx Hne). lia.
Qed.

(** The links of the ring around [p], after a change of the header of [p]. *)
Lemma links_around h h' pre (p p' : block) post z :
  links h pre p.1 → links h post z → spaced (pre ++ p :: post) →
  (∀ x, x ∈ pre ++ p :: post → 0 ≤ x.2) →
  (∀ a, a ≠ p.1 → hp_ptr h' !! a = hp_ptr h !! a ∧ hp_size h' !! a = hp_size h !! a) →
  p'.1 = p.1 → links h' pre p'.1 ∧ links h' post z.
Proof.
  intros H1 H2 Hsp Hsz He Hp. rewrite Hp. split; (eapply links_ext; [|done]); intros x Hx; apply He;
    apply (spaced_ne pre p post); try done; set_solver +Hx.
Qed.

(** The joined block as part of the block before it. *)
Lemma merge_prev_ok h pre p post al top bp s :
  loose h pre p post al top bp s → p.1 + 16 * p.2 = bp →
  heap_ok (set_freep p.1 (set_ptr p.1 (first post base) (set_size p.1 (p.2 + s) h)))
    (pre ++ (p.1, p.2 + s) :: post) al top.
Proof.
  intros Hlo Ep. pose proof (λ x, loose_sizes _ _ _ _ _ _ _ _ x Hlo) as Hsz.
  pose proof Hlo as []. destruct lo_base0 as (Hb0 & Htop & fl & Efl).
  set (h' := set_freep _ _).
  assert (p ≠ (base, 0)) as Hp0 by (intros ->; cbn in *; lia).
  assert (∀ a, a ≠ p.1 → hp_ptr h' !! a = hp_ptr h !! a ∧ hp_size h' !! a = hp_size h !! a) as He.
  { intros a Ha. cbn. by rewrite !lookup_insert_ne. }
  destruct (links_around h h' pre p (p.1, p.2 + s) post base) as [Hpre Hpost]; try done.
  pose proof (lo_free0 p ltac:(set_solver +) Hp0) as (Hp1 & Hp2 & Hp3).
  assert (∀ a t, al !! a = Some t → a ≠ p.1) as Hane.
  { intros a t Ha ->. destruct (lo_used0 _ _ Ha) as (_ & ? & _).
    pose proof (lo_apart0 _ _ p Ha ltac:(set_solver +)) as Hax. unfold apart in Hax. cbn in Hax. lia. }
  constructor.
  - split_and!; [done|lia|lia|]. destruct pre as [|z pre]; cbn in *; simplify_eq; eauto.
  - apply links_app. split; [done|]. split_and!; [|by cbn; rewrite lookup_insert_eq|done].
    cbn. by rewrite lookup_insert_eq.
  - cbn. rewrite map_app. set_solver +.
  - apply spaced_app in lo_spaced0 as (H1 & [_ H2] & H3). apply spaced_app. split_and!; [done| |].
    + split; [|done]. intros x Hx. pose proof (lo_above0 x Hx) as H. unfold below in *. cbn in *. lia.
    + intros x y Hx [->|Hy]%elem_of_cons; [|apply H3; set_solver +Hx Hy].
      pose proof (H3 x p Hx ltac:(set_solver +)) as H. exact H.
  - intros x [Hx|[->|Hx]%elem_of_cons]%elem_of_app; [|cbn in *; lia|]; apply lo_free0; set_solver +Hx.
  - intros a t Ha. destruct (He a ltac:(eauto)) as [_ ->]. by apply lo_used0.
  - intros a t x Ha [Hx|[->|Hx]%elem_of_cons]%elem_of_app; [apply lo_apart0; set_solver +Hx Ha| |apply lo_apart0; set_solver +Hx Ha].
    destruct (lo_used0 _ _ Ha) as (_ & ? & _).
    pose proof (lo_apart0 _ _ p Ha ltac:(set_solver +)) as H1.
    pose proof (lo_apart0 _ _ (bp, s) Ha ltac:(set_solver +)) as H2. unfold apart in *. cbn in *. lia.
  - done.
Qed.

(** The joined block after the block before it. *)
Lemma link_prev_ok h pre p post al top bp s :
  loose h pre p post al top bp s → p.1 + 16 * p.2 ≠ bp →
  heap_ok (set_freep p.1 (set_ptr p.1 bp h)) (pre ++ p :: (bp, s) :: post) al top.
Proof.
  intros Hlo Ep. pose proof (λ x, loose_sizes _ _ _ _ _ _ _ _ x Hlo) as Hsz.
  pose proof Hlo as []. destruct lo_base0 as (Hb0 & Htop & fl & Efl).
  set (h' := set_freep _ _).
  assert (∀ a, a ≠ p.1 → hp_ptr h' !! a = hp_ptr h !! a ∧ hp_size h' !! a = hp_size h !! a) as He.
  { intros a Ha. cbn. by rewrite !lookup_insert_ne. }
  destruct (links_around h h' pre p p post base) as [Hpre Hpost]; try done.
  pose proof (lo_below0 p ltac:(set_solver +)) as Hpb. pose proof (Hsz p ltac:(set_solver +)) as Hp0.
  assert (bp ≠ p.1) as Hbne by lia. destruct lo_bp0 as [Hbp Hbs].
  assert (∀ x, x ∈ pre ++ p :: post → x ∈ pre ++ p :: (bp, s) :: post) as Hin by set_solver +.
  assert (∀ x, x ∈ pre ++ p :: (bp, s) :: post → x = (bp, s) ∨ x ∈ pre ++ p :: post) as Hin' by set_solver +.
  constructor.
  - split_and!; [done|lia|lia|]. destruct pre as [|z pre]; cbn in *; simplify_eq; eauto.
  - apply links_app. split; [done|]. split_and!; [by cbn; rewrite lookup_insert_eq|done|].
    destruct (He bp Hbne) as [E1 E2]. split_and!; cbn [fst snd]; [by rewrite E1|by rewrite E2|done].
  - cbn. rewrite map_app. set_solver +.
  - apply spaced_app in lo_spaced0 as (H1 & [H2 H2'] & H3). apply spaced_app. split_and!; [done| |].
    + split; [|by split]. intros x [->|Hx]%elem_of_cons; [|by apply H2]. unfold below. cbn. lia.
    + intros x y Hx Hy. apply elem_of_cons in Hy as [->|[->|Hy]%elem_of_cons].
      * apply H3; [done|set_solver +].
      * pose proof (H3 x p Hx ltac:(set_solver +)) as H. unfold below in *. cbn. lia.
      * apply H3; [done|set_solver +Hy].
  - intros x [->|Hx]%Hin'; [by cbn|by apply lo_free0].
  - intros a t Ha. assert (a ≠ p.1) as Hap.
    { intros ->. destruct (lo_used0 _ _ Ha) as (_ & ? & ? & _).
      pose proof (lo_apart0 _ _ p Ha ltac:(set_solver +)) as Hax. unfold apart in Hax. cbn in Hax.
      destruct (decide (p = (base, 0))) as [->|Hne]; [cbn in *; lia|].
      destruct (lo_free0 p ltac:(set_solver +) Hne). lia. }
    destruct (He a Hap) as [_ ->]. by apply lo_used0.
  - intros a t x Ha Hx. by apply lo_apart0, Hin'.
  - done.
Qed.

Lemma join_prev_ok h pre p post al top bp s w :
  loose h pre p post al top bp s →
  ∃ h' bl', runs (join_prev h bp p.1) w h' w ∧ heap_ok (set_freep p.1 h') bl' al top ∧
    ∃ y, y ∈ bl' ∧ s ≤ y.2.
Proof.
  intros Hlo. pose proof Hlo as [].
  assert (join_prev (W := W) h bp p.1 ≡ (if p.1 + p.2 * sizeof_Header =? bp then
      mret (set_ptr p.1 (first post base) (set_size p.1 (u32 (p.2 + s)) h))
    else mret (set_ptr p.1 bp h))) as E.
  { intros fuel w'. unfold join_prev, get_ptr, get_size, mbind, U_bind. rewrite lo_p0.
    destruct lo_bp0 as [-> ->]. unfold mret, U_ret. by destruct (_ =? bp). }
  unfold sizeof_Header in E. destruct (Z.eqb_spec (p.1 + p.2 * 16) bp) as [Ep|Ep].
  - assert (u32 (p.2 + s) = p.2 + s) as Eu.
    { apply u32_small. pose proof (loose_sizes _ _ _ _ _ _ _ _ p Hlo ltac:(set_solver +)).
      unfold is_u32. destruct (decide (p = (base, 0))) as [->|Hne]; [cbn in *; lia|].
      destruct (lo_free0 p ltac:(set_solver +) Hne). lia. }
    eexists _, _. split; [eapply runs_equiv; [exact E|apply runs_ret]|]. rewrite Eu.
    split; [apply (merge_prev_ok h pre p post al top bp s Hlo); lia|].
    exists (p.1, p.2 + s). split; [set_solver +|].
    pose proof (loose_sizes _ _ _ _ _ _ _ _ p Hlo ltac:(set_solver +)). cbn. lia.
  - eexists _, _. split; [eapply runs_equiv; [exact E|apply runs_ret]|].
    split; [apply (link_prev_ok h pre p post al top bp s Hlo); lia|].
    exists (bp, s). split; [set_solver +|done].
Qed.

(** [free] takes a block in use into the ring. *)
Lemma free_ok h bl al top bp s w :
  heap_ok h bl al top → al !! bp = Some s →
  ∃ h' bl', runs (free (bp + sizeof_Header) h) w h' w ∧ heap_ok h' bl' (delete bp al) top ∧
    ∃ y, y ∈ bl' ∧ s ≤ y.2.
Proof.
  intros Hh Hbp. destruct (ho_place h bl al top bp s Hh Hbp) as (pre & p & post & Ebl & Hlo & Hhi).
  pose proof Hh as [_ _ _ _ _ Hused _ _]. destruct (Hused _ _ Hbp) as (_ & Hs & Hlow & _).
  destruct (join_next_loose h bl al top bp s pre p post w Hh Hbp Ebl Hlo Hhi)
    as (h1 & s1 & post1 & Hr1 & Hs1 & Hloose).
  destruct (join_prev_ok h1 pre p post1 (delete bp al) top bp s1 w Hloose) as (h2 & bl' & Hr2 & Hok & y & Hy & Hsy).
  exists (set_freep p.1 h2), bl'. split; [|split; [done|exists y; split; [done|lia]]]. unfold free.
  replace (bp + sizeof_Header - sizeof_Header) with bp by lia. cbv zeta.
  eapply runs_bind; [apply (free_search_ok h bl al top bp pre p post w Hh Ebl)|].
  - lia.
  - intros x Hx. by apply Hlo.
  - intros x Hx. pose proof (Hhi x Hx). lia.
  - cbn beta. eapply runs_bind; [exact Hr1|]. cbn beta. eapply runs_bind; [exact Hr2|]. apply runs_ret.
Qed.

(** ** Taking a block *)

(** A block of the ring that another one points to. *)
Lemma ring_next h bl al top x y :
  heap_ok h bl al top → x ∈ bl → y ∈ bl → y ≠ (base, 0) → hp_ptr h !! x.1 = Some y.1 →
  ∃ a b, bl = a ++ x :: y :: b.
Proof.
  intros Hh Hx Hy Hne Hp. pose proof Hh as [(? & _) Hl _ _ Hfree _ _ _].
  assert (hp_size h !! y.1 = Some y.2) as Hsy.
  { apply list_elem_of_split in Hy as (a & b & ->). by apply links_app in Hl as [_ (_ & ? & _)]. }
  destruct (Hfree y Hy Hne) as (_ & ? & _).
  apply list_elem_of_split in Hx as (a & b & ->). apply links_app in Hl as [_ (Hp' & _ & Hl)].
  rewrite Hp in Hp'. destruct b as [|z b]; cbn [first] in Hp'; [injection Hp'; lia|].
  injection Hp' as E. destruct Hl as (_ & Hsz & _). rewrite <- E, Hsy in Hsz. injection Hsz as E2.
  exists a, b. by rewrite (surjective_pairing y), E, E2, <- surjective_pairing.
Qed.

Lemma heap_ok_subset h bl al top h' bl' al' :
  heap_ok h bl al top → (∃ fl, bl' = (base, 0) :: fl) → links h' bl' base →
  hp_freep h' ∈ map fst bl' → spaced bl' →
  (∀ x, x ∈ bl' → x ∈ bl ∨ (∃ y, y ∈ bl ∧ y ≠ (base, 0) ∧ x.1 = y.1 ∧ 1 ≤ x.2 ≤ y.2)) →
  (∀ a s, al' !! a = Some s → hp_size h' !! a = Some s ∧ 1 ≤ s ∧ base + 16 ≤ a ∧ a + 16 * s ≤ top) →
  (∀ a s x, al' !! a = Some s → x ∈ bl' → apart (a, s) x) →
  (∀ a s b t, al' !! a = Some s → al' !! b = Some t → a ≠ b → apart (a, s) (b, t)) →
  heap_ok h' bl' al' top.
Proof.
  intros [(? & ? & _) _ _ _ Hfree _ _ _] Hb Hl Hf Hsp Hsub Hu Ha Hd. constructor; try done.
  intros x Hx Hne. destruct (Hsub x Hx) as [?|(y & Hy & Hyne & E & Hs)]; [by apply Hfree|].
  destruct (Hfree y Hy Hyne). lia.
Qed.

Section take.
Context (h : heap) (a : list block) (q y : block) (b : list block) (al : gmap Z Z) (top nunits : Z).
Context (Hh : heap_ok h (a ++ q :: y :: b) al top) (Hn : 1 ≤ nunits ≤ y.2).
Notation P := (y.1 + (y.2 - nunits) * 16).

Lemma take_not_base : y ≠ (base, 0).
Proof. intros ->. cbn in Hn. lia. Qed.

Lemma take_range : base + 16 ≤ y.1 ∧ y.1 + 16 * y.2 ≤ top.
Proof. destruct Hh. destruct (ho_free0 y); [set_solver +|apply take_not_base|lia]. Qed.

(** The new block is apart from the ring without it, and from the blocks in use. *)
Lemma take_apart_ring x : x ∈ a ++ q :: b → apart (P, nunits) x.
Proof.
  intros Hx. pose proof Hh as []. clear Hh.
  assert (0 ≤ x.2) as Hx0 by (eapply ho_sizes; [constructor; done|set_solver +Hx]).
  replace (a ++ q :: y :: b) with ((a ++ [q]) ++ y :: b) in ho_spaced0 by (by rewrite <- app_assoc).
  apply spaced_app in ho_spaced0 as (_ & [H1 _] & H2). unfold apart. cbn.
  assert (x ∈ a ++ [q] ∨ x ∈ b) as [Hxa|Hxb] by set_solver +Hx.
  - pose proof (H2 x y Hxa ltac:(set_solver +)) as H. unfold below in H. lia.
  - pose proof (H1 x Hxb) as H. unfold below in H. lia.
Qed.

Lemma take_apart_used c s : al !! c = Some s → apart (c, s) (P, nunits) ∧ c ≠ P.
Proof.
  intros Hc. destruct Hh. pose proof (ho_apart0 c s y Hc ltac:(set_solver +)) as H.
  destruct (ho_used0 c s Hc) as (_ & ? & _). unfold apart in *. cbn in *. lia.
Qed.

Lemma take_used_ok h' :
  hp_size h' !! P = Some nunits →
  (∀ c, c ≠ P → c ≠ y.1 → hp_size h' !! c = hp_size h !! c) → ∀ c s,
  <[P := nunits]> al !! c = Some s →
  hp_size h' !! c = Some s ∧ 1 ≤ s ∧ base + 16 ≤ c ∧ c + 16 * s ≤ top.
Proof.
  intros HP Hsame c s [[<- <-]|[Hne Hc]]%lookup_insert_Some.
  - pose proof take_range. split_and!; [done|lia..].
  - rewrite Hsame; [by destruct Hh; apply ho_used0|done|].
    apply (ho_used_ne _ _ _ _ _ _ y Hh Hc). set_solver +.
Qed.

Lemma take_disjoint c s d t :
  <[P := nunits]> al !! c = Some s → <[P := nunits]> al !! d = Some t → c ≠ d → apart (c, s) (d, t).
Proof.
  intros [[<- <-]|[? Hc]]%lookup_insert_Some [[<- <-]|[? Hd]]%lookup_insert_Some ?; [done| | |].
  - destruct (take_apart_used _ _ Hd) as [H1 _]. unfold apart in *. cbn in *. lia.
  - by destruct (take_apart_used _ _ Hc).
  - destruct Hh. by apply ho_disjoint0.
Qed.

(** The whole block is taken. *)
Lemma take_all_ok :
  nunits = y.2 →
  heap_ok (set_freep q.1 (set_ptr q.1 (first b base) h)) (a ++ q :: b) (<[P := nunits]> al) top.
Proof.
  intros En. pose proof Hh as [Hbase Hl _ Hsp _ _ Hap _].
  assert (P = y.1) as EP by lia.
  assert (hp_size h !! y.1 = Some y.2) as Hsy.
  { by apply links_app in Hl as [_ (_ & _ & _ & ? & _)]. }
  assert (spaced (a ++ q :: b)) as Hsp'.
  { apply spaced_app in Hsp as (H1 & [H2 [_ H2']] & H3). apply spaced_app. split_and!; [done| |].
    - split; [|done]. intros x Hx. apply H2. set_solver +Hx.
    - intros x z Hx Hz. apply H3; [done|set_solver +Hz]. }
  apply (heap_ok_subset h _ al top _ _ _ Hh).
  - destruct Hbase as (_ & _ & fl & E). clear -E. destruct a as [|z a']; cbn in *; simplify_eq; eauto.
  - apply links_app in Hl as [Hpre (_ & Hq & _ & _ & Hb)]. cbn [first] in *.
    destruct (links_around h (set_freep q.1 (set_ptr q.1 (first b base) h)) a q q b base) as [H1 H2];
      [done|done|done| |intros c Hc; cbn; by rewrite lookup_insert_ne|done|].
    { intros x Hx. eapply ho_sizes; [exact Hh|set_solver +Hx]. }
    apply links_app. split; [done|]. split_and!; [by cbn; rewrite lookup_insert_eq|done|done].
  - cbn. rewrite map_app. set_solver +.
  - done.
  - intros x Hx. left. set_solver +Hx.
  - apply take_used_ok; [cbn; by rewrite EP, Hsy, En|done].
  - intros c s x [[<- <-]|[_ Hc]]%lookup_insert_Some Hx; [by apply take_apart_ring|].
    apply Hap; [done|set_solver +Hx].
  - apply take_disjoint.
Qed.

(** The end of the block is taken. *)
Lemma take_end_ok :
  nunits < y.2 →
  heap_ok (set_freep q.1 (set_size P nunits (set_size y.1 (y.2 - nunits) h)))
    (a ++ q :: (y.1, y.2 - nunits) :: b) (<[P := nunits]> al) top.
Proof.
  intros En. pose proof Hh as [Hbase Hl _ Hsp Hfree _ Hap _]. set (h' := set_freep _ _).
  assert (∀ c, c ≠ P → c ≠ y.1 → hp_ptr h' !! c = hp_ptr h !! c ∧ hp_size h' !! c = hp_size h !! c) as He.
  { intros c H1 H2. cbn. by rewrite !lookup_insert_ne. }
  assert (∀ x, x ∈ a ++ q :: b → x.1 ≠ P ∧ x.1 ≠ y.1) as Hx1.
  { intros x Hx. split.
    - intros Ex. pose proof (take_apart_ring x Hx) as H. pose proof (ho_sizes _ _ _ _ x Hh ltac:(set_solver +Hx)).
      unfold apart in H. cbn in H. pose proof (Hap). destruct (decide (x = (base, 0))) as [->|Hne].
      + pose proof take_range. cbn in *. lia.
      + destruct (Hfree x ltac:(set_solver +Hx) Hne). lia.
    - apply (spaced_ne (a ++ [q]) y b); rewrite <- ?app_assoc; cbn [app]; [done| |set_solver +Hx].
      intros z Hz. by eapply ho_sizes. }
  apply (heap_ok_subset h _ al top _ _ _ Hh).
  - destruct Hbase as (_ & _ & fl & E). clear -E. destruct a as [|z a']; cbn in *; simplify_eq; eauto.
  - apply links_app in Hl as [Hpre (Hq & Hqs & Hy & _ & Hb)]. cbn [first] in *.
    assert (∀ l z, (∀ x, x ∈ l → x ∈ a ++ q :: b) → links h l z → links h' l z) as Hext.
    { intros l z Hsub Hlk. eapply links_ext; [|exact Hlk]. intros x Hx. by apply He; apply Hx1, Hsub. }
    destruct (Hx1 q ltac:(set_solver +)) as [Hq1 Hq2]. destruct (He _ Hq1 Hq2) as [E1 E2].
    apply links_app. split; [apply Hext; [set_solver +|done]|].
    split_and!; [by rewrite E1|by rewrite E2|].
    split_and!; [exact Hy| |apply Hext; [set_solver +|done]].
    cbn. rewrite lookup_insert_ne, lookup_insert_eq by lia. done.
  - cbn. rewrite map_app. set_solver +.
  - apply spaced_app in Hsp as (H1 & [H2 [H4 H5]] & H3). apply spaced_app. split_and!; [done| |].
    + split; [|split; [|done]].
      * intros x [->|Hx]%elem_of_cons; [exact (H2 y ltac:(set_solver +))|apply H2; set_solver +Hx].
      * intros x Hx. pose proof (H4 x Hx) as H. unfold below in *. cbn. lia.
    + intros x z Hx Hz. apply elem_of_cons in Hz as [->|[->|Hz]%elem_of_cons].
      * apply H3; [done|set_solver +].
      * exact (H3 x y Hx ltac:(set_solver +)).
      * apply H3; [done|set_solver +Hz].
  - intros x Hx. assert (x ∈ a ++ q :: y :: b ∨ x = (y.1, y.2 - nunits)) as [?| ->] by set_solver +Hx; [by left|].
    right. exists y. cbn. split_and!; [set_solver +|apply take_not_base|done|lia|lia].
  - apply take_used_ok; [cbn; by rewrite lookup_insert_eq|]. intros c H1 H2. by apply He.
  - intros c s x Hc Hx. assert (x ∈ a ++ q :: b ∨ x = (y.1, y.2 - nunits)) as [Hx'| ->] by set_solver +Hx;
      apply lookup_insert_Some in Hc as [[<- <-]|[_ Hc]].
    + by apply take_apart_ring.
    + apply Hap; [done|set_solver +Hx'].
    + unfold apart. cbn. lia.
    + pose proof (Hap _ _ y Hc ltac:(set_solver +)) as H. unfold apart in *. cbn in *. lia.
  - apply take_disjoint.
Qed.

Lemma take_block_ok w :
  ∃ h' bl', runs (take_block y.1 q.1 nunits y.2 h) w (P + sizeof_Header, h') w ∧
    heap_ok h' bl' (<[P := nunits]> al) top ∧ al !! P = None.
Proof.
  pose proof Hh as [_ Hl _ _ _ _ _ _]. apply links_app in Hl as [_ (_ & _ & Hy & _ & _)].
  assert (al !! P = None) as HP.
  { apply eq_None_not_Some. intros [s Hs]. by destruct (take_apart_used _ _ Hs). }
  unfold take_block. destruct (Z.eqb_spec y.2 nunits) as [E|E].
  - eexists _, _. split; [|split; [by apply take_all_ok|done]].
    eapply runs_bind; [exists 0%nat; intros fuel _; unfold get_ptr; rewrite Hy; reflexivity|]. cbn beta.
    replace P with y.1 by lia. apply runs_ret.
  - eexists _, _. split; [|split; [apply take_end_ok; lia|done]]. cbv zeta. apply runs_ret.
Qed.
End take.
End world.
End invariant.
