(* ===== verification/UmallocProps.v ===== *)
(** * The user allocator: theorems *)

From S2P Require Import Prelude Bytes Data User Ulib Umalloc UmallocFacts.

Local Open Scope Z_scope.

Section props.
Context {W : Type} {OS : Os W} {brk : W → Z} {G : Grows OS brk} (base : Z).
Notation heap_ok := (heap_ok base).
Notation block := (Z * Z)%type.
Implicit Types (w : W) (x y f : block) (bl vs : list block).

(** ** The search of [malloc] *)

(** The part of the loop of [malloc] that gets memory. *)
Definition more (nunits : Z) (h : heap) (k : nat) : U W (Z * heap) :=
  '(p, h) ← morecore nunits h;
  if p =? 0 then mret (0, h)
  else next ← get_ptr h p; malloc_loop nunits p next h k.

(** The blocks that the search visits after [a]. *)
Fixpoint path (h : heap) (a : Z) vs : Prop :=
  match vs with
  | [] => True
  | x :: vs' => hp_ptr h !! a = Some x.1 ∧ hp_size h !! x.1 = Some x.2 ∧ path h x.1 vs'
  end.

Lemma links_path h x bl y vs :
  links h (x :: bl) y.1 → hp_size h !! y.1 = Some y.2 → path h y.1 vs → path h x.1 (bl ++ y :: vs).
Proof.
  revert x. induction bl as [|z bl IH]; intros x (Hp & _ & Hl) Hs Hv; cbn [app path first] in *; [done|].
  split_and!; [done|by destruct Hl as (_ & ? & _)|by apply IH].
Qed.

(** The ring, from [freep] back to it. *)
Lemma ring_path h bl al top :
  heap_ok h bl al top → ∃ f vs, hp_freep h = f.1 ∧ path h f.1 (vs ++ [f]) ∧
    (∀ x, x ∈ vs → x.1 ≠ f.1) ∧ (∀ x, x ∈ vs ++ [f] ↔ x ∈ bl) ∧ length (vs ++ [f]) = length bl.
Proof.
  intros Hh. pose proof Hh as [(_ & _ & fl & Efl) Hl Hf Hsp _ _ _ _].
  apply list_elem_of_fmap in Hf as (f & Ef & Hf). apply list_elem_of_split in Hf as (pre & post & E).
  exists f, (post ++ pre). split_and!; [done| | | |].
  - rewrite E in Hl. apply links_app in Hl as [H1 H2]. destruct pre as [|z pre].
    + rewrite app_nil_r. apply links_path; [|by destruct H2 as (_ & ? & _)|done].
      cbn in E. rewrite Efl in E. injection E as <- <-. done.
    + rewrite Efl in E. injection E as <- _. rewrite <- app_assoc. cbn [app].
      apply links_path; [done|by destruct H1 as (_ & ? & _)|].
      apply links_path; [done|by destruct H2 as (_ & ? & _)|done].
  - intros x Hx. apply (spaced_ne pre f post); [by rewrite <- E| |set_solver +Hx].
    intros z Hz. eapply ho_sizes; [exact Hh|by rewrite E].
  - intros x. rewrite E. set_solver +.
  - rewrite E, !length_app. cbn. lia.
Qed.

Lemma malloc_loop_turn nunits prevp p size h k fuel w :
  hp_size h !! p = Some size →
  malloc_loop nunits prevp p h (S k) fuel w =
    (if nunits <=? size then take_block p prevp nunits size h
     else if p =? hp_freep h then more nunits h k
     else next ← get_ptr h p; malloc_loop nunits p next h k) fuel w.
Proof.
  intros Hs. cbn [malloc_loop]. unfold get_size at 1, mbind at 1, U_bind at 1. rewrite Hs. done.
Qed.

(** The search takes the first block that is large enough, or comes to [freep]. *)
Lemma malloc_walk h nunits f vs prevp x :
  hp_freep h = f.1 → hp_ptr h !! prevp = Some x.1 → hp_size h !! x.1 = Some x.2 →
  path h x.1 vs → ∀ l, x :: vs = l ++ [f] → (∀ z, z ∈ l → z.1 ≠ f.1) →
  (∃ pp y, pp ∈ prevp :: map fst (x :: vs) ∧ y ∈ x :: vs ∧ hp_ptr h !! pp = Some y.1 ∧ nunits ≤ y.2 ∧
     ∀ k fuel w, malloc_loop nunits prevp x.1 h (S (length vs) + k) fuel w =
       take_block y.1 pp nunits y.2 h fuel w) ∨
  ((∀ y, y ∈ x :: vs → y.2 < nunits) ∧
   ∀ k fuel w, malloc_loop nunits prevp x.1 h (S (length vs) + k) fuel w = more nunits h k fuel w).
Proof.
  intros Hf. revert prevp x. induction vs as [|z vs IH]; intros prevp x Hp Hs Hv l E Hl.
  - destruct l as [|? []]; cbn [app] in E; try discriminate E. injection E as ->.
    destruct (decide (nunits ≤ f.2)) as [Hn|Hn].
    + left. exists prevp, f. split_and!; [set_solver +|set_solver +|done|done|].
      intros k fuel w. cbn [Nat.add length]. rewrite (malloc_loop_turn _ _ _ _ _ _ _ _ Hs).
      by rewrite (proj2 (Z.leb_le _ _)).
    + right. split; [intros y ->%list_elem_of_singleton; lia|].
      intros k fuel w. cbn [Nat.add length]. rewrite (malloc_loop_turn _ _ _ _ _ _ _ _ Hs).
      by rewrite (proj2 (Z.leb_gt _ _)), Hf, Z.eqb_refl by lia.
  - destruct (decide (nunits ≤ x.2)) as [Hn|Hn].
    { left. exists prevp, x. split_and!; [set_solver +|set_solver +|done|done|].
      intros k fuel w. cbn [Nat.add length]. rewrite (malloc_loop_turn _ _ _ _ _ _ _ _ Hs).
      by rewrite (proj2 (Z.leb_le _ _)). }
    destruct l as [|x' l]; cbn [app] in E; [discriminate E|]. injection E as <- E.
    destruct Hv as (Hz & Hzs & Hv).
    assert (∀ k fuel w, malloc_loop nunits prevp x.1 h (S (S (length vs) + k)) fuel w =
      malloc_loop nunits x.1 z.1 h (S (length vs) + k) fuel w) as Estep.
    { intros k fuel w. rewrite (malloc_loop_turn _ _ _ _ _ _ _ _ Hs).
      rewrite (proj2 (Z.leb_gt _ _)) by lia.
      rewrite (proj2 (Z.eqb_neq x.1 _)) by (rewrite Hf; apply Hl; set_solver +).
      unfold get_ptr at 1, mbind at 1, U_bind at 1. by rewrite Hz. }
    destruct (IH x.1 z Hz Hzs Hv l) as [(pp & y & Hpp & Hy & Hpy & Hn' & Hrun)|[Hno Hrun]];
      [done|set_solver +Hl|..].
    + left. exists pp, y. split_and!; [cbn; set_solver +Hpp|set_solver +Hy|done|done|].
      intros k fuel w. etransitivity; [apply Estep|apply Hrun].
    + right. split; [intros y [->|Hy]%elem_of_cons; [lia|auto]|].
      intros k fuel w. etransitivity; [apply Estep|apply Hrun].
Qed.

Lemma malloc_scan h bl al top nunits :
  heap_ok h bl al top → 1 ≤ nunits → ∃ p0, hp_ptr h !! hp_freep h = Some p0 ∧
  ((∃ a q y b, bl = a ++ q :: y :: b ∧ nunits ≤ y.2 ∧
     ∀ k fuel w, malloc_loop nunits (hp_freep h) p0 h (length bl + k) fuel w =
       take_block y.1 q.1 nunits y.2 h fuel w) ∨
   ((∀ y, y ∈ bl → y.2 < nunits) ∧
     ∀ k fuel w, malloc_loop nunits (hp_freep h) p0 h (length bl + k) fuel w = more nunits h k fuel w)).
Proof.
  intros Hh Hn. destruct (ring_path h bl al top Hh) as (f & vs & Hf & Hp & Hne & Hin & Hlen).
  destruct (vs ++ [f]) as [|x l] eqn:E; [by destruct vs|]. destruct Hp as (Hp0 & Hs0 & Hp).
  exists x.1. rewrite Hf at 1. split; [done|]. rewrite <- Hlen. cbn [length].
  destruct (malloc_walk h nunits f l (hp_freep h) x Hf) with (l := vs)
    as [(pp & y & Hpp & Hy & Hpy & Hn' & Hrun)|[Hno Hrun]]; [by rewrite Hf|done|done|done|done|left|right].
  - assert (∃ q, q ∈ bl ∧ pp = q.1) as (q & Hq & ->).
    { apply elem_of_cons in Hpp as [->|Hpp].
      - exists f. split; [|done]. apply Hin. rewrite <- E. set_solver +.
      - apply list_elem_of_fmap in Hpp as (q & -> & Hq). exists q. split; [by apply Hin|done]. }
    apply Hin in Hy. destruct (ring_next base h bl al top q y Hh Hq Hy) as (a & b & Ebl); [|done|].
    + intros ->. cbn in Hn'. lia.
    + exists a, q, y, b. split_and!; [done|done|exact Hrun].
  - split; [|exact Hrun]. intros y Hy. apply Hno. by apply Hin.
Qed.

(** ** Getting memory *)

(** The memory that [sbrk] returned is a block in use. *)
Lemma heap_grow h bl al top n :
  heap_ok h bl al top → 1 ≤ n → top + 16 * n ≤ 2 ^ 36 →
  heap_ok (set_size top n h) bl (<[top := n]> al) (top + 16 * n) ∧ al !! top = None.
Proof.
  intros Hh Hn Htop. pose proof Hh as [(Hb & Ht & Hbase) Hl Hf Hsp Hfree Hused Hap Hdis].
  assert (∀ x, x ∈ bl → x.1 + 16 * x.2 ≤ top ∧ x.1 ≠ top) as Hin.
  { intros x Hx. destruct (decide (x = (base, 0))) as [->|Hne]; [cbn; lia|].
    destruct (Hfree x Hx Hne). lia. }
  split.
  - constructor; try done.
    + split_and!; [done|lia|done|done].
    + eapply links_ext; [|exact Hl]. intros x Hx. cbn. split; [done|].
      rewrite lookup_insert_ne; [done|]. by destruct (Hin x Hx).
    + intros x Hx Hne. destruct (Hfree x Hx Hne). lia.
    + intros a s [[<- <-]|[Hne Ha]]%lookup_insert_Some; cbn.
      * rewrite lookup_insert_eq. split_and!; [done|lia..].
      * rewrite lookup_insert_ne by done. destruct (Hused a s Ha) as (? & ? & ? & ?).
        split_and!; [done|lia..].
    + intros a s x [[<- <-]|[Hne Ha]]%lookup_insert_Some Hx; [|by apply Hap].
      right. by destruct (Hin x Hx).
    + intros a s b t [[<- <-]|[Hne Ha]]%lookup_insert_Some [[<- <-]|[Hne' Hb']]%lookup_insert_Some Hab;
        [done|right|left|by apply Hdis]; [destruct (Hused b t Hb')|destruct (Hused a s Ha)]; cbn; lia.
  - apply eq_None_not_Some. intros [s Hs]. destruct (Hused _ _ Hs). lia.
Qed.

Lemma morecore_ok h bl al nu w :
  heap_ok h bl al (brk w) → 1 ≤ nu → nu * 16 < 2 ^ 31 → ∃ w',
  (runs (morecore nu h) w (0, h) w' ∧ brk w' = brk w) ∨
  (∃ h' bl', runs (morecore nu h) w (hp_freep h', h') w' ∧ heap_ok h' bl' al (brk w') ∧
     ∃ y, y ∈ bl' ∧ nu ≤ y.2).
Proof.
  intros Hh Hnu Hov. unfold morecore. set (n := if nu <? 4096 then 4096 else nu).
  assert (1 ≤ n ∧ nu ≤ n ∧ n * 16 < 2 ^ 31) as (Hn & Hle & Hov').
  { unfold n. destruct (Z.ltb_spec nu 4096); lia. }
  unfold sizeof_Header. rewrite i32_small by (unfold is_i32; lia).
  destruct (grows_sbrk (n * 16) w) as (r & w' & Hserve & Hr); [lia|]. exists w'.
  assert (runs (sbrk (n * 16)) w (r_ret r) w') as Hsbrk.
  { exists 0%nat. intros fuel _. unfold sbrk, sys, syscall, mbind, U_bind. by rewrite Hserve. }
  destruct Hr as [[Hr Hb]|[Hr Hb]]; rewrite Hr in Hsbrk.
  - left. split; [|done]. eapply runs_bind; [exact Hsbrk|]. cbn. apply runs_ret.
  - right. pose proof (grows_bound w') as Hbound.
    destruct (heap_grow h bl al (brk w) n Hh Hn) as [Hg Hnone]; [lia|].
    destruct (free_ok base _ bl _ _ (brk w) n w' Hg) as (h' & bl' & Hfree & Hok & y & Hy & Hyn);
      [by apply lookup_insert_eq|].
    rewrite delete_insert_id in Hok by done. replace (brk w + 16 * n) with (brk w') in Hok by lia.
    exists h', bl'. split; [|split; [done|exists y; split; [done|lia]]].
    eapply runs_bind; [exact Hsbrk|]. cbn beta.
    rewrite (proj2 (Z.eqb_neq (brk w) (-1))) by (destruct Hh; lia).
    eapply runs_bind; [exact Hfree|]. apply runs_ret.
Qed.

(** ** [malloc] *)

(** The size of the block for [nbytes] bytes. *)
Definition units (nbytes : Z) : Z := (nbytes + 15) / 16 + 1.

Lemma units_room n : 0 ≤ n → n + 16 ≤ 16 * units n ≤ n + 31.
Proof. intros Hn. unfold units. pose proof (Z.div_mod (n + 15) 16). pose proof (Z.mod_pos_bound (n + 15) 16). lia. Qed.

(** The loop of [malloc], from a heap with a large enough block. *)
Lemma malloc_fit h bl al top nunits w p0 :
  heap_ok h bl al top → 1 ≤ nunits → (∃ y, y ∈ bl ∧ nunits ≤ y.2) →
  hp_ptr h !! hp_freep h = Some p0 →
  ∃ p h' bl', loops (malloc_loop nunits (hp_freep h) p0 h) w (p + sizeof_Header, h') w ∧
    heap_ok h' bl' (<[p := nunits]> al) top ∧ al !! p = None.
Proof.
  intros Hh Hn (y0 & Hy0 & Hyn) Hp0.
  destruct (malloc_scan h bl al top nunits Hh Hn) as (p1 & Hp1 & [(a & q & y & b & -> & Hy & Hrun)|[Hno _]]);
    [|specialize (Hno y0 Hy0); lia].
  rewrite Hp0 in Hp1. injection Hp1 as <-.
  destruct (take_block_ok base h a q y b al top nunits Hh ltac:(lia) w) as (h' & bl' & [n Ht] & Hok & Hnone).
  exists (y.1 + (y.2 - nunits) * 16), h', bl'. split; [|done].
  exists (length (a ++ q :: y :: b) + n)%nat. intros k fuel Hk Hf.
  replace k with (length (a ++ q :: y :: b) + (k - length (a ++ q :: y :: b)))%nat by lia.
  rewrite Hrun. apply Ht. lia.
Qed.

Lemma malloc_loop_ok h bl al nunits w p0 :
  heap_ok h bl al (brk w) → 1 ≤ nunits → nunits * 16 < 2 ^ 31 → hp_ptr h !! hp_freep h = Some p0 →
  ∃ p h' bl' w', loops (malloc_loop nunits (hp_freep h) p0 h) w (p, h') w' ∧
    ((p = 0 ∧ heap_ok h' bl' al (brk w')) ∨
     (heap_ok h' bl' (<[p - sizeof_Header := nunits]> al) (brk w') ∧ al !! (p - sizeof_Header) = None)).
Proof.
  intros Hh Hn Hov Hp0.
  destruct (malloc_scan h bl al (brk w) nunits Hh Hn) as (p1 & Hp1 & [(a & q & y & b & E & Hy & _)|[_ Hrun]]).
  - destruct (malloc_fit h bl al (brk w) nunits w p0 Hh Hn) as (p & h' & bl' & Hr & Hok & Hnone);
      [exists y; split; [rewrite E; set_solver +|done]|done|].
    exists (p + sizeof_Header), h', bl', w. split; [done|]. right.
    by replace (p + sizeof_Header - sizeof_Header) with p by lia.
  - rewrite Hp0 in Hp1. injection Hp1 as <-.
    destruct (morecore_ok h bl al nunits w Hh Hn Hov) as (w' & [[[n Hm] Hb]|(h1 & bl1 & [n1 Hm] & Hok1 & Hfit)]).
    + exists 0, h, bl, w'. split; [|left; split; [done|by rewrite Hb]].
      exists (length bl + n)%nat. intros k fuel Hk Hf.
      replace k with (length bl + (k - length bl))%nat by lia. rewrite Hrun. unfold more, mbind, U_bind.
      rewrite Hm by lia. done.
    + destruct (malloc_scan h1 bl1 al (brk w') nunits Hok1 Hn) as (p1 & Hp1 & _).
      destruct (malloc_fit h1 bl1 al (brk w') nunits w' p1 Hok1 Hn Hfit Hp1) as (p & h' & bl' & [n2 Hr] & Hok & Hnone).
      exists (p + sizeof_Header), h', bl', w'. split.
      * exists (length bl + n1 + n2)%nat. intros k fuel Hk Hf.
        replace k with (length bl + (k - length bl))%nat by lia. rewrite Hrun. unfold more, mbind, U_bind.
        rewrite Hm by lia. assert (hp_freep h1 ≠ 0) as Hne.
        { destruct Hok1 as [(? & _) _ Hf1 _ Hfree _ _ _]. apply list_elem_of_fmap in Hf1 as (f & -> & Hf1).
          destruct (decide (f = (base, 0))) as [->|Hfne]; [cbn; lia|]. destruct (Hfree f Hf1 Hfne). lia. }
        rewrite (proj2 (Z.eqb_neq _ 0)) by done. unfold get_ptr. rewrite Hp1. cbn. apply Hr; lia.
      * right. by replace (p + sizeof_Header - sizeof_Header) with p by lia.
Qed.

(** A heap that no call has used yet, or one that satisfies the invariant. *)
Definition heap_state (h : heap) (al : gmap Z Z) w : Prop :=
  (h = empty_heap ∧ al = ∅ ∧ 0 < base ∧ base + 16 ≤ brk w) ∨ ∃ bl, heap_ok h bl al (brk w).

Lemma heap_init w :
  0 < base → base + 16 ≤ brk w →
  heap_ok (set_freep base (set_ptr base base (set_size base 0 empty_heap))) [(base, 0)] ∅ (brk w).
Proof.
  intros Hb Hw. pose proof (grows_bound w). constructor; try done; cbn.
  - split_and!; [done|lia|lia|eauto].
  - split_and!; by rewrite ?lookup_insert_eq.
  - set_solver +.
  - set_solver +.
  - by intros x ->%list_elem_of_singleton.
Qed.

Lemma malloc_ok nbytes h al w :
  heap_state h al w → 0 ≤ nbytes < 2 ^ 31 - 31 →
  ∃ p h' w', runs (malloc base nbytes h) w (p, h') w' ∧
    ((p = 0 ∧ heap_state h' al w') ∨
     (p ≠ 0 ∧ heap_state h' (<[p - sizeof_Header := units nbytes]> al) w' ∧
      al !! (p - sizeof_Header) = None)).
Proof.
  intros Hh Hn. pose proof (units_room nbytes ltac:(lia)) as Hu.
  set (h0 := if hp_freep h =? 0 then set_freep base (set_ptr base base (set_size base 0 h)) else h).
  assert (∃ bl, heap_ok h0 bl al (brk w)) as [bl Hok].
  { destruct Hh as [(-> & -> & Hb & Hw)|[bl Hok]]; [exists [(base, 0)]; by apply heap_init|].
    exists bl. unfold h0. rewrite (proj2 (Z.eqb_neq _ 0)); [done|]. pose proof Hok as [(? & _) _ Hf _ _ _ _ _].
    apply list_elem_of_fmap in Hf as (f & -> & Hf). pose proof (ho_lowest base _ _ _ _ f Hok Hf). lia. }
  destruct (malloc_scan h0 bl al (brk w) (units nbytes) Hok ltac:(lia)) as (p0 & Hp0 & _).
  destruct (malloc_loop_ok h0 bl al (units nbytes) w p0 Hok) as (p & h' & bl' & w' & Hrun & Hcase);
    [lia|lia|done|].
  exists p, h', w'. split.
  - unfold malloc, sizeof_Header. replace (nbytes + 16 - 1) with (nbytes + 15) by lia. fold (units nbytes).
    rewrite u32_small by (unfold is_u32; lia). cbv zeta. fold h0.
    eapply runs_bind; [exists 0%nat; intros fuel _; unfold get_ptr; by rewrite Hp0|]. by apply runs_bounded.
  - destruct Hcase as [[-> Hok']|[Hok' Hnone]]; [left; split; [done|right; eauto]|right].
    split_and!; [|right; eauto|done]. destruct Hok' as [_ _ _ _ _ Hused _ _].
    destruct (Hused _ _ (lookup_insert_eq _ _ _)) as (_ & _ & ? & _). destruct Hok. unfold sizeof_Header in *. lia.
Qed.

(** ** A program that allocates and frees *)

Inductive client_op := Malloc (nbytes : Z) | Free (i : nat).

(** A sequence of calls: the blocks that the program has, with the sizes it asked for.
    [Free i] frees the block at index [i], if there is one. *)
Fixpoint client (ops : list client_op) (live : list block) (h : heap) : U W (list block * heap) :=
  match ops with
  | [] => mret (live, h)
  | Malloc n :: ops' =>
      '(p, h) ← malloc base n h;
      client ops' (if p =? 0 then live else (p, n) :: live) h
  | Free i :: ops' =>
      match live !! i with
      | None => client ops' live h
      | Some x => h ← free x.1 h; client ops' (delete i live) h
      end
  end.

Definition sizes_ok (ops : list client_op) : Prop :=
  Forall (λ op, match op with Malloc n => 0 ≤ n < 2 ^ 31 - 31 | Free _ => True end) ops.

(** The blocks of the program are in use. *)
Definition live_ok (live : list block) (al : gmap Z Z) : Prop :=
  NoDup (map fst live) ∧
  ∀ x, x ∈ live → 0 ≤ x.2 ∧ al !! (x.1 - sizeof_Header) = Some (units x.2).

Lemma client_ok ops live h al w :
  sizes_ok ops → heap_state h al w → live_ok live al →
  ∃ live' h' al' w', runs (client ops live h) w (live', h') w' ∧ heap_state h' al' w' ∧ live_ok live' al'.
Proof.
  intros Hops. revert live h al w. induction Hops as [|op ops Hop Hops IH]; intros live h al w Hh Hlive.
  - exists live, h, al, w. split; [apply runs_ret|done].
  - destruct op as [n|i]; cbn [client].
    + destruct (malloc_ok n h al w Hh Hop) as (p & h1 & w1 & Hrun & Hcase).
      destruct (IH (if p =? 0 then live else (p, n) :: live) h1
        (if p =? 0 then al else <[p - sizeof_Header := units n]> al) w1) as (live' & h' & al' & w' & Hr & H1 & H2).
      { destruct Hcase as [[-> ?]|(? & ? & _)]; [done|]. by rewrite (proj2 (Z.eqb_neq p 0)). }
      { destruct Hcase as [[-> ?]|(Hp & _ & Hnone)]; [done|]. rewrite (proj2 (Z.eqb_neq p 0)) by done.
        destruct Hlive as [Hnd Hal]. split.
        - cbn. constructor; [|done]. intros (x & -> & Hx)%list_elem_of_fmap.
          destruct (Hal x Hx) as [_ E]. congruence.
        - intros x [->|Hx]%elem_of_cons; cbn [fst snd]; [split; [lia|by rewrite lookup_insert_eq]|].
          destruct (Hal x Hx) as [? E]. rewrite lookup_insert_ne by congruence. done. }
      exists live', h', al', w'. split; [|done]. eapply runs_bind; [exact Hrun|exact Hr].
    + destruct (live !! i) as [x|] eqn:Ei; [|by apply IH with al].
      destruct Hlive as [Hnd Hal]. destruct (Hal x) as [_ Hx]; [by eapply list_elem_of_lookup_2|].
      destruct Hh as [(_ & -> & _)|[bl Hok]]; [done|].
      destruct (free_ok base h bl al (brk w) _ _ w Hok Hx) as (h1 & bl1 & Hrun & Hok1 & _).
      replace (x.1 - sizeof_Header + sizeof_Header) with x.1 in Hrun by lia.
      destruct (IH (delete i live) h1 (delete (x.1 - sizeof_Header) al) w) as (live' & h' & al' & w' & Hr & H1 & H2).
      { right. eauto. }
      { rewrite (delete_take_drop live i) in *.
        rewrite <- (take_drop_middle live i x Ei), map_app in Hnd. cbn in Hnd.
        apply list.NoDup_app in Hnd as (N1 & N2 & N3). apply list.NoDup_cons in N3 as [N3 N4]. split.
        - rewrite map_app. apply list.NoDup_app. split_and!; [done| |done]. intros z Hz Hz'. apply (N2 z Hz). by right.
        - intros y Hy. assert (y ∈ live) as Hyl.
          { rewrite <- (take_drop_middle live i x Ei). set_solver +Hy. }
          destruct (Hal y Hyl) as [? E]. rewrite lookup_delete_ne; [done|]. intros Exy.
          assert (y.1 = x.1) as Eyx by lia. apply elem_of_app in Hy as [Hy|Hy].
          + apply (N2 x.1); [rewrite <- Eyx; by apply list_elem_of_fmap_2|by left].
          + apply N3. rewrite <- Eyx. by apply list_elem_of_fmap_2. }
      exists live', h', al', w'. split; [|done]. eapply runs_bind; [exact Hrun|exact Hr].
Qed.

(** C26: the allocator gives out memory of the heap, and no byte twice.  Any sequence of
    [free] and of [malloc] of sizes below [2^31 - 31] finishes, without an access to memory
    that is not a header; what the program then has are blocks of the sizes it asked for,
    inside the memory that [sbrk] gave, and no two of them overlap. *)
Theorem umalloc_blocks_disjoint ops w :
  sizes_ok ops → 0 < base → base + 16 ≤ brk w →
  ∃ live h w', runs (client ops [] empty_heap) w (live, h) w' ∧
    (∀ x, x ∈ live → base + 16 ≤ x.1 ∧ x.1 + x.2 ≤ brk w') ∧
    ∀ i j x y, live !! i = Some x → live !! j = Some y → i ≠ j →
      x.1 + x.2 ≤ y.1 ∨ y.1 + y.2 ≤ x.1.
Proof.
  intros Hops Hb Hw. destruct (client_ok ops [] empty_heap ∅ w Hops) as (live & h & al & w' & Hrun & Hh & Hl).
  - by left.
  - split; [constructor|]. set_solver +.
  - exists live, h, w'. split; [done|]. destruct Hl as [Hnd Hal].
    destruct Hh as [(_ & -> & _)|[bl []]].
    { split; [intros x Hx; by destruct (Hal x Hx)|]. intros i j x y Hx%list_elem_of_lookup_2. by destruct (Hal x Hx). }
    split.
    + intros x Hx. destruct (Hal x Hx) as [H0 E]. destruct (ho_used _ _ E) as (_ & _ & H1 & H2).
      pose proof (units_room x.2 H0). unfold sizeof_Header in *. lia.
    + intros i j x y Hx Hy Hij.
      destruct (Hal x) as [Hx0 Ex]; [by eapply list_elem_of_lookup_2|].
      destruct (Hal y) as [Hy0 Ey]; [by eapply list_elem_of_lookup_2|].
      assert (x.1 ≠ y.1) as Hne.
      { intros E. apply Hij. eapply (NoDup_lookup (map fst live)); [done|by rewrite list_lookup_fmap, Hx|].
        rewrite list_lookup_fmap, Hy. cbn. by rewrite E. }
      destruct (ho_disjoint _ _ _ _ Ex Ey ltac:(lia)) as [H|H]; cbn in H;
        pose proof (units_room x.2 Hx0); pose proof (units_room y.2 Hy0); lia.
Qed.

(** ** A size that is too large *)

Lemma runs_get_ptr h a v w : hp_ptr h !! a = Some v → runs (get_ptr h a) w v w.
Proof. intros E. exists 0%nat. intros fuel _. unfold get_ptr. by rewrite E. Qed.
Lemma runs_get_size h a v w : hp_size h !! a = Some v → runs (get_size h a) w v w.
Proof. intros E. exists 0%nat. intros fuel _. unfold get_size. by rewrite E. Qed.

(** C38: sizes close to the largest [uint] overflow.  Asked for [2^32 - 1] bytes, [malloc]
    computes the argument of [sbrk] modulo [2^32] and gets 16 bytes, which hold
    the header; the pointer it returns is not null, and is the end of the memory
    of the process. *)
Theorem malloc_size_overflow w r w' :
  0 < base → base + 16 ≤ brk w →
  serve (SysSbrk 16) w = Some (r, w') → r_ret r = brk w → brk w' = brk w + 16 →
  ∃ h, runs (malloc base (2 ^ 32 - 1) empty_heap) w (brk w', h) w'.
Proof.
  intros Hb Hw Hserve Hr Hw'. set (n := 2 ^ 28 + 1). set (bp := brk w) in *.
  set (h0 := set_freep base (set_ptr base base (set_size base 0 empty_heap))).
  set (h1 := set_ptr bp base (set_size bp n h0)).
  set (h2 := set_freep base (set_ptr base bp h1)).
  assert (base ≠ bp) as Hne by lia.
  assert (runs (morecore n h0) w (base, h2) w') as Hmore.
  { unfold morecore. change (n <? 4096) with false. cbv zeta. cbn iota.
    change (i32 (n * sizeof_Header)) with 16.
    eapply runs_bind; [exists 0%nat; intros fuel _; unfold sbrk, sys, syscall, mbind, U_bind;
      by rewrite Hserve|]. cbn beta. rewrite Hr, (proj2 (Z.eqb_neq bp (-1))) by lia.
    eapply runs_bind; [|apply (runs_ret (hp_freep h2, h2))]. unfold free.
    replace (bp + sizeof_Header - sizeof_Header) with bp by lia. cbv zeta.
    eapply runs_bind; [apply runs_bounded, loops_turn; exists 0%nat; intros k fuel _ _|].
    { rewrite (free_search_turn _ _ base base) by (cbn; by rewrite lookup_insert_eq).
      rewrite (proj2 (Z.ltb_lt base bp)), (proj2 (Z.ltb_ge bp base)), (proj2 (Z.leb_le base base)) by lia.
      reflexivity. }
    cbn beta. eapply runs_bind.
    { unfold join_next. eapply runs_bind; [apply runs_get_ptr; cbn; by rewrite lookup_insert_eq|]. cbn beta.
      eapply runs_bind; [apply runs_get_size; cbn; by rewrite lookup_insert_eq|]. cbn beta.
      rewrite (proj2 (Z.eqb_neq (bp + n * sizeof_Header) base)) by (unfold sizeof_Header, n; lia).
      apply (runs_ret h1). }
    cbn beta. eapply runs_bind; [|apply (runs_ret h2)]. unfold join_prev.
    eapply runs_bind; [apply (runs_get_size _ _ 0); cbn; by rewrite lookup_insert_ne, lookup_insert_eq|].
    cbn beta. rewrite (proj2 (Z.eqb_neq (base + 0 * sizeof_Header) bp)) by lia. apply runs_ret. }
  destruct Hmore as [m Hmore]. exists (set_freep base (set_ptr base base h2)).
  unfold malloc. change (u32 ((2 ^ 32 - 1 + sizeof_Header - 1) / sizeof_Header + 1)) with n.
  change (hp_freep empty_heap =? 0) with true. cbv zeta. cbn iota. fold h0.
  eapply runs_bind; [apply (runs_get_ptr _ _ base); cbn; by rewrite lookup_insert_eq|]. cbn beta.
  apply runs_bounded. exists (S (S m)). intros [|[|k]] fuel Hk Hf; [lia..|].
  rewrite (malloc_loop_turn _ _ _ 0) by (cbn; by rewrite lookup_insert_eq).
  change (n <=? 0) with false. change (hp_freep h0) with base. rewrite Z.eqb_refl. cbn iota.
  unfold more, mbind, U_bind. rewrite Hmore by lia. rewrite (proj2 (Z.eqb_neq base 0)) by lia.
  unfold get_ptr. rewrite (lookup_insert_eq (hp_ptr h1) base bp : hp_ptr h2 !! base = Some bp).
  cbn [mret U_ret]. unfold mret, U_ret.
  rewrite (malloc_loop_turn _ _ _ n) by (cbn; by rewrite lookup_insert_eq).
  rewrite Z.leb_refl. unfold take_block. rewrite Z.eqb_refl. unfold mbind, U_bind, get_ptr.
  assert (hp_ptr h2 !! bp = Some base) as -> by (cbn; by rewrite lookup_insert_ne, lookup_insert_eq).
  unfold mret, U_ret. by rewrite Hw'.
Qed.
End props.

(** ** Examples *)

(** A process that can grow up to a limit. *)
Record growing := mkGrowing { gr_brk : Z; gr_limit : Z }.

#[local] Instance growing_os : Os growing := λ c w,
  match c with
  | SysSbrk n =>
      if gr_brk w + n <=? Z.min (gr_limit w) (2 ^ 36)
      then Some (mkReply (gr_brk w) [], mkGrowing (gr_brk w + n) (gr_limit w))
      else Some (mkReply (-1) [], w)
  | _ => None
  end.

Definition grown (w : growing) : Z := Z.min (gr_brk w) (2 ^ 36).

#[local] Instance growing_grows : Grows growing_os grown.
Proof.
  split; [|intros w; unfold grown; lia]. intros n w Hn. unfold serve, growing_os.
  destruct (Z.leb_spec (gr_brk w + n) (Z.min (gr_limit w) (2 ^ 36))); eexists _, _; (split; [done|]).
  - right. unfold grown. cbn. lia.
  - by left.
Qed.

Lemma umalloc_blocks_disjoint_witness :
  ∃ live h w', runs (client 0x2000 [Malloc 100; Malloc 70000; Free 0; Malloc 20] [] empty_heap)
    (mkGrowing 0x5000 0x100000) (live, h) w' ∧ ∀ i j x y, live !! i = Some x → live !! j = Some y → i ≠ j →
      x.1 + x.2 ≤ y.1 ∨ y.1 + y.2 ≤ x.1.
Proof.
  destruct (umalloc_blocks_disjoint 0x2000 [Malloc 100; Malloc 70000; Free 0; Malloc 20]
    (mkGrowing 0x5000 0x100000)) as (live & h & w' & H1 & _ & H2).
  - repeat constructor; lia.
  - lia.
  - by vm_compute.
  - by exists live, h, w'.
Defined.

Lemma malloc_size_overflow_witness :
  ∃ h, runs (malloc 0x2000 (2 ^ 32 - 1) empty_heap) (mkGrowing 0x5000 0x100000) (0x5010, h)
    (mkGrowing 0x5010 0x100000).
Proof.
  apply (malloc_size_overflow (brk := grown) 0x2000 (mkGrowing 0x5000 0x100000) (mkReply 0x5000 [])
    (mkGrowing 0x5010 0x100000)).
  - lia.
  - by vm_compute.
  - reflexivity.
  - reflexivity.
  - reflexivity.
Defined.
