(* ===== verification/TestProps.v ===== *)
(** * The test suite on a system where nothing works *)

From S2P Require Import Prelude Bytes Data User Ulib UserFacts Umalloc Sched Monitor MlfqTest.

Local Open Scope Z_scope.

(** Text that is written to descriptor 1 on the way. *)
Definition prints {A} (m : U stream A) (w : stream) (a : A) : Prop := ∃ t, runs m w a (wrote w t).

Lemma prints_ret {A} (a : A) w : prints (mret a) w a.
Proof. exists []. rewrite stream_wrote_nil. apply runs_ret. Qed.

Lemma prints_bind {A B} (m : U stream A) (f : A → U stream B) w a b :
  prints m w a → (∀ w, prints (f a) w b) → prints (m ≫= f) w b.
Proof.
  intros [t Ht] Hf. destruct (Hf (wrote w t)) as [t' Ht']. exists (t ++ t').
  rewrite <-stream_wrote_app. by eapply runs_bind.
Qed.

Lemma prints_printf w fmt ap : printable fmt ap = true → prints (printf fmt ap) w tt.
Proof. intros (t & Ht & Hb)%printable_text. exists t. by apply runs_printf. Qed.

Lemma exits_prints {A B} (m : U stream A) (f : A → U stream B) w a st :
  prints m w a → (∀ w, ∃ t, exits (f a) w st (wrote w t)) → ∃ t, exits (m ≫= f) w st (wrote w t).
Proof.
  intros [t Ht] Hf. destruct (Hf (wrote w t)) as [t' Ht']. exists (t ++ t').
  rewrite <-stream_wrote_app. by eapply exits_bind.
Qed.

(** A call that fails. *)
Lemma prints_sys c w : serve c w = Some (mkReply (-1) [], w) → prints (sys c) w (-1).
Proof. intros H. exists []. rewrite stream_wrote_nil. exists 0%nat. intros fuel _.
  unfold sys, syscall, mbind, U_bind. by rewrite H. Qed.

(** The heap of an allocator that has no memory. *)
Definition no_memory (base : Z) : heap := mkHeap {[base := base]} {[base := 0]} base.

Lemma prints_malloc base h n w :
  0 < n < 2 ^ 31 → h = empty_heap ∨ h = no_memory base → prints (malloc base n h) w (0, no_memory base).
Proof.
  intros Hn Hh. exists []. rewrite stream_wrote_nil. unfold malloc.
  set (h0 := if hp_freep h =? 0 then _ else h).
  assert (h0 = no_memory base) as ->.
  { subst h0. destruct Hh as [-> | ->]; [done|]. cbn [hp_freep no_memory]. destruct (base =? 0); [|done].
    unfold no_memory, set_freep, set_ptr, set_size. cbn [hp_ptr hp_size hp_freep]. by rewrite !insert_singleton_eq. }
  set (nunits := u32 _). assert (1 ≤ nunits) as Hu.
  { subst nunits. unfold sizeof_Header. pose proof (Z.div_pos (n + 16 - 1) 16).
    pose proof (Z.div_le_upper_bound (n + 16 - 1) 16 (2 ^ 31)). rewrite u32_small; unfold is_u32; lia. }
  clearbody nunits. eapply (runs_bind _ _ _ base).
  { exists 0%nat. intros fuel _. unfold get_ptr, no_memory. cbn [hp_ptr hp_freep]. by rewrite lookup_singleton_eq. }
  exists 1%nat. intros [|fuel] Hf; [lia|]. unfold bounded. cbn [malloc_loop].
  unfold mbind, U_bind, get_size. cbn [hp_size no_memory]. rewrite lookup_singleton_eq. cbn [mret U_ret].
  rewrite (proj2 (Z.leb_gt nunits 0)) by lia. cbn [hp_freep no_memory]. by rewrite Z.eqb_refl.
Qed.

Ltac prints_step :=
  match goal with
  | |- prints (mret _) _ _ => apply prints_ret
  | |- prints (printf _ _) _ _ => apply prints_printf; first [done | vm_compute; reflexivity]
  | |- prints (_ ≫= _) _ _ => eapply prints_bind; [|intros ?w]
  | |- prints fork _ _ => by apply prints_sys
  | |- prints wait _ _ => by apply prints_sys
  | |- prints uptime _ _ => by apply prints_sys
  end.

Lemma prints_header name w :
  printable (line "  Test: %s") [VStr (Some name)] = true → prints (test_header name) w tt.
Proof. intros H. unfold test_header. repeat prints_step. Qed.

(** One more test, that passed. *)
Definition one_passed (t : tests) : tests :=
  mkTests (i32 (t_total t + 1)) (i32 (t_passed t + 1)) (t_failed t).

Lemma prints_passed name reason t w :
  printable (line "  [PASS] %s") [VStr (Some name)] = true →
  prints (test_result name 1 reason t) w (one_passed t).
Proof. intros H. unfold test_result. cbn [Z.eqb negb]. repeat prints_step. Qed.

Section nothing_works.
Context (base : Z).
Implicit Types (t : tests) (w : stream).

(** A failure to allocate memory, or to start a process, is a test that passed. *)
Lemma prints_test_syscall t w :
  prints (test_syscall base t empty_heap) w (TEST_FAILED, one_passed t, no_memory base).
Proof.
  unfold test_syscall. eapply prints_bind; [by apply prints_header|intros ?].
  eapply prints_bind; [by apply prints_malloc; [|left]|intros ?]. cbn [Z.eqb].
  eapply prints_bind; [by apply prints_passed|intros ?]. prints_step.
Qed.

Lemma prints_test_demotion t h w :
  prints (test_priority_demotion base t h) w (TEST_FAILED, one_passed t, h).
Proof.
  unfold test_priority_demotion. eapply prints_bind; [by apply prints_header|intros ?].
  prints_step; [prints_step|]. cbn [Z.ltb Z.compare].
  eapply prints_bind; [by apply prints_passed|intros ?]. prints_step.
Qed.

Lemma prints_test_preservation t h w :
  prints (test_priority_preservation base t h) w (TEST_FAILED, one_passed t, h).
Proof.
  unfold test_priority_preservation. eapply prints_bind; [by apply prints_header|intros ?].
  prints_step; [prints_step|]. cbn [Z.ltb Z.compare].
  eapply prints_bind; [by apply prints_passed|intros ?]. prints_step.
Qed.

(** The pid of a child that was not started is what [wait] returns without children. *)
Lemma prints_test_fairness t h w :
  prints (test_mixed_fairness t h) w (TEST_PASSED, one_passed t, h).
Proof.
  unfold test_mixed_fairness. eapply prints_bind; [by apply prints_header|intros ?].
  prints_step; [prints_step|]. cbn [Z.eqb]. prints_step; [prints_step|]. cbn [Z.eqb].
  prints_step; [prints_step|]. eapply (prints_bind _ _ _ (-1)); [|intros ?].
  { cbn [wait_both]. repeat (prints_step; [prints_step|]; cbn [Z.ltb Z.compare]). prints_step. }
  cbn [Z.eqb Pos.eqb]. unfold test_cond. eapply prints_bind; [by apply prints_passed|intros ?]. prints_step.
Qed.

Lemma prints_test_distribution t w :
  prints (test_queue_distribution base t (no_memory base)) w (TEST_FAILED, one_passed t, no_memory base).
Proof.
  unfold test_queue_distribution. eapply prints_bind; [by apply prints_header|intros ?].
  eapply prints_bind; [by apply prints_malloc; [|right]|intros ?]. cbn [Z.eqb].
  eapply prints_bind; [by apply prints_passed|intros ?]. prints_step.
Qed.

Lemma prints_tests w : prints (run_tests base) w (mkTests 5 5 0).
Proof.
  unfold run_tests. eapply prints_bind; [apply prints_test_syscall|intros ?].
  eapply prints_bind; [apply prints_test_demotion|intros ?].
  eapply prints_bind; [apply prints_test_preservation|intros ?].
  eapply prints_bind; [apply prints_test_fairness|intros ?].
  eapply prints_bind; [apply prints_test_distribution|intros ?]. apply prints_ret.
Qed.

(** C40: On a system where no process can be started, no memory can be allocated and
    [getpstat] fails, the test suite runs to its end, counts five tests, all of them
    passed, and exits with status 0: the calls that report a failed [malloc] or [fork]
    hand [TEST_FAILED], which is 1, to [test_result], which takes it for true. *)
Theorem suite_passes_without_processes w :
  prints (run_tests base) w (mkTests 5 5 0) ∧
  ∃ text, exits (mlfq_test_main base) w 0 (wrote w text).
Proof.
  split; [apply prints_tests|].
  assert (∀ w, prints (print_summary (mkTests 5 5 0)) w tt) as Hs.
  { intros w'. unfold print_summary. cbn [t_failed Z.eqb]. repeat prints_step. }
  unfold mlfq_test_main.
  do 6 (eapply exits_prints; [prints_step|intros ?]).
  eapply exits_prints; [apply prints_tests|intros ?].
  eapply exits_prints; [apply Hs|intros ?]. exists []. rewrite stream_wrote_nil. apply exits_exit.
Qed.
End nothing_works.
