(* ===== verification/ShGrammar.v ===== *)
(** * The shell: tokens and the grammar

    A reference lexer, the grammar of command lines as an inductive relation, and a
    parser of lists of tokens that decides it. *)

From S2P Require Import Prelude Bytes Data User Ulib UserFacts Sh.

Local Open Scope Z_scope.

(** ** Tokens *)

(** A word, or one of the symbols; [+] stands for [>>]. *)
Inductive tok := TWord (s : list Z) | TSym (c : Z).

Definition flush (w : list Z) : list tok := match w with [] => [] | _ => [TWord w] end.

(** The tokens of a line, after the characters [w] of a word. *)
Fixpoint tokens_from (w l : list Z) : list tok :=
  match l with
  | [] => flush w
  | c :: l' =>
      if is_in whitespace c then flush w ++ tokens_from [] l'
      else if c =? chr ">" then
        flush w ++
        match l' with
        | d :: l'' =>
            if d =? chr ">" then TSym (chr "+") :: tokens_from [] l''
            else TSym (chr ">") :: tokens_from [] l'
        | [] => [TSym (chr ">")]
        end
      else if is_in symbols c then flush w ++ TSym c :: tokens_from [] l'
      else tokens_from (w ++ [c]) l'
  end.

Definition tokenize (l : list Z) : list tok := tokens_from [] l.

Definition word_char (c : Z) : bool := negb (is_in whitespace c) && negb (is_in symbols c).

Lemma tokens_white l l' : Forall (is_in whitespace) l → tokenize (l ++ l') = tokenize l'.
Proof.
  unfold tokenize. induction 1 as [|c l Hc Hl IH]; [done|]. cbn [app tokens_from].
  apply Is_true_true in Hc. by rewrite Hc.
Qed.

Lemma is_in_gt : is_in symbols (chr ">") = true.
Proof. done. Qed.

Lemma tokens_word w l l' :
  Forall word_char l → tokens_from w (l ++ l') = tokens_from (w ++ l) l'.
Proof.
  intros Hl. revert w. induction Hl as [|c l Hc Hl IH]; intros w; cbn [app]; [by rewrite app_nil_r|].
  cbn [tokens_from]. apply Is_true_true, andb_prop in Hc as [H1%negb_true_iff H2%negb_true_iff].
  rewrite H1, H2. destruct (Z.eqb_spec c (chr ">")) as [->|_]; [by rewrite is_in_gt in H2|].
  rewrite IH. by rewrite <-app_assoc.
Qed.

(** A word ends where no character of a word follows. *)
Definition ends_word (l : list Z) : Prop := match l with [] => True | c :: _ => word_char c = false end.

Lemma tokens_flush w l : w ≠ [] → ends_word l → tokens_from w l = TWord w :: tokenize l.
Proof.
  intros Hw Hl. assert (flush w = [TWord w]) as E by (by destruct w). unfold tokenize.
  destruct l as [|c l]; cbn [tokens_from flush]; [done|]. cbn in Hl. unfold word_char in Hl. rewrite E.
  destruct (is_in whitespace c); [done|]. destruct (c =? chr ">"); [done|].
  destruct (is_in symbols c); [done|]. done.
Qed.

Lemma tokenize_word w l :
  w ≠ [] → Forall word_char w → ends_word l → tokenize (w ++ l) = TWord w :: tokenize l.
Proof. intros Hw Hc Hl. unfold tokenize. rewrite tokens_word by done. by apply tokens_flush. Qed.

(** ** The grammar *)

(** Commands with the text of their words. *)
Inductive scmd :=
  | SExec (args : list (list Z))
  | SRedir (c : scmd) (file : list Z) (mode fd : Z)
  | SPipe (left right : scmd)
  | SList (left right : scmd)
  | SBack (c : scmd).

(** The mode and the descriptor of a redirection. *)
Definition redir_mode (op : Z) : option (Z * Z) :=
  if op =? chr "<" then Some (O_RDONLY, 0)
  else if op =? chr ">" then Some (Z.lor (Z.lor O_WRONLY O_CREATE) O_TRUNC, 1)
  else if op =? chr "+" then Some (Z.lor O_WRONLY O_CREATE, 1)
  else None.

Definition sredirect (c : scmd) (rs : list (list Z * Z * Z)) : scmd :=
  foldl (λ c '(f, m, d), SRedir c f m d) c rs.

Inductive Redirs : list (list Z * Z * Z) → list tok → Prop :=
  | Redirs_nil : Redirs [] []
  | Redirs_cons op f m d rs toks :
      redir_mode op = Some (m, d) → Redirs rs toks →
      Redirs ((f, m, d) :: rs) (TSym op :: TWord f :: toks).

(** Words and redirections in any order. *)
Inductive Items : list (list Z) → list (list Z * Z * Z) → list tok → Prop :=
  | Items_nil : Items [] [] []
  | Items_word s args rs toks : Items args rs toks → Items (s :: args) rs (TWord s :: toks)
  | Items_redir op f m d args rs toks :
      redir_mode op = Some (m, d) → Items args rs toks →
      Items args ((f, m, d) :: rs) (TSym op :: TWord f :: toks).

Definition amps (n : nat) : list tok := replicate n (TSym (chr "&")).
Definition backs (n : nat) (c : scmd) : scmd := Nat.iter n SBack c.

Inductive Line : scmd → list tok → Prop :=
  | Line_one c n toks : Pipe c toks → Line (backs n c) (toks ++ amps n)
  | Line_seq c n r toks toks' :
      Pipe c toks → Line r toks' →
      Line (SList (backs n c) r) (toks ++ amps n ++ TSym (chr ";") :: toks')
with Pipe : scmd → list tok → Prop :=
  | Pipe_one c toks : Prim c toks → Pipe c toks
  | Pipe_more c r toks toks' :
      Prim c toks → Pipe r toks' → Pipe (SPipe c r) (toks ++ TSym (chr "|") :: toks')
with Prim : scmd → list tok → Prop :=
  | Prim_exec args rs toks :
      Items args rs toks → (length args < MAXARGS)%nat → Prim (sredirect (SExec args) rs) toks
  | Prim_block c rs toks toks' :
      Line c toks → Redirs rs toks' →
      Prim (sredirect c rs) (TSym (chr "(") :: toks ++ TSym (chr ")") :: toks').

Scheme Line_mut := Induction for Line Sort Prop
  with Pipe_mut := Induction for Pipe Sort Prop
  with Prim_mut := Induction for Prim Sort Prop.
Combined Scheme grammar_ind from Line_mut, Pipe_mut, Prim_mut.

(** ** A parser of tokens *)

(** The next token is one of the symbols [set]. *)
Definition starts (set : list Z) (toks : list tok) : bool :=
  match toks with
  | TSym c :: _ => is_in set (if c =? chr "+" then chr ">" else c)
  | _ => false
  end.

Fixpoint predirs (toks : list tok) : option (list (list Z * Z * Z) * list tok) :=
  match toks with
  | TSym op :: toks' =>
      match redir_mode op with
      | Some (m, d) =>
          match toks' with
          | TWord f :: toks'' => '(rs, rest) ← predirs toks''; Some ((f, m, d) :: rs, rest)
          | _ => None
          end
      | None => Some ([], toks)
      end
  | _ => Some ([], toks)
  end.

Fixpoint pargs (n : nat) (toks : list tok)
    : option (list (list Z) * list (list Z * Z * Z) * list tok) :=
  match n with
  | O => None
  | S n' =>
      if starts (bytes "|)&;") toks then Some ([], [], toks) else
      match toks with
      | [] => Some ([], [], [])
      | TWord s :: toks' =>
          '(rs, toks') ← predirs toks';
          '(args, rs', rest) ← pargs n' toks';
          Some (s :: args, rs ++ rs', rest)
      | _ => None
      end
  end.

Fixpoint pback (toks : list tok) : nat * list tok :=
  match toks with
  | TSym c :: toks' => if c =? chr "&" then let '(n, rest) := pback toks' in (S n, rest) else (O, toks)
  | _ => (O, toks)
  end.

Fixpoint pline (fuel : nat) (toks : list tok) : option (scmd * list tok) :=
  match fuel with
  | O => None
  | S fuel' =>
      '(c, toks) ← ppipe fuel' toks;
      let '(n, toks) := pback toks in
      if starts (bytes ";") toks then
        '(r, rest) ← pline fuel' (tail toks); Some (SList (backs n c) r, rest)
      else Some (backs n c, toks)
  end
with ppipe (fuel : nat) (toks : list tok) : option (scmd * list tok) :=
  match fuel with
  | O => None
  | S fuel' =>
      '(c, toks) ← pprim fuel' toks;
      if starts (bytes "|") toks then
        '(r, rest) ← ppipe fuel' (tail toks); Some (SPipe c r, rest)
      else Some (c, toks)
  end
with pprim (fuel : nat) (toks : list tok) : option (scmd * list tok) :=
  match fuel with
  | O => None
  | S fuel' =>
      if starts (bytes "(") toks then pblock fuel' toks else
      '(rs, toks) ← predirs toks;
      '(args, rs', rest) ← pargs MAXARGS toks;
      Some (sredirect (SExec args) (rs ++ rs'), rest)
  end
with pblock (fuel : nat) (toks : list tok) : option (scmd * list tok) :=
  match fuel with
  | O => None
  | S fuel' =>
      '(c, toks) ← pline fuel' (tail toks);
      if negb (starts (bytes ")") toks) then None else
      '(rs, rest) ← predirs (tail toks);
      Some (sredirect c rs, rest)
  end.

(** ** The parser of tokens decides the grammar *)

Lemma predirs_sound toks rs rest :
  predirs toks = Some (rs, rest) → ∃ used, toks = used ++ rest ∧ Redirs rs used.
Proof.
  revert toks rs rest. fix IH 1. intros [|[s|op] toks] rs rest; cbn [predirs].
  1, 2: intros [= <- <-]; exists []; by split; [|constructor].
  destruct (redir_mode op) as [[m d]|] eqn:Em; [|intros [= <- <-]; exists []; by split; [|constructor]].
  destruct toks as [|[f|c] toks]; [done| |done]. intros ([rs1 toks1] & H & [= <- <-])%bind_Some.
  apply IH in H as (used & -> & H). exists (TSym op :: TWord f :: used). by split; [|constructor].
Qed.

Lemma Items_redirs rs0 used0 args rs toks :
  Redirs rs0 used0 → Items args rs toks → Items args (rs0 ++ rs) (used0 ++ toks).
Proof. intros H0 H. induction H0; cbn [app]; [done|by constructor]. Qed.

Lemma pargs_sound n toks args rs rest :
  pargs n toks = Some (args, rs, rest) →
  ∃ used, toks = used ++ rest ∧ Items args rs used ∧ (length args < n)%nat.
Proof.
  revert toks args rs. induction n as [|n IH]; intros toks args rs; cbn [pargs]; [done|].
  destruct (starts _ toks).
  { intros [= <- <- <-]. exists []. repeat split; [constructor|cbn; lia]. }
  destruct toks as [|[s|c] toks]; [|intros ([rs0 toks0] & H0 & H)%bind_Some|done].
  { intros [= <- <- <-]. exists []. repeat split; [constructor|cbn; lia]. }
  apply bind_Some in H as ([[args1 rs1] rest1] & H & [= <- <- <-]).
  apply predirs_sound in H0 as (used0 & -> & H0). apply IH in H as (used & -> & H & Hl).
  exists (TWord s :: used0 ++ used). split; [cbn; by rewrite app_assoc|].
  split; [by constructor; apply Items_redirs|cbn; lia].
Qed.

Lemma pback_sound toks n rest : pback toks = (n, rest) → toks = amps n ++ rest.
Proof.
  revert n. induction toks as [|[s|c] toks IH]; intros n; cbn [pback]; [by intros [= <- <-]..|].
  destruct (Z.eqb_spec c (chr "&")) as [->|_]; [|by intros [= <- <-]].
  destruct (pback toks) as [n' rest'] eqn:E. intros [= <- <-]. cbn. f_equal. by apply IH.
Qed.

(** The next token is the one symbol. *)
Lemma starts_one x c toks :
  x ≠ 0 → x ≠ chr ">" → x ≠ chr "+" → starts [x] (TSym c :: toks) = (c =? x).
Proof.
  intros H0 H1 H2. cbn [starts]. unfold is_in. cbn [strchr]. rewrite (proj2 (Z.eqb_neq x 0)) by done.
  destruct (Z.eqb_spec c (chr "+")) as [->|_].
  - rewrite (proj2 (Z.eqb_neq x _)), (proj2 (Z.eqb_neq (chr "+") x)) by done. done.
  - rewrite (Z.eqb_sym c). by destruct (x =? c).
Qed.

Lemma starts_true x toks :
  x ≠ 0 → x ≠ chr ">" → x ≠ chr "+" → starts [x] toks = true → toks = TSym x :: tail toks.
Proof.
  intros H0 H1 H2. destruct toks as [|[s|c] toks]; [done..|]. rewrite starts_one by done.
  by intros ->%Z.eqb_eq.
Qed.

Lemma parser_sound fuel :
  (∀ toks c rest, pline fuel toks = Some (c, rest) → ∃ used, toks = used ++ rest ∧ Line c used) ∧
  (∀ toks c rest, ppipe fuel toks = Some (c, rest) → ∃ used, toks = used ++ rest ∧ Pipe c used) ∧
  (∀ toks c rest, pprim fuel toks = Some (c, rest) → ∃ used, toks = used ++ rest ∧ Prim c used) ∧
  (∀ toks c rest, starts (bytes "(") toks = true → pblock fuel toks = Some (c, rest) →
     ∃ used, toks = used ++ rest ∧ Prim c used).
Proof.
  induction fuel as [|fuel (IHl & IHp & IHe & IHb)]; [by repeat split|]. repeat split; intros toks c rest.
  - cbn [pline]. intros ([c1 toks1] & H1 & H)%bind_Some. apply IHp in H1 as (used1 & -> & H1).
    destruct (pback toks1) as [n toks2] eqn:E. apply pback_sound in E as ->.
    destruct (starts (bytes ";") toks2) eqn:Es.
    + apply bind_Some in H as ([r rest'] & H & [= <- <-]). apply starts_true in Es; [|done..].
      rewrite Es. apply IHl in H as (used & Et & H). rewrite Et.
      exists (used1 ++ amps n ++ TSym (chr ";") :: used). split; [by rewrite <-!app_assoc|by constructor].
    + injection H as <- <-. exists (used1 ++ amps n). split; [by rewrite app_assoc|by constructor].
  - cbn [ppipe]. intros ([c1 toks1] & H1 & H)%bind_Some. apply IHe in H1 as (used1 & -> & H1).
    destruct (starts (bytes "|") toks1) eqn:Es.
    + apply bind_Some in H as ([r rest'] & H & [= <- <-]). apply starts_true in Es; [|done..].
      rewrite Es. apply IHp in H as (used & Et & H). rewrite Et.
      exists (used1 ++ TSym (chr "|") :: used). split; [by rewrite <-app_assoc|by constructor].
    + injection H as <- <-. exists used1. split; [done|by constructor].
  - cbn [pprim]. destruct (starts (bytes "(") toks) eqn:Es; [by apply IHb|].
    intros ([rs toks1] & H1 & ([[args rs'] rest'] & H & [= <- <-])%bind_Some)%bind_Some.
    apply predirs_sound in H1 as (used1 & -> & H1). apply pargs_sound in H as (used & -> & H & Hl).
    exists (used1 ++ used). split; [by rewrite app_assoc|]. constructor; [by apply Items_redirs|done].
  - cbn [pblock]. intros Es ([c1 toks1] & H1 & H)%bind_Some.
    apply starts_true in Es; [|done..]. rewrite Es. apply IHl in H1 as (used1 & Et & H1). rewrite Et.
    destruct (starts (bytes ")") toks1) eqn:Es1; [|done]. cbn [negb] in H.
    apply bind_Some in H as ([rs rest'] & H & [= <- <-]). apply starts_true in Es1; [|done..]. rewrite Es1.
    apply predirs_sound in H as (used & Et2 & H). rewrite Et2.
    exists (TSym (chr "(") :: used1 ++ TSym (chr ")") :: used).
    split; [cbn; by rewrite <-app_assoc|by constructor].
Qed.

(** The tokens end, or go on with one of the symbols. *)
Definition ends (set : list Z) (toks : list tok) : Prop :=
  match toks with [] => True | t :: _ => ∃ c, t = TSym c ∧ c ∈ set end.

Notation after_line := [chr ")"].
Notation after_pipe := [chr ")"; chr "&"; chr ";"].
Notation after_prim := [chr ")"; chr "&"; chr ";"; chr "|"].

Lemma ends_mono set set' toks : set ⊆ set' → ends set toks → ends set' toks.
Proof. intros Hs. destruct toks as [|t toks]; [done|]. intros (c & -> & Hc). exists c. split; [done|set_solver]. Qed.

Lemma starts_false x set toks :
  x ≠ 0 → x ≠ chr ">" → x ≠ chr "+" → bool_decide (x ∈ set) = false → ends set toks → starts [x] toks = false.
Proof.
  intros H0 H1 H2 Hx%bool_decide_eq_false. destruct toks as [|t toks]; [done|]. intros (c & -> & Hc).
  rewrite starts_one by done. apply Z.eqb_neq. set_solver.
Qed.

(** After words and redirections, the parser stops. *)
Lemma ends_prim_stop toks :
  ends after_prim toks →
  predirs toks = Some ([], toks) ∧ ∀ n, pargs (S n) toks = Some ([], [], toks).
Proof.
  destruct toks as [|t toks]; [done|]. intros (c & -> & Hc).
  assert (redir_mode c = None ∧ starts (bytes "|)&;") (TSym c :: toks) = true) as [H1 H2].
  { rewrite !elem_of_cons in Hc. set_unfold in Hc. by destruct_or!; subst c. }
  split; [cbn [predirs]; by rewrite H1|]. intros n. cbn [pargs]. by rewrite H2.
Qed.

Lemma predirs_complete rs used rest :
  Redirs rs used → ends after_prim rest → predirs (used ++ rest) = Some (rs, rest).
Proof.
  intros H Hr. induction H as [|op f m d rs used Hm H IH]; [by apply ends_prim_stop|].
  cbn [app predirs]. by rewrite Hm, IH.
Qed.

(** Redirections, and then words and redirections. *)
Definition pitems (n : nat) (toks : list tok)
    : option (list (list Z) * list (list Z * Z * Z) * list tok) :=
  '(rs, toks) ← predirs toks; '(args, rs', rest) ← pargs n toks; Some (args, rs ++ rs', rest).

Lemma pitems_complete n args rs used rest :
  Items args rs used → ends after_prim rest → (length args < n)%nat →
  pitems n (used ++ rest) = Some (args, rs, rest).
Proof.
  intros H Hr. revert n. induction H as [|s args rs used H IH|op f m d args rs used Hm H IH]; intros n Hn.
  - destruct n as [|n]; [cbn in Hn; lia|]. destruct (ends_prim_stop rest Hr) as [E1 E2].
    unfold pitems. cbn [app]. rewrite E1. cbn [mbind option_bind]. by rewrite E2.
  - destruct n as [|n]; [lia|]. cbn [length] in Hn. specialize (IH n ltac:(lia)). unfold pitems in *.
    apply bind_Some in IH as ([rs0 toks0] & E0 & ([[args1 rs1] rest1] & E1 & [= -> <- ->])%bind_Some).
    cbn [app predirs mbind option_bind pargs starts]. rewrite E0. cbn [mbind option_bind]. rewrite E1. done.
  - specialize (IH n Hn). unfold pitems in *.
    apply bind_Some in IH as ([rs0 toks0] & E0 & ([[args1 rs1] rest1] & E1 & [= -> <- ->])%bind_Some).
    cbn [app predirs]. rewrite Hm, E0. cbn [mbind option_bind]. by rewrite E1.
Qed.

Lemma pback_complete n rest :
  match rest with TSym c :: _ => c ≠ chr "&" | _ => True end → pback (amps n ++ rest) = (n, rest).
Proof.
  intros Hr. induction n as [|n IH]; cbn [amps replicate app].
  - destruct rest as [|[s|c] rest]; cbn [pback]; [done..|]. by rewrite (proj2 (Z.eqb_neq c _)).
  - cbn [pback]. change (chr "&" =? chr "&") with true. cbv iota.
    change (replicate n (TSym (chr "&"))) with (amps n). by rewrite IH.
Qed.

Lemma items_no_block args rs used rest :
  Items args rs used → ends after_prim rest → starts (bytes "(") (used ++ rest) = false.
Proof.
  intros H Hr. destruct H as [|s args rs used H|op f m d args rs used Hm H]; cbn [app]; [|done|].
  - by apply (starts_false (chr "(") after_prim).
  - change (bytes "(") with [chr "("]. rewrite starts_one by done. apply Z.eqb_neq. by intros ->.
Qed.

Lemma line_stop rest : ends after_line rest → starts (bytes ";") rest = false.
Proof. by apply (starts_false (chr ";") after_line). Qed.
Lemma pipe_stop rest : ends after_pipe rest → starts (bytes "|") rest = false.
Proof. by apply (starts_false (chr "|") after_pipe). Qed.

Lemma amps_ends n set rest :
  chr "&" ∈ set → ends set rest → ends set (amps n ++ rest).
Proof. intros Hs Hr. destruct n as [|n]; [done|]. by exists (chr "&"). Qed.

Ltac len_lia := repeat progress (cbn [length app] in *; rewrite ?length_app in *); lia.

Lemma parser_complete :
  (∀ c toks, Line c toks → ∀ rest fuel, ends after_line rest →
     (4 * length (toks ++ rest) + 4 ≤ fuel)%nat → pline fuel (toks ++ rest) = Some (c, rest)) ∧
  (∀ c toks, Pipe c toks → ∀ rest fuel, ends after_pipe rest →
     (4 * length (toks ++ rest) + 3 ≤ fuel)%nat → ppipe fuel (toks ++ rest) = Some (c, rest)) ∧
  (∀ c toks, Prim c toks → ∀ rest fuel, ends after_prim rest →
     (4 * length (toks ++ rest) + 2 ≤ fuel)%nat → pprim fuel (toks ++ rest) = Some (c, rest)).
Proof.
  apply (grammar_ind (λ c toks _, ∀ rest fuel, ends after_line rest →
     (4 * length (toks ++ rest) + 4 ≤ fuel)%nat → pline fuel (toks ++ rest) = Some (c, rest))
    (λ c toks _, ∀ rest fuel, ends after_pipe rest →
     (4 * length (toks ++ rest) + 3 ≤ fuel)%nat → ppipe fuel (toks ++ rest) = Some (c, rest))
    (λ c toks _, ∀ rest fuel, ends after_prim rest →
     (4 * length (toks ++ rest) + 2 ≤ fuel)%nat → pprim fuel (toks ++ rest) = Some (c, rest))).
  - intros c n toks _ IH rest [|fuel] Hr Hf; [lia|]. rewrite <-app_assoc in *. cbn [pline].
    rewrite IH; [|apply amps_ends; [set_solver|eapply ends_mono; [|done]; set_solver]|lia].
    cbn [mbind option_bind]. rewrite pback_complete.
    2: { destruct rest as [|t rest]; [done|]. destruct Hr as (c' & -> & Hc). by intros ->; set_solver. }
    rewrite (line_stop rest); done.
  - intros c n r toks toks' _ IHp _ IHl rest [|fuel] Hr Hf; [lia|]. rewrite <-!app_assoc in *. cbn [pline].
    rewrite IHp; [|apply amps_ends; [set_solver|]; exists (chr ";"); split; [done|set_solver]|lia].
    cbn [mbind option_bind app]. rewrite pback_complete by done.
    change (starts (bytes ";") (TSym (chr ";") :: toks' ++ rest)) with true. cbv iota. cbn [tail].
    rewrite IHl; [done|done|]. len_lia.
  - intros c toks _ IH rest [|fuel] Hr Hf; [lia|]. cbn [ppipe].
    rewrite IH; [|eapply ends_mono; [|done]; set_solver|lia]. cbn [mbind option_bind].
    rewrite (pipe_stop rest); done.
  - intros c r toks toks' _ IHe _ IHp rest [|fuel] Hr Hf; [lia|]. rewrite <-app_assoc in *. cbn [ppipe app].
    rewrite IHe; [|exists (chr "|"); split; [done|set_solver]|cbn [app] in *; lia]. cbn [mbind option_bind].
    change (starts (bytes "|") (TSym (chr "|") :: toks' ++ rest)) with true. cbv iota. cbn [tail].
    rewrite IHp; [done|done|]. len_lia.
  - intros args rs toks H Hl rest [|fuel] Hr Hf; [lia|]. cbn [pprim]. rewrite (items_no_block args rs) by done.
    pose proof (pitems_complete MAXARGS args rs toks rest H Hr Hl) as E. unfold pitems in E.
    apply bind_Some in E as ([rs0 toks0] & E0 & ([[args1 rs1] rest1] & E1 & [= -> <- ->])%bind_Some).
    rewrite E0. cbn [mbind option_bind]. by rewrite E1.
  - intros c rs toks toks' _ IH H rest [|[|fuel]] Hr Hf; [lia..|]. cbn [pprim app].
    change (starts (bytes "(") _) with true. cbv iota. cbn [pblock tail]. rewrite <-app_assoc. cbn [app].
    rewrite IH; [|exists (chr ")"); split; [done|set_solver]|].
    2: { len_lia. }
    cbn [mbind option_bind]. change (starts (bytes ")") _) with true. cbn [negb tail].
    by rewrite (predirs_complete rs).
Qed.

(** Lines of the grammar are those that the parser accepts whole. *)
Lemma pline_grammar fuel toks c :
  (4 * length toks + 4 ≤ fuel)%nat → Line c toks ↔ pline fuel toks = Some (c, []).
Proof.
  intros Hf. destruct parser_complete as (Hc & _ & _). destruct (parser_sound fuel) as (Hs & _). split.
  - intros H. specialize (Hc c toks H [] fuel). rewrite app_nil_r in Hc. by apply Hc.
  - intros H. apply Hs in H as (used & -> & H). by rewrite app_nil_r.
Qed.
