(* ===== verification/ShFacts.v ===== *)
(** * The shell: what [gettoken] and [peek] see

    The functions of [user/sh.c] on offsets into the line, in terms of the tokens of the
    rest of the line; and the words of a command before and after [nulterminate]. *)

From S2P Require Import Prelude Bytes Data User Ulib UserFacts Sh ShGrammar.

Local Open Scope Z_scope.

(** ** Commands on offsets *)

(** The start and the end of every word of a command. *)
Fixpoint pairs (c : cmd) : list (nat * nat) :=
  match c with
  | EXEC args => args
  | REDIR c r => pairs c ++ [(rd_file r, rd_efile r)]
  | PIPE l r | LIST l r => pairs l ++ pairs r
  | BACK c => pairs c
  end.

(** The command with its words as [word] reads them. *)
Section sem.
Context (word : nat * nat → list Z).

Definition sem_redir (r : redir) : list Z * Z * Z := (word (rd_file r, rd_efile r), rd_mode r, rd_fd r).

Fixpoint sem (c : cmd) : scmd :=
  match c with
  | EXEC args => SExec (word <$> args)
  | REDIR c r => SRedir (sem c) (word (rd_file r, rd_efile r)) (rd_mode r) (rd_fd r)
  | PIPE l r => SPipe (sem l) (sem r)
  | LIST l r => SList (sem l) (sem r)
  | BACK c => SBack (sem c)
  end.

Lemma sem_redirect c rs : sem (redirect c rs) = sredirect (sem c) (sem_redir <$> rs).
Proof. unfold redirect, sredirect. revert c. induction rs as [|r rs IH]; intros c; [done|]. apply IH. Qed.

Lemma sem_backs n c : sem (Nat.iter n backcmd c) = backs n (sem c).
Proof.
  induction n as [|n IH]; [done|]. change (sem (BACK (Nat.iter n backcmd c)) = SBack (backs n (sem c))).
  cbn [sem]. by rewrite IH.
Qed.
End sem.

Lemma sem_cong f g c : (∀ x, x ∈ pairs c → f x = g x) → sem f c = sem g c.
Proof.
  induction c as [args|c IH r|l IHl r IHr|l IHl r IHr|c IH]; cbn [pairs sem]; intros H.
  - f_equal. apply list_fmap_ext. intros i x Hx. apply H. by eapply list_elem_of_lookup_2.
  - rewrite IH by set_solver. f_equal. apply H. set_solver.
  - rewrite IHl, IHr by set_solver. done.
  - rewrite IHl, IHr by set_solver. done.
  - by rewrite IH.
Qed.

Lemma pairs_redirect c rs :
  pairs (redirect c rs) = pairs c ++ ((λ r, (rd_file r, rd_efile r)) <$> rs).
Proof.
  unfold redirect. revert c. induction rs as [|r rs IH]; intros c; cbn [foldl fmap list_fmap]; [by rewrite app_nil_r|].
  rewrite IH. unfold redircmd. cbn [pairs]. by rewrite <-app_assoc.
Qed.

Lemma nulterminate_pairs c buf :
  nulterminate c buf = foldl (λ b x, <[x.2 := 0]> b) buf (pairs c).
Proof.
  revert buf. induction c as [args|c IH r|l IHl r IHr|l IHl r IHr|c IH]; intros buf; cbn [nulterminate pairs];
    rewrite ?foldl_app; [done|by rewrite IH|by rewrite IHl, IHr|by rewrite IHl, IHr|done].
Qed.

(** ** The functions on offsets *)

Lemma is_in_elem set c : is_in set c = true → c ∈ set.
Proof.
  unfold is_in. induction set as [|x set IH]; [done|]. cbn [strchr]. destruct (x =? 0); [done|].
  destruct (Z.eqb_spec x c) as [->|_]; [set_solver|]. intros H.
  destruct (strchr set c); [|done]. set_solver.
Qed.

Lemma symbols_spec c : is_in symbols c =
  ((c =? chr "|") || (c =? chr "(") || (c =? chr ")") || (c =? chr ";") || (c =? chr "&") ||
   (c =? chr "<") || (c =? chr ">")).
Proof.
  unfold is_in. cbn [symbols]. change symbols with
    [chr "<"; chr "|"; chr ">"; chr "&"; chr ";"; chr "("; chr ")"]. cbn [strchr].
  rewrite !(Z.eqb_sym c).
  repeat match goal with |- context [(if ?a =? 0 then _ else _)] =>
    change (a =? 0) with false; cbv iota end.
  destruct (chr "<" =? c), (chr "|" =? c), (chr ">" =? c), (chr "&" =? c), (chr ";" =? c),
    (chr "(" =? c), (chr ")" =? c); reflexivity.
Qed.

Section cursor.
Context (text rest : list Z).
Context (Htext : Forall (λ c, c ≠ 0) text).
Let buf : list Z := text ++ 0 :: rest.
Let es : nat := length text.

Definition toks_at (ps : nat) : list tok := tokenize (drop ps text).

Lemma ch_text s c l : drop s text = c :: l → ch buf s = c ∧ c ≠ 0 ∧ (s < es)%nat ∧ drop (S s) text = l.
Proof.
  intros H. assert (text !! s = Some c) as Hc.
  { replace s with (s + 0)%nat by lia. by rewrite <-lookup_drop, H. }
  pose proof (lookup_lt_Some _ _ _ Hc). unfold ch, buf. rewrite lookup_app_l, Hc by done. repeat split; [|done|].
  - by eapply (proj1 (Forall_lookup _ _) Htext).
  - replace (S s) with (s + 1)%nat by lia. by rewrite <-drop_drop, H.
Qed.

Lemma ch_end s : (s ≤ es)%nat → drop s text = [] → s = es ∧ ch buf s = 0.
Proof.
  intros Hs H. assert (s = es) as ->.
  { apply (f_equal length) in H. rewrite length_drop in H. cbn in H. unfold es in *. lia. }
  split; [done|]. unfold ch, buf. by rewrite lookup_app_r, Nat.sub_diag.
Qed.

Lemma skip_spec p s : (s ≤ es)%nat → ∃ pre,
  drop s text = pre ++ drop (skip buf es p s) text ∧ skip buf es p s = (s + length pre)%nat ∧
  (skip buf es p s ≤ es)%nat ∧ Forall p pre ∧
  match drop (skip buf es p s) text with [] => True | c :: _ => p c = false end.
Proof.
  unfold skip. remember (es - s)%nat as n eqn:En. revert s En. induction n as [|n IH]; intros s En Hs; cbn [skip_while].
  - exists []. rewrite drop_ge by (unfold es in *; lia). repeat split; [cbn; lia|done..].
  - rewrite (proj2 (Nat.ltb_lt s es)) by lia. cbn [andb].
    destruct (drop s text) as [|c l] eqn:E; [apply (f_equal length) in E; rewrite length_drop in E; cbn in E; unfold es in *; lia|].
    destruct (ch_text _ _ _ E) as (-> & _ & _ & El). destruct (p c) eqn:Hp.
    + destruct (IH (S s)) as (pre & H1 & H2 & H3 & H4 & H5); [lia..|]. exists (c :: pre). rewrite El in H1.
      rewrite H1. repeat split; [cbn [length]; lia|done|constructor; [by rewrite Hp|done]|done].
    + exists []. rewrite E. repeat split; [cbn; lia|done..].
Qed.

Definition word (x : nat * nat) : list Z := take (x.2 - x.1) (drop x.1 text).

(** The start and the end of a word. *)
Definition pair_ok (x : nat * nat) : Prop :=
  (x.1 < x.2 ≤ es)%nat ∧ Forall word_char (word x) ∧ ends_word (drop x.2 text).

Definition kind (t : tok) : Z := match t with TWord _ => chr "a" | TSym c => c end.

Lemma toks_white ps : (ps ≤ es)%nat →
  toks_at (skip_white buf es ps) = toks_at ps ∧ (skip_white buf es ps ≤ es)%nat ∧
  match drop (skip_white buf es ps) text with [] => True | c :: _ => is_in whitespace c = false end.
Proof.
  intros Hps. destruct (skip_spec (is_in whitespace) ps Hps) as (pre & H1 & _ & H3 & H4 & H5).
  split; [|done]. unfold toks_at. rewrite H1. symmetry. by apply tokens_white.
Qed.

(** A token, by its kind and its ends. *)
Definition reads (t : tok) (ret : Z) (q eq : nat) : Prop :=
  ret = kind t ∧ ret ≠ 0 ∧
  match t with
  | TWord s => pair_ok (q, eq) ∧ word (q, eq) = s
  | TSym c => is_in symbols c = true ∨ c = chr "+"
  end.

(** A character that is not white starts a token. *)
Definition token_found (q : nat) (ret : Z) (eq : nat) : Prop :=
  (eq ≤ es)%nat ∧ ∃ t, toks_at q = t :: toks_at eq ∧ reads t ret q eq.

Lemma token_sym q c l :
  drop q text = c :: l → is_in whitespace c = false → is_in symbols c = true →
  c ≠ chr ">" → token_found q c (S q).
Proof.
  intros Hq Hw Hs Hgt. destruct (ch_text _ _ _ Hq) as (_ & Hc & Hlt & Hl). split; [lia|].
  exists (TSym c). split; [|by repeat split; auto]. unfold toks_at. rewrite Hl, Hq.
  unfold tokenize. cbn [tokens_from]. rewrite Hw, Hs, (proj2 (Z.eqb_neq c _)) by done. done.
Qed.

Lemma token_gt q l :
  drop q text = chr ">" :: l →
  let '(ret, eq) := if ch buf (S q) =? chr ">" then (chr "+", S (S q)) else (chr ">", S q) in
  token_found q ret eq.
Proof.
  intros Hq. destruct (ch_text _ _ _ Hq) as (_ & Hc & Hlt & Hl). unfold token_found, toks_at. rewrite Hq.
  unfold tokenize. cbn [tokens_from]. change (is_in whitespace (chr ">")) with false.
  change (chr ">" =? chr ">") with true. cbv iota. cbn [flush app].
  destruct l as [|d l].
  - destruct (ch_end (S q) ltac:(lia) Hl) as [_ ->]. change (0 =? chr ">") with false. cbv iota.
    split; [lia|]. exists (TSym (chr ">")). rewrite Hl. repeat split; [done|by left].
  - destruct (ch_text _ _ _ Hl) as (-> & _ & Hlt' & Hl'). destruct (Z.eqb_spec d (chr ">")) as [->|Hd].
    + split; [lia|]. exists (TSym (chr "+")). rewrite Hl'. repeat split; [done|by right].
    + split; [lia|]. exists (TSym (chr ">")). rewrite Hl. repeat split; [done|by left].
Qed.

Lemma token_word q c l :
  drop q text = c :: l → is_in whitespace c = false → is_in symbols c = false →
  token_found q (chr "a") (skip_word buf es q).
Proof.
  intros Hq Hw Hs. destruct (ch_text _ _ _ Hq) as (_ & Hc & Hlt & Hl).
  destruct (skip_spec word_char q ltac:(lia)) as (pre & H1 & H2 & H3 & H4 & H5).
  change (skip buf es word_char q) with (skip_word buf es q) in *.
  set (eq := skip_word buf es q) in *. clearbody eq. split; [done|].
  assert (pre ≠ []) as Hpre.
  { intros ->. cbn in H1. rewrite <-H1, Hq in H5. unfold word_char in H5. by rewrite Hw, Hs in H5. }
  assert (word (q, eq) = pre) as Ew.
  { unfold word. cbn [fst snd]. rewrite H1, H2. rewrite take_app_length' by lia. done. }
  exists (TWord pre). split; [unfold toks_at; rewrite H1; by apply tokenize_word|].
  split; [done|]. split; [done|]. split; [|done]. unfold pair_ok. rewrite Ew. cbn [fst snd].
  split; [|done]. destruct pre; [done|]. cbn [length] in H2. lia.
Qed.

Lemma token_spec q c l :
  drop q text = c :: l → is_in whitespace c = false →
  let '(ret, eq) := token buf es q in token_found q ret eq.
Proof.
  intros Hq Hw. destruct (ch_text _ _ _ Hq) as (Hc & Hc0 & Hlt & Hl).
  unfold token. rewrite Hc, (proj2 (Z.eqb_neq c 0)) by done. cbv zeta.
  pose proof (symbols_spec c) as Hs.
  destruct (Z.eqb_spec c (chr ">")) as [->|Hgt].
  - cbn [Z.eqb orb]. by apply (token_gt q l).
  - rewrite orb_false_r in Hs. rewrite <-Hs. destruct (is_in symbols c) eqn:E; [by eapply token_sym|].
    by eapply token_word.
Qed.

Lemma skip_white_end ps : (ps ≤ es)%nat → skip_white buf es ps = es ↔ toks_at ps = [].
Proof.
  intros Hps. destruct (toks_white ps Hps) as (Ht & Hq & Hw). rewrite <-Ht.
  set (q := skip_white buf es ps) in *. clearbody q. destruct (drop q text) as [|c l] eqn:E.
  - destruct (ch_end q Hq E) as [-> _]. split; [|done]. intros _. unfold toks_at. by rewrite E.
  - destruct (ch_text _ _ _ E) as (_ & _ & Hlt & _). pose proof (token_spec q c l E Hw) as Htok.
    destruct (token buf es q) as [ret eq]. destruct Htok as (_ & t & -> & _). split; [lia|done].
Qed.

(** What [gettoken] returns, by the tokens of the rest of the line. *)
Lemma gettoken_spec ps : (ps ≤ es)%nat → ∃ ret q eq ps',
  gettoken buf es ps = (ret, q, eq, ps') ∧ (ps' ≤ es)%nat ∧
  match toks_at ps with
  | [] => ret = 0 ∧ toks_at ps' = []
  | t :: ts => reads t ret q eq ∧ toks_at ps' = ts
  end.
Proof.
  intros Hps. unfold gettoken. destruct (toks_white ps Hps) as (Ht & Hq & Hw).
  set (q := skip_white buf es ps) in *. clearbody q. rewrite <- Ht. clear Ht.
  destruct (drop q text) as [|c l] eqn:E.
  - destruct (ch_end q Hq E) as [-> Hc]. unfold token. rewrite Hc. cbn [Z.eqb].
    destruct (toks_white es ltac:(done)) as (Ht & Hle & _). do 4 eexists. split; [done|]. split; [done|].
    assert (toks_at es = []) as E' by (unfold toks_at; by rewrite E). by rewrite Ht, E'.
  - pose proof (token_spec q c l E Hw) as Htok. destruct (token buf es q) as [ret eq].
    destruct Htok as (Heq & t & Ht & Hr). destruct (toks_white eq Heq) as (Ht' & Hle & _).
    do 4 eexists. split; [done|]. split; [done|]. by rewrite Ht, Ht'.
Qed.

Lemma peek_spec set ps : (ps ≤ es)%nat → Forall (is_in symbols) set →
  ∃ ps', peek buf es set ps = (starts set (toks_at ps), ps') ∧ (ps' ≤ es)%nat ∧ toks_at ps' = toks_at ps.
Proof.
  intros Hps Hset. unfold peek. destruct (toks_white ps Hps) as (Ht & Hq & Hw).
  set (q := skip_white buf es ps) in *. clearbody q. exists q. split; [|done]. f_equal. rewrite <-Ht.
  destruct (drop q text) as [|c l] eqn:E.
  - destruct (ch_end q Hq E) as [-> Hc]. rewrite Hc. unfold toks_at. by rewrite E.
  - destruct (ch_text _ _ _ E) as (-> & Hc0 & Hlt & El). rewrite (proj2 (Z.eqb_neq c 0)) by done. cbn [negb andb].
    destruct (is_in symbols c) eqn:Es.
    + destruct (Z.eqb_spec c (chr ">")) as [->|Hgt].
      * unfold toks_at, tokenize. rewrite E. cbn [tokens_from]. change (is_in whitespace (chr ">")) with false.
        change (chr ">" =? chr ">") with true. cbv iota. cbn [flush app].
        destruct l as [|d l]; [done|]. destruct (d =? chr ">"); done.
      * unfold toks_at, tokenize. rewrite E. cbn [tokens_from].
        rewrite Hw, Es, (proj2 (Z.eqb_neq c _)) by done. cbn [flush app starts].
        destruct (Z.eqb_spec c (chr "+")) as [->|_]; done.
    + destruct (token_word q c l E Hw Es) as (_ & t & -> & Hr). assert (is_in set c = false) as ->.
      { destruct (is_in set c) eqn:Ec; [|done]. apply is_in_elem in Ec.
        rewrite list.Forall_forall in Hset. apply Hset, Is_true_true in Ec. congruence. }
      destruct t as [s|c']; [done|]. destruct Hr as (Hk & _ & [Hs| ->]); [|done]. cbn [kind] in Hk. subst c'. done.
Qed.
End cursor.
