(* ===== verification/ShParse.v ===== *)
(** * The shell: the parser on offsets decides the grammar *)

From S2P Require Import Prelude Bytes Data User Ulib UserFacts Sh ShGrammar ShFacts.

Local Open Scope Z_scope.

(** ** Programs that return at once, or give up with a message *)

(** The world after writing [t] to descriptor 2. *)
Definition erred (w : stream) (t : list Z) : stream :=
  mkStream (io_in w) (io_cuts w) (io_out w) (io_err w ++ t).

Lemma erred_app w t t' : erred (erred w t) t' = erred w (t ++ t').
Proof. unfold erred. cbn. by rewrite app_assoc. Qed.

Lemma runs_fprintf w fmt ap t :
  format fmt ap = Some t → Forall is_u8 t → ∀ fuel, fprintf 2 fmt ap fuel w = Done tt (erred w t).
Proof.
  intros Ht Hb fuel. unfold fprintf. rewrite (vprintf_text 2 _ _ _ Ht fuel w). clear Ht. revert w.
  induction Hb as [|c t Hc Hb IH]; intros w; cbn [ufor].
  - unfold erred. rewrite app_nil_r. by destruct w.
  - unfold mbind, U_bind. change (putc 2 c fuel w) with (Done (W := stream) tt (erred w [u8 c])).
    cbv iota beta. rewrite IH, erred_app, u8_small by done. done.
Qed.

Definition returns {A} (m : U stream A) (a : A) : Prop := ∀ fuel w, m fuel w = Done a w.
Definition complains {A} (m : U stream A) : Prop := ∀ w, ∃ t, ∀ fuel, m fuel w = Exited 1 (erred w t).

(** [m] returns a value related to the one of [r], or complains when there is none. *)
Definition parses {A B} (m : U stream A) (r : option B) (Q : A → B → Prop) : Prop :=
  match r with Some b => ∃ a, returns m a ∧ Q a b | None => complains m end.

Section parses.
Context {A B C D : Type}.

Lemma parses_ret (a : A) (b : B) (Q : A → B → Prop) : Q a b → parses (mret a) (Some b) Q.
Proof. intros HQ. by exists a. Qed.

Lemma parses_returns (m : U stream A) (a : A) (f : A → U stream C) (r : option D) Q :
  returns m a → parses (f a) r Q → parses (m ≫= f) r Q.
Proof.
  intros Hm Hf. assert (∀ fuel w, (m ≫= f) fuel w = f a fuel w) as E.
  { intros fuel w. unfold mbind, U_bind. by rewrite Hm. }
  destruct r as [d|]; cbn [parses] in *.
  - destruct Hf as (c & Hc & HQ). exists c. split; [|done]. intros fuel w. by rewrite E.
  - intros w. destruct (Hf w) as [t Ht]. exists t. intros fuel. by rewrite E.
Qed.

Lemma parses_bind (m : U stream A) (r : option B) (f : A → U stream C) (g : B → option D) P Q :
  parses m r P → (∀ a b, r = Some b → P a b → parses (f a) (g b) Q) → parses (m ≫= f) (r ≫= g) Q.
Proof.
  intros Hm Hf. destruct r as [b|]; cbn [mbind option_bind].
  - destruct Hm as (a & Ha & HP). specialize (Hf a b eq_refl HP). by eapply parses_returns.
  - intros w. destruct (Hm w) as [t Ht]. exists t. intros fuel. unfold mbind, U_bind. by rewrite Ht.
Qed.

Lemma parses_map (m : U stream A) (r : option B) (g : B → option D) P (Q : A → D → Prop) :
  parses m r P → (∀ a b, P a b → ∃ d, g b = Some d ∧ Q a d) → parses m (r ≫= g) Q.
Proof.
  intros Hm Hg. destruct r as [b|]; cbn [mbind option_bind]; [|done].
  destruct Hm as (a & Ha & HP). destruct (Hg a b HP) as (d & -> & HQ). by exists a.
Qed.

Lemma parses_panic s (Q : A → B → Prop) :
  printable (line "%s") [VStr (Some (bytes s))] = true → parses (panic s) None Q.
Proof.
  intros (t & E & Ht)%printable_text w. exists t. intros fuel. unfold panic, mbind, U_bind.
  by rewrite (runs_fprintf _ _ _ _ E).
Qed.
End parses.

(** ** The functions on offsets and on tokens *)

Section simulation.
Context (text rest : list Z).
Context (Htext : Forall (λ c, c ≠ 0) text).
Notation buf := (text ++ 0 :: rest).
Notation es := (length text).
Notation toks_at := (toks_at text).
Notation word := (word text).
Notation pair_ok := (pair_ok text).

Definition redir_pair (r : redir) : nat * nat := (rd_file r, rd_efile r).

(** The offset [ps] is where the tokens [toks] start. *)
Definition at_toks (ps : nat) (toks : list tok) : Prop := (ps ≤ es)%nat ∧ toks_at ps = toks.

Definition redirs_rel (x : list redir * nat) (y : list (list Z * Z * Z) * list tok) : Prop :=
  at_toks x.2 y.2 ∧ sem_redir word <$> x.1 = y.1 ∧ Forall pair_ok (redir_pair <$> x.1).

Definition cmd_rel (x : cmd * nat) (y : scmd * list tok) : Prop :=
  at_toks x.2 y.2 ∧ sem word x.1 = y.1 ∧ Forall pair_ok (pairs x.1).

Lemma peek_at set ps toks :
  at_toks ps toks → Forall (is_in symbols) set →
  ∃ ps', peek buf es set ps = (starts set toks, ps') ∧ at_toks ps' toks.
Proof.
  intros [Hps <-] Hset. destruct (peek_spec text rest Htext set ps Hps Hset) as (ps' & H1 & H2 & H3).
  by exists ps'.
Qed.

Lemma gettoken_at ps t toks :
  at_toks ps (t :: toks) → ∃ q eq ps',
  gettoken buf es ps = (kind t, q, eq, ps') ∧ at_toks ps' toks ∧ reads text t (kind t) q eq.
Proof.
  intros [Hps E]. destruct (gettoken_spec text rest Htext ps Hps) as (ret & q & eq & ps' & H1 & H2 & H3).
  rewrite E in H3. destruct H3 as [Hr Ht]. destruct Hr as (-> & Hr). by exists q, eq, ps'.
Qed.

Lemma gettoken_end ps :
  at_toks ps [] → ∃ q eq ps', gettoken buf es ps = (0, q, eq, ps') ∧ at_toks ps' [].
Proof.
  intros [Hps E]. destruct (gettoken_spec text rest Htext ps Hps) as (ret & q & eq & ps' & H1 & H2 & H3).
  rewrite E in H3. destruct H3 as [-> Ht]. by exists q, eq, ps'.
Qed.

Lemma reads_sym c ret q eq : reads text (TSym c) ret q eq → c =? chr "a" = false.
Proof. intros (_ & _ & [H| ->]); [|done]. apply Z.eqb_neq. by intros ->. Qed.

(** The next token is a redirection. *)
Lemma starts_redir op toks :
  starts (bytes "<>") (TSym op :: toks) = match redir_mode op with Some _ => true | None => false end.
Proof.
  cbn [starts]. unfold redir_mode. destruct (Z.eqb_spec op (chr "<")) as [->|H1]; [done|].
  destruct (Z.eqb_spec op (chr ">")) as [->|H2]; [done|].
  destruct (Z.eqb_spec op (chr "+")) as [->|H3]; [done|].
  destruct (is_in _ op) eqn:E; [|done]. apply is_in_elem in E. change (bytes "<>") with [chr "<"; chr ">"] in E.
  set_solver.
Qed.

Lemma redir_of_mode op q eq m d :
  redir_mode op = Some (m, d) → redir_of op q eq = Some (mkRedir q eq m d).
Proof. unfold redir_mode, redir_of. intros. by repeat case_match; simplify_eq. Qed.

Lemma redirs_sim fuel ps toks :
  at_toks ps toks → (length toks < fuel)%nat →
  parses (parseredirs buf es fuel ps) (predirs toks) redirs_rel.
Proof.
  revert ps toks. induction fuel as [|fuel IH]; intros ps toks Hps Hf; [lia|]. cbn [parseredirs].
  destruct (peek_at (bytes "<>") ps toks Hps ltac:(by repeat constructor)) as (ps1 & -> & Hps1).
  destruct toks as [|[s|op] toks]; [by apply parses_ret..|]. rewrite starts_redir. cbn [predirs].
  destruct (redir_mode op) as [[m d]|] eqn:Em; [|by apply parses_ret].
  destruct (gettoken_at ps1 _ _ Hps1) as (q0 & eq0 & ps2 & -> & Hps2 & _). cbn [kind].
  destruct toks as [|[f|c] toks].
  - destruct (gettoken_end ps2 Hps2) as (q & eq & ps3 & -> & _). by apply parses_panic.
  - destruct (gettoken_at ps2 _ _ Hps2) as (q & eq & ps3 & -> & Hps3 & (_ & _ & Hok & Hw)). cbn [kind].
    rewrite Z.eqb_refl. cbn [negb]. cbn [length] in Hf.
    eapply parses_bind; [apply IH; [done|lia]|]. intros [rs ps4] [rs' toks4] _ (H1 & H2 & H3). cbn [fst snd] in *.
    apply parses_ret. rewrite (redir_of_mode _ _ _ _ _ Em). split; [done|]. cbn [fst snd fmap list_fmap].
    split; [|by constructor]. f_equal; [|done]. unfold sem_redir. cbn [rd_file rd_efile rd_mode rd_fd]. by rewrite Hw.
  - destruct (gettoken_at ps2 _ _ Hps2) as (q & eq & ps3 & -> & _ & Hr). cbn [kind].
    rewrite (reads_sym _ _ _ _ Hr). by apply parses_panic.
Qed.

Lemma predirs_length toks rs toks' :
  predirs toks = Some (rs, toks') → (length toks' ≤ length toks)%nat.
Proof.
  revert toks rs toks'. fix IH 1. intros [|[s|op] toks] rs toks'; cbn [predirs]; [by intros [= <- <-]..|].
  destruct (redir_mode op) as [[m d]|]; [|by intros [= <- <-]].
  destruct toks as [|[f|c] toks]; [done| |done]. intros ([rs1 toks1] & H & [= <- <-])%bind_Some.
  apply IH in H. cbn [length]. lia.
Qed.

Definition args_rel (args : list (nat * nat)) (rs : list redir) (x : cmd * nat)
    (y : list (list Z) * list (list Z * Z * Z) * list tok) : Prop :=
  at_toks x.2 y.2 ∧ ∃ args' rs',
    x.1 = redirect (EXEC (args ++ args')) (rs ++ rs') ∧
    word <$> args' = y.1.1 ∧ sem_redir word <$> rs' = y.1.2 ∧
    Forall pair_ok args' ∧ Forall pair_ok (redir_pair <$> rs').

Lemma args_rel_nil args rs ps toks :
  at_toks ps toks → args_rel args rs (redirect (EXEC args) rs, ps) ([], [], toks).
Proof. intros H. split; [done|]. exists [], []. rewrite !app_nil_r. repeat split; constructor. Qed.

Lemma args_sim fuel args rs ps toks n :
  at_toks ps toks → (length toks < fuel)%nat → (length args + n = MAXARGS)%nat → (0 < n)%nat →
  parses (parseargs buf es fuel args rs ps) (pargs n toks) (args_rel args rs).
Proof.
  revert args rs ps toks n. induction fuel as [|fuel IH]; intros args rs ps toks n Hps Hf Hn Hn0; [lia|].
  cbn [parseargs]. destruct n as [|n]; [lia|]. cbn [pargs].
  destruct (peek_at (bytes "|)&;") ps toks Hps ltac:(by repeat constructor)) as (ps1 & -> & Hps1).
  destruct (starts (bytes "|)&;") toks); [by apply parses_ret, args_rel_nil|].
  destruct toks as [|[s|c] toks].
  - destruct (gettoken_end ps1 Hps1) as (q & eq & ps3 & -> & Hps3). by apply parses_ret, args_rel_nil.
  - destruct (gettoken_at ps1 _ _ Hps1) as (q & eq & ps2 & -> & Hps2 & (_ & _ & Hok & Hw)). cbn [kind].
    change (chr "a" =? 0) with false. change (chr "a" =? chr "a") with true. cbn [negb].
    cbn [length] in Hf. rewrite length_app. cbn [length].
    destruct (Nat.leb_spec MAXARGS (length args + 1)) as [Hmax|Hmax].
    + assert (n = O) as -> by lia. replace (_ ≫= _) with (@None (list (list Z) * list (list Z * Z * Z) * list tok)).
      { by apply parses_panic. }
      by destruct (predirs toks) as [[]|].
    + eapply parses_bind; [apply redirs_sim; [done|lia]|].
      intros [rs2 ps3] [rs1 toks1] Hl%predirs_length (H1 & H2 & H3). cbn [fst snd] in *.
      eapply parses_map; [apply (IH _ _ ps3 toks1 n); [done|lia| |lia]; rewrite length_app; cbn; lia|].
      intros [c ps4] [[args' rs'] toks4] (G1 & args2 & rs3 & G2 & G3 & G4 & G5 & G6). cbn [fst snd] in *.
      eexists. split; [done|]. split; [done|]. exists ((q, eq) :: args2), (rs2 ++ rs3). cbn [fst snd].
      rewrite <-!app_assoc in G2. split; [done|]. rewrite !fmap_app. cbn [fmap list_fmap].
      split; [by f_equal|]. split; [by f_equal|]. split; [by constructor|]. by apply Forall_app.
  - destruct (gettoken_at ps1 _ _ Hps1) as (q & eq & ps3 & -> & _ & Hr). cbn [kind].
    rewrite (reads_sym _ _ _ _ Hr). destruct Hr as (_ & Hr0 & _). cbn [kind] in Hr0.
    rewrite (proj2 (Z.eqb_neq c 0)) by done. by apply parses_panic.
Qed.

Lemma back_sim fuel c ps toks :
  at_toks ps toks → (length toks < fuel)%nat → ∃ ps',
  returns (parseback buf es fuel c ps) (Nat.iter (pback toks).1 backcmd c, ps') ∧
  at_toks ps' (pback toks).2.
Proof.
  revert c ps toks. induction fuel as [|fuel IH]; intros c ps toks Hps Hf; [lia|]. cbn [parseback].
  destruct (peek_at (bytes "&") ps toks Hps ltac:(by repeat constructor)) as (ps1 & -> & Hps1).
  destruct toks as [|[s|x] toks]; [by exists ps1..|]. change (bytes "&") with [chr "&"].
  rewrite starts_one by done. cbn [pback]. destruct (Z.eqb_spec x (chr "&")) as [->|_]; [|by exists ps1].
  destruct (gettoken_at ps1 _ _ Hps1) as (q & eq & ps2 & -> & Hps2 & _). cbn [length] in Hf.
  destruct (IH (backcmd c) ps2 toks Hps2 ltac:(lia)) as (ps3 & H3 & Hps3).
  destruct (pback toks) as [n rest']. cbn [fst snd] in *. exists ps3. split; [|done].
  by rewrite Nat.iter_succ_r.
Qed.

Lemma pairs_backs n c : pairs (Nat.iter n backcmd c) = pairs c.
Proof. by induction n as [|n IH]. Qed.

Lemma cmd_rel_redirect c rs ps sc rs' toks :
  sem word c = sc → Forall pair_ok (pairs c) → redirs_rel (rs, ps) (rs', toks) →
  cmd_rel (redirect c rs, ps) (sredirect sc rs', toks).
Proof.
  intros Hc Hok (H1 & H2 & H3). cbn [fst snd] in *. split; [done|]. cbn [fst snd].
  split; [by rewrite sem_redirect, Hc, H2|]. rewrite pairs_redirect. by apply Forall_app.
Qed.

(** The next token is the symbol: it is skipped. *)
Lemma skip_symbol x ps toks :
  x ≠ 0 → x ≠ chr ">" → x ≠ chr "+" → starts [x] toks = true → at_toks ps toks →
  ∃ ret q eq ps', gettoken buf es ps = (ret, q, eq, ps') ∧ at_toks ps' (tail toks).
Proof.
  intros H0 H1 H2 Hs Hps. apply starts_true in Hs; [|done..]. rewrite Hs in Hps.
  destruct (gettoken_at ps _ _ Hps) as (q & eq & ps' & H & Hps' & _). rewrite Hs. by exists (kind (TSym x)), q, eq, ps'.
Qed.

Lemma rest_length (G : scmd → list tok → Prop) (c : scmd) (toks rest' : list tok) :
  (∃ used, toks = used ++ rest' ∧ G c used) → (length rest' ≤ length toks)%nat.
Proof. intros (used & -> & _). rewrite length_app. lia. Qed.

Definition line_sim (fuel : nat) : Prop := ∀ ps toks,
  at_toks ps toks → (4 * length toks + 4 ≤ fuel)%nat →
  parses (parseline buf es fuel ps) (pline fuel toks) cmd_rel.
Definition pipe_sim (fuel : nat) : Prop := ∀ ps toks,
  at_toks ps toks → (4 * length toks + 3 ≤ fuel)%nat →
  parses (parsepipe buf es fuel ps) (ppipe fuel toks) cmd_rel.
Definition prim_sim (fuel : nat) : Prop := ∀ ps toks,
  at_toks ps toks → (4 * length toks + 2 ≤ fuel)%nat →
  parses (parseexec buf es fuel ps) (pprim fuel toks) cmd_rel.
Definition block_sim (fuel : nat) : Prop := ∀ ps toks,
  at_toks ps toks → (4 * length toks + 1 ≤ fuel)%nat → starts (bytes "(") toks = true →
  parses (parseblock buf es fuel ps) (pblock fuel toks) cmd_rel.

Lemma line_turn fuel : line_sim fuel → pipe_sim fuel → line_sim (S fuel).
Proof.
  intros IHl IHp ps toks Hps Hf. cbn [parseline pline].
  eapply parses_bind; [apply IHp; [done|lia]|].
  intros [c ps1] [sc toks1] Hl (H1 & H2 & H3). cbn [fst snd] in *.
  apply parser_sound, rest_length in Hl.
  destruct (back_sim fuel c ps1 toks1 H1 ltac:(lia)) as (ps2 & Hret & Hps2).
  pose proof (pback_sound toks1) as Hl2. destruct (pback toks1) as [n toks2]. cbn [fst snd] in *.
  specialize (Hl2 _ _ eq_refl). apply (f_equal length) in Hl2. rewrite length_app in Hl2.
  assert (cmd_rel (Nat.iter n backcmd c, ps2) (backs n sc, toks2)) as Hrel.
  { split; [done|]. cbn [fst snd]. by rewrite sem_backs, H2, pairs_backs. }
  eapply parses_returns; [exact Hret|]. cbv beta iota.
  destruct (peek_at (bytes ";") ps2 toks2 Hps2 ltac:(by repeat constructor)) as (ps3 & -> & Hps3).
  destruct Hrel as (_ & Hsem & Hok). cbn [fst snd] in *.
  destruct (starts (bytes ";") toks2) eqn:Es; [|by apply parses_ret].
  destruct (skip_symbol (chr ";") ps3 toks2) as (ret & q & eq & ps4 & -> & Hps4); [done..|].
  assert (length (tail toks2) < length toks2)%nat by (destruct toks2; [done|cbn; lia]).
  eapply parses_bind; [apply IHl; [done|lia]|].
  intros [r ps5] [sr toks5] _ (G1 & G2 & G3). apply parses_ret. split; [done|]. cbn [fst snd] in *.
  split; [cbn [listcmd sem]; by rewrite Hsem, G2|]. by apply Forall_app.
Qed.

Lemma pipe_turn fuel : pipe_sim fuel → prim_sim fuel → pipe_sim (S fuel).
Proof.
  intros IHp IHe ps toks Hps Hf. cbn [parsepipe ppipe].
  eapply parses_bind; [apply IHe; [done|lia]|].
  intros [c ps1] [sc toks1] Hl (H1 & H2 & H3). cbn [fst snd] in *.
  apply parser_sound, rest_length in Hl.
  destruct (peek_at (bytes "|") ps1 toks1 H1 ltac:(by repeat constructor)) as (ps3 & -> & Hps3).
  destruct (starts (bytes "|") toks1) eqn:Es; [|by apply parses_ret].
  destruct (skip_symbol (chr "|") ps3 toks1) as (ret & q & eq & ps4 & -> & Hps4); [done..|].
  assert (length (tail toks1) < length toks1)%nat by (destruct toks1; [done|cbn; lia]).
  eapply parses_bind; [apply IHp; [done|lia]|].
  intros [r ps5] [sr toks5] _ (G1 & G2 & G3). apply parses_ret. split; [done|]. cbn [fst snd] in *.
  split; [cbn [pipecmd sem]; by rewrite H2, G2|]. by apply Forall_app.
Qed.

Lemma prim_turn fuel : block_sim fuel → prim_sim (S fuel).
Proof.
  intros IHb ps toks Hps Hf. cbn [parseexec pprim].
  destruct (peek_at (bytes "(") ps toks Hps ltac:(by repeat constructor)) as (ps1 & -> & Hps1).
  destruct (starts (bytes "(") toks) eqn:Es; [apply IHb; [done|lia|done]|].
  eapply parses_bind; [apply redirs_sim; [done|lia]|].
  intros [rs ps2] [rs' toks2] Hl%predirs_length (H1 & H2 & H3). cbn [fst snd] in *.
  eapply parses_map; [apply (args_sim fuel [] rs ps2 toks2 MAXARGS); [done|lia|done|unfold MAXARGS; lia]|].
  intros [c ps3] [[args rs1] toks3] (G1 & args2 & rs3 & G2 & G3 & G4 & G5 & G6). cbn [fst snd app] in *.
  eexists. split; [done|]. rewrite G2. apply cmd_rel_redirect; [cbn [sem]; by rewrite G3|done|].
  split; [done|]. cbn [fst snd]. rewrite !fmap_app. split; [by f_equal|by apply Forall_app].
Qed.

Lemma block_turn fuel : line_sim fuel → block_sim (S fuel).
Proof.
  intros IHl ps toks Hps Hf Hs. cbn [parseblock pblock].
  destruct (peek_at (bytes "(") ps toks Hps ltac:(by repeat constructor)) as (ps1 & -> & Hps1).
  rewrite Hs. cbn [negb].
  destruct (skip_symbol (chr "(") ps1 toks) as (ret & q & eq & ps2 & -> & Hps2); [done..|].
  assert (length (tail toks) < length toks)%nat by (destruct toks; [done|cbn; lia]).
  eapply parses_bind; [apply IHl; [done|lia]|].
  intros [c ps3] [sc toks3] Hl (H1 & H2 & H3). cbn [fst snd] in *.
  apply parser_sound, rest_length in Hl.
  destruct (peek_at (bytes ")") ps3 toks3 H1 ltac:(by repeat constructor)) as (ps4 & -> & Hps4).
  destruct (starts (bytes ")") toks3) eqn:Es; cbn [negb]; [|by apply parses_panic].
  destruct (skip_symbol (chr ")") ps4 toks3) as (ret' & q' & eq' & ps5 & -> & Hps5); [done..|].
  assert (length (tail toks3) ≤ length toks3)%nat by (destruct toks3; [done|cbn; lia]).
  eapply parses_bind; [apply redirs_sim; [done|lia]|].
  intros [rs ps6] [rs' toks6] _ Hr. apply parses_ret. by apply cmd_rel_redirect.
Qed.

Lemma parser_sim fuel : line_sim fuel ∧ pipe_sim fuel ∧ prim_sim fuel ∧ block_sim fuel.
Proof.
  induction fuel as [|fuel (IHl & IHp & IHe & IHb)].
  - split_and!; intros ps toks Hps Hf; lia.
  - split_and!; [by apply line_turn|by apply pipe_turn|by apply prim_turn|by apply block_turn].
Qed.
End simulation.
