(* ===== verification/ShProps.v ===== *)
(** * The shell: theorems *)

From S2P Require Import Prelude Bytes Data User Ulib UserFacts Sh ShGrammar ShFacts ShParse.

Local Open Scope Z_scope.

(** ** Words after [nulterminate] *)

(** The command that [runcmd] sees: a word goes from its start to the next NUL. *)
Definition meaning (buf : list Z) (c : cmd) : scmd := sem (λ x, str buf x.1) c.

Lemma cstr_take l n : Forall (λ c, c ≠ 0) (take n l) → l !! n = Some 0 → cstr l = take n l.
Proof.
  revert l. induction n as [|n IH]; intros [|c l] Hl Hn; cbn in *; [done| |done|].
  - by injection Hn as ->.
  - inversion_clear Hl. rewrite (proj2 (Z.eqb_neq c 0)) by done. f_equal. by apply IH.
Qed.

Section zeros.
Implicit Types (b : list Z) (xs : list (nat * nat)).
Notation zeros := (foldl (λ b x, <[x.2 := 0]> b)).

Lemma zeros_other b xs i : (∀ x, x ∈ xs → x.2 ≠ i) → (zeros b xs) !! i = b !! i.
Proof.
  revert b. induction xs as [|x xs IH]; intros b H; cbn [foldl]; [done|].
  rewrite IH by set_solver. apply list_lookup_insert_ne. set_solver.
Qed.

Lemma zeros_keep b xs i : b !! i = Some 0 → (zeros b xs) !! i = Some 0.
Proof.
  revert b. induction xs as [|x xs IH]; intros b H; cbn [foldl]; [done|]. apply IH.
  destruct (decide (x.2 = i)) as [->|Hne]; [|by rewrite list_lookup_insert_ne].
  apply list_lookup_insert_eq. by eapply lookup_lt_Some.
Qed.

Lemma zeros_hit b xs x : x ∈ xs → (x.2 < length b)%nat → (zeros b xs) !! x.2 = Some 0.
Proof.
  revert b. induction xs as [|y xs IH]; intros b Hx Hl; [set_solver|]. cbn [foldl].
  apply elem_of_cons in Hx as [->|Hx]; [|apply IH; [done|by rewrite length_insert]].
  by apply zeros_keep, list_lookup_insert_eq.
Qed.
End zeros.

Lemma pair_other text x y i :
  pair_ok text x → pair_ok text y → (x.1 ≤ i < x.2)%nat → y.2 ≠ i.
Proof.
  intros (Hx1 & Hx2 & _) (_ & _ & Hy) Hi E0. rewrite E0 in Hy.
  assert (word text x !! (i - x.1)%nat = text !! i) as E.
  { unfold word. rewrite lookup_take_lt, lookup_drop by lia. f_equal. lia. }
  destruct (lookup_lt_is_Some_2 text i ltac:(lia)) as [c Hc]. rewrite Hc in E.
  pose proof (proj1 (Forall_lookup _ _) Hx2 _ _ E) as Hw. cbn in Hw.
  rewrite (drop_S _ c) in Hy by done. cbn in Hy. by rewrite Hy in Hw.
Qed.

Lemma meaning_nulterminate text rest c :
  Forall (λ c, c ≠ 0) text → Forall (pair_ok text) (pairs c) →
  meaning (nulterminate c (text ++ 0 :: rest)) c = sem (word text) c.
Proof.
  intros Ht Hok. unfold meaning. apply sem_cong. intros x Hx. rewrite nulterminate_pairs.
  rewrite list.Forall_forall in Hok. pose proof (Hok x Hx) as Hxok. destruct Hxok as (Hle & _ & _).
  set (buf' := foldl _ _ _).
  assert (take (x.2 - x.1) (drop x.1 buf') = word text x) as E.
  { apply list_eq. intros i. unfold word. destruct (decide (i < x.2 - x.1)%nat) as [Hi|Hi].
    - rewrite !lookup_take_lt, !lookup_drop by lia. unfold buf'. rewrite zeros_other.
      + by rewrite lookup_app_l by lia.
      + intros y Hy. apply (pair_other text x y); [auto..|lia].
    - by rewrite !lookup_take_ge by lia. }
  unfold str. rewrite <-E. apply cstr_take.
  - rewrite E. unfold word. by apply Forall_take, Forall_drop.
  - rewrite lookup_drop. replace (x.1 + (x.2 - x.1))%nat with x.2 by lia. apply zeros_hit; [done|].
    rewrite length_app. cbn. lia.
Qed.

(** ** The parser *)

Lemma U_bind_done {W A B} (m : U W A) (f : A → U W B) fuel w a w' :
  m fuel w = Done a w' → (m ≫= f) fuel w = f a fuel w'.
Proof. intros H. unfold mbind, U_bind. by rewrite H. Qed.

Lemma U_bind_exited {W A B} (m : U W A) (f : A → U W B) fuel w st w' :
  m fuel w = Exited st w' → (m ≫= f) fuel w = Exited st w'.
Proof. intros H. unfold mbind, U_bind. by rewrite H. Qed.

Lemma strlen_text text rest :
  Forall (λ c, c ≠ 0) text → Z.of_nat (length text) < 2 ^ 31 →
  Z.to_nat (strlen (text ++ 0 :: rest)) = length text.
Proof.
  intros Ht Hl. unfold strlen. assert (∀ n, strlen_loop (text ++ 0 :: rest) n = n + Z.of_nat (length text)) as ->.
  { clear Hl. induction Ht as [|c text Hc Ht IH]; intros n; cbn [app strlen_loop length].
    - cbn. lia.
    - rewrite (proj2 (Z.eqb_neq c 0)), IH by done. lia. }
  rewrite u32_small by (unfold is_u32; lia). lia.
Qed.

Lemma format_leftovers l : format (line "leftovers: %s") [VStr (Some l)] = Some (bytes "leftovers: " ++ cstr l ++ [10]).
Proof. done. Qed.

Section parsecmd.
Context (text rest : list Z).
Context (Htext : Forall (λ c, 0 < c < 256) text) (Hlen : Z.of_nat (length text) < 2 ^ 31).
Notation buf := (text ++ 0 :: rest).

Lemma text_nonzero : Forall (λ c, c ≠ 0) text.
Proof. eapply Forall_impl; [|exact Htext]. cbn. lia. Qed.

Lemma leftovers_complain ps fuel w : (ps ≤ length text)%nat → ∃ t,
  (fprintf 2 (line "leftovers: %s") [VStr (Some (drop ps buf))] ;; panic (A := cmd * list Z) "syntax")
    fuel w = Exited 1 (erred w t).
Proof.
  intros Hps. assert (∃ t, (panic (A := cmd * list Z) "syntax") fuel
    (erred w (bytes "leftovers: " ++ cstr (drop ps buf) ++ [10])) = Exited 1 (erred w t)) as [t Ht].
  { destruct (parses_panic (A := cmd * list Z) (B := unit) "syntax" (λ _ _, True) eq_refl
      (erred w (bytes "leftovers: " ++ cstr (drop ps buf) ++ [10]))) as [t Ht].
    eexists. rewrite Ht, erred_app. done. }
  exists t. unfold mbind at 1, U_bind.
  rewrite (runs_fprintf _ _ _ _ (format_leftovers _)); [done|].
  rewrite !Forall_app. split; [by repeat constructor|]. split; [|by repeat constructor].
  pose proof (Forall_drop _ ps _ text_nonzero) as Hd. rewrite list.Forall_forall in Hd.
  rewrite drop_app_le, cstr_app by (done || (intros H; by apply (Hd 0))).
  apply Forall_drop. eapply Forall_impl; [|exact Htext]. unfold is_u8. cbn. lia.
Qed.

(** What [parsecmd] does, by the parser of tokens. *)
Lemma parsecmd_sim fuel w :
  (4 * length (tokenize text) + 4 ≤ fuel)%nat →
  match pline fuel (tokenize text) with
  | Some (sc, []) => ∃ c buf', parsecmd buf fuel w = Done (c, buf') w ∧ meaning buf' c = sc
  | _ => ∃ t, parsecmd buf fuel w = Exited 1 (erred w t)
  end.
Proof.
  intros Hf. pose proof text_nonzero as Hnz. unfold parsecmd. rewrite strlen_text by done.
  destruct (parser_sim text rest Hnz fuel) as (Hsim & _).
  assert (at_toks text 0 (tokenize text)) as H0 by (split; [lia|done]).
  specialize (Hsim 0%nat _ H0 Hf).
  destruct (pline fuel (tokenize text)) as [[sc toks]|]; cbn [parses] in Hsim.
  - destruct Hsim as ([c ps] & Hret & (Hps & Hsem & Hok)). cbn [fst snd] in *.
    rewrite (U_bind_done (bounded _) _ _ _ _ _ (Hret fuel w)).
    unfold peek. cbv beta iota zeta. destruct Hps as [Hle Htoks].
    pose proof (skip_white_end text rest Hnz ps Hle) as Hend. rewrite Htoks in Hend.
    destruct (toks_white text rest Hnz ps Hle) as (_ & Hle' & _).
    destruct toks as [|t toks].
    + rewrite (proj2 Hend eq_refl), Nat.eqb_refl. cbn [negb].
      exists c, (nulterminate c buf). split; [done|]. by rewrite meaning_nulterminate.
    + rewrite (proj2 (Nat.eqb_neq _ _)) by (intros E%Hend; done). cbn [negb].
      by apply leftovers_complain.
  - destruct (Hsim w) as [t Ht].
    exists t. by rewrite (U_bind_exited (bounded _) _ _ _ _ _ (Ht fuel)).
Qed.

(** C25: The shell parses its grammar.  Take a line without NUL characters, split into tokens
    by the reference lexer, and enough turns of the loops, four for each token.
    If the tokens are a line of the grammar, then [parsecmd] returns, without
    output, the command that the grammar assigns to it, with the words as [runcmd]
    reads them in the buffer after [nulterminate]; if they are not, it exits with
    status 1 and has written to descriptor 2 only. *)
Theorem parsecmd_grammar w fuel :
  (4 * length (tokenize text) + 4 ≤ fuel)%nat →
  (∀ sc, Line sc (tokenize text) →
     ∃ c buf', parsecmd buf fuel w = Done (c, buf') w ∧ meaning buf' c = sc) ∧
  ((∀ sc, ¬ Line sc (tokenize text)) → ∃ t, parsecmd buf fuel w = Exited 1 (erred w t)).
Proof.
  intros Hf. pose proof (parsecmd_sim fuel w Hf) as H. split.
  - intros sc Hsc%(pline_grammar fuel); [|done]. by rewrite Hsc in H.
  - intros Hno. destruct (pline fuel (tokenize text)) as [[sc [|t toks]]|] eqn:E; [|done..].
    by apply (pline_grammar fuel), Hno in E.
Qed.
End parsecmd.

Lemma parsecmd_grammar_witness :
  (∃ c buf', parsecmd (bytes "ls >f|wc;(a &)" ++ 0 :: []) 100%nat (mkStream [] [] [] []) =
     Done (c, buf') (mkStream [] [] [] []) ∧
   meaning buf' c = SList (SPipe (SRedir (SExec [bytes "ls"]) (bytes "f") 1537 1) (SExec [bytes "wc"]))
     (SBack (SExec [bytes "a"]))) ∧
  ∃ t, parsecmd (bytes "ls | ( wc" ++ 0 :: []) 100%nat (mkStream [] [] [] []) =
     Exited 1 (erred (mkStream [] [] [] []) t).
Proof.
  assert (∀ s, forallb (λ c, (0 <? c) && (c <? 256)) s = true → Forall (λ c, 0 < c < 256) s) as Hs.
  { induction s as [|c s IH]; cbn [forallb]; [done|]. intros [Hc H]%andb_prop. constructor; [lia|auto]. }
  split.
  - destruct (parsecmd_grammar (bytes "ls >f|wc;(a &)") [] ltac:(by apply Hs) ltac:(done)
      (mkStream [] [] [] []) 100%nat ltac:(vm_compute; lia)) as [H _].
    apply H. apply (pline_grammar 100%nat); [vm_compute; lia|]. vm_compute. reflexivity.
  - destruct (parsecmd_grammar (bytes "ls | ( wc") [] ltac:(by apply Hs) ltac:(done)
      (mkStream [] [] [] []) 100%nat ltac:(vm_compute; lia)) as [_ H].
    apply H. intros sc Hsc%(pline_grammar 100%nat); [|vm_compute; lia]. vm_compute in Hsc. discriminate.
Defined.
