(* ===== verification/MkfsFacts.v ===== *)
(** * The image of the file system: files and their blocks

    What a file of the image is, in terms of its inode, its blocks and its indirect
    block, and that [iappend] appends to a file and leaves the others alone. *)

From S2P Require Import Prelude Bytes Memory Riscv Data State Spinlock Table Mlfq Bio Log Fs Mkfs.

Local Open Scope Z_scope.

(** ** Sectors *)

Lemma xint_small x : 0 ≤ x < 2 ^ 32 → xint x = x.
Proof. intros H. unfold xint. apply of_le_le. cbn. lia. Qed.
Lemma xshort_small x : 0 ≤ x < 2 ^ 16 → xshort x = x.
Proof. intros H. unfold xshort. apply of_le_le. cbn. lia. Qed.

Lemma sector_small b : 0 ≤ b < FSSIZE → sector b = b.
Proof.
  unfold FSSIZE, sector, BSIZE. intros H. rewrite u32_small by (unfold is_u32; lia). apply Z.div_mul. lia.
Qed.

Lemma nmeta_val : nmeta = 46.
Proof. done. Qed.

(** The state after writing a block. *)
Definition with_block (b : Z) (l : list Z) (st : mstate) : mstate :=
  mkMstate (<[b := l]> (m_img st)) (m_size st) (m_freeinode st) (m_freeblock st).

(** The state after allocating [n] blocks. *)
Definition with_freeblock (b : Z) (st : mstate) : mstate :=
  mkMstate (m_img st) (m_size st) (m_freeinode st) b.

(** The image has all its blocks, and those that are not allocated are zeroed. *)
Record image_ok (st : mstate) : Prop := {
  io_size : m_size st = FSSIZE;
  io_blocks b : 0 ≤ b < FSSIZE → length (m_img st b) = Z.to_nat BSIZE;
  io_free : nmeta ≤ m_freeblock st ≤ FSSIZE;
  io_zero b : m_freeblock st ≤ b < FSSIZE → m_img st b = replicate (Z.to_nat BSIZE) 0;
}.

Lemma wsect_ok st b l :
  image_ok st → 0 ≤ b < FSSIZE → wsect b l st = MOk tt (with_block b l st).
Proof.
  intros Hst Hb. unfold wsect, with_block. rewrite sector_small by done. do 2 f_equal.
  rewrite (io_size _ Hst). lia.
Qed.

Lemma rsect_ok st b : image_ok st → 0 ≤ b < FSSIZE → rsect b st = MOk (m_img st b) st.
Proof.
  intros Hst Hb. unfold rsect. rewrite sector_small, (io_size _ Hst) by done.
  by rewrite (proj2 (Z.ltb_lt b FSSIZE)) by lia.
Qed.

Lemma image_ok_write st b l :
  image_ok st → 0 ≤ b < m_freeblock st → length l = Z.to_nat BSIZE → image_ok (with_block b l st).
Proof.
  intros [H1 H2 H3 H4] Hb Hl. split; cbn [with_block m_size m_img m_freeblock]; [done| |done|].
  - intros b' Hb'. destruct (decide (b = b')) as [->|Hne]; [by rewrite fn_lookup_insert|].
    rewrite fn_lookup_insert_ne by done. by apply H2.
  - intros b' Hb'. rewrite fn_lookup_insert_ne by lia. by apply H4.
Qed.

Lemma image_ok_alloc st n :
  image_ok st → 0 ≤ n → m_freeblock st + n ≤ FSSIZE → image_ok (with_freeblock (m_freeblock st + n) st).
Proof.
  intros [H1 H2 H3 H4] Hn Hf. split; cbn [with_freeblock m_size m_img m_freeblock]; [done..|lia|].
  intros b Hb. apply H4. lia.
Qed.

Lemma next_block_ok st :
  image_ok st → next_block st = MOk (m_freeblock st) (with_freeblock (m_freeblock st + 1) st).
Proof.
  intros Hst. unfold next_block, with_freeblock. do 2 f_equal. apply u32_small.
  pose proof (io_free _ Hst) as H. rewrite nmeta_val in H. unfold is_u32, FSSIZE in *. lia.
Qed.

(** ** Files *)

(** A file of the image: its contents, its blocks in order, and the indirect block, or 0. *)
Record mfile := mkMfile { f_data : list Z; f_blocks : list Z; f_ind : Z }.

Definition nth_block (f : mfile) (i : Z) : Z := default 0 (f_blocks f !! Z.to_nat i).

(** The blocks that the file takes. *)
Definition owned (f : mfile) : list Z := f_blocks f ++ (if f_ind f =? 0 then [] else [f_ind f]).

(** The number of blocks that a file with [n] blocks of data takes. *)
Definition with_indirect (n : nat) : nat := if (12 <? n)%nat then S n else n.

(** The inode [din] and the image hold the file. *)
Record holds (img : Z → list Z) (din : list Z) (f : mfile) : Prop := {
  h_len : length din = Z.to_nat sizeof_dinode;
  h_direct i : 0 ≤ i < NDIRECT → get32 din (din_addr i) = nth_block f i;
  h_ind : get32 din (din_addr NDIRECT) = f_ind f;
  h_indirect i : f_ind f ≠ 0 → NDIRECT ≤ i < MAXFILE →
    get32 (img (f_ind f)) (4 * (i - NDIRECT)) = nth_block f i;
  h_fits : (length (f_data f) ≤ 1024 * length (f_blocks f))%nat;
  h_max : (length (f_blocks f) ≤ 268)%nat;
  h_data k c : f_data f !! k = Some c →
    ∃ b, f_blocks f !! (k / 1024)%nat = Some b ∧ img b !! (k mod 1024)%nat = Some c;
  h_nodup : NoDup (owned f);
}.

(** The file has an indirect block exactly when it needs one. *)
Definition tidy (f : mfile) : Prop := f_ind f = 0 ↔ (length (f_blocks f) ≤ 12)%nat.

(** The blocks of the file are allocated. *)
Definition inside (st : mstate) (f : mfile) : Prop :=
  Forall (λ b, nmeta ≤ b < m_freeblock st) (owned f).

Lemma owned_length f : tidy f → length (owned f) = with_indirect (length (f_blocks f)).
Proof.
  intros Hiff. unfold tidy in Hiff. unfold owned, with_indirect. rewrite length_app.
  destruct (Z.eqb_spec (f_ind f) 0) as [E|E].
  - rewrite (proj2 (Nat.ltb_ge _ _)) by tauto. cbn. lia.
  - rewrite (proj2 (Nat.ltb_lt _ _)) by lia. cbn. lia.
Qed.

Lemma ind_owned f : f_ind f ≠ 0 → f_ind f ∈ owned f.
Proof. intros H. unfold owned. rewrite (proj2 (Z.eqb_neq _ _)) by done. apply elem_of_app. right. by left. Qed.

Lemma block_owned f i b : f_blocks f !! i = Some b → b ∈ owned f.
Proof. intros H. unfold owned. apply elem_of_app. left. by eapply list_elem_of_lookup_2. Qed.

(** The file does not depend on blocks it does not own. *)
Lemma holds_frame img img' din f :
  holds img din f → (∀ b, b ∈ owned f → img' b = img b) → holds img' din f.
Proof.
  intros [H1 H2 H3 H5 H6 H7 H8 H9] Hfr. split; try done.
  - intros i Hi Hi'. rewrite Hfr; [by apply H5|by apply ind_owned].
  - intros k c Hk. destruct (H8 k c Hk) as (b & Hb & Hc). exists b. split; [done|]. rewrite Hfr; [done|by eapply block_owned].
Qed.

(** ** Allocating a block of a file *)

Lemma inside_range st f b : image_ok st → inside st f → b ∈ owned f → 46 ≤ b < 2000 ∧ b < m_freeblock st.
Proof.
  intros Hst Hin Hb. unfold inside in Hin. rewrite list.Forall_forall in Hin. apply Hin in Hb.
  rewrite nmeta_val in Hb. pose proof (io_free _ Hst). unfold FSSIZE in *. lia.
Qed.

Lemma fresh_block st f b : inside st f → m_freeblock st ≤ b → b ∉ owned f.
Proof.
  intros Hin Hb Hx. unfold inside in Hin. rewrite list.Forall_forall in Hin. apply Hin in Hx. lia.
Qed.

(** The file with one more block. *)
Definition grown (f : mfile) (x ind : Z) : mfile := mkMfile (f_data f) (f_blocks f ++ [x]) ind.

Lemma nth_block_grown f x ind i :
  0 ≤ i → nth_block (grown f x ind) i =
    if decide (Z.to_nat i = length (f_blocks f)) then x else nth_block f i.
Proof.
  intros Hi. unfold nth_block, grown. cbn [f_blocks]. case_decide as E.
  - rewrite E, lookup_app_r, Nat.sub_diag by lia. done.
  - destruct (decide (Z.to_nat i < length (f_blocks f))%nat) as [Hlt|Hge].
    + by rewrite lookup_app_l.
    + rewrite lookup_app_r by lia. rewrite !(lookup_ge_None_2 (f_blocks f)) by lia.
      by destruct (Z.to_nat i - length (f_blocks f))%nat eqn:E'; [lia|].
Qed.

Lemma nth_block_past f i : (length (f_blocks f) ≤ Z.to_nat i)%nat → nth_block f i = 0.
Proof. intros H. unfold nth_block. by rewrite lookup_ge_None_2. Qed.

(** The part of the inode before the addresses. *)
Definition fields (din : list Z) : list Z := slice din 0 12.

(** What the allocation of block [fbn] of the file leads to. *)
Record got_block (st : mstate) (din : list Z) (f : mfile) (fbn x : Z) (din' : list Z)
    (st' : mstate) (f' : mfile) : Prop := {
  gb_image : image_ok st';
  gb_holds : holds (m_img st') din' f';
  gb_tidy : tidy f';
  gb_inside : inside st' f';
  gb_block : f_blocks f' !! Z.to_nat fbn = Some x;
  gb_count : length (f_blocks f') = Nat.max (length (f_blocks f)) (S (Z.to_nat fbn));
  gb_data : f_data f' = f_data f;
  gb_fields : fields din' = fields din;
  gb_inode : m_freeinode st' = m_freeinode st;
  gb_free : m_freeblock st' - Z.of_nat (length (owned f')) = m_freeblock st - Z.of_nat (length (owned f));
  gb_new b : b ∈ owned f' → b ∈ owned f ∨ m_freeblock st ≤ b;
  gb_frame b : b < m_freeblock st → b ∉ owned f → m_img st' b = m_img st b;
}.

(** A block that the file has. *)
Lemma file_block_old st din f fbn :
  image_ok st → holds (m_img st) din f → tidy f → inside st f → 0 ≤ fbn → (Z.to_nat fbn < length (f_blocks f))%nat →
  ∃ x, file_block din fbn st = MOk (x, din) st ∧ got_block st din f fbn x din st f.
Proof.
  intros Hst Hf Htidy Hin H0 Hlt. destruct (lookup_lt_is_Some_2 _ _ Hlt) as [x Hx].
  assert (nth_block f fbn = x) as Ex by (unfold nth_block; by rewrite Hx).
  pose proof (λ b, inside_range st f b Hst Hin) as Hown.
  pose proof (Hown x (block_owned _ _ _ Hx)) as Hxr. exists x. split.
  2: { split; try done; [lia|auto]. }
  pose proof (h_max _ _ _ Hf) as Hmax. unfold file_block. destruct (Z.ltb_spec fbn NDIRECT) as [Hd|Hd].
  - rewrite (h_direct _ _ _ Hf) by lia. rewrite Ex, xint_small, (proj2 (Z.eqb_neq x 0)) by lia.
    unfold mbind, M_bind, mret, M_ret. rewrite (h_direct _ _ _ Hf) by lia. by rewrite Ex, xint_small by lia.
  - assert (f_ind f ≠ 0) as Hi. { unfold tidy in Htidy. rewrite Htidy. unfold NDIRECT in Hd. lia. }
    pose proof (Hown _ (ind_owned f Hi)) as Hio. rewrite (h_ind _ _ _ Hf), xint_small, (proj2 (Z.eqb_neq _ 0)) by lia.
    unfold mbind, M_bind, mret, M_ret. rewrite (h_ind _ _ _ Hf), xint_small by lia.
    rewrite rsect_ok by (done || unfold FSSIZE; lia).
    rewrite (h_indirect _ _ _ Hf) by (done || unfold MAXFILE, NINDIRECT, NDIRECT in *; lia).
    rewrite Ex, (proj2 (Z.eqb_neq x 0)) by lia.
    rewrite (h_indirect _ _ _ Hf) by (done || unfold MAXFILE, NINDIRECT, NDIRECT in *; lia).
    by rewrite Ex, xint_small by lia.
Qed.

Lemma NoDup_snoc (l : list Z) x : NoDup l → x ∉ l → NoDup (l ++ [x]).
Proof.
  intros Hl Hx. apply list.NoDup_app. split; [done|]. split; [|apply NoDup_singleton].
  intros y Hy ->%list_elem_of_singleton. done.
Qed.

(** An address of the inode is assigned. *)
Lemma put_addr din i v :
  length din = Z.to_nat sizeof_dinode → 0 ≤ i ≤ NDIRECT → 0 ≤ v < 2 ^ 32 →
  length (put32 din (din_addr i) v) = Z.to_nat sizeof_dinode ∧
  fields (put32 din (din_addr i) v) = fields din ∧
  ∀ j, 0 ≤ j ≤ NDIRECT →
    get32 (put32 din (din_addr i) v) (din_addr j) = if decide (i = j) then v else get32 din (din_addr j).
Proof.
  unfold NDIRECT. change (Z.to_nat sizeof_dinode) with 64%nat. intros Hl Hi Hv.
  assert (Z.to_nat (din_addr i) + 4 ≤ 64)%nat as Hle by (unfold din_addr; lia). split_and!.
  - unfold put32. rewrite put_length; lia.
  - unfold fields, put32, put_le. rewrite slice_splice_ne; rewrite ?le_length; [done|lia|unfold din_addr; lia].
  - intros j Hj. case_decide as E.
    + subst j. unfold get32, put32. rewrite get_put_eq; [done|lia|cbn; lia].
    + unfold get32, put32. rewrite get_put_ne; [done|lia|unfold din_addr; lia].
Qed.

(** The data of a file is in the blocks that it had before. *)
Lemma data_grown (img img' : Z → list Z) f x ind :
  (∀ k c, f_data f !! k = Some c →
     ∃ b, f_blocks f !! (k / 1024)%nat = Some b ∧ img b !! (k mod 1024)%nat = Some c) →
  (∀ b, b ∈ f_blocks f → img' b = img b) →
  ∀ k c, f_data (grown f x ind) !! k = Some c →
     ∃ b, f_blocks (grown f x ind) !! (k / 1024)%nat = Some b ∧ img' b !! (k mod 1024)%nat = Some c.
Proof.
  intros H Hi k c Hk. destruct (H k c Hk) as (b & Hb & Hc). exists b. cbn [grown f_blocks].
  split; [by apply lookup_app_l_Some|]. rewrite Hi; [done|]. by eapply list_elem_of_lookup_2.
Qed.

(** A new direct block. *)
Lemma file_block_direct st din f :
  image_ok st → holds (m_img st) din f → tidy f → inside st f →
  (length (f_blocks f) < 12)%nat → m_freeblock st + 1 ≤ FSSIZE →
  let fbn := Z.of_nat (length (f_blocks f)) in
  ∃ x din' st' f', file_block din fbn st = MOk (x, din') st' ∧ got_block st din f fbn x din' st' f'.
Proof.
  intros Hst Hf Htidy Hin Hlt Hfree fbn. set (x := m_freeblock st).
  assert (46 ≤ x < 2000) as Hx. { pose proof (io_free _ Hst) as H. rewrite nmeta_val in H. unfold FSSIZE in *. subst x. lia. }
  assert (f_ind f = 0) as Hi0. { unfold tidy in Htidy. rewrite Htidy. lia. }
  destruct (put_addr din fbn x) as (Hl' & Hf' & Hget); [by apply Hf|unfold NDIRECT; lia|lia|].
  exists x, (put32 din (din_addr fbn) x), (with_freeblock (x + 1) st), (grown f x 0). split.
  - unfold file_block. rewrite (proj2 (Z.ltb_lt fbn NDIRECT)) by (unfold NDIRECT; lia).
    rewrite (h_direct _ _ _ Hf) by (unfold NDIRECT; lia). rewrite nth_block_past by lia.
    unfold mbind, M_bind, mret, M_ret. rewrite xint_small, Z.eqb_refl by lia. rewrite next_block_ok by done.
    fold x. rewrite (xint_small x) by lia. rewrite Hget by (unfold NDIRECT; lia).
    rewrite decide_True by done. by rewrite (xint_small x) by lia.
  - assert (owned (grown f x 0) = owned f ++ [x]) as Eo.
    { unfold owned. rewrite Hi0. cbn. by rewrite !app_nil_r. }
    split; cbn [with_freeblock m_img m_freeblock m_freeinode m_size]; try done.
    + apply image_ok_alloc; [done|lia|done].
    + split; try done.
      * intros i Hi. rewrite Hget, nth_block_grown by lia. repeat case_decide; try lia.
        by apply Hf.
      * rewrite Hget by (unfold NDIRECT; lia). rewrite decide_False by (unfold NDIRECT; lia).
        rewrite (h_ind _ _ _ Hf). done.
      * cbn. rewrite length_app. pose proof (h_fits _ _ _ Hf). cbn. lia.
      * cbn. rewrite length_app. cbn. lia.
      * eapply data_grown; [apply Hf|done].
      * rewrite Eo. apply NoDup_snoc; [apply Hf|]. by apply (fresh_block st).
    + unfold tidy. cbn [grown f_ind f_blocks]. rewrite length_app. cbn. lia.
    + unfold inside. rewrite Eo. apply Forall_app. split.
      * eapply Forall_impl; [|exact Hin]. cbn. lia.
      * repeat constructor; cbn; rewrite ?nmeta_val; lia.
    + cbn. rewrite lookup_app_r by lia. replace (_ - _)%nat with 0%nat by lia. done.
    + cbn. rewrite length_app. cbn. lia.
    + rewrite Eo, length_app. cbn. lia.
    + rewrite Eo. intros b [Hb| ->%list_elem_of_singleton]%elem_of_app; [by left|right; lia].
Qed.

(** *** Indirect blocks *)

Lemma of_le_zeros l : Forall (λ c, c = 0) l → of_le l = 0.
Proof. induction 1 as [|c l -> Hl IH]; cbn [of_le]; lia. Qed.

Lemma get32_zeros n off : get32 (replicate n 0) off = 0.
Proof.
  unfold get32, get_le. apply of_le_zeros. unfold slice. apply Forall_take, Forall_drop.
  by apply Forall_replicate.
Qed.

Lemma put_entry l i v :
  length l = Z.to_nat BSIZE → NDIRECT ≤ i < MAXFILE → 0 ≤ v < 2 ^ 32 →
  length (put32 l (4 * (i - NDIRECT)) v) = Z.to_nat BSIZE ∧
  ∀ j, NDIRECT ≤ j < MAXFILE →
    get32 (put32 l (4 * (i - NDIRECT)) v) (4 * (j - NDIRECT)) =
      if decide (i = j) then v else get32 l (4 * (j - NDIRECT)).
Proof.
  unfold MAXFILE, NINDIRECT, NDIRECT. change (Z.to_nat BSIZE) with 1024%nat. intros Hl Hi Hv. split.
  - unfold put32. rewrite put_length; lia.
  - intros j Hj. unfold get32, put32. case_decide as E.
    + subst j. rewrite get_put_eq; [done|lia|cbn; lia].
    + rewrite get_put_ne; [done|lia|lia].
Qed.

(** The entry [fbn] of the indirect block, which is allocated if need be. *)
Definition indirect_block (din : list Z) (fbn : Z) : M (Z * list Z) :=
  let ind := xint (get32 din (din_addr NDIRECT)) in
  indirect ← rsect ind;
  let off := 4 * (fbn - NDIRECT) in
  indirect ← (if get32 indirect off =? 0
              then b ← next_block;
                let indirect := put32 indirect off (xint b) in
                wsect ind indirect ;; mret indirect
              else mret indirect);
  mret (xint (get32 indirect off), din).

Lemma indirect_entry st din f :
  image_ok st → holds (m_img st) din f → inside st f → f_ind f ≠ 0 →
  (12 ≤ length (f_blocks f) < 268)%nat → m_freeblock st + 1 ≤ FSSIZE →
  let fbn := Z.of_nat (length (f_blocks f)) in
  ∃ x st' f', indirect_block din fbn st = MOk (x, din) st' ∧ got_block st din f fbn x din st' f'.
Proof.
  intros Hst Hf Hin Hi0 Hlen Hfree fbn. set (x := m_freeblock st). set (ind := f_ind f) in *.
  pose proof (inside_range st f ind Hst Hin (ind_owned f Hi0)) as Hir.
  assert (46 ≤ x < 2000) as Hx. { unfold FSSIZE in *. subst x. lia. }
  assert (NDIRECT ≤ fbn < MAXFILE) as Hfbn by (unfold MAXFILE, NINDIRECT, NDIRECT; lia).
  set (blk := put32 (m_img st ind) (4 * (fbn - NDIRECT)) x).
  destruct (put_entry (m_img st ind) fbn x) as (Hl' & Hget);
    [apply (io_blocks _ Hst); unfold FSSIZE; lia|done|lia|]. fold blk in Hl', Hget.
  exists x, (with_block ind blk (with_freeblock (x + 1) st)), (grown f x ind).
  assert (image_ok (with_freeblock (x + 1) st)) as Hst1 by (apply image_ok_alloc; [done|lia|done]).
  split.
  - unfold indirect_block. rewrite (h_ind _ _ _ Hf). fold ind. unfold mbind, M_bind, mret, M_ret.
    rewrite (xint_small ind), rsect_ok by (done || unfold FSSIZE; lia).
    rewrite (h_indirect _ _ _ Hf), nth_block_past by (done || lia). rewrite Z.eqb_refl, next_block_ok by done.
    fold x. rewrite (xint_small x) by lia. fold blk. rewrite wsect_ok by (done || unfold FSSIZE; lia).
    rewrite Hget, decide_True, xint_small by (done || lia). done.
  - assert (Permutation (owned (grown f x ind)) (owned f ++ [x])) as Eo.
    { unfold owned. cbn [grown f_blocks f_ind]. fold ind. rewrite (proj2 (Z.eqb_neq ind 0)) by done.
      rewrite <-!app_assoc. apply Permutation_app_head. constructor. }
    assert (NoDup (owned f ++ [x])) as Hnd.
    { apply NoDup_snoc; [apply Hf|]. by apply (fresh_block st). }
    assert (∀ b, b ∈ f_blocks f → b ≠ ind) as Hneq.
    { intros b Hb ->. pose proof (h_nodup _ _ _ Hf) as H. unfold owned in H. fold ind in H.
      rewrite (proj2 (Z.eqb_neq ind 0)) in H by done. apply list.NoDup_app in H as (_ & H & _).
      eapply H; [done|by left]. }
    split; cbn [with_block with_freeblock m_img m_freeblock m_freeinode m_size]; try done.
    + apply image_ok_write; [done|cbn; lia|done].
    + split; try done.
      * apply Hf.
      * intros i Hi. rewrite nth_block_grown by lia. rewrite decide_False by (unfold NDIRECT in Hi; lia). by apply Hf.
      * apply Hf.
      * intros i _ Hi. cbn [grown f_ind]. rewrite fn_lookup_insert, Hget, nth_block_grown by (done || unfold NDIRECT in Hi; lia).
        repeat case_decide; try (unfold NDIRECT in Hi; lia). by apply Hf.
      * cbn. rewrite length_app. pose proof (h_fits _ _ _ Hf). cbn. lia.
      * cbn. rewrite length_app. cbn. lia.
      * eapply data_grown; [apply Hf|]. intros b Hb. apply fn_lookup_insert_ne. apply not_eq_sym. auto.
      * by rewrite Eo.
    + unfold tidy. cbn [grown f_ind f_blocks]. rewrite length_app. cbn. lia.
    + unfold inside. rewrite Eo. apply Forall_app. split.
      * eapply Forall_impl; [|exact Hin]. cbn. lia.
      * repeat constructor; cbn; rewrite ?nmeta_val; lia.
    + cbn. rewrite lookup_app_r by lia. replace (_ - _)%nat with 0%nat by lia. done.
    + cbn. rewrite length_app. cbn. lia.
    + rewrite Eo, length_app. cbn. lia.
    + intros b. rewrite Eo. intros [Hb| ->%list_elem_of_singleton]%elem_of_app; [by left|right; lia].
    + intros b Hb Hno. rewrite fn_lookup_insert_ne; [done|]. intros <-. by apply Hno, ind_owned.
Qed.

(** The indirect block, before its first entry. *)
Definition with_ind (f : mfile) (ind : Z) : mfile := mkMfile (f_data f) (f_blocks f) ind.

Lemma indirect_alloc st din f :
  image_ok st → holds (m_img st) din f → inside st f → f_ind f = 0 →
  length (f_blocks f) = 12%nat → m_freeblock st + 1 ≤ FSSIZE →
  let ind := m_freeblock st in
  let din' := put32 din (din_addr NDIRECT) ind in
  let st' := with_freeblock (ind + 1) st in
  image_ok st' ∧ holds (m_img st') din' (with_ind f ind) ∧ inside st' (with_ind f ind) ∧
  fields din' = fields din ∧ owned (with_ind f ind) = owned f ++ [ind].
Proof.
  intros Hst Hf Hin Hi0 Hlen Hfree ind din' st'.
  assert (46 ≤ ind < 2000) as Hx. { pose proof (io_free _ Hst) as H. rewrite nmeta_val in H. unfold FSSIZE in *. subst ind. lia. }
  destruct (put_addr din NDIRECT ind) as (Hl' & Hf' & Hget); [by apply Hf|unfold NDIRECT; lia|lia|].
  assert (owned (with_ind f ind) = owned f ++ [ind]) as Eo.
  { unfold owned. cbn [with_ind f_blocks f_ind]. rewrite Hi0, (proj2 (Z.eqb_neq ind 0)) by lia. cbn. by rewrite app_nil_r. }
  split_and!; [apply image_ok_alloc; [done|lia|done]| | |done|done].
  - split; cbn [with_ind f_data f_blocks f_ind]; [done| | | |apply Hf|apply Hf|apply Hf|].
    + intros i Hi. rewrite Hget, decide_False by lia. by apply Hf.
    + rewrite Hget by (unfold NDIRECT; lia). by rewrite decide_True.
    + intros i _ Hi. cbn [st' with_freeblock m_img]. rewrite (io_zero _ Hst) by (unfold FSSIZE; subst ind; lia).
      rewrite get32_zeros, nth_block_past by (cbn; unfold NDIRECT in Hi; lia). done.
    + rewrite Eo. apply NoDup_snoc; [apply Hf|]. by apply (fresh_block st).
  - unfold inside. rewrite Eo. apply Forall_app. split.
    + eapply Forall_impl; [|exact Hin]. cbn. lia.
    + repeat constructor; cbn; rewrite ?nmeta_val; lia.
Qed.

Lemma file_block_indirect st din f :
  image_ok st → holds (m_img st) din f → tidy f → inside st f →
  length (f_blocks f) = 12%nat → m_freeblock st + 2 ≤ FSSIZE →
  ∃ x din' st' f', file_block din 12 st = MOk (x, din') st' ∧ got_block st din f 12 x din' st' f'.
Proof.
  intros Hst Hf Htidy Hin Hlen Hfree. assert (f_ind f = 0) as Hi0. { unfold tidy in Htidy. rewrite Htidy. lia. }
  destruct (indirect_alloc st din f) as (Hst1 & Hf1 & Hin1 & Hfields & Eo); [done..|lia|].
  set (ind := m_freeblock st) in *. set (din1 := put32 din (din_addr NDIRECT) ind) in *.
  set (st1 := with_freeblock (ind + 1) st) in *.
  assert (46 ≤ ind < 2000) as Hx. { pose proof (io_free _ Hst) as H. rewrite nmeta_val in H. unfold FSSIZE in *. subst ind. lia. }
  destruct (indirect_entry st1 din1 (with_ind f ind)) as (x & st' & f' & Hrun & [G1 G2 G3 G4 G5 G6 G7 G8 G9 G10 G11 G12]);
    [done..|cbn; lia|cbn [with_ind f_blocks]; lia|cbn; lia|].
  cbn [with_ind f_blocks f_data] in *. rewrite Hlen in *. exists x, din1, st', f'. split.
  - unfold file_block. change (12 <? NDIRECT) with false. cbv iota.
    rewrite (h_ind _ _ _ Hf), Hi0. change (xint 0 =? 0) with true. cbv iota.
    unfold mbind at 1, M_bind at 1. unfold mbind at 1, M_bind at 1. rewrite next_block_ok by done. fold ind.
    rewrite (xint_small ind) by lia. unfold mret at 1, M_ret at 1. exact Hrun.
  - split; try done; try congruence.
    + lia.
    + rewrite Eo, length_app in G10. cbn in G10. lia.
    + intros b Hb. destruct (G11 b Hb) as [Hb1|Hb1]; [|right; cbn in Hb1; lia].
      rewrite Eo in Hb1. apply elem_of_app in Hb1 as [Hb1| ->%list_elem_of_singleton]; [by left|right; lia].
    + intros b Hb Hno. rewrite G12; [done|cbn; lia|]. rewrite Eo.
      intros [Hb1| ->%list_elem_of_singleton]%elem_of_app; [done|lia].
Qed.

(** The block of the file at [fbn], which may be the first that it does not have. *)
Lemma file_block_ok st din f fbn :
  image_ok st → holds (m_img st) din f → tidy f → inside st f →
  0 ≤ fbn < MAXFILE → (Z.to_nat fbn ≤ length (f_blocks f))%nat →
  m_freeblock st - Z.of_nat (length (owned f)) + Z.of_nat (with_indirect (S (Z.to_nat fbn))) ≤ FSSIZE →
  ∃ x din' st' f', file_block din fbn st = MOk (x, din') st' ∧ got_block st din f fbn x din' st' f'.
Proof.
  intros Hst Hf Htidy Hin Hfbn Hle Hfree. unfold MAXFILE, NINDIRECT, NDIRECT in Hfbn.
  destruct (decide (Z.to_nat fbn < length (f_blocks f))%nat) as [Hlt|Hge].
  - destruct (file_block_old st din f fbn) as (x & H1 & H2); [done..|lia|lia|]. by exists x, din, st, f.
  - assert (fbn = Z.of_nat (length (f_blocks f))) as E by lia. rewrite owned_length in Hfree by done.
    unfold with_indirect in Hfree.
    destruct (lt_eq_lt_dec (length (f_blocks f)) 12) as [[H12|H12]|H12].
    + rewrite E. apply file_block_direct; try done.
      rewrite (proj2 (Nat.ltb_ge _ _)), (proj2 (Nat.ltb_ge _ _)) in Hfree by lia. lia.
    + rewrite E, H12. apply file_block_indirect; try done.
      rewrite (proj2 (Nat.ltb_lt _ (S _))), (proj2 (Nat.ltb_ge _ _)) in Hfree by lia. lia.
    + assert (f_ind f ≠ 0) as Hi. { unfold tidy in Htidy. rewrite Htidy. lia. }
      destruct (indirect_entry st din f) as (x & st' & f' & H1 & H2); [done..|lia| |].
      { rewrite (proj2 (Nat.ltb_lt _ (S _))), (proj2 (Nat.ltb_lt _ _)) in Hfree by lia. lia. }
      exists x, din, st', f'. rewrite E. split; [|done]. rewrite <-H1. unfold file_block.
      rewrite (proj2 (Z.ltb_ge _ _)) by (unfold NDIRECT; lia). rewrite (h_ind _ _ _ Hf).
      pose proof (inside_range st f _ Hst Hin (ind_owned f Hi)).
      rewrite xint_small, (proj2 (Z.eqb_neq _ 0)) by lia. done.
Qed.

(** ** Writing to a block of a file *)

Lemma splice_lookup l off x i :
  0 ≤ off → (Z.to_nat off + length x ≤ length l)%nat →
  splice l off x !! i =
    if decide (Z.to_nat off ≤ i < Z.to_nat off + length x)%nat then x !! (i - Z.to_nat off)%nat else l !! i.
Proof.
  intros H0 Hl. unfold splice. case_decide as Hi.
  - rewrite lookup_app_r by (rewrite length_take; lia). rewrite length_take, Nat.min_l by lia.
    by rewrite lookup_app_l by lia.
  - destruct (decide (i < Z.to_nat off)%nat) as [Hlt|Hge].
    + rewrite lookup_app_l by (rewrite length_take; lia). by rewrite lookup_take_lt.
    + rewrite lookup_app_r by (rewrite length_take; lia). rewrite length_take, Nat.min_l by lia.
      rewrite lookup_app_r by lia. rewrite lookup_drop. f_equal. lia.
Qed.

Definition appended (f : mfile) (chunk : list Z) : mfile := mkMfile (f_data f ++ chunk) (f_blocks f) (f_ind f).

Lemma write_data st din f x chunk :
  image_ok st → holds (m_img st) din f → inside st f →
  f_blocks f !! (length (f_data f) / 1024)%nat = Some x →
  (length (f_data f) mod 1024 + length chunk ≤ 1024)%nat →
  let st' := with_block x (splice (m_img st x) (Z.of_nat (length (f_data f) mod 1024)) chunk) st in
  image_ok st' ∧ holds (m_img st') din (appended f chunk).
Proof.
  intros Hst Hf Hin Hx Hroom st'. set (len := length (f_data f)) in *.
  pose proof (inside_range st f x Hst Hin (block_owned _ _ _ Hx)) as Hxr.
  pose proof (io_blocks _ Hst x ltac:(unfold FSSIZE; lia)) as Hxl. change (Z.to_nat BSIZE) with 1024%nat in Hxl.
  pose proof (Nat.div_mod_eq len 1024) as Hdm.
  set (blk := splice _ _ _) in st'.
  assert (∀ i, blk !! i = if decide (len mod 1024 ≤ i < len mod 1024 + length chunk)%nat
    then chunk !! (i - len mod 1024)%nat else m_img st x !! i) as Hblk.
  { intros i. unfold blk. rewrite splice_lookup by lia. by rewrite Nat2Z.id. }
  pose proof (lookup_lt_Some _ _ _ Hx) as Hlt.
  split; [apply image_ok_write; [done|lia|]; unfold blk; rewrite splice_length, Hxl; [done|lia]|].
  pose proof (h_nodup _ _ _ Hf) as Hnd.
  split; cbn [appended f_data f_blocks f_ind]; try apply Hf.
  - intros i Hi Hr. cbn [st' with_block m_img]. rewrite fn_lookup_insert_ne; [by apply Hf|]. intros ->.
    unfold owned in Hnd. rewrite (proj2 (Z.eqb_neq _ _)) in Hnd by done.
    apply list.NoDup_app in Hnd as (_ & H & _). eapply H; [by eapply list_elem_of_lookup_2|by left].
  - rewrite length_app. fold len. lia.
  - apply list.NoDup_app in Hnd as (Hnd & _ & _). intros k c Hk. cbn [st' with_block m_img].
    destruct (decide (k < len)%nat) as [Hkl|Hkl].
    + rewrite lookup_app_l in Hk by done. destruct (h_data _ _ _ Hf k c Hk) as (b & Hb & Hc).
      exists b. split; [done|]. destruct (decide (b = x)) as [->|Hne]; [|by rewrite fn_lookup_insert_ne].
      rewrite fn_lookup_insert, Hblk. rewrite decide_False; [done|].
      pose proof (NoDup_lookup _ _ _ _ Hnd Hb Hx) as E. pose proof (Nat.div_mod_eq k 1024). lia.
    + rewrite lookup_app_r in Hk by (fold len; lia). pose proof (lookup_lt_Some _ _ _ Hk) as Hkc.
      assert (k / 1024 = len / 1024 ∧ k mod 1024 = len mod 1024 + (k - len))%nat as [E1 E2].
      { pose proof (Nat.div_mod_eq k 1024). pose proof (Nat.mod_upper_bound k 1024).
        fold len in Hkc. assert (k / 1024 = len / 1024)%nat; [|lia]. symmetry. apply (Nat.div_unique _ _ _ (len mod 1024 + (k - len))); lia. }
      exists x. rewrite E1, E2. split; [done|]. rewrite fn_lookup_insert, Hblk, decide_True by (fold len in Hkc; lia).
      rewrite <-Hk. f_equal. fold len. lia.
Qed.
