(* ===== verification/MkfsFiles.v ===== *)
(** * The image of the file system: [iappend] and the inodes *)

From S2P Require Import Prelude Bytes Memory Riscv Data State Spinlock Table Mlfq Bio Log Fs Mkfs MkfsFacts.

Local Open Scope Z_scope.

(** ** Appending *)

(** The file takes no more blocks than its data needs. *)
Definition tight (f : mfile) : Prop := (1024 * length (f_blocks f) < length (f_data f) + 1024)%nat.

Definition blocks_for (n : nat) : nat := ((n + 1023) / 1024)%nat.

(** A file that grew, with what was not touched. *)
Record grew (st : mstate) (din : list Z) (f : mfile) (din' : list Z) (st' : mstate) (f' : mfile) : Prop := {
  gr_image : image_ok st';
  gr_holds : holds (m_img st') din' f';
  gr_tidy : tidy f';
  gr_inside : inside st' f';
  gr_fields : fields din' = fields din;
  gr_inode : m_freeinode st' = m_freeinode st;
  gr_le : m_freeblock st ≤ m_freeblock st';
  gr_free : m_freeblock st' - Z.of_nat (length (owned f')) = m_freeblock st - Z.of_nat (length (owned f));
  gr_new b : b ∈ owned f' → b ∈ owned f ∨ m_freeblock st ≤ b;
  gr_frame b : b < m_freeblock st → b ∉ owned f → m_img st' b = m_img st b;
}.

Lemma grew_refl st din f :
  image_ok st → holds (m_img st) din f → tidy f → inside st f → grew st din f din st f.
Proof. intros. split; try done; auto. Qed.

Lemma grew_trans st din f din1 st1 f1 din2 st2 f2 :
  grew st din f din1 st1 f1 → grew st1 din1 f1 din2 st2 f2 → grew st din f din2 st2 f2.
Proof.
  intros [A1 A2 A3 A4 A5 A6 A7 A8 A9 A10] [B1 B2 B3 B4 B5 B6 B7 B8 B9 B10]. split; try done; try congruence; try lia.
  - intros b Hb. destruct (B9 b Hb) as [H|H]; [auto|right; lia].
  - intros b Hb Hno. rewrite B10, A10; [done..|lia|]. intros H. apply A9 in H as [H|H]; [done|lia].
Qed.

Lemma with_indirect_mono n m : (n ≤ m)%nat → (with_indirect n ≤ with_indirect m)%nat.
Proof. unfold with_indirect. intros. destruct (Nat.ltb_spec 12 n), (Nat.ltb_spec 12 m); lia. Qed.

(** One turn of the loop: the block, and the bytes written to it. *)
Lemma append_turn st din f chunk :
  image_ok st → holds (m_img st) din f → tidy f → inside st f → tight f →
  (0 < length chunk)%nat → (length (f_data f) mod 1024 + length chunk ≤ 1024)%nat →
  (length (f_data f) / 1024 < 268)%nat →
  m_freeblock st - Z.of_nat (length (owned f)) +
    Z.of_nat (with_indirect (S (length (f_data f) / 1024))) ≤ FSSIZE →
  let fbn := Z.of_nat (length (f_data f) / 1024) in
  ∃ x din' st1 f1, file_block din fbn st = MOk (x, din') st1 ∧ 0 ≤ x < FSSIZE ∧ image_ok st1 ∧
    let st' := with_block x (splice (m_img st1 x) (Z.of_nat (length (f_data f) mod 1024)) chunk) st1 in
    grew st din f din' st' (appended f1 chunk) ∧ f_data f1 = f_data f ∧ tight (appended f1 chunk).
Proof.
  intros Hst Hf Htidy Hin Htight Hc Hroom Hmax Hfree fbn. set (len := length (f_data f)) in *.
  pose proof (Nat.div_mod_eq len 1024) as Hdm. pose proof (h_fits _ _ _ Hf) as Hfits. fold len in Hfits.
  destruct (file_block_ok st din f fbn) as (x & din' & st1 & f1 & Hrun & G); [done..| | | |].
  { unfold MAXFILE, NINDIRECT, NDIRECT. lia. }
  { unfold fbn. rewrite Nat2Z.id. lia. }
  { unfold fbn. by rewrite Nat2Z.id. }
  destruct G as [G1 G2 G3 G4 G5 G6 G7 G8 G9 G10 G11 G12]. unfold fbn in G5, G6. rewrite Nat2Z.id in G5, G6.
  pose proof (inside_range st1 f1 x G1 G4 (block_owned _ _ _ G5)) as Hx.
  destruct (write_data st1 din' f1 x chunk) as [W1 W2]; [done..| | |]; rewrite ?G7; [done|done|].
  rewrite G7 in W1, W2. fold len in W1, W2.
  exists x, din', st1, f1. split; [done|]. split; [unfold FSSIZE; lia|]. split; [done|]. split_and!; [|done|].
  - assert (m_freeblock st ≤ m_freeblock st1) as Hle.
    { pose proof (owned_length f Htidy) as E1. pose proof (owned_length f1 G3) as E2.
      pose proof (with_indirect_mono (length (f_blocks f)) (length (f_blocks f1)) ltac:(lia)). lia. }
    split; try done. intros b Hb Hno. cbn [with_block m_img]. rewrite fn_lookup_insert_ne; [by apply G12|].
    intros <-. destruct (G11 x (block_owned _ _ _ G5)); [done|lia].
  - unfold tight in *. cbn [appended f_data f_blocks]. rewrite length_app, G7, G6. fold len. fold len in Htight. lia.
Qed.

(** The loop after its first turn. *)
Lemma iappend_loop_step fuel st din len p x din1 st1 :
  p ≠ [] → (len < 268 * 1024)%nat →
  file_block din (Z.of_nat (len / 1024)) st = MOk (x, din1) st1 → 0 ≤ x < FSSIZE → image_ok st1 →
  let n1 := Nat.min (length p) (1024 - len mod 1024) in
  iappend_loop (S fuel) din (Z.of_nat len) p st =
    iappend_loop fuel din1 (Z.of_nat (len + n1)) (drop n1 p)
      (with_block x (splice (m_img st1 x) (Z.of_nat (len mod 1024)) (take n1 p)) st1).
Proof.
  intros Hp Hlen Hrun Hx Hst1 n1. pose proof (Nat.div_mod_eq len 1024) as Hdm.
  pose proof (Nat.mod_upper_bound len 1024 ltac:(lia)) as Hmod.
  assert (Z.of_nat len / BSIZE = Z.of_nat (len / 1024)) as E1 by (by rewrite Nat2Z.inj_div).
  destruct p as [|c p0]; [done|]. cbn [iappend_loop]. set (p := c :: p0) in *. rewrite E1.
  unfold massert. rewrite (proj2 (Z.ltb_lt _ MAXFILE)) by (unfold MAXFILE, NINDIRECT, NDIRECT; lia).
  unfold mbind, M_bind. rewrite Hrun, rsect_ok by done. rewrite wsect_ok by done.
  assert (Z.min (Z.of_nat (length p)) ((Z.of_nat (len / 1024) + 1) * BSIZE - Z.of_nat len) = Z.of_nat n1) as ->
    by (unfold BSIZE; lia).
  rewrite Nat2Z.id, u32_small by (unfold is_u32; lia).
  replace (Z.of_nat len - Z.of_nat (len / 1024) * BSIZE) with (Z.of_nat (len mod 1024)) by (unfold BSIZE; lia).
  by rewrite Nat2Z.inj_add.
Qed.

Lemma iappend_loop_ok fuel st din f p :
  (length p ≤ fuel)%nat →
  image_ok st → holds (m_img st) din f → tidy f → inside st f → tight f →
  (length (f_data f) + length p ≤ 268 * 1024)%nat →
  m_freeblock st - Z.of_nat (length (owned f)) +
    Z.of_nat (with_indirect (blocks_for (length (f_data f) + length p))) ≤ FSSIZE →
  ∃ din' st' f',
    iappend_loop fuel din (Z.of_nat (length (f_data f))) p st =
      MOk (din', Z.of_nat (length (f_data f) + length p)) st' ∧
    grew st din f din' st' f' ∧ f_data f' = f_data f ++ p ∧ tight f'.
Proof.
  revert st din f p. induction fuel as [|fuel IH]; intros st din f p Hfuel Hst Hf Htidy Hin Htight Hmax Hfree.
  { destruct p; [|cbn in Hfuel; lia]. exists din, st, f. rewrite app_nil_r, Nat.add_0_r.
    split; [done|]. split; [by apply grew_refl|done]. }
  destruct p as [|c p0].
  { exists din, st, f. rewrite app_nil_r, Nat.add_0_r. split; [done|]. split; [by apply grew_refl|done]. }
  set (p := c :: p0) in *. assert (0 < length p)%nat as Hp by (cbn; lia).
  set (len := length (f_data f)) in *. pose proof (Nat.div_mod_eq len 1024) as Hdm.
  pose proof (Nat.mod_upper_bound len 1024 ltac:(lia)) as Hmod.
  set (n1 := Nat.min (length p) (1024 - len mod 1024)).
  assert (length (take n1 p) = n1) as Hn1 by (rewrite length_take; lia).
  assert (S (len / 1024) ≤ blocks_for (len + length p))%nat as Hb.
  { unfold blocks_for. apply Nat.div_le_lower_bound; lia. }
  pose proof (with_indirect_mono _ _ Hb) as Hwi.
  destruct (append_turn st din f (take n1 p)) as (x & din1 & st1 & f1 & Hrun & Hx & Hst1 & G & Hd & Ht);
    [done..|lia|fold len; lia|fold len; lia|fold len; lia|]. fold len in Hrun, G.
  set (st2 := with_block _ _ _) in G. set (f2 := appended f1 (take n1 p)) in *.
  assert (length (f_data f2) = len + n1)%nat as Hl2.
  { unfold f2. cbn [appended f_data]. by rewrite length_app, Hd, Hn1. }
  destruct (IH st2 din1 f2 (drop n1 p)) as (din' & st' & f' & Hloop & G' & Hd' & Ht').
  { rewrite length_drop. lia. }
  1-4: apply G.
  { done. }
  { rewrite Hl2, length_drop. lia. }
  { rewrite Hl2, length_drop. rewrite (gr_free _ _ _ _ _ _ G).
    replace (len + n1 + (length p - n1))%nat with (len + length p)%nat by lia. done. }
  exists din', st', f'. split; [|split; [by eapply grew_trans|]].
  - erewrite iappend_loop_step; [|done|fold len; lia|exact Hrun|done|done]. rewrite Hl2 in Hloop.
    fold len p n1 st2. rewrite Hloop, length_drop. do 2 f_equal. lia.
  - split; [|done]. rewrite Hd'. unfold f2. cbn [appended f_data]. by rewrite Hd, <-app_assoc, take_drop.
Qed.
