(* ===== verification/MkfsImage.v ===== *)
(** * The image of the file system: inodes and the whole image *)

From S2P Require Import Prelude Bytes Memory Riscv Data State Spinlock Table Mlfq Bio Log Fs Mkfs MkfsFacts MkfsFiles.

Local Open Scope Z_scope.

(** ** Inodes *)

Definition dinode_at (img : Z → list Z) (inum : Z) : list Z :=
  slice (img (IBLOCK inum sb)) (dinode_off inum) (Z.to_nat sizeof_dinode).

(** The inodes have room in the blocks before the free map. *)
Definition is_inum (inum : Z) : Prop := 0 ≤ inum < 208.

Lemma inode_place inum :
  is_inum inum → 32 ≤ IBLOCK inum sb < 45 ∧ IBLOCK inum sb = inum / 16 + 32 ∧
  dinode_off inum = 64 * (inum mod 16) ∧ 0 ≤ inum mod 16 < 16.
Proof.
  unfold is_inum. intros H. unfold IBLOCK, dinode_off. change (sb_inodestart sb) with 32.
  change IPB with 16. unfold sizeof_dinode.
  pose proof (Z.mod_pos_bound inum 16 ltac:(lia)). pose proof (Z.div_mod inum 16 ltac:(lia)).
  rewrite u32_small by (unfold is_u32; lia). lia.
Qed.

Definition with_inode (inum : Z) (din : list Z) (st : mstate) : mstate :=
  with_block (IBLOCK inum sb) (splice (m_img st (IBLOCK inum sb)) (dinode_off inum) din) st.

Lemma rinode_ok st inum :
  image_ok st → is_inum inum → rinode inum st = MOk (dinode_at (m_img st) inum) st.
Proof.
  intros Hst Hi. destruct (inode_place inum Hi) as (Hb & _). unfold rinode, mbind, M_bind.
  by rewrite rsect_ok by (done || unfold FSSIZE; lia).
Qed.

Lemma winode_ok st inum din :
  image_ok st → is_inum inum → winode inum din st = MOk tt (with_inode inum din st).
Proof.
  intros Hst Hi. destruct (inode_place inum Hi) as (Hb & _). unfold winode, mbind, M_bind.
  rewrite rsect_ok by (done || unfold FSSIZE; lia). by apply wsect_ok; [|unfold FSSIZE; lia].
Qed.

Lemma with_inode_image st inum din :
  image_ok st → is_inum inum → length din = Z.to_nat sizeof_dinode → image_ok (with_inode inum din st).
Proof.
  intros Hst Hi Hd. destruct (inode_place inum Hi) as (Hb & _ & Ho & Hm).
  pose proof (io_free _ Hst) as Hf. rewrite nmeta_val in Hf. change (Z.to_nat sizeof_dinode) with 64%nat in Hd.
  assert (length (m_img st (IBLOCK inum sb)) = Z.to_nat BSIZE) as Hl
    by (apply (io_blocks _ Hst); unfold FSSIZE in *; lia).
  apply image_ok_write; [done|lia|]. rewrite splice_length; [done|]. rewrite Hl, Hd, Ho.
  change (Z.to_nat BSIZE) with 1024%nat. lia.
Qed.

Lemma with_inode_at st inum din j :
  image_ok st → is_inum inum → is_inum j → length din = Z.to_nat sizeof_dinode →
  dinode_at (m_img (with_inode inum din st)) j = if decide (inum = j) then din else dinode_at (m_img st) j.
Proof.
  intros Hst Hi Hj Hd. destruct (inode_place inum Hi) as (Hb & Eb & Ho & Hm).
  destruct (inode_place j Hj) as (Hb' & Eb' & Ho' & Hm').
  assert (length (m_img st (IBLOCK inum sb)) = 1024%nat) as Hl
    by (apply (io_blocks _ Hst); unfold FSSIZE; lia).
  change (Z.to_nat sizeof_dinode) with 64%nat in Hd.
  unfold dinode_at, with_inode. cbn [with_block m_img]. change (Z.to_nat sizeof_dinode) with 64%nat.
  case_decide as E.
  - subst j. rewrite fn_lookup_insert. apply slice_splice_eq; lia.
  - destruct (decide (IBLOCK inum sb = IBLOCK j sb)) as [E'|E']; [|by rewrite fn_lookup_insert_ne].
    rewrite E', fn_lookup_insert. rewrite E' in Hl. apply slice_splice_ne; [lia|].
    pose proof (Z.div_mod inum 16 ltac:(lia)). pose proof (Z.div_mod j 16 ltac:(lia)). lia.
Qed.

Lemma with_inode_other st inum din b :
  is_inum inum → 45 ≤ b ∨ b < 32 → m_img (with_inode inum din st) b = m_img st b.
Proof.
  intros Hi Hb. destruct (inode_place inum Hi) as (Hb' & _). unfold with_inode. cbn [with_block m_img].
  apply fn_lookup_insert_ne. lia.
Qed.

(** ** Files with their inodes *)

(** The fields of an inode of [mkfs] before the addresses. *)
Definition header (ty size : Z) : list Z := le 2 ty ++ le 2 0 ++ le 2 0 ++ le 2 1 ++ le 4 size.

Record file_ok (st : mstate) (inum ty : Z) (f : mfile) : Prop := {
  fl_holds : holds (m_img st) (dinode_at (m_img st) inum) f;
  fl_tidy : tidy f;
  fl_inside : inside st f;
  fl_tight : tight f;
  fl_fields : fields (dinode_at (m_img st) inum) = header ty (Z.of_nat (length (f_data f)));
}.

(** The number of blocks for [n] bytes. *)
Definition space (n : nat) : nat := with_indirect (blocks_for n).

Lemma file_space st inum ty f : file_ok st inum ty f → length (owned f) = space (length (f_data f)).
Proof.
  intros [H1 H2 _ H3 _]. rewrite owned_length by done. unfold space. f_equal. unfold tight in H3.
  pose proof (h_fits _ _ _ H1). unfold blocks_for. apply (Nat.div_unique _ _ _
    (length (f_data f) + 1023 - 1024 * length (f_blocks f))); lia.
Qed.

Lemma fields_size din ty size n :
  length din = Z.to_nat sizeof_dinode → 0 ≤ n < 2 ^ 32 → fields din = header ty size →
  get32 (put32 din 8 n) 8 = n ∧ fields (put32 din 8 n) = header ty n ∧
  length (put32 din 8 n) = Z.to_nat sizeof_dinode ∧
  ∀ i, 0 ≤ i ≤ NDIRECT → get32 (put32 din 8 n) (din_addr i) = get32 din (din_addr i).
Proof.
  change (Z.to_nat sizeof_dinode) with 64%nat. intros Hl Hn Hh. split_and!.
  - unfold get32, put32. apply get_put_eq; [cbn; lia|cbn; lia].
  - unfold fields in *. unfold put32, put_le, splice. change (Z.to_nat 8) with 8%nat.
    unfold slice in *. change (Z.to_nat 0) with 0%nat in *. rewrite drop_0 in *.
    assert (take 8 din = take 8 (header ty size)) as E8 by (by rewrite <-Hh, take_take).
    rewrite E8. unfold header. cbn [le app take]. cbn [take]. rewrite take_0. done.
  - unfold put32. rewrite put_length; [done|cbn; lia].
  - intros i Hi. unfold NDIRECT in Hi. unfold get32, put32. apply get_put_ne; [cbn; lia|]. unfold din_addr. cbn. lia.
Qed.

(** ** The files of the image *)

Definition all_owned (fs : list (Z * mfile)) : list Z := concat (map (λ x, owned x.2) fs).

(** File [i] of the list is the inode [1 + i]. *)
Record fs_ok (st : mstate) (fs : list (Z * mfile)) : Prop := {
  fo_image : image_ok st;
  fo_inode : m_freeinode st = 1 + Z.of_nat (length fs);
  fo_max : (length fs ≤ 200)%nat;
  fo_file i ty f : fs !! i = Some (ty, f) → file_ok st (1 + Z.of_nat i) ty f;
  fo_apart : NoDup (all_owned fs);
  fo_free : m_freeblock st = nmeta + Z.of_nat (length (all_owned fs));
}.

Lemma all_owned_app fs fs' : all_owned (fs ++ fs') = all_owned fs ++ all_owned fs'.
Proof. unfold all_owned. by rewrite map_app, concat_app. Qed.

Lemma all_owned_elem fs i ty f b : fs !! i = Some (ty, f) → b ∈ owned f → b ∈ all_owned fs.
Proof.
  intros Hi Hb. rewrite <-(take_drop_middle fs i _ Hi), all_owned_app. apply elem_of_app. right.
  apply elem_of_app. by left.
Qed.

(** Blocks of different files are different. *)
Lemma apart fs i j ty ty' f f' b :
  NoDup (all_owned fs) → fs !! i = Some (ty, f) → fs !! j = Some (ty', f') → i ≠ j →
  b ∈ owned f → b ∉ owned f'.
Proof.
  intros Hnd Hi Hj Hne Hb Hb'. rewrite <-(take_drop_middle fs i _ Hi), all_owned_app in Hnd.
  change (all_owned ((ty, f) :: drop (S i) fs)) with (owned f ++ all_owned (drop (S i) fs)) in Hnd.
  apply list.NoDup_app in Hnd as (_ & H1 & (_ & H2 & _)%list.NoDup_app).
  destruct (decide (j < i)%nat) as [Hlt|Hge].
  - apply (H1 b); [|apply elem_of_app; by left]. eapply (all_owned_elem _ j); [|done].
    by rewrite lookup_take_lt.
  - apply (H2 b Hb). eapply (all_owned_elem _ (j - S i)); [|done]. rewrite lookup_drop, <-Hj. f_equal. lia.
Qed.

(** A file that no write has touched. *)
Lemma file_ok_frame st st' inum ty f :
  file_ok st inum ty f → m_freeblock st ≤ m_freeblock st' →
  dinode_at (m_img st') inum = dinode_at (m_img st) inum →
  (∀ b, b ∈ owned f → m_img st' b = m_img st b) → file_ok st' inum ty f.
Proof.
  intros [H1 H2 H3 H4 H5] Hle Hd Hfr. split; rewrite ?Hd; try done.
  - by eapply holds_frame.
  - eapply Forall_impl; [|exact H3]. cbn. lia.
Qed.

(** A file is replaced by one whose blocks are its own or new. *)
Lemma all_owned_insert st fs i ty f f' :
  NoDup (all_owned fs) → (∀ b, b ∈ all_owned fs → b < m_freeblock st) → fs !! i = Some (ty, f) →
  NoDup (owned f') → (∀ b, b ∈ owned f' → b ∈ owned f ∨ m_freeblock st ≤ b) →
  NoDup (all_owned (<[i := (ty, f')]> fs)) ∧
  Z.of_nat (length (all_owned (<[i := (ty, f')]> fs))) =
    Z.of_nat (length (all_owned fs)) - Z.of_nat (length (owned f)) + Z.of_nat (length (owned f')).
Proof.
  intros Hnd Hlt Hi Hnd' Hnew. pose proof (lookup_lt_Some _ _ _ Hi) as Hil.
  assert (all_owned fs = all_owned (take i fs) ++ owned f ++ all_owned (drop (S i) fs)) as E.
  { by rewrite <-(take_drop_middle fs i _ Hi), all_owned_app at 1. }
  rewrite insert_take_drop by done. rewrite E in *. clear E. rewrite all_owned_app.
  set (l1 := take i fs) in *. set (l2 := drop (S i) fs) in *.
  change (all_owned ((ty, f') :: l2)) with (owned f' ++ all_owned l2).
  split; [|rewrite !length_app; lia].
  apply list.NoDup_app in Hnd as (N1 & N2 & (N3 & N4 & N5)%list.NoDup_app).
  apply list.NoDup_app. split_and!; [done| |].
  - intros b Hb [Hb'|Hb']%elem_of_app.
    + destruct (Hnew b Hb') as [H|H]; [apply (N2 b Hb), elem_of_app; by left|].
      specialize (Hlt b ltac:(apply elem_of_app; by left)). lia.
    + apply (N2 b Hb), elem_of_app. by right.
  - apply list.NoDup_app. split_and!; [done| |done]. intros b Hb Hb2.
    destruct (Hnew b Hb) as [H|H]; [by apply (N4 b)|].
    specialize (Hlt b ltac:(apply elem_of_app; right; apply elem_of_app; by right)). lia.
Qed.

Lemma fs_ok_below st fs b : fs_ok st fs → b ∈ all_owned fs → 46 ≤ b < m_freeblock st.
Proof.
  intros Hfs Hb. unfold all_owned in Hb. apply list_elem_of_In, in_concat in Hb as (l & Hl & Hb).
  apply in_map_iff in Hl as ([ty f] & <- & Hf). apply list_elem_of_In, list_elem_of_lookup_1 in Hf as [i Hi].
  destruct (fo_file _ _ Hfs i ty f Hi) as [_ _ Hin _ _]. unfold inside in Hin. rewrite list.Forall_forall in Hin.
  apply list_elem_of_In in Hb. apply Hin in Hb. rewrite nmeta_val in Hb. done.
Qed.

Lemma header_size din ty n : fields din = header ty n → 0 ≤ n < 2 ^ 32 → get32 din 8 = n.
Proof.
  intros H Hn. unfold get32, get_le, slice. unfold fields, slice in H. change (Z.to_nat 0) with 0%nat in H.
  rewrite drop_0 in H. change (Z.to_nat 8) with 8%nat.
  replace (take 4 (drop 8 din)) with (drop 8 (take 12 din)) by (by rewrite skipn_firstn_comm).
  rewrite H. apply (of_le_le 4). cbn. lia.
Qed.

Lemma holds_inode img din din' f :
  holds img din f → length din' = Z.to_nat sizeof_dinode →
  (∀ i, 0 ≤ i ≤ NDIRECT → get32 din' (din_addr i) = get32 din (din_addr i)) → holds img din' f.
Proof.
  intros [H1 H2 H3 H4 H5 H6 H7 H8] Hl Hg. split; try done.
  - intros i Hi. rewrite Hg by lia. auto.
  - rewrite Hg by (unfold NDIRECT; lia). done.
Qed.

(** The blocks outside of the files and the inodes. *)
Definition meta_frame (st st' : mstate) : Prop := ∀ b, b < 32 ∨ b = 45 → m_img st' b = m_img st b.

(** The file that was appended to has its new inode. *)
Lemma append_inode st inum ty din' f n :
  image_ok st → is_inum inum → holds (m_img st) din' f → tidy f → inside st f → tight f →
  (∃ size, fields din' = header ty size) → n = Z.of_nat (length (f_data f)) → n < 2 ^ 32 →
  let st' := with_inode inum (put32 din' 8 n) st in
  image_ok st' ∧ file_ok st' inum ty f.
Proof.
  intros Hst Hi Hf Htidy Hin Htight [size Hh] -> Hn st'. pose proof (h_len _ _ _ Hf) as Hl.
  destruct (fields_size din' ty size (Z.of_nat (length (f_data f)))) as (_ & E2 & E3 & E4); [done|lia|done|].
  split; [by apply with_inode_image|].
  assert (dinode_at (m_img st') inum = put32 din' 8 (Z.of_nat (length (f_data f)))) as Ed.
  { unfold st'. by rewrite with_inode_at, decide_True. }
  split; rewrite ?Ed; try done. eapply (holds_inode _ din'); [|done..]. eapply holds_frame; [done|].
  intros b Hb. apply with_inode_other; [done|]. pose proof (inside_range st f b Hst Hin Hb). lia.
Qed.

Lemma iappend_ok st fs i ty f p :
  fs_ok st fs → fs !! i = Some (ty, f) →
  (length (f_data f) + length p ≤ 268 * 1024)%nat →
  Z.of_nat (length (all_owned fs)) - Z.of_nat (space (length (f_data f))) +
    Z.of_nat (space (length (f_data f) + length p)) ≤ nblocks →
  ∃ st' f', iappend (1 + Z.of_nat i) p st = MOk tt st' ∧ fs_ok st' (<[i := (ty, f')]> fs) ∧
    f_data f' = f_data f ++ p ∧ meta_frame st st'.
Proof.
  intros Hfs Hi Hmax Hspace. pose proof (fo_image _ _ Hfs) as Hst.
  pose proof (lookup_lt_Some _ _ _ Hi) as Hil. pose proof (fo_max _ _ Hfs) as Hcount.
  assert (is_inum (1 + Z.of_nat i)) as Hinum by (unfold is_inum; lia).
  pose proof (fo_file _ _ Hfs i ty f Hi) as Hfile. pose proof (file_space _ _ _ _ Hfile) as Hown.
  destruct Hfile as [F1 F2 F3 F4 F5]. set (din := dinode_at (m_img st) (1 + Z.of_nat i)) in *.
  destruct (iappend_loop_ok (length p) st din f p) as (din' & st1 & f' & Hrun & G & Hd & Ht); [done..| |].
  { rewrite (fo_free _ _ Hfs), Hown. fold (space (length (f_data f) + length p)). unfold nblocks in Hspace. lia. }
  assert (length (f_data f') = length (f_data f) + length p)%nat as Hl' by (by rewrite Hd, length_app).
  destruct (append_inode st1 (1 + Z.of_nat i) ty din' f' (Z.of_nat (length (f_data f) + length p))) as [A1 A2];
    [apply G|done|apply G|apply G|apply G|done| |by rewrite Hl'|lia|].
  { eexists. rewrite (gr_fields _ _ _ _ _ _ G). done. }
  set (st2 := with_inode _ _ _) in *. exists st2, f'.
  assert (∀ b, 46 ≤ b ∨ b < 32 ∨ b = 45 → m_img st2 b = m_img st1 b) as Hst2.
  { intros b Hb. apply with_inode_other; [done|lia]. }
  pose proof (io_free _ Hst) as Hfb. rewrite nmeta_val in Hfb.
  assert (∀ b, b ∈ owned f → 46 ≤ b) as Hlow by (intros b Hb; by apply (inside_range st f b Hst F3)).
  assert (∀ b, b < 46 → m_img st1 b = m_img st b) as Hst1.
  { intros b Hb. apply (gr_frame _ _ _ _ _ _ G); [lia|]. intros H%Hlow. lia. }
  split_and!; [| |done|].
  - unfold iappend, mbind, M_bind. rewrite rinode_ok by done. fold din.
    rewrite (header_size din ty (Z.of_nat (length (f_data f)))) by (done || lia). rewrite xint_small by lia.
    rewrite Hrun. rewrite xint_small by lia. apply winode_ok; [apply G|done].
  - destruct (all_owned_insert st fs i ty f f') as [N1 N2]; [apply Hfs| |done|apply G|apply G|].
    { intros b Hb. by apply (fs_ok_below st fs b Hfs). }
    split; [done| |by rewrite length_insert| |done|].
    + rewrite length_insert. unfold st2. cbn [with_inode with_block m_freeinode].
      rewrite (gr_inode _ _ _ _ _ _ G). apply Hfs.
    + intros j ty' g Hj. apply list_lookup_insert_Some in Hj as [(-> & [= <- <-] & _)|[Hne Hj]]; [done|].
      pose proof (lookup_lt_Some _ _ _ Hj). eapply (file_ok_frame st); [by apply Hfs|apply G| |].
      * unfold st2. rewrite with_inode_at; [rewrite decide_False by lia|apply G|done|unfold is_inum; lia|].
        -- unfold dinode_at. rewrite Hst1; [done|]. pose proof (inode_place (1 + Z.of_nat j) ltac:(unfold is_inum; lia)). lia.
        -- unfold put32. rewrite put_length; [apply (gr_holds _ _ _ _ _ _ G)|].
           rewrite (h_len _ _ _ (gr_holds _ _ _ _ _ _ G)). change (Z.to_nat sizeof_dinode) with 64%nat. lia.
      * intros b Hb. pose proof (fs_ok_below st fs b Hfs (all_owned_elem _ _ _ _ _ Hj Hb)).
        rewrite Hst2 by lia. apply (gr_frame _ _ _ _ _ _ G); [lia|].
        eapply (apart fs j i); [apply Hfs|done..|by apply not_eq_sym|done].
    + unfold st2. cbn [with_inode with_block m_freeblock]. rewrite N2.
      pose proof (gr_free _ _ _ _ _ _ G). rewrite (fo_free _ _ Hfs) in *. lia.
  - intros b Hb. rewrite Hst2 by lia. apply Hst1. lia.
Qed.
