(* ===== verification/MkfsProps.v ===== *)
(** * The image of the file system: theorems *)

From S2P Require Import Prelude Bytes Memory Riscv Data State Spinlock Table Mlfq Bio Log Fs FsFacts Mkfs MkfsFacts MkfsFiles MkfsImage.

Local Open Scope Z_scope.

(** ** Space *)

Definition total (fs : list (Z * mfile)) : nat :=
  sum_list (map (λ x, space (length (f_data x.2))) fs).

Lemma owned_total st fs : fs_ok st fs → length (all_owned fs) = total fs.
Proof.
  intros Hfs. assert (∀ x, x ∈ fs → length (owned x.2) = space (length (f_data x.2))) as H.
  { intros [ty f] [i Hi]%list_elem_of_lookup_1. by apply (file_space st (1 + Z.of_nat i) ty), Hfs. }
  clear Hfs. unfold all_owned, total. induction fs as [|x fs IH]; [done|].
  cbn [map concat sum_list]. rewrite length_app, H, IH; [done| |by left]. intros y Hy. apply H. by right.
Qed.

Lemma total_insert fs i ty f ty' f' :
  fs !! i = Some (ty, f) →
  Z.of_nat (total (<[i := (ty', f')]> fs)) =
    Z.of_nat (total fs) - Z.of_nat (space (length (f_data f))) + Z.of_nat (space (length (f_data f'))).
Proof.
  unfold total. revert i. induction fs as [|x fs IH]; intros i Hi; [done|]. destruct i as [|i]; cbn in Hi.
  - injection Hi as ->. cbn. lia.
  - change (<[S i := (ty', f')]> (x :: fs)) with (x :: <[i := (ty', f')]> fs). cbn [map sum_list].
    specialize (IH i Hi). lia.
Qed.

Lemma total_app fs fs' : total (fs ++ fs') = (total fs + total fs')%nat.
Proof. unfold total. rewrite map_app. induction fs as [|x fs IH]; cbn; lia. Qed.

Lemma space_mono n m : (n ≤ m)%nat → (space n ≤ space m)%nat.
Proof. intros H. apply with_indirect_mono. unfold blocks_for. apply Nat.Div0.div_le_mono. lia. Qed.

(** [iappend], by the space of all files. *)
Lemma append_ok st fs i ty f p :
  fs_ok st fs → fs !! i = Some (ty, f) →
  (length (f_data f) + length p ≤ 268 * 1024)%nat →
  Z.of_nat (total fs) - Z.of_nat (space (length (f_data f))) +
    Z.of_nat (space (length (f_data f) + length p)) ≤ nblocks →
  ∃ st' f', iappend (1 + Z.of_nat i) p st = MOk tt st' ∧ fs_ok st' (<[i := (ty, f')]> fs) ∧
    f_data f' = f_data f ++ p ∧ meta_frame st st'.
Proof. intros Hfs Hi Hmax Hsp. apply iappend_ok; try done. by rewrite (owned_total st). Qed.

(** ** A new inode *)

Definition empty_file : mfile := mkMfile [] [] 0.

Definition new_dinode (ty : Z) : list Z :=
  put32 (put16 (put16 zero_dinode 0 (xshort ty)) 6 (xshort 1)) 8 (xint 0).

Lemma new_dinode_holds img ty :
  ty = T_DIR ∨ ty = T_FILE → holds img (new_dinode ty) empty_file ∧ fields (new_dinode ty) = header ty 0.
Proof.
  intros Hty. assert (∀ i, 0 ≤ i ≤ NDIRECT → get32 (new_dinode ty) (din_addr i) = 0) as Hg.
  { intros i Hi. assert (i ∈ seqZ 0 13) as Hin by (apply elem_of_seqZ; unfold NDIRECT in Hi; lia).
    destruct Hty as [-> | ->]; repeat (apply elem_of_cons in Hin as [->|Hin]; [reflexivity|]); by apply elem_of_nil in Hin. }
  split; [|by destruct Hty as [-> | ->]]. split; cbn [empty_file f_data f_blocks f_ind].
  - by destruct Hty as [-> | ->].
  - intros i Hi. rewrite Hg by lia. done.
  - apply Hg. unfold NDIRECT. lia.
  - done.
  - cbn. lia.
  - cbn. lia.
  - done.
  - constructor.
Qed.

Definition with_next_inode (st : mstate) : mstate :=
  mkMstate (m_img st) (m_size st) (m_freeinode st + 1) (m_freeblock st).

Lemma ialloc_ok st fs ty :
  fs_ok st fs → (length fs < 200)%nat → ty = T_DIR ∨ ty = T_FILE →
  ∃ st', ialloc ty st = MOk (1 + Z.of_nat (length fs)) st' ∧ fs_ok st' (fs ++ [(ty, empty_file)]) ∧
    meta_frame st st'.
Proof.
  intros Hfs Hlen Hty. set (inum := 1 + Z.of_nat (length fs)).
  assert (is_inum inum) as Hi by (unfold is_inum, inum; lia).
  pose proof (fo_image _ _ Hfs) as Hst. set (st1 := with_next_inode st).
  assert (image_ok st1) as Hst1 by (destruct Hst; by split).
  destruct (new_dinode_holds (m_img st) ty Hty) as [Hh Hf].
  set (st2 := with_inode inum (new_dinode ty) st1). pose proof (h_len _ _ _ Hh) as Hl.
  exists st2. split_and!.
  - unfold ialloc, next_inode, mbind, M_bind. rewrite (fo_inode _ _ Hfs). fold inum.
    rewrite u32_small by (unfold is_u32, inum; lia). fold (new_dinode ty).
    assert (mkMstate (m_img st) (m_size st) (inum + 1) (m_freeblock st) = st1) as ->.
    { unfold st1, with_next_inode. by rewrite (fo_inode _ _ Hfs). }
    by rewrite winode_ok.
  - assert (all_owned (fs ++ [(ty, empty_file)]) = all_owned fs) as Eo.
    { rewrite all_owned_app. cbn. by rewrite app_nil_r. }
    split.
    + by apply with_inode_image.
    + cbn [st2 st1 with_inode with_block with_next_inode m_freeinode]. rewrite (fo_inode _ _ Hfs), length_app. cbn. lia.
    + rewrite length_app. cbn. lia.
    + intros j ty' f Hj. apply lookup_snoc_Some in Hj as [[Hlt Hj]|[-> [= <- <-]]].
      * eapply (file_ok_frame st); [by apply Hfs|done| |].
        -- unfold st2. rewrite with_inode_at, decide_False; [done|unfold inum; lia|done|done|unfold is_inum; lia|done].
        -- intros b Hb. unfold st2. rewrite with_inode_other; [done|done|].
           pose proof (fs_ok_below st fs b Hfs (all_owned_elem _ _ _ _ _ Hj Hb)). lia.
      * fold inum. assert (dinode_at (m_img st2) inum = new_dinode ty) as Ed.
        { unfold st2. by rewrite with_inode_at, decide_True. }
        split; rewrite ?Ed; [by apply new_dinode_holds|unfold tidy; cbn; lia|constructor|unfold tight; cbn; lia|done].
    + rewrite Eo. apply Hfs.
    + rewrite Eo. apply Hfs.
  - intros b Hb. unfold st2. rewrite with_inode_other; [done|done|lia].
Qed.

(** ** Copying files *)

Lemma meta_frame_trans st1 st2 st3 : meta_frame st1 st2 → meta_frame st2 st3 → meta_frame st1 st3.
Proof. intros H1 H2 b Hb. by rewrite H2, H1. Qed.

Lemma mfor_app {A} (l l' : list A) body st st1 :
  mfor l body st = MOk tt st1 → mfor (l ++ l') body st = mfor l' body st1.
Proof.
  revert st. induction l as [|x l IH]; intros st; cbn [mfor app]; [by intros [= <-]|].
  unfold mbind, M_bind. destruct (body x st) as [[] st'| | |]; [|done..]. apply IH.
Qed.

Lemma chunks_ok st fs i ty f chunks :
  fs_ok st fs → fs !! i = Some (ty, f) →
  (length (f_data f) + length (concat chunks) ≤ 268 * 1024)%nat →
  Z.of_nat (total fs) - Z.of_nat (space (length (f_data f))) +
    Z.of_nat (space (length (f_data f) + length (concat chunks))) ≤ nblocks →
  ∃ st' f', mfor chunks (iappend (1 + Z.of_nat i)) st = MOk tt st' ∧
    fs_ok st' (<[i := (ty, f')]> fs) ∧ f_data f' = f_data f ++ concat chunks ∧ meta_frame st st'.
Proof.
  revert st fs f. induction chunks as [|p chunks IH]; intros st fs f Hfs Hi Hmax Hsp; cbn [mfor concat] in *.
  { exists st, f. rewrite list_insert_id by done. rewrite app_nil_r. done. }
  rewrite length_app in *.
  pose proof (space_mono (length (f_data f) + length p) (length (f_data f) + (length p + length (concat chunks))) ltac:(lia)).
  destruct (append_ok st fs i ty f p) as (st1 & f1 & Hrun & Hfs1 & Hd1 & Hm1); [done|done|lia|lia|].
  pose proof (lookup_lt_Some _ _ _ Hi) as Hil.
  assert (length (f_data f1) = length (f_data f) + length p)%nat as Hl1 by (by rewrite Hd1, length_app).
  destruct (IH st1 (<[i := (ty, f1)]> fs) f1) as (st' & f' & Hrun' & Hfs' & Hd' & Hm'); [done| | | |].
  { by apply list_lookup_insert_eq. }
  { lia. }
  { rewrite (total_insert fs i ty f) by done. rewrite Hl1, <-Nat.add_assoc. lia. }
  exists st', f'. rewrite list_insert_insert_eq in Hfs'. split_and!; [|done| |by eapply meta_frame_trans].
  - unfold mbind, M_bind. by rewrite Hrun.
  - by rewrite Hd', Hd1, <-app_assoc.
Qed.

(** The entry of a file in the root directory. *)
Definition entry (inum : Z) (arg : list Z) : list Z := dirent inum (skip_underscore (short_name arg)).

Lemma dirent_length inum name : length (dirent inum name) = 16%nat.
Proof. unfold dirent. rewrite length_app, le_length, length_take, length_app, length_replicate. unfold DIRSIZ. lia. Qed.

Lemma add_file_ok host st root rest arg chunks :
  let fs := (T_DIR, root) :: rest in
  fs_ok st fs → (length fs < 200)%nat → chr "/" ∉ short_name arg → host arg = Some chunks →
  (length (f_data root) + 16 ≤ 268 * 1024)%nat → (length (concat chunks) ≤ 268 * 1024)%nat →
  Z.of_nat (total rest) + Z.of_nat (space (length (f_data root) + 16)) +
    Z.of_nat (space (length (concat chunks))) ≤ nblocks →
  ∃ st' root' g, add_file host ROOTINO arg st = MOk tt st' ∧
    fs_ok st' ((T_DIR, root') :: rest ++ [(T_FILE, g)]) ∧
    f_data root' = f_data root ++ entry (1 + Z.of_nat (length fs)) arg ∧
    f_data g = concat chunks ∧ meta_frame st st'.
Proof.
  intros fs Hfs Hlen Hslash Hhost Hroot Hsize Hsp.
  destruct (ialloc_ok st fs T_FILE Hfs Hlen) as (st1 & Hrun1 & Hfs1 & Hm1); [by right|].
  set (inum := 1 + Z.of_nat (length fs)) in *.
  assert (total (fs ++ [(T_FILE, empty_file)]) = total fs) as Et by (rewrite total_app; cbn; lia).
  assert (total fs = space (length (f_data root)) + total rest)%nat as Etr by done.
  destruct (append_ok st1 _ 0 T_DIR root (entry inum arg) Hfs1) as (st2 & root' & Hrun2 & Hfs2 & Hd2 & Hm2);
    [done|unfold entry; rewrite dirent_length; lia|unfold entry; rewrite dirent_length, Et; lia|].
  change (<[0%nat := (T_DIR, root')]> (fs ++ [(T_FILE, empty_file)])) with
    ((T_DIR, root') :: rest ++ [(T_FILE, empty_file)]) in Hfs2.
  assert (length (f_data root') = length (f_data root) + 16)%nat as Hl2.
  { rewrite Hd2, length_app. unfold entry. by rewrite dirent_length. }
  destruct (chunks_ok st2 _ (length fs) T_FILE empty_file chunks Hfs2) as (st3 & g & Hrun3 & Hfs3 & Hd3 & Hm3).
  { by apply (list_lookup_middle ((T_DIR, root') :: rest)). }
  { cbn [empty_file f_data length]. lia. }
  { change (total ((T_DIR, root') :: rest ++ [(T_FILE, empty_file)])) with
      (space (length (f_data root')) + total (rest ++ [(T_FILE, empty_file)]))%nat.
    rewrite total_app, Hl2. cbn [empty_file f_data length]. change (space 0) with 0%nat.
    change (total [(T_FILE, empty_file)]) with 0%nat. rewrite Nat.add_0_l. lia. }
  exists st3, root', g. split_and!; [| |done|done|by eapply meta_frame_trans, meta_frame_trans].
  - unfold add_file. unfold mbind at 1, M_bind at 1. unfold massert. rewrite bool_decide_true by done.
    rewrite Hhost. unfold mbind, M_bind. rewrite Hrun1.
    change (1 + Z.of_nat 0) with ROOTINO in Hrun2. unfold entry in Hrun2. rewrite Hrun2. exact Hrun3.
  - change (length fs) with (length ((T_DIR, root') :: rest)) in Hfs3.
    change ((T_DIR, root') :: rest ++ [(T_FILE, empty_file)]) with
      (((T_DIR, root') :: rest) ++ [(T_FILE, empty_file)]) in Hfs3.
    by rewrite insert_app_r_alt, Nat.sub_diag in Hfs3 by done.
Qed.

(** The entries of the files of [args], the first of which is inode [inum]. *)
Definition entries (inum : Z) (args : list (list Z)) : list Z :=
  concat (imap (λ k a, entry (inum + Z.of_nat k) a) args).

Lemma entries_cons inum a args : entries inum (a :: args) = entry inum a ++ entries (inum + 1) args.
Proof.
  unfold entries. cbn [imap concat]. f_equal; [by rewrite Z.add_0_r|]. f_equal. apply imap_ext.
  intros k x _. unfold compose. f_equal. lia.
Qed.

(** A file that can be copied. *)
Definition copyable (host : list Z → option (list (list Z))) (a : list Z) : Prop :=
  chr "/" ∉ short_name a ∧ ∃ chunks, host a = Some chunks ∧ (length (concat chunks) ≤ 268 * 1024)%nat.

(** The contents of a file of the host. *)
Definition contents (host : list Z → option (list (list Z))) (a : list Z) : list Z :=
  default [] (@concat Z <$> host a).

Definition file_spaces (host : list Z → option (list (list Z))) (args : list (list Z)) : nat :=
  sum_list (map (λ a, space (length (contents host a))) args).

Lemma files_ok host st root rest args :
  let fs := (T_DIR, root) :: rest in
  fs_ok st fs → Forall (copyable host) args → (length fs + length args ≤ 200)%nat →
  (length (f_data root) + 16 * length args ≤ 268 * 1024)%nat →
  Z.of_nat (total rest) + Z.of_nat (space (length (f_data root) + 16 * length args)) +
    Z.of_nat (file_spaces host args) ≤ nblocks →
  ∃ st' root' gs, mfor args (add_file host ROOTINO) st = MOk tt st' ∧
    fs_ok st' ((T_DIR, root') :: rest ++ gs) ∧
    f_data root' = f_data root ++ entries (1 + Z.of_nat (length fs)) args ∧
    (λ x, (x.1, f_data x.2)) <$> gs = (λ a, (T_FILE, contents host a)) <$> args ∧ meta_frame st st'.
Proof.
  intros fs Hfs Hargs. unfold fs in *. clear fs. revert st root rest Hfs.
  induction Hargs as [|a args [Hslash (chunks & Hhost & Hsize)] Hargs IH]; intros st root rest Hfs Hlen Hroot Hsp.
  { exists st, root, []. rewrite !app_nil_r. done. }
  cbn [length] in *. assert (contents host a = concat chunks) as Ec by (unfold contents; by rewrite Hhost).
  assert (file_spaces host (a :: args) = space (length (concat chunks)) + file_spaces host args)%nat as Es.
  { unfold file_spaces. cbn [map sum_list]. by rewrite Ec. }
  pose proof (space_mono (length (f_data root) + 16) (length (f_data root) + 16 * S (length args)) ltac:(lia)).
  destruct (add_file_ok host st root rest a chunks) as (st1 & root1 & g & Hrun & Hfs1 & Hd1 & Hg & Hm1);
    [done|cbn [length]; lia|done|done|lia|done|lia|].
  assert (length (f_data root1) = length (f_data root) + 16)%nat as Hl1.
  { rewrite Hd1, length_app. unfold entry. by rewrite dirent_length. }
  destruct (IH st1 root1 (rest ++ [(T_FILE, g)])) as (st' & root' & gs & Hrun' & Hfs' & Hd' & Hgs & Hm');
    [done|rewrite length_app; cbn [length]; lia|lia| |].
  { rewrite Hl1, total_app. change (total [(T_FILE, g)]) with (space (length (f_data g)) + 0)%nat. rewrite Hg, Nat.add_0_r.
    replace (length (f_data root) + 16 + 16 * length args)%nat with
      (length (f_data root) + 16 * S (length args))%nat by lia. lia. }
  exists st', root', ((T_FILE, g) :: gs). rewrite <-app_assoc in Hfs'. cbn [app] in Hfs'.
  split_and!; [|done| | |by eapply meta_frame_trans].
  - cbn [mfor]. unfold mbind, M_bind. by rewrite Hrun.
  - rewrite Hd', Hd1, entries_cons, <-app_assoc. do 2 f_equal. rewrite length_app. cbn [length]. f_equal. lia.
  - cbn [fmap list_fmap fst snd]. rewrite Hg, Ec. by f_equal.
Qed.

(** ** What the kernel reads *)

(** The inode as [ilock] reads it, with the superblock as [readsb] does. *)
Definition inode_of (img : Z → list Z) (inum : Z) : inode :=
  read_dinode (img (IBLOCK inum (superblock_of (img 1)))) (dinode_off inum)
    (mkInode ROOTDEV inum 1 false 0 0 0 0 0 []).

(** The block of the file at index [bn], where [bmap] looks for it. *)
Definition addr_of (img : Z → list Z) (ip : inode) (bn : Z) : Z :=
  if bn <? NDIRECT then default 0 (i_addrs ip !! Z.to_nat bn)
  else get32 (img (default 0 (i_addrs ip !! Z.to_nat NDIRECT))) (4 * (bn - NDIRECT)).

(** The byte of the file at offset [off], where [readi] looks for it. *)
Definition byte_of (img : Z → list Z) (ip : inode) (off : Z) : option Z :=
  img (addr_of img ip (off / BSIZE)) !! Z.to_nat (off mod BSIZE).

Lemma get_le_part n data off k len :
  0 ≤ off → 0 ≤ k → (Z.to_nat k + n ≤ len)%nat →
  get_le n data (off + k) = get_le n (slice data off len) k.
Proof.
  intros Ho Hk Hl. unfold get_le, slice. f_equal. rewrite Z2Nat.inj_add, <-drop_drop by done.
  rewrite skipn_firstn_comm, take_take. f_equal. lia.
Qed.

Lemma get_le_header n din ty size k :
  fields din = header ty size → 0 ≤ k → (Z.to_nat k + n ≤ 12)%nat → get_le n din k = get_le n (header ty size) k.
Proof.
  intros H Hk Hl. rewrite <-H. unfold fields. rewrite <-(Z.add_0_l k) at 1. by apply get_le_part.
Qed.

Lemma inode_of_fields img inum ty size :
  superblock_of (img 1) = sb → is_inum inum → ty = T_DIR ∨ ty = T_FILE → 0 ≤ size < 2 ^ 32 →
  fields (dinode_at img inum) = header ty size →
  let ip := inode_of img inum in
  i_type ip = ty ∧ i_nlink ip = 1 ∧ i_size ip = size ∧
  ∀ i, 0 ≤ i ≤ NDIRECT → default 0 (i_addrs ip !! Z.to_nat i) = get32 (dinode_at img inum) (din_addr i).
Proof.
  intros Hsb Hi Hty Hs Hf ip. unfold ip, inode_of. rewrite Hsb.
  destruct (inode_place inum Hi) as (_ & _ & Ho & Hm). set (off := dinode_off inum) in *.
  set (data := img (IBLOCK inum sb)) in *.
  assert (∀ n k, 0 ≤ k → (Z.to_nat k + n ≤ 64)%nat → get_le n data (off + k) = get_le n (dinode_at img inum) k) as Hget.
  { intros n k Hk Hl. apply get_le_part; [lia|done|done]. }
  assert (∀ n k, 0 ≤ k → (Z.to_nat k + n ≤ 12)%nat → get_le n data (off + k) = get_le n (header ty size) k) as Hgeth.
  { intros n k Hk Hl. rewrite Hget by lia. by apply get_le_header. }
  unfold read_dinode. cbn [i_type i_nlink i_size i_addrs]. split_and!.
  - rewrite <-(Z.add_0_r off). unfold get16. rewrite Hgeth by lia. by destruct Hty as [-> | ->].
  - unfold get16. rewrite Hgeth by lia. done.
  - unfold get32. rewrite Hgeth by lia. unfold get_le, header. apply (of_le_le 4). cbn. lia.
  - intros i Hi'. unfold NDIRECT in *. rewrite list_lookup_fmap, lookup_seqZ_lt by lia. cbn [fmap option_fmap option_map default id].
    unfold get32. rewrite <-Z.add_assoc. rewrite Hget by (unfold dinode_addrs; lia). f_equal. unfold din_addr, dinode_addrs. lia.
Qed.

(** The inode and the blocks of a file are in the image. *)
Record placed (img : Z → list Z) (inum ty size : Z) (f : mfile) : Prop := {
  pl_inum : is_inum inum;
  pl_type : ty = T_DIR ∨ ty = T_FILE;
  pl_size : 0 ≤ size < 2 ^ 32;
  pl_fields : fields (dinode_at img inum) = header ty size;
  pl_holds : holds img (dinode_at img inum) f;
  pl_tidy : tidy f;
}.

Lemma placed_addr img inum ty size f k :
  superblock_of (img 1) = sb → placed img inum ty size f → (k < length (f_data f))%nat →
  f_blocks f !! (k / 1024)%nat = Some (addr_of img (inode_of img inum) (Z.of_nat k / BSIZE)).
Proof.
  intros Hsb [Hi Hty Hs Hf Hh Htidy] Hk. destruct (inode_of_fields img inum ty size) as (_ & _ & _ & Ha); [done..|].
  destruct (lookup_lt_is_Some_2 _ _ Hk) as [c Hc]. destruct (h_data _ _ _ Hh k c Hc) as (b & Hb & _).
  pose proof (lookup_lt_Some _ _ _ Hb) as Hlt. pose proof (h_max _ _ _ Hh) as Hmax. rewrite Hb. f_equal.
  assert (Z.of_nat k / BSIZE = Z.of_nat (k / 1024)) as -> by (by rewrite Nat2Z.inj_div).
  assert (nth_block f (Z.of_nat (k / 1024)) = b) as En by (unfold nth_block; by rewrite Nat2Z.id, Hb).
  unfold addr_of. destruct (Z.ltb_spec (Z.of_nat (k / 1024)) NDIRECT) as [Hd|Hd].
  - rewrite Ha, (h_direct _ _ _ Hh) by lia. done.
  - rewrite Ha, (h_ind _ _ _ Hh) by (unfold NDIRECT; lia).
    rewrite (h_indirect _ _ _ Hh); [done| |unfold MAXFILE, NINDIRECT, NDIRECT in *; lia].
    unfold tidy in Htidy. rewrite Htidy. unfold NDIRECT in Hd. lia.
Qed.

(** A file is read back. *)
Lemma placed_byte img inum ty size f k c :
  superblock_of (img 1) = sb → placed img inum ty size f → f_data f !! k = Some c →
  byte_of img (inode_of img inum) (Z.of_nat k) = Some c.
Proof.
  intros Hsb Hp Hk. destruct (h_data _ _ _ (pl_holds _ _ _ _ _ Hp) k c Hk) as (b & Hb & Hc).
  pose proof (placed_addr img inum ty size f k Hsb Hp (lookup_lt_Some _ _ _ Hk)) as Ha.
  rewrite Hb in Ha. injection Ha as ->. unfold byte_of.
  assert (Z.of_nat k mod BSIZE = Z.of_nat (k mod 1024)) as -> by (by rewrite Nat2Z.inj_mod).
  by rewrite Nat2Z.id.
Qed.

(** ** The start: the empty image *)

Notation zeroes := (replicate (Z.to_nat BSIZE) 0).

Lemma zero_loop n :
  (n ≤ 2000)%nat → ∃ st, mfor (seqZ 0 (Z.of_nat n)) (λ i, wsect i zeroes) mkfs_start = MOk tt st ∧
    m_size st = Z.of_nat n ∧ m_freeinode st = 1 ∧ m_freeblock st = nmeta ∧
    ∀ b, 0 ≤ b < Z.of_nat n → m_img st b = zeroes.
Proof.
  induction n as [|n IH]; intros Hn; [exists mkfs_start; split_and!; [done..|lia]|].
  destruct IH as (st & Hrun & H1 & H2 & H3 & H4); [lia|].
  replace (Z.of_nat (S n)) with (Z.of_nat n + 1) by lia. rewrite seqZ_app, Z.add_0_l by lia.
  rewrite (mfor_app _ _ _ _ st) by done. change (seqZ (Z.of_nat n) 1) with [Z.of_nat 0 + Z.of_nat n].
  rewrite Z.add_0_l. cbn [mfor]. unfold mbind, M_bind, wsect. rewrite sector_small by (unfold FSSIZE; lia).
  eexists. split; [done|]. cbn [m_size m_freeinode m_freeblock m_img]. split_and!; [lia|done..|].
  intros b Hb. destruct (decide (b = Z.of_nat n)) as [->|Hne]; [by rewrite fn_lookup_insert|].
  rewrite fn_lookup_insert_ne by done. apply H4. lia.
Qed.

Definition super_block : list Z := splice zeroes 0 sb_bytes.

Lemma super_block_read : superblock_of super_block = sb ∧ length super_block = Z.to_nat BSIZE.
Proof. split; vm_compute; reflexivity. Qed.

(** The part of [make_image] before the files. *)
Definition start_image : M Z :=
  massert (BSIZE mod sizeof_dinode =? 0) ;;
  massert (BSIZE mod sizeof_dirent =? 0) ;;
  mfor (seqZ 0 FSSIZE) (λ i, wsect i zeroes) ;;
  wsect 1 super_block ;;
  rootino ← ialloc T_DIR;
  massert (rootino =? ROOTINO) ;;
  iappend rootino (dirent rootino (bytes ".")) ;;
  iappend rootino (dirent rootino (bytes "..")) ;;
  mret rootino.

(** The directory before the files are copied. *)
Definition dots : list Z := dirent ROOTINO (bytes ".") ++ dirent ROOTINO (bytes "..").

Lemma empty_image : ∃ st,
  (massert (BSIZE mod sizeof_dinode =? 0) ;; massert (BSIZE mod sizeof_dirent =? 0) ;;
   mfor (seqZ 0 FSSIZE) (λ i, wsect i zeroes) ;; wsect 1 super_block) mkfs_start = MOk tt st ∧
  fs_ok st [] ∧ m_img st 1 = super_block.
Proof.
  destruct (zero_loop 2000) as (st & Hrun & H1 & H2 & H3 & H4); [lia|].
  change (Z.of_nat 2000) with FSSIZE in *.
  assert (image_ok st) as Hst.
  { split; [done| | |].
    - intros b Hb. rewrite H4 by done. apply length_replicate.
    - rewrite H3, nmeta_val. unfold FSSIZE. lia.
    - intros b Hb. apply H4. rewrite H3, nmeta_val in Hb. lia. }
  exists (with_block 1 super_block st). split_and!.
  - unfold massert. change (BSIZE mod sizeof_dinode =? 0) with true. change (BSIZE mod sizeof_dirent =? 0) with true.
    unfold mbind, M_bind. rewrite Hrun. apply wsect_ok; [done|unfold FSSIZE; lia].
  - split; [|done|cbn; lia|done|constructor|done].
    apply image_ok_write; [done|rewrite H3, nmeta_val; lia|apply super_block_read].
  - apply fn_lookup_insert.
Qed.

Lemma root_image : ∃ st root,
  start_image mkfs_start = MOk ROOTINO st ∧ fs_ok st [(T_DIR, root)] ∧ f_data root = dots ∧
  m_img st 1 = super_block.
Proof.
  destruct empty_image as (st0 & Hrun0 & Hfs0 & Hsb).
  destruct (ialloc_ok st0 [] T_DIR Hfs0) as (st1 & Hrun1 & Hfs1 & Hm1); [cbn; lia|by left|].
  destruct (append_ok st1 _ 0 T_DIR empty_file (dirent ROOTINO (bytes ".")) Hfs1)
    as (st2 & r2 & Hrun2 & Hfs2 & Hd2 & Hm2); [done|rewrite dirent_length; cbn [empty_file f_data length]; lia|done|].
  change (<[0%nat := (T_DIR, r2)]> ([] ++ [(T_DIR, empty_file)])) with [(T_DIR, r2)] in Hfs2.
  cbn [empty_file f_data app] in Hd2.
  destruct (append_ok st2 _ 0 T_DIR r2 (dirent ROOTINO (bytes "..")) Hfs2)
    as (st3 & r3 & Hrun3 & Hfs3 & Hd3 & Hm3); [done|rewrite Hd2, !dirent_length; lia| |].
  { unfold total. cbn [map sum_list fst snd]. rewrite Hd2, !dirent_length. vm_compute. discriminate. }
  exists st3, r3. split_and!; [|done|by rewrite Hd3, Hd2|].
  - unfold start_image. revert Hrun0. unfold mbind, M_bind.
    destruct (massert (BSIZE mod sizeof_dinode =? 0) mkfs_start) as [[] s1| | |]; [|done..].
    destruct (massert (BSIZE mod sizeof_dirent =? 0) s1) as [[] s2| | |]; [|done..].
    destruct (mfor (seqZ 0 FSSIZE) (λ i, wsect i zeroes) s2) as [[] s3| | |]; [|done..]. intros ->.
    change (1 + Z.of_nat (length [])) with ROOTINO in Hrun1. rewrite Hrun1.
    change (1 + Z.of_nat 0) with ROOTINO in Hrun2, Hrun3. cbn [massert Z.eqb ROOTINO Pos.eqb].
    change (massert (ROOTINO =? ROOTINO) st1) with (MOk tt st1). cbv iota beta. by rewrite Hrun2, Hrun3.
  - rewrite Hm3, Hm2, Hm1 by lia. done.
Qed.

(** ** The end: the size of the directory, and the free map *)

Lemma mark_used_spec n :
  Z.of_nat n ≤ 8192 → length (mark_used (Z.of_nat n)) = Z.to_nat BSIZE ∧
  ∀ b, 0 ≤ b < 8192 → bit_used (mark_used (Z.of_nat n)) b = (b <? Z.of_nat n).
Proof.
  unfold mark_used. induction n as [|n IH]; intros Hn.
  - split; [apply length_replicate|]. intros b Hb. rewrite (proj2 (Z.ltb_ge _ _)) by lia. cbn [seqZ Z.to_nat fmap seq foldl].
    unfold bit_used, bitmap_byte. destruct (_ !! _) as [x|] eqn:E; [|done].
    apply lookup_replicate in E as [-> _]. done.
  - destruct IH as [IH1 IH2]; [lia|]. replace (Z.of_nat (S n)) with (Z.of_nat n + 1) by lia.
    rewrite seqZ_app, Z.add_0_l by lia. rewrite foldl_app. set (m := foldl _ _ (seqZ 0 (Z.of_nat n))) in *.
    change (seqZ (Z.of_nat n) 1) with [Z.of_nat 0 + Z.of_nat n]. rewrite Z.add_0_l. cbn [foldl].
    split; [unfold set_bit; by rewrite length_insert|]. intros b Hb.
    rewrite bit_used_set, IH2 by (done || lia || (rewrite IH1; change (Z.to_nat BSIZE) with 1024%nat;
      pose proof (Z.div_lt_upper_bound (Z.of_nat n) 8 1024 ltac:(lia) ltac:(lia)); lia)).
    destruct (Z.eqb_spec b (Z.of_nat n)), (Z.ltb_spec b (Z.of_nat n)), (Z.ltb_spec b (Z.of_nat n + 1)); done || lia.
Qed.

(** The part of [make_image] after the files. *)
Definition finish_image (rootino : Z) : M unit :=
  din ← rinode rootino;
  let off := u32 ((xint (get32 din 8) / BSIZE + 1) * BSIZE) in
  winode rootino (put32 din 8 (xint off)) ;;
  st ← (λ st, MOk st st);
  balloc (m_freeblock st).

Lemma make_image_parts host args st :
  make_image host args st =
    (rootino ← start_image; mfor args (add_file host rootino) ;; finish_image rootino) st.
Proof.
  unfold make_image, start_image, finish_image, mbind, M_bind, mret, M_ret. fold super_block.
  repeat match goal with
  | |- context [match ?m with MOk _ _ => _ | MDie _ => _ | MAssert => _ | MUnfinished => _ end] =>
      destruct m as [? ?| | |]; [|done..]
  end. done.
Qed.

(** The size of the directory. *)
Definition rounded (n : nat) : Z := (Z.of_nat n / BSIZE + 1) * BSIZE.

Lemma finish_image_ok st root gs :
  let fs := (T_DIR, root) :: gs in
  fs_ok st fs → (∀ x, x ∈ fs → x.1 = T_DIR ∨ x.1 = T_FILE) → m_img st 1 = super_block →
  ∃ st', finish_image ROOTINO st = MOk tt st' ∧ m_img st' 1 = super_block ∧
    m_freeblock st' = m_freeblock st ∧ m_img st' 45 = mark_used (m_freeblock st) ∧
    placed (m_img st') ROOTINO T_DIR (rounded (length (f_data root))) root ∧
    ∀ i ty f, gs !! i = Some (ty, f) →
      placed (m_img st') (2 + Z.of_nat i) ty (Z.of_nat (length (f_data f))) f.
Proof.
  intros fs Hfs Hty Hsb. pose proof (fo_image _ _ Hfs) as Hst. pose proof (io_free _ Hst) as Hfb.
  rewrite nmeta_val in Hfb. unfold FSSIZE in Hfb.
  pose proof (fo_file _ _ Hfs 0%nat T_DIR root eq_refl) as Hroot. change (1 + Z.of_nat 0) with ROOTINO in Hroot.
  pose proof (fl_holds _ _ _ _ Hroot) as Hh. pose proof (h_fits _ _ _ Hh). pose proof (h_max _ _ _ Hh).
  set (din := dinode_at (m_img st) ROOTINO) in *. set (off := rounded (length (f_data root))).
  assert (0 ≤ off < 2 ^ 32) as Hoff.
  { unfold off, rounded, BSIZE. pose proof (Z.div_pos (Z.of_nat (length (f_data root))) 1024 ltac:(lia) ltac:(lia)).
    pose proof (Z.mul_div_le (Z.of_nat (length (f_data root))) 1024 ltac:(lia)). lia. }
  assert (is_inum ROOTINO) as Hr by (unfold is_inum, ROOTINO; lia).
  destruct (fields_size din T_DIR (Z.of_nat (length (f_data root))) off) as (_ & E2 & E3 & E4);
    [apply Hh|done|apply Hroot|].
  set (st1 := with_inode ROOTINO (put32 din 8 off) st).
  assert (image_ok st1) as Hst1 by (by apply with_inode_image).
  set (st2 := with_block 45 (mark_used (m_freeblock st)) st1). exists st2.
  assert (∀ b, 46 ≤ b ∨ b = 1 → m_img st2 b = m_img st b) as Hframe.
  { intros b Hb. cbn [st2 with_block m_img]. rewrite fn_lookup_insert_ne by lia. apply with_inode_other; [done|lia]. }
  assert (∀ j, is_inum j → dinode_at (m_img st2) j = if decide (ROOTINO = j) then put32 din 8 off else dinode_at (m_img st) j) as Hdin.
  { intros j Hj. rewrite <-with_inode_at by done. unfold dinode_at. cbn [st2 with_block m_img].
    rewrite fn_lookup_insert_ne; [done|]. pose proof (inode_place j Hj). lia. }
  assert (∀ f, inside st f → ∀ b, b ∈ owned f → m_img st2 b = m_img st b) as Hown.
  { intros f Hf b Hb. apply Hframe. pose proof (inside_range st f b Hst Hf Hb). lia. }
  split_and!; [|rewrite Hframe by lia; done|done|apply fn_lookup_insert| |].
  - unfold finish_image, mbind, M_bind. rewrite rinode_ok by done. fold din.
    rewrite (header_size din T_DIR (Z.of_nat (length (f_data root)))) by (apply Hroot || lia).
    rewrite (xint_small (Z.of_nat _)) by lia. fold (rounded (length (f_data root))). fold off.
    rewrite (u32_small off), (xint_small off) by done. rewrite winode_ok by done. fold st1. unfold balloc, mbind, M_bind, massert.
    change (m_freeblock st1) with (m_freeblock st). rewrite (proj2 (Z.ltb_lt _ _)) by (unfold BSIZE; lia).
    apply wsect_ok; [done|]. change (sb_bmapstart sb) with 45. unfold FSSIZE. lia.
  - split; [done|by left|done| | |apply Hroot]; rewrite Hdin, decide_True by done; [done|].
    eapply (holds_inode _ din); [|done..]. eapply holds_frame; [exact Hh|]. apply Hown, Hroot.
  - intros i ty f Hi. pose proof (lookup_lt_Some _ _ _ Hi). pose proof (fo_max _ _ Hfs) as Hmax. cbn [length fs] in Hmax.
    assert (is_inum (2 + Z.of_nat i)) as Hinum by (unfold is_inum; lia).
    pose proof (fo_file _ _ Hfs (S i) ty f Hi) as Hf. replace (1 + Z.of_nat (S i)) with (2 + Z.of_nat i) in Hf by lia.
    pose proof (h_fits _ _ _ (fl_holds _ _ _ _ Hf)). pose proof (h_max _ _ _ (fl_holds _ _ _ _ Hf)).
    split; [done| |lia| | |apply Hf]; rewrite ?Hdin, ?decide_False by (done || unfold ROOTINO; lia).
    + apply (Hty (ty, f)). right. by eapply list_elem_of_lookup_2.
    + apply Hf.
    + eapply holds_frame; [apply Hf|]. apply Hown, Hf.
Qed.

(** The contents of the inode [inum] of the image for the files [args]. *)
Definition expected (host : list Z → option (list (list Z))) (args : list (list Z)) (inum : Z) : list Z :=
  if inum =? ROOTINO then dots ++ entries 2 args
  else contents host (default [] (args !! Z.to_nat (inum - 2))).
Definition expected_type (inum : Z) : Z := if inum =? ROOTINO then T_DIR else T_FILE.
Definition expected_size (inum : Z) (data : list Z) : Z :=
  if inum =? ROOTINO then rounded (length data) else Z.of_nat (length data).

Lemma file_lookup host (gs : list (Z * mfile)) args :
  (λ x, (x.1, f_data x.2)) <$> gs = (λ a, (T_FILE, contents host a)) <$> args →
  ∀ i ty f, gs !! i = Some (ty, f) → ∃ a, args !! i = Some a ∧ ty = T_FILE ∧ f_data f = contents host a.
Proof.
  intros Hgs i ty f Hi. apply (f_equal (lookup i)) in Hgs. rewrite !list_lookup_fmap, Hi in Hgs.
  destruct (args !! i) as [a|]; [|done]. injection Hgs as -> ->. by exists a.
Qed.

(** All of the run, with the files and their blocks. *)
Lemma make_image_ok host args :
  Forall (copyable host) args → (length args ≤ 198)%nat →
  Z.of_nat (file_spaces host args) + Z.of_nat (space (16 * (2 + length args))) ≤ nblocks →
  ∃ st fs, make_image host args mkfs_start = MOk tt st ∧ m_img st 1 = super_block ∧
    m_img st 45 = mark_used (m_freeblock st) ∧ nmeta ≤ m_freeblock st ≤ FSSIZE ∧
    NoDup (all_owned fs) ∧ (∀ b, b ∈ all_owned fs → b < m_freeblock st) ∧
    ∀ inum, 1 ≤ inum < 2 + Z.of_nat (length args) → ∃ f,
      fs !! Z.to_nat (inum - 1) = Some (expected_type inum, f) ∧ f_data f = expected host args inum ∧
      placed (m_img st) inum (expected_type inum) (expected_size inum (f_data f)) f.
Proof.
  intros Hargs Hlen Hsp. destruct root_image as (st1 & root & Hrun1 & Hfs1 & Hd1 & Hsb1).
  assert (length (f_data root) = 32%nat) as Hl1 by (rewrite Hd1; unfold dots; by rewrite length_app, !dirent_length).
  destruct (files_ok host st1 root [] args) as (st2 & root' & gs & Hrun2 & Hfs2 & Hd2 & Hgs & Hm2);
    [done|done|cbn [length]; lia|lia| |].
  { rewrite Hl1. replace (32 + 16 * length args)%nat with (16 * (2 + length args))%nat by lia. cbn [total map sum_list]. lia. }
  cbn [app length] in Hfs2, Hd2.
  pose proof (file_lookup host gs args Hgs) as Hgs1.
  assert (length gs = length args) as Hlg by (apply (f_equal length) in Hgs; rewrite !length_fmap in Hgs; exact Hgs).
  destruct (finish_image_ok st2 root' gs) as (st3 & Hrun3 & Hsb3 & Hfb & Hmap & Hroot & Hfiles); [done| | |].
  { intros [ty f] [[= -> ->]|[i Hi]%list_elem_of_lookup_1]%elem_of_cons; [by left|]. right.
    by destruct (Hgs1 i ty f Hi) as (_ & _ & -> & _). }
  { by rewrite Hm2 by lia. }
  exists st3, ((T_DIR, root') :: gs). rewrite Hfb. split_and!; [|done|done|apply Hfs2|apply Hfs2|apply Hfs2| |].
  - rewrite make_image_parts. unfold mbind, M_bind. by rewrite Hrun1, Hrun2.
  - intros b Hb. by apply (fs_ok_below st2 ((T_DIR, root') :: gs) b).
  - intros inum Hi. unfold expected_type, expected_size, expected. destruct (Z.eqb_spec inum ROOTINO) as [->|Hne].
    + exists root'. rewrite Hd2, Hd1. split; [done|]. split; [done|]. rewrite <-Hd1, <-Hd2. done.
    + unfold ROOTINO in Hne. destruct (lookup_lt_is_Some_2 gs (Z.to_nat (inum - 2)) ltac:(lia)) as [[ty f] Hf].
      destruct (Hgs1 _ _ _ Hf) as (a & Ha & -> & Hd). exists f.
      replace (Z.to_nat (inum - 1)) with (S (Z.to_nat (inum - 2))) by lia. split; [done|]. rewrite Ha. split; [done|].
      specialize (Hfiles _ _ _ Hf). replace (2 + Z.of_nat (Z.to_nat (inum - 2))) with inum in Hfiles by lia. done.
Qed.

(** C27: The image that [mkfs] makes is one that the kernel reads back.  For any files whose
    names have no slash after the directory [user/], that are not too large, and that
    fit in the image together with the directory, the program finishes, and then
    the superblock has the layout that the program used; the inode of every file, read
    as [ilock] reads it, has the type, the link count and the size of the file, and
    its bytes are found where [bmap] and [readi] look for them; the same holds of the root
    directory, whose contents are the entries of the files; no two places of files
    share a block; and the free map marks exactly the blocks up to the last one
    that was allocated, the blocks of the files among them. *)
Theorem mkfs_image_readable host prog image args :
  Forall (copyable host) args → (length args ≤ 198)%nat →
  Z.of_nat (file_spaces host args) + Z.of_nat (space (16 * (2 + length args))) ≤ nblocks →
  ∃ st, mkfs_main host (prog :: image :: args) mkfs_start = MOk tt st ∧
  let img := m_img st in
  let data := expected host args in
  superblock_of (img 1) = sb ∧
  (∀ inum, 1 ≤ inum < 2 + Z.of_nat (length args) →
     let ip := inode_of img inum in
     i_type ip = expected_type inum ∧ i_nlink ip = 1 ∧
     i_size ip = expected_size inum (data inum) ∧
     ∀ k c, data inum !! k = Some c →
       byte_of img ip (Z.of_nat k) = Some c ∧ addr_of img ip (Z.of_nat k / BSIZE) < m_freeblock st) ∧
  (∀ inum inum' k k', 1 ≤ inum < 2 + Z.of_nat (length args) → 1 ≤ inum' < 2 + Z.of_nat (length args) →
     (k < length (data inum))%nat → (k' < length (data inum'))%nat →
     addr_of img (inode_of img inum) (Z.of_nat k / BSIZE) = addr_of img (inode_of img inum') (Z.of_nat k' / BSIZE) →
     inum = inum' ∧ (k / 1024 = k' / 1024)%nat) ∧
  ∀ b, 0 ≤ b < FSSIZE → used sb img b = (b <? m_freeblock st).
Proof.
  intros Hargs Hlen Hsp. destruct (make_image_ok host args Hargs Hlen Hsp)
    as (st & fs & Hrun & Hsb & Hmap & Hfb & Hnd & Hbelow & Hfiles).
  exists st. split; [done|]. cbv zeta. assert (superblock_of (m_img st 1) = sb) as Hsb'.
  { rewrite Hsb. apply super_block_read. }
  split; [done|]. split_and!.
  - intros inum Hi. destruct (Hfiles inum Hi) as (f & Hf & <- & Hp).
    destruct (inode_of_fields (m_img st) inum (expected_type inum) (expected_size inum (f_data f)))
      as (E1 & E2 & E3 & _); [done|apply Hp..|]. split_and!; [done..|].
    intros k c Hk. split; [by eapply placed_byte|]. apply Hbelow. eapply all_owned_elem; [exact Hf|].
    eapply block_owned, placed_addr; [done|exact Hp|by eapply lookup_lt_Some].
  - intros inum inum' k k' Hi Hi'. destruct (Hfiles inum Hi) as (f & Hf & <- & Hp).
    destruct (Hfiles inum' Hi') as (f' & Hf' & <- & Hp'). intros Hk Hk' E.
    pose proof (placed_addr _ _ _ _ _ _ Hsb' Hp Hk) as Ha. pose proof (placed_addr _ _ _ _ _ _ Hsb' Hp' Hk') as Ha'.
    rewrite <-E in Ha'. destruct (decide (Z.to_nat (inum - 1) = Z.to_nat (inum' - 1))) as [En|En].
    + rewrite En, Hf' in Hf. injection Hf as _ ->. split; [lia|].
      pose proof (h_nodup _ _ _ (pl_holds _ _ _ _ _ Hp)) as Hno. apply list.NoDup_app in Hno as (Hno & _).
      by eapply NoDup_lookup.
    + exfalso. eapply (apart fs _ _ _ _ _ _ _ Hnd Hf Hf' En); by eapply block_owned.
  - intros b Hb. unfold FSSIZE in *. rewrite nmeta_val in Hfb. unfold used, BBLOCK. change (sb_bmapstart sb) with 45. change BPB with 8192.
    rewrite Z.div_small, Z.mod_small, Z.add_0_l by lia. change (u32 45) with 45. rewrite Hmap.
    rewrite <-(Z2Nat.id (m_freeblock st)) by lia. apply mark_used_spec; lia.
Qed.

Lemma mkfs_image_readable_witness : ∃ st,
  mkfs_main (λ _, Some [bytes "he"; bytes "llo"]) (map bytes ["mkfs"; "fs.img"; "user/_cat"; "README"]) mkfs_start = MOk tt st ∧
  byte_of (m_img st) (inode_of (m_img st) 3) 4 = Some (chr "o") ∧
  byte_of (m_img st) (inode_of (m_img st) ROOTINO) 34 = Some (chr "c").
Proof.
  destruct (mkfs_image_readable (λ _, Some [bytes "he"; bytes "llo"]) (bytes "mkfs") (bytes "fs.img")
    (map bytes ["user/_cat"; "README"])) as (st & Hrun & _ & Hf & _).
  - cbn [map]. apply Forall_cons_2; [|apply Forall_cons_2; [|apply Forall_nil_2]].
    all: split; [by apply (bool_decide_unpack _)|].
    all: exists [bytes "he"; bytes "llo"]; split; [reflexivity|].
    all: apply Nat2Z.inj_le; rewrite Nat2Z.inj_mul; cbn; lia.
  - cbn. lia.
  - vm_compute. discriminate.
  - exists st. split; [exact Hrun|]. split.
    + destruct (Hf 3) as (_ & _ & _ & Hb); [cbn; lia|]. by apply (Hb 4%nat).
    + destruct (Hf ROOTINO) as (_ & _ & _ & Hb); [unfold ROOTINO; cbn; lia|]. by apply (Hb 34%nat).
Defined.

(** ** Termination *)

Definition settles {A} (m : M A) : Prop := ∀ st, m st ≠ MUnfinished.

Lemma settles_bind {A B} (m : M A) (f : A → M B) : settles m → (∀ a, settles (f a)) → settles (m ≫= f).
Proof.
  intros Hm Hf st. specialize (Hm st). unfold mbind, M_bind. destruct (m st) as [a st'| | |]; try done. apply Hf.
Qed.

Lemma settles_massert b {A} (m : M A) : (b = true → settles m) → settles (massert b ;; m).
Proof. intros Hm st. unfold mbind, M_bind, massert. destruct b; [by apply Hm|done]. Qed.

Lemma settles_mfor {A} (l : list A) (body : A → M unit) : (∀ x, settles (body x)) → settles (mfor l body).
Proof. intros Hb. induction l as [|x l IH]; [done|]. by apply settles_bind. Qed.

Lemma settles_rsect sec : settles (rsect sec).
Proof. intros st. unfold rsect. by destruct (_ <? _). Qed.

Create HintDb settles discriminated.
#[local] Hint Resolve settles_rsect : settles.
Ltac settles := repeat match goal with
  | |- settles (massert _ ;; _) => apply settles_massert; intros ?
  | |- settles (_ ≫= _) => apply settles_bind; [|intros ?]
  | |- settles (mfor _ _) => apply settles_mfor; intros ?
  | |- settles (if ?b then _ else _) => destruct b
  | |- settles (match ?x with _ => _ end) => destruct x
  | |- settles (let x := _ in _) => cbv zeta
  | |- settles _ => first [solve [auto with settles nocore] | done]
  end.

Lemma settles_winode inum ip : settles (winode inum ip).
Proof. unfold winode. settles. Qed.
Lemma settles_rinode inum : settles (rinode inum).
Proof. unfold rinode. settles. Qed.
Lemma settles_file_block din fbn : settles (file_block din fbn).
Proof. unfold file_block. settles. Qed.
#[local] Hint Resolve settles_winode settles_rinode settles_file_block : settles.

(** Every turn takes at least one byte, since a block never ends at the offset. *)
Lemma settles_iappend_loop fuel din off p :
  0 ≤ off → (length p ≤ fuel)%nat → settles (iappend_loop fuel din off p).
Proof.
  revert din off p. induction fuel as [|fuel IH]; intros din off [|c p] Hoff Hlen; cbn [length] in Hlen; try done; [lia|].
  cbn [iappend_loop]. cbv zeta. settles. apply IH; [apply u32_range|].
  rewrite length_drop. cbn [length]. unfold BSIZE in *.
  pose proof (Z.mul_succ_div_gt off 1024 ltac:(lia)). lia.
Qed.

Lemma settles_iappend inum p : settles (iappend inum p).
Proof.
  unfold iappend. settles. apply settles_iappend_loop; [|done]. apply of_le_range, le_bytes.
Qed.
Lemma settles_ialloc type : settles (ialloc type).
Proof. unfold ialloc. settles. Qed.
Lemma settles_add_file host rootino arg : settles (add_file host rootino arg).
Proof. pose proof settles_iappend. pose proof settles_ialloc. unfold add_file. settles. Qed.
#[local] Hint Resolve settles_iappend settles_ialloc settles_add_file : settles.

Lemma settles_main host argv : settles (mkfs_main host argv).
Proof. unfold mkfs_main, make_image, balloc. settles. Qed.

(** C39: [mkfs] terminates whatever its arguments and the files are: it makes an image, gives up with
    a message, or stops at an assertion.  The number of bytes bounds the
    turns of the loop of [iappend]. *)
Theorem mkfs_terminates host argv st : mkfs_main host argv st ≠ MUnfinished.
Proof. apply settles_main. Qed.
